(* ===== verification/_CoqProject ===== *)
-Q . S2P
Prelude.v
World.v
Util.v
Table.v
InodeOps.v
FileOps.v
DirectoryOps.v
DirectorySpec.v
Nodes.v
Handlers.v
CkptRestore.v
Codec.v
Pickle.v
Requests.v
Invariant.v
Runs.v
Types.v
Replies.v
Specs.v
Errors.v
Removal.v
Attributes.v
Memory.v
PickleSpec.v
Returns.v
Ranges.v
StateFiles.v
Links.v
LinkRuns.v
Safety.v
Listing.v
Locks.v
LockOps.v
LockSpec.v
Options.v
OptionsSpec.v
Clients.v
Dumps.v
Testops.v
Samples.v
Witnesses.v
SampleClients.v
SampleTrees.v
SampleLocks.v
SampleStates.v
Findings.v
