(* ===== verification/Prelude.v ===== *)
(** * A verification of VeriFS2

    VeriFS2 is a file system in memory behind libfuse (C++, under [src/src]). Its
    requests work on a table of inode objects; two [ioctl] requests store and
    restore the whole state under a key (checkpoint and restore), two more write
    it to a file and read it back (pickle and load). A main program parses the
    command line and mounts the file system; four small programs send the [ioctl]
    requests. This library is a model of that code as functions of Rocq, and
    proofs about them.

    ** How the program is modelled

    A handler is a computation of the monad [World.M]: a function of the
    environment of one request (clock, allocator, random numbers, caller) and of
    the world, which ends with a result and a new world or in a crash (null or
    dangling pointer, access outside a block, failed assertion, [exit]). The
    world holds the static members of [FuseRamFs] and [Directory], the
    checkpoint pool, the heap blocks of extended attributes, and what was sent to
    the kernel. Integers are [Z] with the wrap-around of the C types written out
    ([u64], [s64], [u32], [s32]); buffers are lists of bytes whose accesses are
    checked and whose fresh memory has arbitrary content. An object is reached
    by its number in the table, as a pointer is; copies of an inode share the
    blocks of its extended attributes, as in the program.

    ** Files

    - [Prelude]: notation, tactics, integers, memory blocks, sorted maps.
    - [World]: the data ([inode.hpp], [file.hpp], [directory.hpp],
      [symlink.hpp], [special_inode.hpp], [cr_util.hpp]) and the monad.
    - [Util]: [round_up], [get_nblocks], [SizeStr2Number] ([util.cpp], [util.hpp]).
    - [Table]: the inode table and the counters ([fuse_cpp_ramfs.hpp],
      [inode.hpp]), and [Respects], the composition of relations on worlds.
    - [InodeOps], [FileOps], [DirectoryOps], [Nodes]: the methods of [Inode],
      [File], [Directory], [SymLink] and [SpecialInode], [RegisterInode] and
      [do_create_node]. [DirectorySpec]: [Directory] as a finite map.
    - [Handlers]: [FuseInit] and the request handlers of [fuse_cpp_ramfs.cpp].
    - [CkptRestore]: the pool ([cr_util.cpp]), [checkpoint], [restore].
    - [Codec]: the byte layout of the C structures in a state file, as encoders
      and decoders with their law.
    - [Pickle]: [GetPickledSize], [Pickle] and [Load] of the classes, and
      [pickle.cpp].
    - [Requests]: the operation table and [FuseIoctl]; [step] and [steps] are
      runs of the file system; the classes [Quiet], [Steady] and [Stable] are the
      interface between the handlers and the properties of runs.
    - [Invariant], [Runs], [Types], [Replies], [Specs], [Errors], [Removal], [Attributes],
      [Memory], [PickleSpec]: theorems on requests and runs.
    - [Links], [LinkRuns]: the graph of links and names, and what requests do to
      it. [Returns], [Safety]: requests return. [Listing]: sequences of [readdir] requests.
    - [Ranges]: triples for the ranges of the C types, and that values keep them;
      [StateFiles]: saving and loading reachable states.
    - [Locks], [LockOps], [LockSpec]: threads that share locks, the locks and shared
      fields of every method and handler in the order of the code, and what they
      guarantee when several threads serve requests.
    - [Options], [OptionsSpec]: mount options, command line and [main] ([util.cpp],
      [main.cpp]) in an outcome monad of their own, with [strtok_r] and [getopt]
      of the C library, and their theorems.
    - [Clients]: the programs [ckpt], [restore], [pkl] and [load]. [Dumps]: the
      dumps of [cr_util.cpp] for testing. [Testops]: the helpers of [testops.cpp].
    - [Samples], [Witnesses], [SampleClients], [SampleTrees], [SampleLocks],
      [SampleStates]: the theorems applied to a concrete session or to concrete threads. [Findings],
      [SampleLocks]: runs that show defects.

    ** What is proved

    - Invariant ([Invariant], [Runs]): every state reachable from a mount by
      requests other than loading a state file has a well-formed table: objects
      know their number, their class matches their mode, files, directories and
      links have the size and block count of their data, names in a directory
      are unique, the queue is the exact list of free slots without repetition,
      and the count of free inodes is right. The same holds of the checkpoints.
    - Links ([Links], [LinkRuns]): in such a state, when the kernel keeps its rules
      (no unlink or rename of the dots, no hard link to a directory), each name
      other than the dots belongs to an inode of the table with at least as many
      links as names, and a named directory has one name and a link for each
      directory in it.
    - Types ([Types]): an inode keeps its class and the type in its mode from the request
      that makes it to the [forget] that takes it out.
    - Threads ([LockSpec]): threads that serve requests can always all run to their
      ends, whatever the order of their steps; without pickling and loading, the table, the
      counters and the pool are never raced, the entries of a directory only with the
      destructor of the directory (which they are: [SampleLocks]), and a checkpoint or
      restore is alone. Requests are programs of locks and accesses there, with a choice
      for each condition, and renames are those that the kernel passes on.
    - Memory ([Memory]): without a restore the values of extended attributes are in
      blocks of their own; iterators of listings never leave their vectors at the front.
    - Safety ([Returns], [Safety]): in such a state a request other than loading
      runs to its end, without a failed assertion, a bad pointer or an access outside a
      buffer, when [Safety.servable] holds of it: sizes and offsets in range, memory for
      copies and listings, room for the first entry of a listing, and for pickling stored
      attribute values that are still in memory. A value that was replaced after a checkpoint
      may be gone, and after a restore any value may ([Findings]).
    - Checkpoints ([CkptRestore], [Runs]): restore brings back the state of the
      checkpoint after any work (the values of extended attributes excepted,
      which are shared: [Findings]), notifies the kernel of all that may be
      cached, and a failure changes nothing.
    - Files ([FileOps], [Specs]): [write], [read] and [setattr] with a size
      implement [pwrite], [pread] and [ftruncate] on byte sequences, on every
      branch and whatever the allocator leaves in fresh memory.
    - Names ([DirectorySpec], [Specs], [Removal]): any sequence of calls of the methods of a
      directory refines the same calls on a finite map, with errors, size and block
      counts; lookup, create, mkdir, symlink, link, unlink,
      rmdir, rename and forget are described by it.
    - Attributes and listing ([Attributes], [Listing]): extended attributes, access,
      the listing of a directory that fits one response, and that a sequence of
      requests lists a whole directory of less than 21845 entries when any two entries fit
      one response (and stops at two neighbours that do not).
    - Ranges ([Ranges]): in such a state every member of an inode, the queue, the
      counters, the keys of the pool and the checkpoints hold values of their C types,
      when the arguments of requests and the answers of the system do; so the integers
      of the model are those of the program.
    - State files ([PickleSpec], [StateFiles]): pickling fills its buffers exactly, a
      written file verifies and is read back, a damaged one is rejected; such a
      state can be saved and loaded when its attribute values are in memory, objects get
      the number of the objects in front of them, and when no slot of a table was free
      they keep their numbers and the state is well formed again.
    - Replies and errors ([Replies], [Errors]): how many replies each request
      gets, and that requests on missing inodes or on inodes of the wrong class
      are refused without any change, with the requests that do not refuse them.
    - Command line ([OptionsSpec]): the loop over mount options is the fold over the
      fields between commas and ends unless a token has only equals signs; the
      configuration and the options left to libfuse; which command lines mount, and
      which make the program read outside its memory.
    - Programs ([Clients], [Dumps], [Testops]): a checkpoint and a restore, and a pickle
      and a load, as run from the shell; the dump of a well-formed table is safe; the
      test helpers close what they open and keep the error of the call that failed.

    ** Bounds

    The loop of [rmdir] over the links counts down from the link count itself; the
    draw of an unused key for [readdir] consumes a given list of random numbers;
    the loop over mount options has fuel, of which one round per character is
    proved enough, and [getopt] has one step per word; a listing has as many requests
    as the directory has entries, and two, which is proved enough. Hypotheses on
    sizes (below 2^63) are those of [loff_t] and [ssize_t]; a listing with more than
    21845 entries may run out of the 16 bits that its cookies have
    ([Findings.readdir_cookie_overflows]).

    ** Not modelled

    The values that threads read and write while they interleave (requests change the
    world one at a time, as the main program serves them), the code for Apple, and
    OpenSSL from 3.0 on. That a destroyed object takes its locks with it is not either. SHA-256, libfuse, the host's system calls and the size of a
    directory entry in a reply are parameters.

    Loading a file that was not written by pickling, or loading when the allocator
    fails, is modelled, but has no theorem that it returns: it does not in
    general ([Findings.load_reads_past_end], [Findings.load_goes_on_without_memory]). *)

From Stdlib Require Export Init.Byte ZArith Lia Sorting.Sorted.
From stdpp Require Export base gmap sets list strings numbers.
From coqutil Require Word.LittleEndianList.

#[global] Open Scope Z_scope.

(** ** Machine integers

    A C integer is a [Z] kept in the range of its type; [uN] is the conversion
    to the unsigned type of [N] bits and [sN] the conversion to the signed one
    (two's complement). *)

Definition u64 (z : Z) : Z := z `mod` 2 ^ 64.
Definition u32 (z : Z) : Z := z `mod` 2 ^ 32.
Definition s64 (z : Z) : Z := (z + 2 ^ 63) `mod` 2 ^ 64 - 2 ^ 63.
Definition s32 (z : Z) : Z := (z + 2 ^ 31) `mod` 2 ^ 32 - 2 ^ 31.

(** [zlen] is [size()] of a vector, a string or a buffer. *)
Abbreviation zlen l := (Z.of_nat (length l)).

(** ** Vectors: [v.at(i)], with [None] for an index out of range. *)

Definition vec_at {A} (l : list A) (i : Z) : option A :=
  if 0 <=? i then l !! Z.to_nat i else None.

(** [v[i] = x], with [None] for an index out of range (undefined in C++). *)
Definition vec_set {A} (l : list A) (i : Z) (x : A) : option (list A) :=
  if (0 <=? i) && (i <? zlen l) then Some (<[Z.to_nat i := x]> l) else None.

(** ** Heap blocks as byte lists

    [mem_read], [mem_write] and [mem_set] are [memcpy] out of a block,
    [memcpy]/[memmove] into a block and [memset] on a block; an access that
    leaves the block gives [None]. [mem_resize junk b n] is the block that
    [realloc(b, n)] gives: the common prefix, then whatever the allocator left
    there ([junk i] at offset [i]). *)

Definition in_block (b : list byte) (off n : Z) : bool :=
  (0 <=? off) && (0 <=? n) && (off + n <=? zlen b).

Definition mem_read (b : list byte) (off n : Z) : option (list byte) :=
  if in_block b off n then Some (take (Z.to_nat n) (drop (Z.to_nat off) b))
  else None.

Definition mem_write (b : list byte) (off : Z) (d : list byte)
  : option (list byte) :=
  if in_block b off (zlen d)
  then Some (take (Z.to_nat off) b ++ d ++ drop (Z.to_nat off + length d) b)
  else None.

Definition mem_set (b : list byte) (off : Z) (c : byte) (n : Z)
  : option (list byte) :=
  if in_block b off n then mem_write b off (replicate (Z.to_nat n) c) else None.

Definition mem_resize (junk : nat -> byte) (b : list byte) (n : Z) : list byte :=
  take (Z.to_nat n) b ++ (junk <$> seq (length b) (Z.to_nat n - length b)).

(** ** [std::map<std::string, V>]: association lists in increasing key order

    Keys are compared as [std::string] does, byte by byte as unsigned
    characters. *)

Definition key_lt (s t : string) : Prop := String.compare s t = Lt.

Fixpoint smap_find {V} (k : string) (m : list (string * V)) : option V :=
  match m with
  | [] => None
  | (k', v) :: m' => if String.eqb k k' then Some v else smap_find k m'
  end.

Fixpoint smap_insert {V} (k : string) (v : V) (m : list (string * V))
  : list (string * V) :=
  match m with
  | [] => [(k, v)]
  | (k', v') :: m' =>
      match String.compare k k' with
      | Lt => (k, v) :: m
      | Eq => (k, v) :: m'
      | Gt => (k', v') :: smap_insert k v m'
      end
  end.

Fixpoint smap_erase {V} (k : string) (m : list (string * V))
  : list (string * V) :=
  match m with
  | [] => []
  | (k', v') :: m' => if String.eqb k k' then m' else (k', v') :: smap_erase k m'
  end.

(** The keys of a well-formed map are strictly increasing. *)
Definition smap_ok {V} (m : list (string * V)) : Prop :=
  StronglySorted key_lt m.*1.

(** ** Object representations: little-endian bytes of an [n]-byte integer. *)

#[global] Instance byte_eq_dec : EqDecision byte := Byte.byte_eq_dec.

Definition le_bytes (n : nat) (z : Z) : list byte := LittleEndianList.le_split n z.
Definition le_value (b : list byte) : Z := LittleEndianList.le_combine b.

(** ** Automation *)

Create HintDb verifs.
Create Rewrite HintDb wrap.
Create Rewrite HintDb len.

(** Splits boolean comparisons into propositions and closes linear goals. *)
Ltac zbool :=
  repeat match goal with
  | H : andb _ _ = true |- _ => apply andb_true_iff in H as [? ?]
  | H : andb _ _ = false |- _ => apply andb_false_iff in H as [?|?]
  | H : orb _ _ = true |- _ => apply orb_true_iff in H as [?|?]
  | H : orb _ _ = false |- _ => apply orb_false_iff in H as [? ?]
  | H : negb _ = true |- _ => apply negb_true_iff in H
  | H : negb _ = false |- _ => apply negb_false_iff in H
  | H : (_ <=? _) = true |- _ => apply Z.leb_le in H
  | H : (_ <=? _) = false |- _ => apply Z.leb_gt in H
  | H : (_ <? _) = true |- _ => apply Z.ltb_lt in H
  | H : (_ <? _) = false |- _ => apply Z.ltb_ge in H
  | H : (_ =? _) = true |- _ => apply Z.eqb_eq in H
  | H : (_ =? _) = false |- _ => apply Z.eqb_neq in H
  | H : String.eqb _ _ = true |- _ => apply String.eqb_eq in H
  | H : String.eqb _ _ = false |- _ => apply String.eqb_neq in H
  end.

Ltac len := autorewrite with len in *; try lia.

#[export] Hint Rewrite @length_app @length_take @length_drop @length_replicate
  @length_fmap @length_insert @length_seq : len.

(** ** Integers *)

Lemma u64_range z : 0 <= u64 z < 2 ^ 64.
Proof. unfold u64. apply Z.mod_pos_bound. lia. Qed.

Lemma u64_small z : 0 <= z < 2 ^ 64 -> u64 z = z.
Proof. apply Z.mod_small. Qed.

Lemma s64_range z : - 2 ^ 63 <= s64 z < 2 ^ 63.
Proof. unfold s64. pose proof (Z.mod_pos_bound (z + 2 ^ 63) (2 ^ 64)). lia. Qed.

Lemma s64_small z : - 2 ^ 63 <= z < 2 ^ 63 -> s64 z = z.
Proof. intros H. unfold s64. rewrite Z.mod_small by lia. lia. Qed.

Lemma u64_s64 z : u64 (s64 z) = u64 z.
Proof.
  unfold u64, s64. rewrite Zminus_mod_idemp_l.
  f_equal. lia.
Qed.

Lemma u64_u64 z : u64 (u64 z) = u64 z.
Proof. unfold u64. apply Zmod_mod. Qed.

Lemma u64_add_l a b : u64 (u64 a + b) = u64 (a + b).
Proof. unfold u64. apply Zplus_mod_idemp_l. Qed.

Lemma u64_add_r a b : u64 (a + u64 b) = u64 (a + b).
Proof. unfold u64. apply Zplus_mod_idemp_r. Qed.

Lemma u64_sub_l a b : u64 (u64 a - b) = u64 (a - b).
Proof. unfold u64. apply Zminus_mod_idemp_l. Qed.

Lemma u64_sub_r a b : u64 (a - u64 b) = u64 (a - b).
Proof. unfold u64. apply Zminus_mod_idemp_r. Qed.

Lemma u64_sub_s64 a b : u64 (a - s64 b) = u64 (a - b).
Proof. rewrite <- u64_sub_r, u64_s64. apply u64_sub_r. Qed.

Lemma u64_add_s64 a b : u64 (a + s64 b) = u64 (a + b).
Proof. rewrite <- u64_add_r, u64_s64. apply u64_add_r. Qed.

Lemma s64_u64 z : s64 (u64 z) = s64 z.
Proof. unfold u64, s64. by rewrite Zplus_mod_idemp_l. Qed.

#[export] Hint Rewrite u64_s64 u64_u64 u64_add_l u64_add_r u64_sub_l u64_sub_r
  u64_sub_s64 u64_add_s64 s64_u64 : wrap.

(** ** Vectors *)

Section vectors.
Context {A : Type}.
Implicit Types (l : list A) (x y : A) (i j : Z).

Lemma vec_at_Some l i x :
  vec_at l i = Some x <-> 0 <= i /\ l !! Z.to_nat i = Some x.
Proof. unfold vec_at. destruct (0 <=? i) eqn:E; zbool; naive_solver lia. Qed.

Lemma vec_at_range l i x : vec_at l i = Some x -> 0 <= i < zlen l.
Proof.
  intros [? H]%vec_at_Some. apply lookup_lt_Some in H. lia.
Qed.

Lemma vec_at_is_Some l i : is_Some (vec_at l i) <-> 0 <= i < zlen l.
Proof.
  split.
  - intros [x H]. by eapply vec_at_range.
  - intros H. destruct (lookup_lt_is_Some_2 l (Z.to_nat i)) as [x Hx]; [lia|].
    exists x. apply vec_at_Some. split; [lia|done].
Qed.

Lemma vec_set_Some l i x l' :
  vec_set l i x = Some l' <-> 0 <= i < zlen l /\ l' = <[Z.to_nat i := x]> l.
Proof.
  unfold vec_set. destruct (_ && _) eqn:E; zbool; naive_solver lia.
Qed.

Lemma vec_at_insert l i j x :
  0 <= i < zlen l ->
  vec_at (<[Z.to_nat i := x]> l) j = if decide (i = j) then Some x else vec_at l j.
Proof.
  intros Hi. unfold vec_at. case_decide as E.
  - subst j. rewrite (proj2 (Z.leb_le 0 i)) by lia.
    apply list_lookup_insert_eq. lia.
  - destruct (0 <=? j) eqn:Ej; [|done]. zbool.
    apply list_lookup_insert_ne. lia.
Qed.

Lemma vec_at_snoc l j x :
  vec_at (l ++ [x]) j = if decide (j = zlen l) then Some x else vec_at l j.
Proof.
  unfold vec_at. destruct (0 <=? j) eqn:Ej; zbool.
  - case_decide as E.
    + rewrite lookup_app_r by lia. by replace (_ - _)%nat with 0%nat by lia.
    + destruct (decide (j < zlen l)).
      * by rewrite lookup_app_l by lia.
      * rewrite !lookup_ge_None_2; [done|..]; len. simpl. lia.
  - rewrite decide_False; [done|lia].
Qed.
End vectors.

(** ** Blocks *)

Section blocks.
Implicit Types (b d : list byte).

Lemma in_block_true b off n :
  in_block b off n = true <-> 0 <= off /\ 0 <= n /\ off + n <= zlen b.
Proof. unfold in_block. rewrite !andb_true_iff, !Z.leb_le. tauto. Qed.

Lemma mem_write_Some b off d :
  0 <= off -> off + zlen d <= zlen b ->
  mem_write b off d =
    Some (take (Z.to_nat off) b ++ d ++ drop (Z.to_nat off + length d) b).
Proof.
  intros. unfold mem_write. rewrite (proj2 (in_block_true _ _ _)); [done|lia].
Qed.

Lemma mem_read_Some b off n :
  0 <= off -> 0 <= n -> off + n <= zlen b ->
  mem_read b off n = Some (take (Z.to_nat n) (drop (Z.to_nat off) b)).
Proof.
  intros. unfold mem_read. rewrite (proj2 (in_block_true _ _ _)); [done|lia].
Qed.

Lemma mem_set_Some b off c n :
  0 <= off -> 0 <= n -> off + n <= zlen b ->
  mem_set b off c n =
    Some (take (Z.to_nat off) b ++ replicate (Z.to_nat n) c
            ++ drop (Z.to_nat off + Z.to_nat n) b).
Proof.
  intros. unfold mem_set. rewrite (proj2 (in_block_true _ _ _)) by lia.
  rewrite mem_write_Some; len. done.
Qed.

Lemma mem_write_length b off d b' :
  mem_write b off d = Some b' -> length b' = length b.
Proof.
  unfold mem_write. destruct (in_block _ _ _) eqn:E; [|done].
  apply in_block_true in E as (?&?&?). intros [= <-]. len.
Qed.

Lemma mem_set_length b off c n b' :
  mem_set b off c n = Some b' -> length b' = length b.
Proof.
  unfold mem_set. destruct (in_block _ _ _); [|done]. apply mem_write_length.
Qed.

Lemma mem_resize_length junk b n : 0 <= n -> zlen (mem_resize junk b n) = n.
Proof. intros. unfold mem_resize. len. Qed.

Lemma mem_resize_lookup junk b n i :
  (i < length b)%nat -> Z.of_nat i < n -> mem_resize junk b n !! i = b !! i.
Proof.
  intros. unfold mem_resize. rewrite lookup_app_l by len.
  rewrite lookup_take. by rewrite decide_True by lia.
Qed.

Lemma mem_resize_same junk b : mem_resize junk b (zlen b) = b.
Proof.
  unfold mem_resize. rewrite Nat2Z.id, Nat.sub_diag, take_ge by lia.
  simpl. apply app_nil_r.
Qed.
End blocks.

(** ** Sorted maps *)

Lemma string_compare_refl s : String.compare s s = Eq.
Proof.
  induction s as [|a s IH]; simpl; [done|].
  unfold Ascii.compare. by rewrite N.compare_refl.
Qed.

Lemma key_lt_irrefl s : ~ key_lt s s.
Proof. unfold key_lt. by rewrite string_compare_refl. Qed.

Lemma ascii_compare_N a b :
  Ascii.compare a b = N.compare (Ascii.N_of_ascii a) (Ascii.N_of_ascii b).
Proof. done. Qed.

Lemma key_lt_trans : Transitive key_lt.
Proof.
  unfold key_lt. intros s. induction s as [|a s IH]; intros [|b t] [|c u]; simpl;
    try done.
  rewrite !ascii_compare_N.
  destruct (N.compare_spec (Ascii.N_of_ascii a) (Ascii.N_of_ascii b)) as [E1|E1|E1];
  destruct (N.compare_spec (Ascii.N_of_ascii b) (Ascii.N_of_ascii c)) as [E2|E2|E2];
  intros H1 H2; try done;
  destruct (N.compare_spec (Ascii.N_of_ascii a) (Ascii.N_of_ascii c)) as [E3|E3|E3];
  try done; try lia. by eapply IH.
Qed.

Lemma key_gt_lt s t : String.compare s t = Gt -> key_lt t s.
Proof. unfold key_lt. intros H. by rewrite String.compare_antisym, H. Qed.

Section smaps.
Context {V : Type}.
Implicit Types (m : list (string * V)) (k : string) (v : V).

Lemma smap_find_insert k v m k' :
  smap_find k' (smap_insert k v m)
  = if String.eqb k' k then Some v else smap_find k' m.
Proof.
  induction m as [|[k0 v0] m IH]; simpl; [done|].
  destruct (String.compare k k0) eqn:E; simpl.
  - apply String.compare_eq_iff in E. subst. by destruct (String.eqb k' k0).
  - done.
  - rewrite IH. destruct (String.eqb k' k0) eqn:E0; [|done].
    destruct (String.eqb k' k) eqn:E1; [|done]. zbool. subst.
    by rewrite string_compare_refl in E.
Qed.

Lemma smap_insert_keys k v m x :
  x ∈ (smap_insert k v m).*1 <-> x = k \/ x ∈ m.*1.
Proof.
  induction m as [|[k0 v0] m IH]; simpl.
  - rewrite list_elem_of_singleton. set_solver.
  - destruct (String.compare k k0) eqn:E; simpl; rewrite ?elem_of_cons.
    + apply String.compare_eq_iff in E. subst. tauto.
    + tauto.
    + rewrite IH. tauto.
Qed.

Lemma smap_insert_ok k v m : smap_ok m -> smap_ok (smap_insert k v m).
Proof.
  unfold smap_ok. induction m as [|[k0 v0] m IH]; simpl; intros Hs.
  { by repeat constructor. }
  inversion Hs as [|? ? Hs' Hall]; subst.
  destruct (String.compare k k0) eqn:E; simpl.
  - apply String.compare_eq_iff in E. subst. by constructor.
  - constructor; [done|]. constructor; [done|].
    apply list.Forall_forall. intros x Hx. eapply list.Forall_forall in Hall; [|done].
    by eapply key_lt_trans.
  - constructor; [by apply IH|]. apply list.Forall_forall. intros x Hx.
    apply smap_insert_keys in Hx as [->|Hx]; [by apply key_gt_lt|].
    by eapply list.Forall_forall in Hall.
Qed.

Lemma smap_erase_keys k m x : x ∈ (smap_erase k m).*1 -> x ∈ m.*1.
Proof.
  induction m as [|[k0 v0] m IH]; simpl; [done|].
  destruct (String.eqb k k0); simpl; rewrite ?elem_of_cons; naive_solver.
Qed.

Lemma smap_erase_ok k m : smap_ok m -> smap_ok (smap_erase k m).
Proof.
  unfold smap_ok. induction m as [|[k0 v0] m IH]; simpl; intros Hs; [done|].
  inversion Hs as [|? ? Hs' Hall]; subst.
  destruct (String.eqb k k0); simpl; [done|].
  constructor; [by apply IH|]. apply list.Forall_forall. intros x Hx.
  eapply list.Forall_forall in Hall; [done|]. by eapply smap_erase_keys.
Qed.

Lemma smap_insert_Forall (P : string * V -> Prop) k v m :
  P (k, v) -> Forall P m -> Forall P (smap_insert k v m).
Proof.
  intros Hp. induction m as [|[k0 v0] m IH]; simpl; intros H; [by constructor|].
  apply list.Forall_cons in H as [H0 H]. destruct (String.compare k k0); auto.
Qed.

Lemma smap_erase_Forall (P : string * V -> Prop) k m : Forall P m -> Forall P (smap_erase k m).
Proof.
  induction m as [|[k0 v0] m IH]; simpl; intros H; [done|].
  apply list.Forall_cons in H as [H0 H]. destruct (String.eqb k k0); auto.
Qed.

Lemma smap_find_None k m : k ∉ m.*1 -> smap_find k m = None.
Proof.
  induction m as [|[k0 v0] m IH]; simpl; [done|].
  intros H. apply not_elem_of_cons in H as [? ?].
  destruct (String.eqb k k0) eqn:E; zbool; [done|]. by apply IH.
Qed.

Lemma smap_find_erase k m k' :
  smap_ok m ->
  smap_find k' (smap_erase k m)
  = if String.eqb k' k then None else smap_find k' m.
Proof.
  unfold smap_ok. induction m as [|[k0 v0] m IH]; simpl; intros Hs.
  { by destruct (String.eqb k' k). }
  inversion Hs as [|? ? Hs' Hall]; subst.
  destruct (String.eqb k k0) eqn:E; simpl.
  - zbool. subst k0. destruct (String.eqb k' k) eqn:E'; [|done].
    zbool. subst k'. apply smap_find_None. intros Hin.
    eapply list.Forall_forall in Hall; [|done]. by apply key_lt_irrefl in Hall.
  - rewrite IH by done. destruct (String.eqb k' k0) eqn:E0; [|done].
    zbool. subst. apply String.eqb_neq in E.
    destruct (String.eqb k0 k) eqn:E'; [|done]. zbool. congruence.
Qed.

Lemma smap_find_in k v m : smap_ok m -> (k, v) ∈ m -> smap_find k m = Some v.
Proof.
  unfold smap_ok. induction m as [|[k0 v0] m IH]; simpl; intros Hs Hin; [by apply elem_of_nil in Hin|].
  inversion Hs as [|? ? Hs' Hall]; subst.
  apply elem_of_cons in Hin as [[= -> ->]|Hin]; [by rewrite String.eqb_refl|].
  destruct (String.eqb k k0) eqn:E; [|by apply IH]. zbool. subst k0.
  eapply list.Forall_forall in Hall; [by apply key_lt_irrefl in Hall|].
  apply list_elem_of_fmap. by exists (k, v).
Qed.
End smaps.

(** ** Object representations *)

Lemma le_bytes_length n z : length (le_bytes n z) = n.
Proof. apply LittleEndianList.length_le_split. Qed.

Lemma le_value_bytes n z : le_value (le_bytes n z) = z `mod` 2 ^ (Z.of_nat n * 8).
Proof. apply LittleEndianList.le_combine_split. Qed.

Lemma le_value_bytes8 z : le_value (le_bytes 8 z) = u64 z.
Proof. apply le_value_bytes. Qed.

Lemma le_value_bytes4 z : le_value (le_bytes 4 z) = u32 z.
Proof. apply le_value_bytes. Qed.

#[export] Hint Rewrite le_bytes_length : len.
#[global] Opaque le_bytes le_value.
