(* ===== verification/World.v ===== *)
(** * The state of the file system and the monad its code runs in

    Data of [inode.hpp], [file.hpp], [directory.hpp], [symlink.hpp],
    [special_inode.hpp], [fuse_cpp_ramfs.hpp] and [cr_util.hpp]: the inode
    classes, the static members of [FuseRamFs] and [Directory], the checkpoint
    pool. A handler is a function of the environment of one request (clock,
    allocator, random numbers, caller) and of the world; it ends with a new
    world or in a crash. *)

From S2P Require Import Prelude.

(** ** Constants of the C library and of libfuse that the code names *)

Definition ENOENT := 2.
Definition E2BIG := 7.
Definition EBADF := 9.
Definition ENOMEM := 12.
Definition EACCES := 13.
Definition EEXIST := 17.
Definition ENOTDIR := 20.
Definition EISDIR := 21.
Definition EINVAL := 22.
Definition ENOSPC := 28.
Definition ERANGE := 34.
Definition ENOSYS := 38.
Definition ENOTEMPTY := 39.
Definition ENODATA := 61.
Definition EPROTO := 71.
Definition EMSGSIZE := 90.

Definition S_IFMT := 0xf000.
Definition S_IFIFO := 0x1000.
Definition S_IFCHR := 0x2000.
Definition S_IFDIR := 0x4000.
Definition S_IFBLK := 0x6000.
Definition S_IFREG := 0x8000.
Definition S_IFLNK := 0xa000.
Definition S_IFSOCK := 0xc000.

Definition mode_is (fmt mode : Z) : bool := Z.land mode S_IFMT =? fmt.
Definition S_ISREG := mode_is S_IFREG.
Definition S_ISDIR := mode_is S_IFDIR.
Definition S_ISCHR := mode_is S_IFCHR.
Definition S_ISBLK := mode_is S_IFBLK.
Definition S_ISFIFO := mode_is S_IFIFO.
Definition S_ISSOCK := mode_is S_IFSOCK.
Definition S_ISLNK := mode_is S_IFLNK.

Definition FUSE_SET_ATTR_MODE := 1.
Definition FUSE_SET_ATTR_UID := 2.
Definition FUSE_SET_ATTR_GID := 4.
Definition FUSE_SET_ATTR_SIZE := 8.
Definition FUSE_SET_ATTR_ATIME := 16.
Definition FUSE_SET_ATTR_MTIME := 32.
Definition FUSE_SET_ATTR_CTIME := 1024.

Definition XATTR_CREATE := 1.
Definition XATTR_REPLACE := 2.
Definition F_OK := 0.

(** [mask & bit], used as a condition. *)
Definition flag_set (mask bit : Z) : bool := negb (Z.land mask bit =? 0).

(** ** Data *)

Record timespec := Timespec { tv_sec : Z; tv_nsec : Z }.

Record stat := mkStat {
  st_dev : Z; st_ino : Z; st_nlink : Z; st_mode : Z; st_uid : Z; st_gid : Z;
  st_rdev : Z; st_size : Z; st_blksize : Z; st_blocks : Z;
  st_atim : timespec; st_mtim : timespec; st_ctim : timespec }.

(** The timeouts are the bit patterns of the two [double]s. *)
Record fuse_entry_param := mkEntry {
  ep_ino : Z; ep_generation : Z; ep_attr : stat;
  ep_attr_timeout : Z; ep_entry_timeout : Z }.

Record statvfs := mkStatvfs {
  f_bsize : Z; f_frsize : Z; f_blocks : Z; f_bfree : Z; f_bavail : Z;
  f_files : Z; f_ffree : Z; f_favail : Z; f_fsid : Z; f_flag : Z;
  f_namemax : Z }.

Inductive SpecialInodeTypes :=
  | SPECIAL_INODE_TYPE_NO_BLOCK
  | SPECIAL_INODE_CHAR_DEV
  | SPECIAL_INODE_BLOCK_DEV
  | SPECIAL_INODE_FIFO
  | SPECIAL_INODE_SOCK.

(** The members of class [Inode]. An extended attribute is a pointer to a
    block of the heap and the size of the value: copying an inode copies the
    pointer. *)
Record Inode := mkInode {
  m_markedForDeletion : bool;
  m_nlookup : Z;
  m_fuseEntryParam : fuse_entry_param;
  m_xattr : list (string * (Z * Z)) }.

(** The members the derived classes [File], [Directory], [SpecialInode] and
    [SymLink] add; [dynamic_cast] is a match on this type. *)
Inductive inode_class :=
  | File (m_buf : list byte)
  | Directory (m_children : list (string * Z))
  | SpecialInode (m_type : SpecialInodeTypes)
  | SymLink (m_link : string).

Record inode := mkObject { base : Inode; derived : inode_class }.

Record ReadDirCtx := mkReadDirCtx {
  cookie : Z; it : Z; children : list (string * Z) }.

(** [std::tuple<std::vector<Inode *>, std::queue<fuse_ino_t>, struct statvfs>] *)
Record verifs2_state := mkVerifs2State {
  vs_inodes : list (option inode); vs_deleted : list Z; vs_stat : statvfs }.

(** The blocks the extended attributes point to; address 0 is the null
    pointer. [next_addr] is the address of the next allocation. *)
Record xheap := mkHeap { blocks : gmap Z (list byte); next_addr : Z }.

(** One entry that [fuse_add_direntry] put in a reply buffer. *)
Record dirent := mkDirent { d_name : string; d_stat : stat; d_off : Z }.

(** What the handlers send to the kernel through libfuse. *)
Inductive reply :=
  | reply_err (err : Z)
  | reply_none
  | reply_entry (e : fuse_entry_param)
  | reply_create (e : fuse_entry_param)
  | reply_attr (a : stat)
  | reply_open
  | reply_write (count : Z)
  | reply_buf (data : list byte)
  | reply_dirents (entries : list dirent)
  | reply_readlink (link : string)
  | reply_statfs (s : statvfs)
  | reply_xattr (count : Z)
  | reply_ioctl (result : Z).

Inductive notification :=
  | inval_inode (ino : Z)
  | inval_entry (parent : Z) (name : string).

Record world := mkWorld {
  Inodes : list (option inode);
  DeletedInodes : list Z;
  m_stbuf : statvfs;
  readdirStates : gmap Z ReadDirCtx;
  state_pool : gmap Z verifs2_state;
  heap : xheap;
  replies : list reply;
  notifications : list notification }.

(** ** Field updates *)

Definition set_st_dev (v : Z) (a : stat) : stat :=
  mkStat v (st_ino a) (st_nlink a) (st_mode a) (st_uid a) (st_gid a) (st_rdev a)
    (st_size a) (st_blksize a) (st_blocks a) (st_atim a) (st_mtim a) (st_ctim a).
Definition set_st_ino (v : Z) (a : stat) : stat :=
  mkStat (st_dev a) v (st_nlink a) (st_mode a) (st_uid a) (st_gid a) (st_rdev a)
    (st_size a) (st_blksize a) (st_blocks a) (st_atim a) (st_mtim a) (st_ctim a).
Definition set_st_nlink (v : Z) (a : stat) : stat :=
  mkStat (st_dev a) (st_ino a) v (st_mode a) (st_uid a) (st_gid a) (st_rdev a)
    (st_size a) (st_blksize a) (st_blocks a) (st_atim a) (st_mtim a) (st_ctim a).
Definition set_st_mode (v : Z) (a : stat) : stat :=
  mkStat (st_dev a) (st_ino a) (st_nlink a) v (st_uid a) (st_gid a) (st_rdev a)
    (st_size a) (st_blksize a) (st_blocks a) (st_atim a) (st_mtim a) (st_ctim a).
Definition set_st_uid (v : Z) (a : stat) : stat :=
  mkStat (st_dev a) (st_ino a) (st_nlink a) (st_mode a) v (st_gid a) (st_rdev a)
    (st_size a) (st_blksize a) (st_blocks a) (st_atim a) (st_mtim a) (st_ctim a).
Definition set_st_gid (v : Z) (a : stat) : stat :=
  mkStat (st_dev a) (st_ino a) (st_nlink a) (st_mode a) (st_uid a) v (st_rdev a)
    (st_size a) (st_blksize a) (st_blocks a) (st_atim a) (st_mtim a) (st_ctim a).
Definition set_st_size (v : Z) (a : stat) : stat :=
  mkStat (st_dev a) (st_ino a) (st_nlink a) (st_mode a) (st_uid a) (st_gid a)
    (st_rdev a) v (st_blksize a) (st_blocks a) (st_atim a) (st_mtim a) (st_ctim a).
Definition set_st_blocks (v : Z) (a : stat) : stat :=
  mkStat (st_dev a) (st_ino a) (st_nlink a) (st_mode a) (st_uid a) (st_gid a)
    (st_rdev a) (st_size a) (st_blksize a) v (st_atim a) (st_mtim a) (st_ctim a).
Definition set_st_atim (v : timespec) (a : stat) : stat :=
  mkStat (st_dev a) (st_ino a) (st_nlink a) (st_mode a) (st_uid a) (st_gid a)
    (st_rdev a) (st_size a) (st_blksize a) (st_blocks a) v (st_mtim a) (st_ctim a).
Definition set_st_mtim (v : timespec) (a : stat) : stat :=
  mkStat (st_dev a) (st_ino a) (st_nlink a) (st_mode a) (st_uid a) (st_gid a)
    (st_rdev a) (st_size a) (st_blksize a) (st_blocks a) (st_atim a) v (st_ctim a).
Definition set_st_ctim (v : timespec) (a : stat) : stat :=
  mkStat (st_dev a) (st_ino a) (st_nlink a) (st_mode a) (st_uid a) (st_gid a)
    (st_rdev a) (st_size a) (st_blksize a) (st_blocks a) (st_atim a) (st_mtim a) v.
(** [clock_gettime(&st_ctim); st_mtim = st_ctim;] *)
Definition touch_mc (t : timespec) (a : stat) : stat := set_st_mtim t (set_st_ctim t a).

Definition set_bfree (free avail : Z) (s : statvfs) : statvfs :=
  mkStatvfs (f_bsize s) (f_frsize s) (f_blocks s) free avail (f_files s)
    (f_ffree s) (f_favail s) (f_fsid s) (f_flag s) (f_namemax s).
Definition set_ffree (free avail : Z) (s : statvfs) : statvfs :=
  mkStatvfs (f_bsize s) (f_frsize s) (f_blocks s) (f_bfree s) (f_bavail s)
    (f_files s) free avail (f_fsid s) (f_flag s) (f_namemax s).

Definition set_entry (p : fuse_entry_param) (b : Inode) : Inode :=
  mkInode (m_markedForDeletion b) (m_nlookup b) p (m_xattr b).
Definition set_nlookup (n : Z) (b : Inode) : Inode :=
  mkInode (m_markedForDeletion b) n (m_fuseEntryParam b) (m_xattr b).
Definition set_xattrs (x : list (string * (Z * Z))) (b : Inode) : Inode :=
  mkInode (m_markedForDeletion b) (m_nlookup b) (m_fuseEntryParam b) x.
Definition on_base (f : Inode -> Inode) (i : inode) : inode :=
  mkObject (f (base i)) (derived i).
Definition set_derived (d : inode_class) (i : inode) : inode := mkObject (base i) d.

(** [m_fuseEntryParam.attr] and its update. *)
Definition attr (i : inode) : stat := ep_attr (m_fuseEntryParam (base i)).
Definition on_attr (f : stat -> stat) (i : inode) : inode :=
  let p := m_fuseEntryParam (base i) in
  on_base (set_entry (mkEntry (ep_ino p) (ep_generation p) (f (ep_attr p))
                        (ep_attr_timeout p) (ep_entry_timeout p))) i.

Definition set_Inodes (v : list (option inode)) (w : world) : world :=
  mkWorld v (DeletedInodes w) (m_stbuf w) (readdirStates w) (state_pool w)
    (heap w) (replies w) (notifications w).
Definition set_DeletedInodes (v : list Z) (w : world) : world :=
  mkWorld (Inodes w) v (m_stbuf w) (readdirStates w) (state_pool w)
    (heap w) (replies w) (notifications w).
Definition set_stbuf (v : statvfs) (w : world) : world :=
  mkWorld (Inodes w) (DeletedInodes w) v (readdirStates w) (state_pool w)
    (heap w) (replies w) (notifications w).
Definition set_readdirStates (v : gmap Z ReadDirCtx) (w : world) : world :=
  mkWorld (Inodes w) (DeletedInodes w) (m_stbuf w) v (state_pool w)
    (heap w) (replies w) (notifications w).
Definition set_state_pool (v : gmap Z verifs2_state) (w : world) : world :=
  mkWorld (Inodes w) (DeletedInodes w) (m_stbuf w) (readdirStates w) v
    (heap w) (replies w) (notifications w).
Definition set_heap (v : xheap) (w : world) : world :=
  mkWorld (Inodes w) (DeletedInodes w) (m_stbuf w) (readdirStates w)
    (state_pool w) v (replies w) (notifications w).
Definition add_reply (r : reply) (w : world) : world :=
  mkWorld (Inodes w) (DeletedInodes w) (m_stbuf w) (readdirStates w)
    (state_pool w) (heap w) (replies w ++ [r]) (notifications w).
Definition add_notification (n : notification) (w : world) : world :=
  mkWorld (Inodes w) (DeletedInodes w) (m_stbuf w) (readdirStates w)
    (state_pool w) (heap w) (replies w) (notifications w ++ [n]).

(** ** The environment of one request

    [now] is what [clock_gettime] gives, [can_alloc n] whether the allocator
    serves a request for [n] bytes, [can_new] whether [operator new] serves one
    for a node ([std::bad_alloc] otherwise), [moves] whether [realloc] gives the block
    another address, [junk] the content of memory it did not clear, [rands] the
    values [rand()] gives in turn, [ctx_uid] and [ctx_gid] the caller of the
    request. *)

Record env := mkEnv {
  now : timespec;
  can_alloc : Z -> bool;
  can_new : bool;
  moves : bool;
  junk : nat -> byte;
  rands : list Z;
  ctx_uid : Z;
  ctx_gid : Z }.

(** How a request can end without returning: a failed [assert], a null or
    dangling pointer, an access outside a block or a vector, an iterator moved
    before the first element, the search for an unused key consuming every
    given random number, [exit]. *)
Inductive crash :=
  | crash_assert
  | crash_null
  | crash_dangling
  | crash_bounds
  | crash_iterator
  | crash_spin
  | crash_exit.

Inductive outcome (A : Type) :=
  | Ok (a : A) (w : world)
  | Crash (c : crash).
Arguments Ok {A} a w.
Arguments Crash {A} c.

Definition M (A : Type) : Type := env -> world -> outcome A.

#[global] Instance M_ret : MRet M := fun A a e w => Ok a w.
#[global] Instance M_bind : MBind M := fun A B f m e w =>
  match m e w with
  | Ok a w' => f a e w'
  | Crash c => Crash c
  end.

Definition ask : M env := fun e w => Ok e w.
Definition get : M world := fun e w => Ok w w.
Definition modify (f : world -> world) : M unit := fun e w => Ok tt (f w).
Definition fail {A} (c : crash) : M A := fun _ _ => Crash c.
Definition get_or {A} (c : crash) (o : option A) : M A :=
  match o with Some a => mret a | None => fail c end.
Definition send (r : reply) : M unit := modify (add_reply r).
Definition notify (n : notification) : M unit := modify (add_notification n).
Definition reply_error (e : Z) : M unit := send (reply_err e).
