(* ===== verification/Util.v ===== *)
(** * Utilities: [util.hpp] and [util.cpp]

    Block arithmetic on [size_t] and the parser of size strings. *)

From S2P Require Import Prelude.

(** ** Definitions *)

Definition round_up (value unit : Z) : Z :=
  u64 (u64 (value + unit - 1) / unit * unit).

Definition get_nblocks (size blocksize : Z) : Z :=
  u64 (size + blocksize - 1) / blocksize.

Definition ascii_code (c : Ascii.ascii) : Z := Z.of_N (Ascii.N_of_ascii c).
Definition is_digit (c : Ascii.ascii) : bool :=
  (48 <=? ascii_code c) && (ascii_code c <=? 57).

(** The unit character: the multiplier, and whether the character is itself the
    last digit of the number ([++sp] in the source). *)
Definition size_unit (uc : Ascii.ascii) : option (Z * bool) :=
  if is_digit uc then Some (1, true)
  else if (ascii_code uc =? 107) || (ascii_code uc =? 75) then Some (1024, false)
  else if (ascii_code uc =? 109) || (ascii_code uc =? 77) then Some (1048576, false)
  else if (ascii_code uc =? 103) || (ascii_code uc =? 71)
       then Some (1048576 * 1024, false)
  else if (ascii_code uc =? 116) || (ascii_code uc =? 84)
       then Some (1048576 * 1048576, false)
  else if (ascii_code uc =? 112) || (ascii_code uc =? 80)
       then Some (1048576 * 1048576 * 1024, false)
  else if (ascii_code uc =? 101) || (ascii_code uc =? 69)
       then Some (1048576 * 1048576 * 1048576, false)
  else None.

(** The loops walk the string from its last character to its first: they are
    functions of the reversed character list. *)
Fixpoint skip_spaces (r : list Ascii.ascii) : list Ascii.ascii :=
  match r with
  | [] => []
  | c :: r' => if ascii_code c =? 32 then skip_spaces r' else r
  end.

Fixpoint gather (r : list Ascii.ascii) (size magnitude : Z) : option Z :=
  match r with
  | [] => Some size
  | cur :: r' =>
      if is_digit cur
      then gather r' (u64 (size + u64 (magnitude * (ascii_code cur - 48))))
             (u64 (magnitude * 10))
      else None
  end.

(** [None]: the scan for the unit character leaves the string at its start. *)
Definition SizeStr2Number (str : string) : option Z :=
  match skip_spaces (rev (String.list_ascii_of_string str)) with
  | [] => None
  | uc :: r =>
      match size_unit uc with
      | None => Some 0
      | Some (unit, numeric) =>
          match gather (if numeric then uc :: r else r) 0 1 with
          | None => Some 0
          | Some size => Some (u64 (size * unit))
          end
      end
  end.

(** ** Reference definitions *)

(** The value of a decimal numeral, most significant digit first. *)
Definition decimal (l : list Ascii.ascii) : Z :=
  foldl (fun acc c => acc * 10 + (ascii_code c - 48)) 0 l.

(** The multiplier of each suffix, and none for a bare number. *)
Definition suffixes : list (string * Z) :=
  [("", 1); ("k", 2 ^ 10); ("K", 2 ^ 10); ("m", 2 ^ 20); ("M", 2 ^ 20);
   ("g", 2 ^ 30); ("G", 2 ^ 30); ("t", 2 ^ 40); ("T", 2 ^ 40);
   ("p", 2 ^ 50); ("P", 2 ^ 50); ("e", 2 ^ 60); ("E", 2 ^ 60)]%string.

(** ** Block arithmetic *)

Lemma get_nblocks_eq size b :
  0 < b -> 0 <= size -> size + b - 1 < 2 ^ 64 ->
  get_nblocks size b = (size + b - 1) / b.
Proof. intros. unfold get_nblocks. by rewrite u64_small by lia. Qed.

Lemma get_nblocks_bounds size b :
  0 < b -> 0 <= size -> size + b - 1 < 2 ^ 64 ->
  size <= b * get_nblocks size b < size + b.
Proof.
  intros. rewrite get_nblocks_eq by done.
  pose proof (Z.div_mod (size + b - 1) b ltac:(lia)).
  pose proof (Z.mod_pos_bound (size + b - 1) b ltac:(lia)). lia.
Qed.

Lemma get_nblocks_unique size b n :
  0 < b -> 0 <= size -> size + b - 1 < 2 ^ 64 ->
  size <= b * n < size + b -> get_nblocks size b = n.
Proof.
  intros Hb Hs Ho Hn. pose proof (get_nblocks_bounds size b Hb Hs Ho). nia.
Qed.

Lemma get_nblocks_mono a b c :
  0 < c -> 0 <= a <= b -> b + c - 1 < 2 ^ 64 ->
  get_nblocks a c <= get_nblocks b c.
Proof.
  intros. rewrite !get_nblocks_eq by lia. apply Z.div_le_mono; lia.
Qed.

Lemma get_nblocks_nonneg a c : 0 < c -> 0 <= get_nblocks a c.
Proof.
  intros. unfold get_nblocks. apply Z.div_pos; [|done]. apply u64_range.
Qed.

(** [get_nblocks] and the inline computation of [File::WriteAndReply] agree. *)
Lemma get_nblocks_alt size b :
  0 < b -> 0 <= size -> size + b - 1 < 2 ^ 64 ->
  size / b + (if size `mod` b =? 0 then 0 else 1) = get_nblocks size b.
Proof.
  intros. symmetry. apply get_nblocks_unique; try done.
  pose proof (Z.div_mod size b ltac:(lia)).
  pose proof (Z.mod_pos_bound size b ltac:(lia)).
  destruct (size `mod` b =? 0) eqn:E; zbool; lia.
Qed.

(** ** Size strings *)

Definition digits (l : list Ascii.ascii) : Prop := Forall (fun c => is_digit c = true) l.

Lemma decimal_snoc l c : decimal (l ++ [c]) = decimal l * 10 + (ascii_code c - 48).
Proof. unfold decimal. by rewrite foldl_app. Qed.

(** The loop accumulates the numeral's value modulo the word size. *)
Lemma gather_digits l size mag :
  digits l ->
  gather (rev l) size mag = Some (if decide (l = []) then size
                                  else u64 (size + mag * decimal l)).
Proof.
  revert size mag. induction l as [|c l IH] using rev_ind; intros size mag Hd; [done|].
  rewrite rev_app_distr. simpl.
  apply Forall_app in Hd as [Hd Hc]. inversion Hc as [|? ? Hdc _]; subst.
  rewrite Hdc, IH by done. rewrite (decide_False (P := l ++ [c] = [])) by (by destruct l).
  f_equal. rewrite decimal_snoc. case_decide as E.
  - subst l. by autorewrite with wrap.
  - unfold u64. rewrite Zplus_mod_idemp_r, Zplus_mod_idemp_l.
    rewrite Zplus_mod, Zmult_mod_idemp_l, <- Zplus_mod. f_equal. lia.
Qed.

Lemma gather_non_digit l size mag : ~ digits l -> gather (rev l) size mag = None.
Proof.
  revert size mag. induction l as [|c l IH] using rev_ind; intros size mag Hd.
  { destruct Hd. constructor. }
  rewrite rev_app_distr. simpl. destruct (is_digit c) eqn:E; [|done].
  apply IH. intros Hl. apply Hd. apply Forall_app. split; [done|]. by repeat constructor.
Qed.

Lemma skip_spaces_prefix n r :
  skip_spaces (replicate n (Ascii.ascii_of_N 32) ++ r) = skip_spaces r.
Proof. induction n; simpl; done. Qed.

Lemma ascii_of_string_app s t :
  String.list_ascii_of_string (s +:+ t)
  = String.list_ascii_of_string s ++ String.list_ascii_of_string t.
Proof. induction s; simpl; [done|by f_equal]. Qed.

Definition spaces (n : nat) : string :=
  String.string_of_list_ascii (replicate n (Ascii.ascii_of_N 32)).

Lemma rev_replicate {A} n (x : A) : rev (replicate n x) = replicate n x.
Proof.
  induction n as [|n IH]; simpl; [done|]. rewrite IH.
  symmetry. apply replicate_cons_app.
Qed.

(** The reversed scan of [ds ++ suffix ++ spaces] sees the suffix first. *)
Lemma scan_from_end ds suf n :
  skip_spaces (rev (String.list_ascii_of_string (ds +:+ suf +:+ spaces n)))
  = skip_spaces (rev (String.list_ascii_of_string suf)
                   ++ rev (String.list_ascii_of_string ds)).
Proof.
  rewrite !ascii_of_string_app. unfold spaces.
  rewrite String.list_ascii_of_string_of_list_ascii, !rev_app_distr, rev_replicate.
  rewrite <- app_assoc. apply skip_spaces_prefix.
Qed.

Lemma is_digit_not_space c : is_digit c = true -> (ascii_code c =? 32) = false.
Proof. unfold is_digit. intros. zbool. apply Z.eqb_neq. lia. Qed.

(** A bare numeral: the last digit plays the role of the unit character. *)
Lemma SizeStr2Number_bare l :
  digits l -> l <> [] ->
  match skip_spaces (rev l) with
  | [] => None
  | uc :: r =>
      match size_unit uc with
      | None => Some 0
      | Some (unit, numeric) =>
          match gather (if numeric then uc :: r else r) 0 1 with
          | None => Some 0
          | Some size => Some (u64 (size * unit))
          end
      end
  end = Some (u64 (decimal l)).
Proof.
  intros Hd Hne. destruct l as [|c l _] using rev_ind; [done|].
  pose proof Hd as Hd'. apply Forall_app in Hd' as [_ Hc].
  inversion Hc as [|? ? Hdc _]; subst.
  rewrite rev_app_distr. simpl. rewrite is_digit_not_space by done.
  unfold size_unit. rewrite Hdc.
  pose proof (gather_digits (l ++ [c]) 0 1 Hd) as Hg.
  rewrite rev_app_distr in Hg. simpl in Hg. simpl. rewrite Hg.
  case_decide as E; [by destruct l|]. rewrite Z.mul_1_r.
  by rewrite u64_u64, Z.mul_1_l.
Qed.

(** ** Properties *)

(** A size string made of decimal digits, an optional unit suffix and
    trailing spaces is read as the numeral times the unit, modulo 2^64 (the
    arithmetic is done in [size_t]). *)
Theorem SizeStr2Number_correct (ds suf : string) (unit : Z) (n : nat) :
  ds <> ""%string ->
  digits (String.list_ascii_of_string ds) ->
  (suf, unit) ∈ suffixes ->
  SizeStr2Number (ds +:+ suf +:+ spaces n)
  = Some (u64 (decimal (String.list_ascii_of_string ds) * unit)).
Proof.
  intros Hne Hd Hin. unfold SizeStr2Number. rewrite scan_from_end.
  assert (Hne' : String.list_ascii_of_string ds <> []) by (by destruct ds).
  unfold suffixes in Hin. rewrite !elem_of_cons in Hin.
  destruct Hin as [[= -> ->]|Hin].
  { simpl. rewrite SizeStr2Number_bare by done. by rewrite Z.mul_1_r. }
  pose proof (gather_digits _ 0 1 Hd) as Hg. rewrite decide_False in Hg by done.
  destruct_or! Hin; first [by apply elem_of_nil in Hin | injection Hin as -> ->];
    simpl; rewrite Hg; f_equal; unfold u64;
    rewrite Zmult_mod_idemp_l; f_equal; lia.
Qed.

Lemma SizeStr2Number_correct_witness :
  SizeStr2Number "100m  " = Some 104857600.
Proof.
  exact (SizeStr2Number_correct "100" "m" (2 ^ 20) 2 ltac:(done)
           ltac:(by repeat constructor) ltac:(set_solver)).
Defined.

(** A size string with a unit suffix whose part before the suffix is not made
    of digits is rejected with 0. *)
Theorem SizeStr2Number_reject (ds suf : string) (unit : Z) (n : nat) :
  ~ digits (String.list_ascii_of_string ds) ->
  (suf, unit) ∈ suffixes -> suf <> ""%string ->
  SizeStr2Number (ds +:+ suf +:+ spaces n) = Some 0.
Proof.
  intros Hd Hin Hne. unfold SizeStr2Number. rewrite scan_from_end.
  pose proof (gather_non_digit _ 0 1 Hd) as Hg.
  unfold suffixes in Hin. rewrite !elem_of_cons in Hin.
  destruct_or! Hin; first [by apply elem_of_nil in Hin | injection Hin as -> ->];
    simpl; first [done | by rewrite Hg].
Qed.

Lemma SizeStr2Number_reject_witness : SizeStr2Number "1-0k" = Some 0.
Proof.
  refine (SizeStr2Number_reject "1-0" "k" (2 ^ 10) 0 _ ltac:(set_solver) ltac:(done)).
  intros H. inversion H as [|? ? _ H1]. by inversion H1.
Defined.
