(* ===== verification/Table.v ===== *)
(** * The inode table and the space counters

    The static members of [FuseRamFs] declared in [fuse_cpp_ramfs.hpp]: the
    vector [Inodes], the queue [DeletedInodes], the [statvfs] counters, and the
    accessors of class [Inode] declared in [inode.hpp]. The mutexes are not
    modelled: [main.cpp] serves requests with the single-threaded
    [fuse_session_loop]. *)

From S2P Require Import Prelude World Util.

(** ** Definitions *)

Definition BufBlockSize := 512.
Definition INO_NOTFOUND := 0.
Definition kReadDirEntriesPerResponse := 255.
Definition kReadDirBufSize := 384.
Definition kTotalBlocks := 8388608.
Definition kTotalInodes := 1048576.
Definition kFilesystemId := 0xc13f944870434d8f.
Definition kMaxFilenameLength := 1024.

(** *** Accessors of class [Inode] on an object *)

(** [NumLinks] returns an [int]. *)
Definition NumLinks (i : inode) : Z := s32 (st_nlink (attr i)).
Definition IsActive (i : inode) : bool :=
  0 <? u64 (st_nlink (attr i) + m_nlookup (base i)).
Definition HasNoLinks (i : inode) : bool := st_nlink (attr i) =? 0.
Definition UsedBlocks (i : inode) : Z := u64 (st_blocks (attr i)).
Definition Size (i : inode) : Z := u64 (st_size (attr i)).
Definition GetAttr (i : inode) : stat := attr i.
Definition GetMode (i : inode) : Z := st_mode (attr i).
Definition GetIno (i : inode) : Z := st_ino (attr i).
Definition Forgotten (i : inode) : bool := m_nlookup (base i) =? 0.

(** *** The inode table *)

Definition get_inode (w : world) (ino : Z) : option inode :=
  mjoin (vec_at (Inodes w) ino).

Definition GetInode (ino : Z) : M (option inode) :=
  w ← get; mret (get_inode w ino).

(** A pointer of the code to an object of the table is the object's number:
    [deref p] reads the object and [update p f] is an assignment to its
    members. *)
Definition deref (p : Z) : M inode :=
  w ← get; get_or crash_null (get_inode w p).

Definition store_slot (ino : Z) (o : option inode) : M unit :=
  w ← get;
  v ← get_or crash_bounds (vec_set (Inodes w) ino o);
  modify (set_Inodes v).

Definition update (p : Z) (f : inode -> inode) : M unit :=
  i ← deref p; store_slot p (Some (f i)).

Definition DeleteInode (ino : Z) : M unit :=
  store_slot ino None;;
  modify (fun w => set_DeletedInodes (DeletedInodes w ++ [ino]) w).

Definition AddInode (i : inode) : M Z :=
  modify (fun w => set_Inodes (Inodes w ++ [Some i]) w);;
  w ← get;
  mret (u64 (zlen (Inodes w) - 1)).

Definition UpdateInode (ino : Z) (newInode : inode) : M unit :=
  store_slot ino (Some newInode).

Definition PopOneDeletedInode : M Z :=
  w ← get;
  match DeletedInodes w with
  | [] => fail crash_bounds
  | ino :: q => modify (set_DeletedInodes q);; mret ino
  end.

(** *** The link and lookup counts *)

Definition IncrementLinkCount (p : Z) : M unit :=
  update p (on_attr (fun a => set_st_nlink (u64 (st_nlink a + 1)) a)).
Definition DecrementLinkCount (p : Z) : M unit :=
  update p (on_attr (fun a => set_st_nlink (u64 (st_nlink a - 1)) a)).

(** *** The counters; the argument is an [ssize_t] *)

Definition charge_blocks (blocksAdded : Z) (s : statvfs) : statvfs :=
  set_bfree (u64 (f_bfree s - blocksAdded)) (u64 (f_bavail s - blocksAdded)) s.
Definition charge_inodes (inodesAdded : Z) (s : statvfs) : statvfs :=
  set_ffree (u64 (f_ffree s - inodesAdded)) (u64 (f_favail s - inodesAdded)) s.

Definition UpdateUsedBlocks (blocksAdded : Z) : M unit :=
  modify (fun w => set_stbuf (charge_blocks blocksAdded (m_stbuf w)) w).
Definition UpdateUsedInodes (inodesAdded : Z) : M unit :=
  modify (fun w => set_stbuf (charge_inodes inodesAdded (m_stbuf w)) w).
Definition FsStat : M statvfs := w ← get; mret (m_stbuf w).
Definition GetFreeInodes : M Z := w ← get; mret (f_ffree (m_stbuf w)).

(** [incSize] is an [ssize_t]; [None] is the null inode pointer. *)
Definition has_space_for (s : statvfs) (o : option inode) (incSize : Z) : bool :=
  if incSize <=? 0 then true
  else
    let oldBlocks := match o with Some i => UsedBlocks i | None => 0 end in
    let newSize :=
      match o with Some i => u64 (Size i + incSize) | None => incSize end in
    let newBlocks := get_nblocks newSize BufBlockSize in
    if newBlocks <=? oldBlocks then true
    else newBlocks - oldBlocks <=? f_bfree s.

Definition CheckHasSpaceFor (o : option inode) (incSize : Z) : M bool :=
  w ← get; mret (has_space_for (m_stbuf w) o incSize).

(** ** Reasoning about computations

    [Respects R m]: every successful run of [m] relates the worlds before and
    after by [R]. With a preorder [R], the property follows from that of the
    parts; [respects] does this composition. *)

Definition Respects {A} (R : relation world) (m : M A) : Prop :=
  forall e w a w', m e w = Ok a w' -> R w w'.

(** A successful sequence is made of successful parts. *)
Lemma bind_Ok {A B} (m : M A) (f : A -> M B) e w b w' :
  (m ≫= f) e w = Ok b w' -> exists a w1, m e w = Ok a w1 /\ f a e w1 = Ok b w'.
Proof.
  unfold mbind, M_bind. destruct (m e w) as [a w1|]; [|done]. eauto.
Qed.

(** Keeping an invariant, keeping a component of the world, and sending [n]
    replies are such relations. *)
Definition keeps (I : world -> Prop) : relation world := fun w w' => I w -> I w'.
Definition same {B} (f : world -> B) : relation world := fun w w' => f w' = f w.

#[global] Instance keeps_preorder I : PreOrder (keeps I).
Proof. split; unfold keeps; [by intros ?|intros ???; tauto]. Qed.

#[global] Instance same_preorder {B} (f : world -> B) : PreOrder (same f).
Proof. split; unfold same; [by intros ?|intros ??? -> ->; done]. Qed.

Section respects.
Context (R : relation world) `{!PreOrder R}.

Lemma respects_ret {A} (a : A) : Respects R (mret a : M A).
Proof. intros e w b w' [= <- <-]. reflexivity. Qed.

Lemma respects_bind {A B} (m : M A) (f : A -> M B) :
  Respects R m -> (forall a, Respects R (f a)) -> Respects R (m ≫= f).
Proof.
  intros Hm Hf e w b w'. unfold mbind, M_bind.
  destruct (m e w) as [a w1|c] eqn:E; [|done]. intros Hb.
  transitivity w1; [by eapply Hm|by eapply Hf].
Qed.

Lemma respects_get {B} (f : world -> M B) :
  (forall w, Respects R (f w)) -> Respects R (get ≫= f).
Proof. intros Hf e w b w' H. by eapply (Hf w e w). Qed.

Lemma respects_ask : Respects R ask.
Proof. intros e w b w' [= <- <-]. reflexivity. Qed.

Lemma respects_get' : Respects R get.
Proof. intros e w b w' [= <- <-]. reflexivity. Qed.

Lemma respects_fail {A} c : Respects R (fail c : M A).
Proof. by intros e w b w'. Qed.

Lemma respects_get_or {A} c (o : option A) : Respects R (get_or c o).
Proof. destruct o; [apply respects_ret|apply respects_fail]. Qed.

Lemma respects_modify f : (forall w, R w (f w)) -> Respects R (modify f).
Proof. intros Hf e w b w' [= <- <-]. apply Hf. Qed.

Lemma respects_GetInode ino : Respects R (GetInode ino).
Proof. intros e w b w' [= <- <-]. reflexivity. Qed.

Lemma respects_deref p : Respects R (deref p).
Proof. apply respects_get. intros w. apply respects_get_or. Qed.

Lemma respects_CheckHasSpaceFor o n : Respects R (CheckHasSpaceFor o n).
Proof. intros e w b w' [= <- <-]. reflexivity. Qed.

Lemma respects_FsStat : Respects R FsStat.
Proof. intros e w b w' [= <- <-]. reflexivity. Qed.

Lemma respects_GetFreeInodes : Respects R GetFreeInodes.
Proof. intros e w b w' [= <- <-]. reflexivity. Qed.
End respects.

#[export] Hint Resolve respects_ret respects_ask respects_get' respects_fail
  respects_get_or respects_GetInode respects_deref respects_CheckHasSpaceFor
  respects_FsStat respects_GetFreeInodes : verifs.

(** Splits a computation at its binds, conditionals and matches, and closes the
    parts with the lemmas of [verifs]. *)
Ltac respects_step :=
  lazymatch goal with
  | |- Respects _ (_ ≫= _) => apply respects_bind; [typeclasses eauto| |intros ?]
  | |- Respects _ (if ?b then _ else _) => destruct b eqn:?
  | |- Respects _ (match ?x with _ => _ end) => destruct x eqn:?
  | |- Respects _ (let _ := _ in _) => cbv zeta
  end.
Ltac respects :=
  intros; repeat first [ solve [auto with verifs typeclass_instances] | respects_step ].

(** ** The table operations *)

Lemma get_inode_Some w i x :
  get_inode w i = Some x <-> vec_at (Inodes w) i = Some (Some x).
Proof.
  unfold get_inode. destruct (vec_at (Inodes w) i) as [[y|]|]; simpl; naive_solver.
Qed.

Lemma get_inode_slot w p i :
  get_inode w p = Some i -> 0 <= p /\ Inodes w !! Z.to_nat p = Some (Some i).
Proof. intros H%get_inode_Some. by apply vec_at_Some. Qed.

Lemma get_inode_range w i x : get_inode w i = Some x -> 0 <= i < zlen (Inodes w).
Proof. intros H%get_inode_Some. by eapply vec_at_range. Qed.

(** The world in which the object [p] is replaced. *)
Definition put_inode (p : Z) (o : option inode) (w : world) : world :=
  set_Inodes (<[Z.to_nat p := o]> (Inodes w)) w.

Lemma get_put_inode w p q o :
  0 <= p < zlen (Inodes w) ->
  get_inode (put_inode p o w) q = if decide (p = q) then o else get_inode w q.
Proof.
  intros Hp. unfold get_inode, put_inode. simpl. rewrite vec_at_insert by done.
  by case_decide.
Qed.

Lemma put_inode_length p o w : length (Inodes (put_inode p o w)) = length (Inodes w).
Proof. apply length_insert. Qed.

Lemma store_slot_run p o e w :
  0 <= p < zlen (Inodes w) -> store_slot p o e w = Ok tt (put_inode p o w).
Proof.
  intros Hp. unfold store_slot, mbind, M_bind. simpl.
  destruct (vec_set (Inodes w) p o) as [v|] eqn:E.
  - apply vec_set_Some in E as [_ ->]. done.
  - unfold vec_set in E. destruct (_ && _) eqn:E'; [done|]. zbool; lia.
Qed.

Lemma store_slot_Ok p o e w a w' :
  store_slot p o e w = Ok a w' -> 0 <= p < zlen (Inodes w) /\ w' = put_inode p o w.
Proof.
  unfold store_slot, mbind, M_bind. simpl.
  destruct (vec_set (Inodes w) p o) as [v|] eqn:E; [|done].
  apply vec_set_Some in E as [? ->]. by intros [= <- <-].
Qed.

Lemma deref_run p e w i : get_inode w p = Some i -> deref p e w = Ok i w.
Proof. intros H. unfold deref, mbind, M_bind. simpl. by rewrite H. Qed.

Lemma deref_Ok p e w i w' : deref p e w = Ok i w' -> get_inode w p = Some i /\ w' = w.
Proof.
  unfold deref, mbind, M_bind. simpl. destruct (get_inode w p); [|done].
  by intros [= <- <-].
Qed.

Lemma update_run p f e w i :
  get_inode w p = Some i -> update p f e w = Ok tt (put_inode p (Some (f i)) w).
Proof.
  intros H. unfold update, mbind, M_bind. rewrite (deref_run _ _ _ i) by done.
  apply store_slot_run. by eapply get_inode_range.
Qed.

Lemma update_Ok p f e w a w' :
  update p f e w = Ok a w' ->
  exists i, get_inode w p = Some i /\ w' = put_inode p (Some (f i)) w.
Proof.
  unfold update, mbind, M_bind. destruct (deref p e w) as [i w1|] eqn:E; [|done].
  apply deref_Ok in E as [? ->]. intros [_ ->]%store_slot_Ok. eauto.
Qed.

Lemma respects_update R `{!PreOrder R} p f :
  (forall w i, get_inode w p = Some i -> R w (put_inode p (Some (f i)) w)) ->
  Respects R (update p f).
Proof. intros HR e w a w' (i & Hi & ->)%update_Ok. by apply HR. Qed.

Lemma respects_store_slot R `{!PreOrder R} p o :
  (forall w, 0 <= p < zlen (Inodes w) -> R w (put_inode p o w)) ->
  Respects R (store_slot p o).
Proof. intros HR e w a w' [? ->]%store_slot_Ok. by apply HR. Qed.
