(* ===== verification/InodeOps.v ===== *)
(** * Class [Inode]: [inode.cpp]

    Attributes, lookup counts, extended attributes and the access check. A
    method takes the object as its number in the inode table. *)

From S2P Require Import Prelude World Util Table.

(** ** Definitions *)

(** *** Replies *)

Definition ReplyEntry (p : Z) : M unit :=
  update p (on_base (fun b => set_nlookup (u64 (m_nlookup b + 1)) b));;
  i ← deref p; send (reply_entry (m_fuseEntryParam (base i))).

Definition ReplyCreate (p : Z) : M unit :=
  update p (on_base (fun b => set_nlookup (u64 (m_nlookup b + 1)) b));;
  i ← deref p; send (reply_create (m_fuseEntryParam (base i))).

Definition ReplyAttr (p : Z) : M unit :=
  i ← deref p; send (reply_attr (attr i)).

(** *** Attributes *)

(** The assignments of [ReplySetAttr], in order; [t] is the current time. *)
Definition apply_setattr (t : timespec) (new : stat) (to_set : Z) (a : stat) : stat :=
  let a := if flag_set to_set FUSE_SET_ATTR_MODE then set_st_mode (st_mode new) a else a in
  let a := if flag_set to_set FUSE_SET_ATTR_UID then set_st_uid (st_uid new) a else a in
  let a := if flag_set to_set FUSE_SET_ATTR_GID then set_st_gid (st_gid new) a else a in
  let a := if flag_set to_set FUSE_SET_ATTR_SIZE
           then touch_mc t (set_st_size (st_size new) a) else a in
  let a := if flag_set to_set FUSE_SET_ATTR_ATIME then set_st_atim (st_atim new) a else a in
  let a := if flag_set to_set FUSE_SET_ATTR_MTIME then set_st_mtim (st_mtim new) a else a in
  let a := if flag_set to_set FUSE_SET_ATTR_CTIME then set_st_ctim (st_ctim new) a else a in
  set_st_ctim t a.

Definition ReplySetAttr (p : Z) (new : stat) (to_set : Z) : M unit :=
  e ← ask;
  update p (on_attr (apply_setattr (now e) new to_set));;
  i ← deref p; send (reply_attr (attr i)).

Definition Forget (p : Z) (nlookup : Z) : M unit :=
  update p (on_base (fun b => set_nlookup (u64 (m_nlookup b - nlookup)) b));;
  send reply_none.

(** [Inode::Initialize]: [memset], then the assignments. [1.0] as a bit
    pattern. *)
Definition one_second := 0x3ff0000000000000.
Definition initial_attr (t : timespec) (ino mode nlink gid uid : Z) : stat :=
  mkStat 0 ino nlink mode uid gid 0 0 BufBlockSize 0 t t t.
Definition initial_entry (t : timespec) (ino mode nlink gid uid : Z) : fuse_entry_param :=
  mkEntry ino 0 (initial_attr t ino mode nlink gid uid) one_second one_second.

Definition Inode_Initialize (p : Z) (ino mode nlink gid uid : Z) : M unit :=
  e ← ask;
  update p (on_base (set_entry (initial_entry (now e) ino mode nlink gid uid))).

(** *** The heap of attribute values *)

Definition xblock (h : xheap) (ptr : Z) : option (list byte) := blocks h !! ptr.

Definition xrealloc (ptr n : Z) : M (option Z) :=
  e ← ask; w ← get;
  if can_alloc e n then
    old ← (if ptr =? 0 then mret [] else get_or crash_dangling (xblock (heap w) ptr));
    let new := mem_resize (junk e) old n in
    if (ptr =? 0) || moves e then
      let a := next_addr (heap w) in
      modify (set_heap (mkHeap (<[a := new]> (delete ptr (blocks (heap w)))) (a + 1)));;
      mret (Some a)
    else
      modify (set_heap (mkHeap (<[ptr := new]> (blocks (heap w))) (next_addr (heap w))));;
      mret (Some ptr)
  else mret None.

(** [memcpy(ptr + off, value, size)] *)
Definition xwrite (ptr off : Z) (value : list byte) : M unit :=
  if zlen value =? 0 then mret tt
  else if ptr =? 0 then fail crash_null
  else
    w ← get;
    old ← get_or crash_dangling (xblock (heap w) ptr);
    new ← get_or crash_bounds (mem_write old off value);
    modify (set_heap (mkHeap (<[ptr := new]> (blocks (heap w))) (next_addr (heap w)))).

(** The [n] bytes at [ptr + off] that a reply carries. *)
Definition xread (ptr off n : Z) : M (list byte) :=
  if n =? 0 then mret []
  else if ptr =? 0 then fail crash_null
  else
    w ← get;
    b ← get_or crash_dangling (xblock (heap w) ptr);
    get_or crash_bounds (mem_read b off n).

(** *** Extended attributes *)

(** [m_xattr[name] = v] *)
Definition set_xattr (name : string) (v : Z * Z) (i : inode) : inode :=
  on_base (fun b => set_xattrs (smap_insert name v (m_xattr b)) b) i.

Definition SetXAttrAndReply (p : Z) (name : string) (value : list byte)
    (flags position : Z) : M unit :=
  i ← deref p;
  let found := smap_find name (m_xattr (base i)) in
  if bool_decide (is_Some found) && flag_set flags XATTR_CREATE
  then reply_error EEXIST
  else if negb (bool_decide (is_Some found)) && flag_set flags XATTR_REPLACE
  then reply_error ENODATA
  else
    let newExtent := u64 (zlen value + position) in
    let '(ptr, extent) := default (0, 0) found in
    (* m_xattr[name] inserts a null value when the name is new *)
    update p (set_xattr name (ptr, extent));;
    if extent <? newExtent then
      newBuf ← xrealloc ptr newExtent;
      match newBuf with
      | None => reply_error E2BIG
      | Some b =>
          update p (set_xattr name (b, newExtent));;
          xwrite b position value;;
          reply_error 0
      end
    else
      xwrite ptr position value;;
      reply_error 0.

Definition GetXAttrAndReply (p : Z) (name : string) (size position : Z) : M unit :=
  i ← deref p;
  match smap_find name (m_xattr (base i)) with
  | None => reply_error ENODATA
  | Some (ptr, extent) =>
      if size =? 0 then send (reply_xattr extent)
      else
        let newExtent := u64 (size + position) in
        if newExtent <? extent then reply_error ERANGE
        else
          data ← xread ptr position extent;
          send (reply_buf data)
  end.

(** The names, each with its terminating null byte. *)
Definition xattr_names (m : list (string * (Z * Z))) : list byte :=
  mjoin ((fun kv => String.list_byte_of_string kv.1 ++ [x00]) <$> m).
Definition xattr_names_size (m : list (string * (Z * Z))) : Z :=
  u64 (foldr (fun kv n => Z.of_nat (String.length kv.1) + 1 + n) 0 m).

Definition ListXAttrAndReply (p : Z) (size : Z) : M unit :=
  e ← ask; i ← deref p;
  let m := m_xattr (base i) in
  let listSize := xattr_names_size m in
  if size =? 0 then send (reply_xattr listSize)
  else if size <? listSize then reply_error ERANGE
  else if can_alloc e listSize then send (reply_buf (xattr_names m))
  else reply_error ENOMEM.

Definition RemoveXAttrAndReply (p : Z) (name : string) : M unit :=
  i ← deref p;
  match smap_find name (m_xattr (base i)) with
  | None => reply_error ENODATA
  | Some _ =>
      update p (on_base (fun b => set_xattrs (smap_erase name (m_xattr b)) b));;
      reply_error 0
  end.

(** *** The access check *)

(** The mode is unsigned, so that the [int] mask is converted. *)
Definition has_bits (mode mask : Z) : bool := Z.land mode (u32 mask) =? u32 mask.

Definition access_errno (a : stat) (mask gid uid : Z) : Z :=
  if mask =? F_OK then 0
  else if has_bits (st_mode a) mask then 0
  else
    let mask := s32 (Z.shiftl mask 3) in
    if has_bits (st_mode a) mask && (gid =? st_gid a) then 0
    else
      let mask := s32 (Z.shiftl mask 3) in
      if (uid =? st_uid a) && has_bits (st_mode a) mask then 0
      else EACCES.

Definition ReplyAccess (p : Z) (mask gid uid : Z) : M unit :=
  i ← deref p; reply_error (access_errno (attr i) mask gid uid).
