(* ===== verification/FileOps.v ===== *)
(** * Class [File]: [file.cpp]

    A regular file keeps its bytes in one block of [st_blocks] blocks of 512
    bytes; only the first [st_size] bytes are content. The second half of the
    file gives the POSIX meaning of a file, a byte sequence, and shows that the
    methods implement it. *)

From S2P Require Import Prelude World Util Table InodeOps.

(** ** Definitions *)

(** [dynamic_cast<File *>], giving the buffer. *)
Definition file_buf (i : inode) : option (list byte) :=
  match derived i with File b => Some b | _ => None end.

(** The assignments that end [FileTruncate] and [WriteAndReply]. *)
Definition set_file (buf : list byte) (f : stat -> stat) (i : inode) : inode :=
  on_attr f (set_derived (File buf) i).

(** The result is the [int] the method returns. *)
Definition FileTruncate (p newSize : Z) : M Z :=
  e ← ask; f ← deref p; m_buf ← get_or crash_null (file_buf f);
  let newBlocks := get_nblocks newSize BufBlockSize in
  let oldBlocks := UsedBlocks f in
  let oldSize := Size f in
  room ← CheckHasSpaceFor (Some f) (s64 (newSize - oldSize));
  if negb room then mret (- ENOSPC)
  else if negb (newBlocks =? oldBlocks) && (0 <? newBlocks)
          && negb (can_alloc e (u64 (newBlocks * BufBlockSize)))
  then mret EINVAL
  else
    let buf1 := if newBlocks =? oldBlocks then m_buf
                else mem_resize (junk e) m_buf (u64 (newBlocks * BufBlockSize)) in
    buf2 ← (if oldSize <? newSize
            then get_or crash_bounds (mem_set buf1 oldSize x00 (newSize - oldSize))
            else mret buf1);
    UpdateUsedBlocks (s64 (newBlocks - oldBlocks));;
    update p (set_file buf2 (fun a =>
      touch_mc (now e) (set_st_size (s64 newSize) (set_st_blocks (s64 newBlocks) a))));;
    mret 0.

Definition File_WriteAndReply (p : Z) (data : list byte) (off : Z) : M unit :=
  e ← ask; f ← deref p; m_buf ← get_or crash_null (file_buf f);
  let size := zlen data in
  let newSize := u64 (off + size) in
  let oldSize := Size f in
  let originalCapacity := u64 (BufBlockSize * UsedBlocks f) in
  let newBlocks := newSize / BufBlockSize
                   + (if newSize `mod` BufBlockSize =? 0 then 0 else 1) in
  let grows := originalCapacity <? newSize in
  room ← (if grows then CheckHasSpaceFor (Some f) (s64 (newSize - Size f))
          else mret true);
  if negb room then reply_error ENOSPC
  else if grows && negb (can_alloc e (u64 (newBlocks * BufBlockSize)))
  then send (reply_write 0)
  else
    let buf1 := if grows
                then mem_resize (junk e) m_buf (u64 (newBlocks * BufBlockSize))
                else m_buf in
    buf2 ← (if oldSize <? u64 off
            then get_or crash_bounds (mem_set buf1 oldSize x00 (u64 (off - oldSize)))
            else mret buf1);
    buf3 ← get_or crash_bounds (mem_write buf2 off data);
    (if grows then UpdateUsedBlocks (s64 (newBlocks - st_blocks (attr f)))
     else mret tt);;
    update p (set_file buf3 (fun a =>
      touch_mc (now e)
        (if oldSize <? newSize
         then set_st_size (s64 newSize) (set_st_blocks (s64 newBlocks) a) else a)));;
    send (reply_write size).

Definition File_ReadAndReply (p : Z) (size off : Z) : M unit :=
  e ← ask; f ← deref p; m_buf ← get_or crash_null (file_buf f);
  let fsize := st_size (attr f) in
  if fsize <? off then send (reply_buf [])
  else
    update p (on_attr (set_st_atim (now e)));;
    let bytesRead := if u64 fsize <? u64 (off + size) then u64 (fsize - off) else size in
    data ← get_or crash_bounds (mem_read m_buf off bytesRead);
    send (reply_buf data).

(** ** The meaning of a regular file *)

Definition zeros (n : Z) : list byte := replicate (Z.to_nat n) x00.

(** [ftruncate]: cut, or extend with zeros. *)
Definition posix_truncate (c : list byte) (n : Z) : list byte :=
  take (Z.to_nat n) c ++ zeros (n - zlen c).

(** [pwrite]: the gap between the end of the file and [off] reads as zeros. An empty
    write past the end extends the file too. *)
Definition posix_write (c : list byte) (off : Z) (d : list byte) : list byte :=
  take (Z.to_nat off) (c ++ zeros (off - zlen c)) ++ d
    ++ drop (Z.to_nat off + length d) c.

(** [pread] *)
Definition posix_read (c : list byte) (off n : Z) : list byte :=
  take (Z.to_nat n) (drop (Z.to_nat off) c).

(** The object [i] is a regular file whose content is [c]. *)
Definition file_repr (i : inode) (c : list byte) : Prop :=
  exists buf,
    derived i = File buf /\
    st_size (attr i) = zlen c /\ zlen c < 2 ^ 63 /\
    st_blocks (attr i) = get_nblocks (zlen c) BufBlockSize /\
    zlen buf = BufBlockSize * st_blocks (attr i) /\
    take (length c) buf = c.

(** ** Lemmas on the byte sequences *)

Lemma posix_truncate_length c n : 0 <= n -> zlen (posix_truncate c n) = n.
Proof. intros. unfold posix_truncate, zeros. len. Qed.

Lemma posix_write_length c off d :
  0 <= off -> zlen (posix_write c off d) = Z.max (zlen c) (off + zlen d).
Proof. intros. unfold posix_write, zeros. len. Qed.

Lemma lookup_zeros (n : Z) (i : nat) : (i < Z.to_nat n)%nat -> zeros n !! i = Some x00.
Proof. intros. by apply lookup_replicate_2. Qed.

Lemma lookup_content (buf c : list byte) (i : nat) :
  take (length c) buf = c -> (i < length c)%nat -> buf !! i = c !! i.
Proof.
  intros Hc Hi. transitivity (take (length c) buf !! i); [|by rewrite Hc].
  rewrite lookup_take. by rewrite decide_True.
Qed.

(** Two lists of the same length that agree on each position are equal. *)
Lemma list_eq_len {A} (l k : list A) :
  length l = length k ->
  (forall i, (i < length l)%nat -> l !! i = k !! i) -> l = k.
Proof.
  intros Hl H. apply list_eq. intros i. destruct (decide (i < length l)%nat).
  - by apply H.
  - rewrite !lookup_ge_None_2; [done|lia|lia].
Qed.

(** Reading a position of a spliced list. *)
Lemma lookup_splice {A} (l d : list A) (off i : nat) :
  (off + length d <= length l)%nat ->
  (take off l ++ d ++ drop (off + length d) l) !! i =
    if decide (off <= i < off + length d)%nat then d !! (i - off)%nat else l !! i.
Proof.
  intros H. case_decide as E.
  - rewrite lookup_app_r by len. rewrite lookup_app_l by len. f_equal. len.
  - destruct (decide (i < off)%nat).
    + rewrite lookup_app_l by len. rewrite lookup_take. by rewrite decide_True by lia.
    + rewrite lookup_app_r by len. rewrite lookup_app_r by len.
      rewrite lookup_drop. f_equal. len.
Qed.

(** A buffer that has the old content below the cut and zeros above it holds the
    truncated content. *)
Lemma truncate_content (c : list byte) (n : Z) (b : list byte) :
  0 <= n <= zlen b ->
  (forall i, (i < length c)%nat -> Z.of_nat i < n -> b !! i = c !! i) ->
  (forall i, zlen c <= Z.of_nat i < n -> b !! i = Some x00) ->
  take (Z.to_nat n) b = posix_truncate c n.
Proof.
  intros Hn Hold Hnew. apply list_eq_len.
  { unfold posix_truncate, zeros. len. }
  intros i Hi. rewrite length_take in Hi.
  rewrite lookup_take, decide_True by lia.
  unfold posix_truncate. destruct (decide (i < length c)%nat).
  - rewrite Hold by lia. rewrite lookup_app_l by len.
    rewrite lookup_take. by rewrite decide_True by lia.
  - rewrite Hnew by lia. rewrite lookup_app_r by len.
    rewrite lookup_zeros; [done|]. len.
Qed.

(** The same for a write at [off]. *)
Lemma write_content (c : list byte) (off : Z) (d b : list byte) (n : Z) :
  0 <= off -> n = Z.max (zlen c) (off + zlen d) -> n <= zlen b ->
  (forall i, (i < length c)%nat -> ~ (off <= Z.of_nat i < off + zlen d) ->
             b !! i = c !! i) ->
  (forall i, zlen c <= Z.of_nat i < off -> b !! i = Some x00) ->
  (forall i, off <= Z.of_nat i < off + zlen d -> b !! i = d !! (i - Z.to_nat off)%nat) ->
  take (Z.to_nat n) b = posix_write c off d.
Proof.
  intros Hoff -> Hb Hold Hgap Hnew. apply list_eq_len.
  { rewrite length_take. pose proof (posix_write_length c off d Hoff). lia. }
  intros i Hi. rewrite length_take in Hi. rewrite lookup_take, decide_True by lia.
  unfold posix_write. destruct (decide (i < Z.to_nat off)%nat).
  - rewrite lookup_app_l by (unfold zeros; len).
    rewrite lookup_take, decide_True by lia.
    destruct (decide (i < length c)%nat).
    + rewrite Hold by lia. by rewrite lookup_app_l by lia.
    + rewrite Hgap by lia. rewrite lookup_app_r by lia.
      rewrite lookup_zeros; [done|lia].
  - rewrite lookup_app_r by (unfold zeros; len).
    replace (length (take _ (c ++ _))) with (Z.to_nat off) by (unfold zeros; len).
    destruct (decide (i < Z.to_nat off + length d)%nat).
    + rewrite Hnew by lia. by rewrite lookup_app_l by lia.
    + rewrite Hold by lia. rewrite lookup_app_r by lia. rewrite lookup_drop.
      f_equal. lia.
Qed.

Lemma lookup_mem_set (b : list byte) (off n : Z) (b' : list byte) (i : nat) :
  mem_set b off x00 n = Some b' ->
  b' !! i = if decide (off <= Z.of_nat i < off + n) then Some x00 else b !! i.
Proof.
  unfold mem_set. destruct (in_block b off n) eqn:E; [|done].
  apply in_block_true in E as (?&?&?). rewrite mem_write_Some by len.
  intros [= <-]. rewrite lookup_splice by len. rewrite length_replicate.
  destruct (decide (off <= Z.of_nat i < off + n)).
  - rewrite decide_True by lia. apply lookup_replicate_2. lia.
  - by rewrite decide_False by lia.
Qed.

Lemma lookup_mem_write (b : list byte) (off : Z) (d b' : list byte) (i : nat) :
  mem_write b off d = Some b' ->
  b' !! i = if decide (off <= Z.of_nat i < off + zlen d)
            then d !! (i - Z.to_nat off)%nat else b !! i.
Proof.
  unfold mem_write. destruct (in_block b off _) eqn:E; [|done].
  apply in_block_true in E as (?&?&?). intros [= <-]. rewrite lookup_splice by lia.
  destruct (decide (off <= Z.of_nat i < off + zlen d)).
  - by rewrite decide_True by lia.
  - by rewrite decide_False by lia.
Qed.

(** ** The methods on a well-formed file *)

Section methods.
Context (e : env) (w : world) (p : Z) (f : inode) (c : list byte).
Hypothesis Hf : get_inode w p = Some f.
Hypothesis Hrepr : file_repr f c.

Lemma repr_size : Size f = zlen c.
Proof.
  destruct Hrepr as (buf & _ & Hs & Hlt & _). unfold Size. rewrite Hs.
  apply u64_small. lia.
Qed.

Lemma repr_blocks : UsedBlocks f = get_nblocks (zlen c) BufBlockSize.
Proof.
  destruct Hrepr as (buf & _ & _ & Hlt & Hb & _). unfold UsedBlocks. rewrite Hb.
  apply u64_small. split; [by apply get_nblocks_nonneg|].
  pose proof (get_nblocks_bounds (zlen c) BufBlockSize). unfold BufBlockSize in *. lia.
Qed.

(** The world after [UpdateUsedBlocks n] and an update of the object. *)
Definition charged (n : Z) (i : inode) : world :=
  put_inode p (Some i) (set_stbuf (charge_blocks n (m_stbuf w)) w).

Lemma truncate_buffer n :
  0 <= n < 2 ^ 63 ->
  let nb := get_nblocks n BufBlockSize in
  let ob := get_nblocks (zlen c) BufBlockSize in
  forall buf, zlen buf = BufBlockSize * ob -> take (length c) buf = c ->
  exists b2,
    (if zlen c <? n
     then mem_set (if nb =? ob then buf else mem_resize (junk e) buf (BufBlockSize * nb))
            (zlen c) x00 (n - zlen c)
     else Some (if nb =? ob then buf else mem_resize (junk e) buf (BufBlockSize * nb)))
    = Some b2 /\
    zlen b2 = BufBlockSize * nb /\
    take (Z.to_nat n) b2 = posix_truncate c n.
Proof.
  intros Hn nb ob buf Hbuf Hc.
  destruct Hrepr as (_ & _ & _ & Hlt & _).
  assert (Hnb := get_nblocks_bounds n BufBlockSize ltac:(done) ltac:(lia)
                   ltac:(unfold BufBlockSize; lia)).
  assert (Hob := get_nblocks_bounds (zlen c) BufBlockSize ltac:(done) ltac:(lia)
                   ltac:(unfold BufBlockSize; lia)).
  fold nb in Hnb. fold ob in Hob.
  set (b1 := if nb =? ob then buf else mem_resize (junk e) buf (BufBlockSize * nb)).
  assert (Hb1 : zlen b1 = BufBlockSize * nb).
  { subst b1. destruct (nb =? ob) eqn:E; zbool; [congruence|].
    apply mem_resize_length. lia. }
  assert (Hl1 : forall i, (i < length c)%nat -> Z.of_nat i < n -> b1 !! i = c !! i).
  { intros i Hi Hin. subst b1. destruct (nb =? ob); [|rewrite mem_resize_lookup by lia];
      by apply lookup_content. }
  destruct (zlen c <? n) eqn:E; zbool.
  - rewrite mem_set_Some by lia. eexists. split; [done|].
    assert (Hset := mem_set_Some b1 (zlen c) x00 (n - zlen c)
                      ltac:(lia) ltac:(lia) ltac:(lia)).
    split; [by rewrite (mem_set_length _ _ _ _ _ Hset)|].
    apply truncate_content.
    + rewrite (mem_set_length _ _ _ _ _ Hset). lia.
    + intros i Hi Hin. rewrite (lookup_mem_set _ _ _ _ _ Hset).
      rewrite decide_False by lia. by apply Hl1.
    + intros i Hi. rewrite (lookup_mem_set _ _ _ _ _ Hset). by rewrite decide_True by lia.
  - exists b1. split; [done|]. split; [done|]. apply truncate_content; [lia|done|lia].
Qed.
End methods.

(** A file whose size, block count and buffer were just set. *)
Lemma set_file_repr i buf (g : stat -> stat) c :
  zlen c < 2 ^ 63 ->
  st_size (g (attr i)) = zlen c ->
  st_blocks (g (attr i)) = get_nblocks (zlen c) BufBlockSize ->
  zlen buf = BufBlockSize * get_nblocks (zlen c) BufBlockSize ->
  take (length c) buf = c ->
  file_repr (set_file buf g i) c.
Proof.
  intros Hlt Hs Hb Hbuf Hc. exists buf. unfold set_file, attr, on_attr in *. simpl.
  repeat split; try done; congruence.
Qed.

(** The block count of a representable file fits a [ssize_t]. *)
Lemma nblocks_small n :
  0 <= n < 2 ^ 63 -> 0 <= get_nblocks n BufBlockSize <= 2 ^ 54.
Proof.
  intros. split; [by apply get_nblocks_nonneg|].
  pose proof (get_nblocks_bounds n BufBlockSize). unfold BufBlockSize in *. lia.
Qed.

Lemma repr_buf f c :
  file_repr f c ->
  exists buf, file_buf f = Some buf /\
    zlen buf = BufBlockSize * get_nblocks (zlen c) BufBlockSize /\
    take (length c) buf = c /\ zlen c < 2 ^ 63 /\ st_size (attr f) = zlen c /\
    st_blocks (attr f) = get_nblocks (zlen c) BufBlockSize.
Proof.
  intros (buf & Hd & Hs & Hlt & Hb & Hl & Hc). exists buf. unfold file_buf.
  rewrite Hd. rewrite Hb in Hl. done.
Qed.

(** [FileTruncate] implements POSIX truncation: on a file with content [c],
    a new size below 2^63 gives [-ENOSPC] and no change when the counters do
    not cover the new blocks, [EINVAL] and no change when the allocator
    refuses, and otherwise 0, the content cut or extended with zeros (whatever
    the allocator left in the block), the size and block count of the object,
    and the free-block counters charged with the difference. *)
Lemma FileTruncate_spec e w p f c n :
  get_inode w p = Some f -> file_repr f c -> 0 <= n < 2 ^ 63 ->
  let nb := get_nblocks n BufBlockSize in
  let ob := get_nblocks (zlen c) BufBlockSize in
  if negb (has_space_for (m_stbuf w) (Some f) (n - zlen c))
  then FileTruncate p n e w = Ok (- ENOSPC) w
  else if negb (nb =? ob) && (0 <? nb) && negb (can_alloc e (nb * BufBlockSize))
  then FileTruncate p n e w = Ok EINVAL w
  else exists buf,
    let f' := set_file buf (fun a => touch_mc (now e) (set_st_size n (set_st_blocks nb a))) f in
    FileTruncate p n e w = Ok 0 (charged w p (nb - ob) f') /\
    file_repr f' (posix_truncate c n).
Proof.
  intros Hf Hr Hn nb ob.
  destruct (repr_buf _ _ Hr) as (buf & Hbuf & Hlen & Hc & Hlt & Hs & Hb).
  assert (Hnb := nblocks_small n Hn). assert (Hob := nblocks_small (zlen c) ltac:(lia)).
  fold nb in Hnb. fold ob in Hob, Hlen.
  unfold FileTruncate, mbind, M_bind. simpl.
  rewrite (deref_run _ _ _ _ Hf), Hbuf. simpl.
  rewrite (repr_size _ _ Hr), (repr_blocks _ _ Hr). fold nb ob.
  rewrite (s64_small (n - zlen c)) by lia. rewrite (s64_small (nb - ob)) by lia.
  rewrite (s64_small nb), (s64_small n) by lia.
  rewrite (u64_small (nb * BufBlockSize)) by (unfold BufBlockSize; lia).
  destruct (has_space_for _ _ _); [|done]. simpl.
  destruct (negb (nb =? ob) && (0 <? nb) && _); [done|].
  destruct (truncate_buffer e f c Hr n Hn buf Hlen Hc) as (b2 & Hb2 & Hl2 & Hc2).
  fold nb ob in Hb2. rewrite (Z.mul_comm nb). exists b2. split.
  - transitivity (match UpdateUsedBlocks (nb - ob) e w with
                  | Ok _ w1 => match update p (set_file b2 (fun a => touch_mc (now e)
                        (set_st_size n (set_st_blocks nb a)))) e w1 with
                               | Ok _ w2 => Ok 0 w2 | Crash x => Crash x end
                  | Crash x => Crash x end).
    { destruct (zlen c <? n).
      - rewrite Hb2. done.
      - injection Hb2 as ->. done. }
    simpl. rewrite (update_run _ _ _ _ f) by done. done.
  - assert (Hpt := posix_truncate_length c n ltac:(lia)).
    apply set_file_repr; simpl; rewrite ?Hpt; try lia; try done.
    by replace (length (posix_truncate c n)) with (Z.to_nat n) by lia.
Qed.

Lemma write_buffer junk (c buf d : list byte) off :
  0 <= off -> off + zlen d < 2 ^ 63 -> zlen c < 2 ^ 63 ->
  let n := off + zlen d in
  let nb := get_nblocks n BufBlockSize in
  let ob := get_nblocks (zlen c) BufBlockSize in
  let grows := BufBlockSize * ob <? n in
  let b1 := if grows then mem_resize junk buf (BufBlockSize * nb) else buf in
  zlen buf = BufBlockSize * ob -> take (length c) buf = c ->
  exists b2 b3,
    (if zlen c <? off then mem_set b1 (zlen c) x00 (off - zlen c) else Some b1) = Some b2 /\
    mem_write b2 off d = Some b3 /\
    zlen b3 = BufBlockSize * get_nblocks (Z.max (zlen c) n) BufBlockSize /\
    take (Z.to_nat (Z.max (zlen c) n)) b3 = posix_write c off d.
Proof.
  intros Hoff Hn Hlt n nb ob grows b1 Hbuf Hc. unfold BufBlockSize in *.
  assert (Hnb := get_nblocks_bounds n 512 ltac:(done) ltac:(lia) ltac:(lia)).
  assert (Hob := get_nblocks_bounds (zlen c) 512 ltac:(done) ltac:(lia) ltac:(lia)).
  fold nb in Hnb. fold ob in Hob.
  set (m := get_nblocks (Z.max (zlen c) n) 512).
  assert (Hm := get_nblocks_bounds (Z.max (zlen c) n) 512 ltac:(done) ltac:(lia)
                  ltac:(lia)). fold m in Hm.
  assert (Hb1 : zlen b1 = 512 * m).
  { subst b1 grows. destruct (512 * ob <? n) eqn:E; zbool.
    - rewrite mem_resize_length by lia. nia.
    - rewrite Hbuf. nia. }
  assert (Hl1 : forall i, (i < length c)%nat -> b1 !! i = c !! i).
  { intros i Hi. subst b1 grows. destruct (512 * ob <? n) eqn:E; zbool;
      [rewrite mem_resize_lookup by lia|]; by apply lookup_content. }
  assert (H2 : exists b2,
    (if zlen c <? off then mem_set b1 (zlen c) x00 (off - zlen c) else Some b1) = Some b2 /\
    zlen b2 = 512 * m /\ (forall i, (i < length c)%nat -> b2 !! i = c !! i) /\
    (forall i, zlen c <= Z.of_nat i < off -> b2 !! i = Some x00)).
  { destruct (zlen c <? off) eqn:E; zbool.
    - assert (Hset := mem_set_Some b1 (zlen c) x00 (off - zlen c)
                        ltac:(lia) ltac:(lia) ltac:(lia)).
      eexists. split; [exact Hset|]. split; [by rewrite (mem_set_length _ _ _ _ _ Hset)|].
      split; intros i Hi; rewrite (lookup_mem_set _ _ _ _ _ Hset);
        [rewrite decide_False by lia; by apply Hl1|by rewrite decide_True by lia].
    - exists b1. repeat split; [done|done|]. intros i Hi. lia. }
  destruct H2 as (b2 & Hb2 & Hl2 & Hold & Hgap).
  assert (Hw := mem_write_Some b2 off d ltac:(lia) ltac:(lia)).
  eexists b2, _. split; [done|]. split; [exact Hw|].
  split; [by rewrite (mem_write_length _ _ _ _ Hw)|].
  apply write_content; try done.
  - rewrite (mem_write_length _ _ _ _ Hw). lia.
  - intros i Hi Hno. rewrite (lookup_mem_write _ _ _ _ _ Hw).
    rewrite decide_False by lia. by apply Hold.
  - intros i Hi. rewrite (lookup_mem_write _ _ _ _ _ Hw).
    rewrite decide_False by lia. by apply Hgap.
  - intros i Hi. rewrite (lookup_mem_write _ _ _ _ _ Hw). by rewrite decide_True by lia.
Qed.

(** The size and block count that [WriteAndReply] leaves are those of the written
    content. *)
Lemma written_repr f c d off t b3 :
  file_repr f c -> 0 <= off -> off + zlen d < 2 ^ 63 ->
  let n := off + zlen d in
  zlen b3 = BufBlockSize * get_nblocks (Z.max (zlen c) n) BufBlockSize ->
  take (Z.to_nat (Z.max (zlen c) n)) b3 = posix_write c off d ->
  file_repr (set_file b3 (fun a => touch_mc t
    (if zlen c <? n
     then set_st_size n (set_st_blocks (get_nblocks n BufBlockSize) a) else a)) f)
    (posix_write c off d).
Proof.
  intros Hr Hoff Hlim n Hl3 Hc3.
  destruct (repr_buf _ _ Hr) as (_ & _ & _ & _ & Hlt & Hs & Hb).
  assert (Hpl := posix_write_length c off d Hoff). fold n in Hpl.
  assert (Hlen3 : length (posix_write c off d) = Z.to_nat (Z.max (zlen c) n)) by lia.
  apply set_file_repr; rewrite ?Hpl, ?Hlen3; try done; try lia;
    destruct (zlen c <? n) eqn:E; zbool; simpl; rewrite ?Hs, ?Hb; try lia; f_equal; lia.
Qed.

(** [WriteAndReply] implements POSIX [pwrite]: within the offsets the kernel
    allows, it replies [ENOSPC] or a count of 0 without any change when space
    or memory for a growing file is missing, and otherwise replies the full
    count with the bytes in place, a gap past the old end filled with zeros
    (whatever the allocator left there), the size and block count updated, and
    the counters charged with the new blocks. No access leaves the buffer. *)
Lemma WriteAndReply_spec e w p f c d off :
  get_inode w p = Some f -> file_repr f c -> 0 <= off -> off + zlen d < 2 ^ 63 ->
  let n := off + zlen d in
  let nb := get_nblocks n BufBlockSize in
  let ob := get_nblocks (zlen c) BufBlockSize in
  let grows := BufBlockSize * ob <? n in
  if grows && negb (has_space_for (m_stbuf w) (Some f) (n - zlen c))
  then File_WriteAndReply p d off e w = Ok tt (add_reply (reply_err ENOSPC) w)
  else if grows && negb (can_alloc e (nb * BufBlockSize))
  then File_WriteAndReply p d off e w = Ok tt (add_reply (reply_write 0) w)
  else exists buf,
    let f' := set_file buf (fun a => touch_mc (now e)
                (if zlen c <? n then set_st_size n (set_st_blocks nb a) else a)) f in
    File_WriteAndReply p d off e w
    = Ok tt (add_reply (reply_write (zlen d))
               (if grows then charged w p (nb - ob) f' else put_inode p (Some f') w)) /\
    file_repr f' (posix_write c off d).
Proof.
  intros Hf Hr Hoff Hlim n nb ob grows.
  destruct (repr_buf _ _ Hr) as (buf & Hbuf & Hlen & Hc & Hlt & Hs & Hb).
  assert (Hnb := nblocks_small n ltac:(lia)).
  assert (Hob := nblocks_small (zlen c) ltac:(lia)).
  fold nb in Hnb. fold ob in Hob, Hlen, Hb.
  destruct (write_buffer (junk e) c buf d off Hoff Hlim Hlt Hlen Hc)
    as (b2 & b3 & Hb2 & Hb3 & Hl3 & Hc3).
  assert (Hrepr' := written_repr f c d off (now e) b3 Hr Hoff Hlim Hl3 Hc3).
  fold n ob nb grows in Hb2, Hrepr'.
  unfold File_WriteAndReply, mbind, M_bind. simpl.
  rewrite (deref_run _ _ _ _ Hf), Hbuf. simpl.
  rewrite (repr_size _ _ Hr), (repr_blocks _ _ Hr), Hb. fold n. fold ob.
  rewrite (u64_small n), (u64_small off), (u64_small (BufBlockSize * ob))
    by (unfold BufBlockSize; lia).
  rewrite (get_nblocks_alt n BufBlockSize) by (unfold BufBlockSize; lia). fold nb.
  rewrite (s64_small (n - zlen c)), (s64_small (nb - ob)), (s64_small nb),
    (s64_small n), (u64_small (nb * BufBlockSize)) by (unfold BufBlockSize; lia).
  fold grows. rewrite (Z.mul_comm nb).
  assert (Hbuf2 : (if zlen c <? off
    then get_or crash_bounds (mem_set (if grows
           then mem_resize (junk e) buf (BufBlockSize * nb) else buf) (zlen c) x00
           (u64 (off - zlen c)))
    else mret (if grows then mem_resize (junk e) buf (BufBlockSize * nb) else buf))
    = (mret b2 : M _)).
  { destruct (zlen c <? off) eqn:E; zbool; [|by injection Hb2 as <-].
    rewrite (u64_small (off - zlen c)) by lia. by rewrite Hb2. }
  rewrite Hbuf2. simpl. rewrite Hb3.
  destruct grows; simpl; [|exists b3; split; [|exact Hrepr'];
                            by rewrite (update_run _ _ _ _ f)].
  destruct (has_space_for _ _ _); simpl; [|done].
  destruct (can_alloc e _); simpl; [|done]. exists b3. split; [|exact Hrepr'].
  by rewrite (update_run _ _ _ _ f).
Qed.

(** [ReadAndReply] implements POSIX [pread]: for an offset and a count the
    kernel allows it replies the bytes of the content from the offset on, at
    most [size] of them and none past the end, never leaves the buffer, and
    changes nothing but the access time (nothing at all past the end). *)
Lemma ReadAndReply_spec e w p f c size off :
  get_inode w p = Some f -> file_repr f c -> 0 <= off -> 0 <= size ->
  off + size < 2 ^ 64 ->
  File_ReadAndReply p size off e w
  = Ok tt (add_reply (reply_buf (posix_read c off size))
      (if zlen c <? off then w
       else put_inode p (Some (on_attr (set_st_atim (now e)) f)) w)).
Proof.
  intros Hf Hr Hoff Hsize Hlim.
  destruct (repr_buf _ _ Hr) as (buf & Hbuf & Hlen & Hc & Hlt & Hs & Hb).
  assert (Hob := get_nblocks_bounds (zlen c) BufBlockSize ltac:(done) ltac:(lia)
                   ltac:(unfold BufBlockSize; lia)).
  unfold File_ReadAndReply, mbind, M_bind. simpl.
  rewrite (deref_run _ _ _ _ Hf), Hbuf. simpl. rewrite Hs. unfold posix_read.
  destruct (zlen c <? off) eqn:E; zbool.
  { rewrite (drop_ge c) by lia. by rewrite take_nil. }
  rewrite (update_run _ _ _ _ f) by done.
  rewrite (u64_small (zlen c)), (u64_small (off + size)), (u64_small (zlen c - off))
    by lia.
  set (n := if zlen c <? off + size then zlen c - off else size).
  rewrite mem_read_Some by (subst n; destruct (zlen c <? off + size) eqn:E'; zbool; lia).
  simpl. unfold send, modify. do 3 f_equal.
  transitivity (take (Z.to_nat n) (drop (Z.to_nat off) (take (length c) buf))).
  - rewrite skipn_firstn_comm, take_take. f_equal.
    subst n. destruct (zlen c <? off + size) eqn:E'; zbool; lia.
  - rewrite Hc. subst n. destruct (zlen c <? off + size) eqn:E'; zbool; [|done].
    rewrite !take_ge; [done|..]; rewrite length_drop; lia.
Qed.
