(* ===== verification/DirectoryOps.v ===== *)
(** * Class [Directory]: [directory.cpp]

    The children of a directory are a vector of (name, inode number) pairs in
    order of insertion. The second half gives the effect of each method on the vector, on
    the size and on the block count; [DirectorySpec] shows that they implement a finite
    map. *)

From S2P Require Import Prelude World Util Table InodeOps FileOps.

(** ** Definitions *)

(** Sizes of the library types that the code charges for an entry (x86-64,
    libstdc++). *)
Definition sizeof_Rb_tree_node_base := 32.
Definition sizeof_fuse_ino_t := 8.
Definition sizeof_std_string := 32.
Definition sizeof_std_vector := 24.

(** [dynamic_cast<Directory *>], giving the children. *)
Definition dir_children (i : inode) : option (list (string * Z)) :=
  match derived i with Directory c => Some c | _ => None end.

Definition set_children (c : list (string * Z)) (i : inode) : inode :=
  set_derived (Directory c) i.

(** [find], then a read, an assignment or an erasure through the iterator. *)
Fixpoint dir_find (name : string) (l : list (string * Z)) : option Z :=
  match l with
  | [] => None
  | (n, i) :: l' => if String.eqb n name then Some i else dir_find name l'
  end.
Fixpoint dir_assign (name : string) (ino : Z) (l : list (string * Z))
  : list (string * Z) :=
  match l with
  | [] => []
  | (n, i) :: l' =>
      if String.eqb n name then (n, ino) :: l' else (n, i) :: dir_assign name ino l'
  end.
Fixpoint dir_erase (name : string) (l : list (string * Z)) : list (string * Z) :=
  match l with
  | [] => []
  | (n, i) :: l' => if String.eqb n name then l' else (n, i) :: dir_erase name l'
  end.

Definition elem_size (name : string) : Z :=
  sizeof_Rb_tree_node_base + sizeof_fuse_ino_t + sizeof_std_string
  + Z.of_nat (String.length name).

(** [delta] is an [ssize_t]. *)
Definition UpdateSize (p delta : Z) : M unit :=
  d ← deref p;
  let size := st_size (attr d) in
  if (delta <? 0) && (size <? - delta) then fail crash_assert
  else
    let oldBlocks := u64 (st_blocks (attr d)) in
    let newSize := u64 (size + delta) in
    let newBlocks := get_nblocks newSize BufBlockSize in
    update p (on_attr (set_st_size (s64 newSize)));;
    if negb (newBlocks =? oldBlocks) then
      update p (on_attr (set_st_blocks (s64 newBlocks)));;
      UpdateUsedBlocks (s64 (newBlocks - oldBlocks))
    else mret tt.

Definition Directory_Initialize (p ino mode nlink gid uid : Z) : M unit :=
  Inode_Initialize p ino mode nlink gid uid;;
  UpdateSize p sizeof_std_vector.

Definition child_number (l : list (string * Z)) (name : string) : Z :=
  default INO_NOTFOUND (dir_find name l).

Definition ChildInodeNumberWithName (p : Z) (name : string) : M Z :=
  d ← deref p; l ← get_or crash_null (dir_children d);
  mret (child_number l name).

(** The results are the [int]s the methods return. *)
Definition AddChild (p : Z) (name : string) (ino : Z) : M Z :=
  d ← deref p; l ← get_or crash_null (dir_children d);
  match dir_find name l with
  | Some _ => mret (- EEXIST)
  | None =>
      room ← CheckHasSpaceFor (Some d) (elem_size name);
      if negb room then mret (- ENOSPC)
      else
        update p (set_children (l ++ [(name, ino)]));;
        UpdateSize p (elem_size name);;
        mret 0
  end.

Definition UpdateChild (p : Z) (name : string) (ino : Z) : M Z :=
  e ← ask; d ← deref p; l ← get_or crash_null (dir_children d);
  match dir_find name l with
  | None => mret (- ENOENT)
  | Some _ =>
      update p (set_children (dir_assign name ino l));;
      update p (on_attr (touch_mc (now e)));;
      mret 0
  end.

Definition RemoveChild (p : Z) (name : string) : M Z :=
  e ← ask; d ← deref p; l ← get_or crash_null (dir_children d);
  match dir_find name l with
  | None => mret (- ENOENT)
  | Some _ =>
      update p (set_children (dir_erase name l));;
      UpdateSize p (s64 (- elem_size name));;
      update p (on_attr (touch_mc (now e)));;
      mret 0
  end.

Definition Directory_WriteAndReply : M unit := reply_error EISDIR.
Definition Directory_ReadAndReply : M unit := reply_error EISDIR.

(** *** Listing *)

(** The key of a cookie: its bits 16 to 31. *)
Definition cookie_key (c : Z) : Z := Z.shiftr (Z.land c 0xffff0000) 16.

(** The loop that draws a key with no context; [None] when the given random
    numbers are used up. *)
Fixpoint draw_key (rs : list Z) (states : gmap Z ReadDirCtx) : option Z :=
  match rs with
  | [] => None
  | r :: rs' =>
      let key := Z.land r 0xffff in
      match states !! key with
      | Some _ => draw_key rs' states
      | None => Some key
      end
  end.

(** The result is the key of the context; [None] is [std::out_of_range]. *)
Definition PrepareReaddir (p : Z) (c : Z) : M (option Z) :=
  w ← get;
  if negb (c =? 0) then
    match readdirStates w !! cookie_key c with
    | Some _ => mret (Some (cookie_key c))
    | None => mret None
    end
  else
    e ← ask; d ← deref p; l ← get_or crash_null (dir_children d);
    key ← get_or crash_spin (draw_key (rands e) (readdirStates w));
    modify (set_readdirStates
      (<[key := mkReadDirCtx (Z.shiftl key 16) 0 l]> (readdirStates w)));;
    mret (Some key).

Definition at_end (ctx : ReadDirCtx) : bool := it ctx =? zlen (children ctx).

Definition RecycleStates : M unit :=
  modify (fun w => set_readdirStates
    (filter (fun kv => at_end kv.2 = false) (readdirStates w)) w).

Definition is_dot (name : string) : bool :=
  String.eqb name "." || String.eqb name "..".

(** Is the child gone, or unlinked? *)
Definition child_dead (w : world) (ino : Z) : bool :=
  match get_inode w ino with Some i => HasNoLinks i | None => true end.

Definition IsEmpty (p : Z) : M bool :=
  d ← deref p; l ← get_or crash_null (dir_children d); w ← get;
  mret (forallb (fun c => is_dot c.1 || child_dead w c.2) l).

(** ** The meaning of a directory *)

Definition dir_map (l : list (string * Z)) : gmap string Z := list_to_map l.

Definition dir_bytes (l : list (string * Z)) : Z :=
  sizeof_std_vector + foldr (fun c n => elem_size c.1 + n) 0 l.

(** The object [i] is a directory with children [l], and its size and block
    count are those of [l]. *)
Definition dir_repr (i : inode) (l : list (string * Z)) : Prop :=
  derived i = Directory l /\ NoDup l.*1 /\
  st_size (attr i) = dir_bytes l /\ dir_bytes l < 2 ^ 63 /\
  st_blocks (attr i) = get_nblocks (dir_bytes l) BufBlockSize.

(** ** Children as a finite map *)

Lemma dir_find_map name l : dir_find name l = dir_map l !! name.
Proof.
  unfold dir_map. induction l as [|[n i] l IH]; simpl; [by rewrite lookup_empty|].
  destruct (String.eqb n name) eqn:E; zbool.
  - subst n. by rewrite lookup_insert_eq.
  - by rewrite lookup_insert_ne.
Qed.

Lemma dir_find_None name l : dir_find name l = None <-> name ∉ l.*1.
Proof.
  rewrite dir_find_map. unfold dir_map. split.
  - intros H. by apply not_elem_of_list_to_map.
  - intros H. by apply not_elem_of_list_to_map.
Qed.

Lemma dir_find_is_Some name l : is_Some (dir_find name l) <-> name ∈ l.*1.
Proof.
  destruct (dir_find name l) eqn:E.
  - split; [|eauto]. intros _. destruct (decide (name ∈ l.*1)); [done|].
    by apply dir_find_None in n as [=E']; congruence.
  - split; [by intros [? ?]|]. intros H. by apply dir_find_None in E.
Qed.

Lemma dir_assign_names name ino l : (dir_assign name ino l).*1 = l.*1.
Proof.
  induction l as [|[n i] l IH]; simpl; [done|].
  destruct (String.eqb n name); simpl; [done|by f_equal].
Qed.

Lemma dir_erase_sublist name l : dir_erase name l `sublist_of` l.
Proof.
  induction l as [|[n i] l IH]; simpl; [done|].
  destruct (String.eqb n name); [by apply sublist_cons|by apply sublist_skip].
Qed.

Lemma dir_erase_nodup name l : NoDup l.*1 -> NoDup (dir_erase name l).*1.
Proof.
  intros H. eapply sublist_NoDup; [exact H|]. apply fmap_sublist, dir_erase_sublist.
Qed.

Lemma children_assign name ino l :
  NoDup l.*1 -> name ∈ l.*1 ->
  dir_map (dir_assign name ino l) = <[name := ino]> (dir_map l).
Proof.
  unfold dir_map. intros Hnd.
  induction l as [|[n i] l IH]; simpl in *; [by intros ?%elem_of_nil|].
  apply list.NoDup_cons in Hnd as [? Hnd]. intros Hin.
  destruct (String.eqb n name) eqn:E; zbool; simpl.
  - subst. by rewrite insert_insert_eq.
  - rewrite insert_insert_ne by done. f_equal. apply IH; [done|].
    by apply elem_of_cons in Hin as [->|?].
Qed.

Lemma children_delete name l :
  NoDup l.*1 -> dir_map (dir_erase name l) = delete name (dir_map l).
Proof.
  unfold dir_map. intros Hnd.
  induction l as [|[n i] l IH]; simpl in *; [by rewrite delete_empty|].
  apply list.NoDup_cons in Hnd as [Hn Hnd].
  destruct (String.eqb n name) eqn:E; zbool; simpl.
  - subst. rewrite delete_insert_eq. symmetry. apply delete_id.
    by apply not_elem_of_list_to_map.
  - rewrite delete_insert_ne by done. f_equal. by apply IH.
Qed.

(** ** The methods on a well-formed directory *)

(** The world after the object [p] became [i] and [n] more blocks are in use. *)
Definition resized (w : world) (p n : Z) (i : inode) : world :=
  if n =? 0 then put_inode p (Some i) w else charged w p n i.

Definition resize_attr (size : Z) (a : stat) : stat :=
  set_st_blocks (get_nblocks size BufBlockSize) (set_st_size size a).

Lemma put_put_inode p o o' w : put_inode p o (put_inode p o' w) = put_inode p o w.
Proof.
  unfold put_inode, set_Inodes. simpl. by rewrite list_insert_insert_eq.
Qed.

Lemma put_same w p i : get_inode w p = Some i -> put_inode p (Some i) w = w.
Proof.
  intros [_ Hi]%get_inode_slot. unfold put_inode. rewrite list_insert_id by done.
  by destruct w.
Qed.

Lemma get_put_eq w p i j :
  get_inode w p = Some i -> get_inode (put_inode p (Some j) w) p = Some j.
Proof.
  intros H. rewrite get_put_inode by (by eapply get_inode_range). by rewrite decide_True.
Qed.

Lemma resized_put w p n o i : resized (put_inode p o w) p n i = resized w p n i.
Proof.
  unfold resized, charged. destruct (n =? 0); [by rewrite put_put_inode|].
  change (set_stbuf ?s (put_inode p o w)) with (put_inode p o (set_stbuf s w)).
  by rewrite put_put_inode.
Qed.

Lemma get_resized w p n d i :
  get_inode w p = Some d -> get_inode (resized w p n i) p = Some i.
Proof.
  intros H. unfold resized, charged. by destruct (n =? 0); apply get_put_eq with d.
Qed.

Lemma put_resized w p n i j : put_inode p (Some j) (resized w p n i) = resized w p n j.
Proof.
  unfold resized, charged. destruct (n =? 0); by rewrite put_put_inode.
Qed.

Lemma set_st_blocks_id v a : st_blocks a = v -> set_st_blocks v a = a.
Proof. intros <-. by destruct a. Qed.

Lemma on_attr_on_attr f g i : on_attr f (on_attr g i) = on_attr (fun a => f (g a)) i.
Proof. by destruct i as [[? ? [] ?] ?]. Qed.

Lemma on_attr_ext f g i : f (attr i) = g (attr i) -> on_attr f i = on_attr g i.
Proof. unfold on_attr, attr. by intros ->. Qed.

Lemma UpdateSize_run e w p d delta :
  get_inode w p = Some d ->
  let size := st_size (attr d) in
  st_blocks (attr d) = get_nblocks size BufBlockSize ->
  0 <= size < 2 ^ 63 -> 0 <= size + delta < 2 ^ 63 ->
  UpdateSize p delta e w
  = Ok tt (resized w p (get_nblocks (size + delta) BufBlockSize
                        - get_nblocks size BufBlockSize)
             (on_attr (resize_attr (size + delta)) d)).
Proof.
  intros Hd size Hb Hs Hs'. unfold UpdateSize, mbind, M_bind.
  rewrite (deref_run _ _ _ _ Hd). fold size. rewrite Hb.
  assert (Hnb := nblocks_small _ Hs). assert (Hnb' := nblocks_small _ Hs').
  replace ((delta <? 0) && (size <? - delta)) with false
    by (symmetry; apply andb_false_iff; rewrite !Z.ltb_ge; lia).
  rewrite (u64_small (size + delta)), (u64_small (get_nblocks size _)) by lia.
  rewrite (update_run _ _ _ _ d), (s64_small (size + delta)) by (done || lia).
  unfold resized.
  destruct (Z.eqb_spec (get_nblocks (size + delta) BufBlockSize)
              (get_nblocks size BufBlockSize)) as [En|En]; simpl.
  - rewrite En, Z.sub_diag. simpl. unfold mret, M_ret. do 3 f_equal.
    apply on_attr_ext. unfold resize_attr. rewrite En. symmetry.
    by apply set_st_blocks_id.
  - rewrite (proj2 (Z.eqb_neq _ 0)) by lia.
    rewrite (update_run _ _ _ _ _ (get_put_eq _ _ _ _ Hd)).
    rewrite (s64_small (get_nblocks (size + delta) _)), s64_small by lia.
    rewrite put_put_inode, on_attr_on_attr. done.
Qed.

Lemma elem_size_bounds name : 72 <= elem_size name.
Proof.
  unfold elem_size, sizeof_Rb_tree_node_base, sizeof_fuse_ino_t, sizeof_std_string. lia.
Qed.

Lemma dir_bytes_nonneg l : sizeof_std_vector <= dir_bytes l.
Proof.
  unfold dir_bytes. induction l as [|c l IH]; simpl; [lia|].
  pose proof (elem_size_bounds c.1). lia.
Qed.

Lemma dir_bytes_snoc l name ino :
  dir_bytes (l ++ [(name, ino)]) = dir_bytes l + elem_size name.
Proof.
  unfold dir_bytes. induction l as [|c l IH]; simpl in *; lia.
Qed.

Lemma dir_bytes_assign name ino l : dir_bytes (dir_assign name ino l) = dir_bytes l.
Proof.
  unfold dir_bytes. induction l as [|[n i] l IH]; simpl; [done|].
  destruct (String.eqb n name); simpl in *; lia.
Qed.

Lemma dir_bytes_erase name l :
  name ∈ l.*1 -> dir_bytes (dir_erase name l) = dir_bytes l - elem_size name.
Proof.
  unfold dir_bytes. induction l as [|[n i] l IH]; simpl; [by intros ?%elem_of_nil|].
  intros Hin. destruct (String.eqb n name) eqn:E; zbool; simpl.
  - subst n. lia.
  - apply elem_of_cons in Hin as [->|Hin]; [done|]. specialize (IH Hin). lia.
Qed.

Lemma repr_children d l : dir_repr d l -> dir_children d = Some l.
Proof. intros (Hd & _). unfold dir_children. by rewrite Hd. Qed.

(** A directory whose children and size were just set. *)
Lemma resized_repr d l :
  NoDup l.*1 -> dir_bytes l < 2 ^ 63 ->
  dir_repr (on_attr (resize_attr (dir_bytes l)) (set_children l d)) l.
Proof. intros. repeat split; done. Qed.

(** [AddChild] on a directory with children [l]: a name in use gives
    [-EEXIST] and a missing block [-ENOSPC], both without any change; otherwise
    the entry is appended, the size grows by the size of the entry, the block
    count follows and the counters are charged with the difference. *)
Lemma AddChild_spec e w p d l name ino :
  get_inode w p = Some d -> dir_repr d l -> dir_bytes l + elem_size name < 2 ^ 63 ->
  let l' := l ++ [(name, ino)] in
  if bool_decide (name ∈ l.*1) then AddChild p name ino e w = Ok (- EEXIST) w
  else if negb (has_space_for (m_stbuf w) (Some d) (elem_size name))
  then AddChild p name ino e w = Ok (- ENOSPC) w
  else let d' := on_attr (resize_attr (dir_bytes l')) (set_children l' d) in
    AddChild p name ino e w
    = Ok 0 (resized w p (get_nblocks (dir_bytes l') BufBlockSize
                         - get_nblocks (dir_bytes l) BufBlockSize) d') /\
    dir_repr d' l'.
Proof.
  intros Hd Hr Hlim l'. pose proof Hr as (Hder & Hnd & Hs & Hlt & Hb).
  pose proof (dir_bytes_nonneg l). pose proof (elem_size_bounds name).
  unfold sizeof_std_vector in *.
  assert (Hl' : dir_bytes l' = dir_bytes l + elem_size name) by apply dir_bytes_snoc.
  unfold AddChild, mbind, M_bind.
  rewrite (deref_run _ _ _ _ Hd), (repr_children _ _ Hr). simpl.
  case_bool_decide as Hin.
  { apply dir_find_is_Some in Hin as [i Hi]. by rewrite Hi. }
  rewrite (proj2 (dir_find_None _ _) Hin). simpl.
  destruct (has_space_for _ _ _); [|done]. simpl. split.
  - rewrite (update_run _ _ _ _ d) by done.
    rewrite (UpdateSize_run _ _ _ _ _ (get_put_eq _ _ _ _ Hd)).
    all: change (attr (set_children _ d)) with (attr d); rewrite ?Hs; try done; try lia.
    rewrite Hl'. by rewrite resized_put.
  - apply resized_repr; [|lia]. subst l'. rewrite fmap_app. apply list.NoDup_app.
    split; [done|]. split; [|by apply NoDup_singleton]. simpl. set_solver.
Qed.

(** [RemoveChild] on a directory with children [l]: an unknown name gives
    [-ENOENT] without any change; otherwise the entry disappears, the size
    shrinks by the size of the entry (the assertion against a negative size
    holds), blocks no longer needed go back to the counters, and the
    modification and change times are set. *)
Lemma RemoveChild_spec e w p d l name :
  get_inode w p = Some d -> dir_repr d l -> elem_size name < 2 ^ 63 ->
  let l' := dir_erase name l in
  if bool_decide (name ∈ l.*1) then
    let d' := on_attr (fun a => touch_mc (now e) (resize_attr (dir_bytes l') a))
                (set_children l' d) in
    RemoveChild p name e w
    = Ok 0 (resized w p (get_nblocks (dir_bytes l') BufBlockSize
                         - get_nblocks (dir_bytes l) BufBlockSize) d') /\
    dir_repr d' l'
  else RemoveChild p name e w = Ok (- ENOENT) w.
Proof.
  intros Hd Hr Hn l'. pose proof Hr as (Hder & Hnd & Hs & Hlt & Hb).
  pose proof (dir_bytes_nonneg l). pose proof (dir_bytes_nonneg l').
  pose proof (elem_size_bounds name). unfold sizeof_std_vector in *.
  unfold RemoveChild, mbind, M_bind. simpl.
  rewrite (deref_run _ _ _ _ Hd), (repr_children _ _ Hr). simpl.
  case_bool_decide as Hin; [|by rewrite (proj2 (dir_find_None _ _) Hin)].
  assert (Hl' : dir_bytes l' = dir_bytes l + - elem_size name)
    by (subst l'; rewrite dir_bytes_erase by done; lia).
  apply dir_find_is_Some in Hin as [i Hi]. rewrite Hi. split.
  - rewrite (update_run _ _ _ _ d), (s64_small (- elem_size name)) by (done || lia).
    rewrite (UpdateSize_run _ _ _ _ _ (get_put_eq _ _ _ _ Hd)).
    all: change (attr (set_children _ d)) with (attr d); rewrite ?Hs; try done; try lia.
    rewrite resized_put. fold l'. rewrite <- Hl'.
    rewrite (update_run _ _ _ _ _ (get_resized _ _ _ _ _ Hd)).
    by rewrite put_resized, on_attr_on_attr.
  - repeat split; simpl; try done; [by apply dir_erase_nodup|lia].
Qed.

(** [UpdateChild] on a directory with children [l]: an unknown name gives
    [-ENOENT] without any change; otherwise the entry gets the new number, and
    only the modification and change times of the directory change besides. *)
Lemma UpdateChild_spec e w p d l name ino :
  get_inode w p = Some d -> dir_repr d l ->
  let l' := dir_assign name ino l in
  if bool_decide (name ∈ l.*1) then
    let d' := on_attr (touch_mc (now e)) (set_children l' d) in
    UpdateChild p name ino e w = Ok 0 (put_inode p (Some d') w) /\ dir_repr d' l'
  else UpdateChild p name ino e w = Ok (- ENOENT) w.
Proof.
  intros Hd Hr l'. pose proof Hr as (Hder & Hnd & Hs & Hlt & Hb).
  unfold UpdateChild, mbind, M_bind. simpl.
  rewrite (deref_run _ _ _ _ Hd), (repr_children _ _ Hr). simpl.
  case_bool_decide as Hin; [|by rewrite (proj2 (dir_find_None _ _) Hin)].
  apply dir_find_is_Some in Hin as [i Hi]. rewrite Hi. split.
  - rewrite (update_run _ _ _ _ d) by done.
    rewrite (update_run _ _ _ _ _ (get_put_eq _ _ _ _ Hd)).
    by rewrite put_put_inode.
  - subst l'. repeat split; simpl; rewrite ?dir_assign_names, ?dir_bytes_assign; done.
Qed.
