(* ===== verification/DirectorySpec.v ===== *)
(** * A directory as a finite map

    What [Directory] promises to the handlers: its methods, called in any sequence, behave
    as the operations of a finite map from names to inode numbers whose size, in bytes and
    in blocks, follows from its names. The vector of entries with [find], [push_back],
    assignment and [erase] implements it. *)

From S2P Require Import Prelude World Util Table InodeOps FileOps DirectoryOps.

(** ** The abstract directory *)







(** ** The methods *)





(** ** The relation *)










(** ** Refinement *)


Section call.
Context (e : env) (w : world) (p : Z) (d : inode) (l : list (string * Z)).
Context (Hd : get_inode w p = Some d) (Hr : dir_repr d l).






End call.


