(* ===== verification/Nodes.v ===== *)
(** * Symbolic links, special inodes, and the creation of nodes

    [symlink.cpp], [special_inode.cpp], the virtual methods of the inode
    classes, and [RegisterInode] and [do_create_node] of
    [fuse_cpp_ramfs.cpp]. *)

From S2P Require Import Prelude World Util Table InodeOps FileOps DirectoryOps.

(** ** Definitions *)

(** *** Constructors; [Initialize] sets the members they leave open. *)

Definition zero_time := Timespec 0 0.
Definition zero_stat : stat :=
  mkStat 0 0 0 0 0 0 0 0 0 0 zero_time zero_time zero_time.
Definition zero_entry : fuse_entry_param := mkEntry 0 0 zero_stat 0 0.
Definition new_inode (d : inode_class) : inode :=
  mkObject (mkInode false 0 zero_entry []) d.

Definition new_SpecialInode (type : SpecialInodeTypes) (dev : Z) : inode :=
  let i := on_attr (set_st_dev dev) (new_inode (SpecialInode type)) in
  match type with
  | SPECIAL_INODE_TYPE_NO_BLOCK => on_attr (fun _ => zero_stat) i
  | _ => i
  end.

Definition Type_ (i : inode) : option SpecialInodeTypes :=
  match derived i with SpecialInode t => Some t | _ => None end.

Definition SpecialInode_WriteAndReply : M unit := reply_error ENOENT.
Definition SpecialInode_ReadAndReply : M unit := reply_error ENOENT.
Definition SymLink_WriteAndReply : M unit := reply_error EISDIR.
Definition SymLink_ReadAndReply : M unit := reply_error EISDIR.

(** The size and block count of a link. *)
Definition symlink_attr (link : string) (a : stat) : stat :=
  let a := set_st_size (Z.of_nat (String.length link)) a in
  let a := set_st_blocks (st_size a / st_blksize a) a in
  if st_blksize a * st_blocks a <? st_size a
  then set_st_blocks (st_blocks a + 1) a else a.

Definition SymLink_Initialize (p : Z) (link : string) (ino mode nlink gid uid : Z)
  : M unit :=
  Inode_Initialize p ino mode nlink gid uid;;
  update p (on_attr (symlink_attr link)).

(** *** Virtual methods *)

Definition Initialize (p ino mode nlink gid uid : Z) : M unit :=
  i ← deref p;
  match derived i with
  | File _ | SpecialInode _ => Inode_Initialize p ino mode nlink gid uid
  | Directory _ => Directory_Initialize p ino mode nlink gid uid
  | SymLink link => SymLink_Initialize p link ino mode nlink gid uid
  end.

Definition WriteAndReply (p : Z) (data : list byte) (off : Z) : M unit :=
  i ← deref p;
  match derived i with
  | File _ => File_WriteAndReply p data off
  | Directory _ => Directory_WriteAndReply
  | SpecialInode _ => SpecialInode_WriteAndReply
  | SymLink _ => SymLink_WriteAndReply
  end.

Definition ReadAndReply (p size off : Z) : M unit :=
  i ← deref p;
  match derived i with
  | File _ => File_ReadAndReply p size off
  | Directory _ => Directory_ReadAndReply
  | SpecialInode _ => SpecialInode_ReadAndReply
  | SymLink _ => SymLink_ReadAndReply
  end.

(** *** Registration and creation *)

(** The number given to a new object: one from the queue of deleted numbers, or
    the next index of the table. *)
Definition take_number (i : inode) : M Z :=
  w ← get;
  match DeletedInodes w with
  | [] => AddInode i
  | _ => ino ← PopOneDeletedInode; UpdateInode ino i;; mret ino
  end.

Definition RegisterInode (i : inode) (mode nlink gid uid : Z) : M Z :=
  ino ← take_number i;
  UpdateUsedInodes 1;;
  Initialize ino ino mode nlink gid uid;;
  i' ← deref ino;
  UpdateUsedBlocks (s64 (UsedBlocks i'));;
  mret ino.

(** The object for a mode and its first link count; [None] is [-EINVAL]. *)
Definition make_node (mode dev : Z) (symlink : option string) : option (inode * Z) :=
  if S_ISREG mode then Some (new_inode (File []), 1)
  else if S_ISDIR mode then Some (new_inode (Directory []), 2)
  else if S_ISCHR mode then Some (new_SpecialInode SPECIAL_INODE_CHAR_DEV dev, 1)
  else if S_ISBLK mode then Some (new_SpecialInode SPECIAL_INODE_BLOCK_DEV dev, 1)
  else if S_ISFIFO mode then Some (new_SpecialInode SPECIAL_INODE_FIFO 0, 1)
  else if S_ISSOCK mode then Some (new_SpecialInode SPECIAL_INODE_SOCK 0, 1)
  else if S_ISLNK mode then
    match symlink with
    | None => None
    | Some link => Some (new_inode (SymLink link), 1)
    end
  else None.

(** The result is the new inode number or a negative error code. *)
Definition do_create_node (parent : Z) (name : string) (mode dev : Z)
    (symlink : option string) : M Z :=
  e ← ask;
  match make_node mode dev symlink with
  | None => mret (- EINVAL)
  | Some (new_node, links) =>
      if negb (can_new e) then mret (- ENOSPC)
      else
        free ← GetFreeInodes;
        if free <=? 0 then mret (- ENOSPC)
        else
          ino ← RegisterInode new_node mode links (ctx_gid e) (ctx_uid e);
          (if S_ISDIR mode then
             AddChild ino "." ino;;
             par ← deref parent;
             AddChild ino ".." (GetIno par);;
             mret tt
           else mret tt);;
          ret ← AddChild parent name ino;
          if ret <? 0 then
            UpdateUsedInodes (-1);;
            n ← deref ino;
            UpdateUsedBlocks (s64 (UsedBlocks n));;
            DeleteInode ino;;
            mret ret
          else
            (if S_ISDIR mode then IncrementLinkCount parent else mret tt);;
            mret (s64 ino)
  end.
