(* ===== verification/Handlers.v ===== *)
(** * The FUSE operations: [fuse_cpp_ramfs.cpp]

    One definition per low-level operation, the constructor and [FuseInit], and
    the table [FuseOps] as a dispatch on requests. A request is answered by the
    replies that the handler adds to the world. *)

From S2P Require Import Prelude World Util Table InodeOps FileOps DirectoryOps Nodes.

(** ** Definitions *)

(** *** Construction and mount *)

Definition initial_stbuf (blocks inodes : Z) : statvfs :=
  let blocks := if blocks <=? 0 then kTotalBlocks else blocks in
  let inodes := if inodes <=? 0 then kTotalInodes else inodes in
  mkStatvfs BufBlockSize BufBlockSize blocks blocks blocks inodes inodes inodes
    kFilesystemId 0 kMaxFilenameLength.

Definition construct (blocks inodes : Z) : world :=
  mkWorld [] [] (initial_stbuf blocks inodes) ∅ ∅ (mkHeap ∅ 1) [] [].

Definition reset_free (s : statvfs) : statvfs :=
  mkStatvfs (f_bsize s) (f_frsize s) (f_blocks s) (f_blocks s) (f_blocks s)
    (f_files s) (f_files s) (f_files s) (f_fsid s) 0 (f_namemax s).

(** [gid], [uid] and [umask] are those of the process. *)
Definition FuseInit (gid uid umask : Z) : M unit :=
  modify (fun w => set_stbuf (reset_free (m_stbuf w)) w);;
  RegisterInode (new_SpecialInode SPECIAL_INODE_TYPE_NO_BLOCK 0) 0 0 gid uid;;
  let rootmode := Z.land 0x1ff (Z.lnot umask) in
  rootno ← RegisterInode (new_inode (Directory [])) (Z.lor S_IFDIR rootmode) 2 gid uid;
  AddChild rootno "." rootno;;
  AddChild rootno ".." rootno;;
  mret tt.

(** [delete] of every object of the table, which keeps the pointers: no request is
    served afterwards. The result is the list of the objects that were freed. *)
Definition FuseDestroy : M (list inode) := w ← get; mret (omap id (Inodes w)).

(** *** Common beginnings of the handlers *)

(** [GetInode]; [ENOENT] for a null pointer or an object without links. *)
Definition with_live (ino : Z) (k : inode -> M unit) : M unit :=
  o ← GetInode ino;
  match o with
  | None => reply_error ENOENT
  | Some i => if HasNoLinks i then reply_error ENOENT else k i
  end.

(** [dynamic_cast<Directory *>]; [ENOTDIR] when it gives null. *)
Definition with_dir (i : inode) (k : M unit) : M unit :=
  match dir_children i with
  | None => reply_error ENOTDIR
  | Some _ => k
  end.

(** *** Lookup and attributes *)

Definition FuseLookup (parent : Z) (name : string) : M unit :=
  with_live parent (fun parentInode => with_dir parentInode (
    ino ← ChildInodeNumberWithName parent name;
    if ino =? INO_NOTFOUND then reply_error ENOENT
    else with_live ino (fun _ => ReplyEntry ino))).

Definition FuseForget (ino nlookup : Z) : M unit :=
  o ← GetInode ino;
  match o with
  | None => mret tt
  | Some _ =>
      Forget ino nlookup;;
      i ← deref ino;
      if Forgotten i then
        if HasNoLinks i then
          let blocks_freed := UsedBlocks i in
          DeleteInode ino;;
          UpdateUsedInodes (-1);;
          UpdateUsedBlocks (s64 (- blocks_freed))
        else mret tt
      else mret tt
  end.

Definition FuseGetAttr (ino : Z) : M unit :=
  with_live ino (fun _ => ReplyAttr ino).

Definition FuseSetAttr (ino : Z) (new : stat) (to_set : Z) : M unit :=
  with_live ino (fun i =>
    if flag_set to_set FUSE_SET_ATTR_SIZE then
      match file_buf i with
      | None =>
          if S_ISDIR (GetMode i) then reply_error EISDIR else reply_error EINVAL
      | Some _ =>
          ret ← FileTruncate ino (u64 (st_size new));
          if ret =? 0 then ReplyAttr ino else reply_error ret
      end
    else ReplySetAttr ino new to_set).

Definition FuseAccess (ino mask : Z) : M unit :=
  with_live ino (fun _ =>
    e ← ask; ReplyAccess ino mask (ctx_gid e) (ctx_uid e)).

Definition FuseStatfs : M unit := s ← FsStat; send (reply_statfs s).

(** *** Open files and directories *)

Definition FuseOpen (ino : Z) : M unit :=
  with_live ino (fun i =>
    match dir_children i with
    | Some _ => reply_error EISDIR
    | None => send reply_open
    end).

Definition FuseRelease (ino : Z) : M unit :=
  with_live ino (fun i =>
    match dir_children i with
    | Some _ => reply_error EISDIR
    | None => reply_error 0
    end).

Definition FuseOpenDir (ino : Z) : M unit :=
  with_live ino (fun i =>
    match file_buf i with
    | Some _ => reply_error ENOTDIR
    | None => send reply_open
    end).

Definition FuseReleaseDir (ino : Z) : M unit :=
  with_live ino (fun i =>
    match file_buf i with
    | Some _ => reply_error ENOTDIR
    | None => reply_error 0
    end).

Definition FuseFlush : M unit := reply_error 0.

Definition FuseFsync (ino : Z) : M unit :=
  o ← GetInode ino;
  match o with
  | None => reply_error ENOENT
  | Some _ => reply_error 0
  end.

Definition FuseFsyncDir (ino : Z) : M unit :=
  with_live ino (fun i => with_dir i (reply_error 0)).

Definition FuseGetLock : M unit := mret tt.

(** *** Data; [None] is a null buffer *)

Definition FuseWrite (ino : Z) (buf : option (list byte)) (off : Z) : M unit :=
  match buf with
  | None => reply_error EINVAL
  | Some data => with_live ino (fun _ => WriteAndReply ino data off)
  end.

Definition FuseRead (ino size off : Z) : M unit :=
  with_live ino (fun _ => ReadAndReply ino size off).

(** *** Creation *)

(** The replies that follow [do_create_node]. *)
Definition reply_created (ino : Z) : M unit :=
  if 0 <? ino then ReplyEntry ino else reply_error (- ino).

Definition FuseMknod (parent : Z) (name : string) (mode rdev : Z) : M unit :=
  with_live parent (fun parentInode => with_dir parentInode (
    free ← GetFreeInodes;
    if free <=? 0 then reply_error ENOSPC
    else
      ino ← ChildInodeNumberWithName parent name;
      if negb (ino =? INO_NOTFOUND) then reply_error EEXIST
      else
        r ← do_create_node parent name mode rdev None;
        reply_created r)).

Definition FuseMkdir (parent : Z) (name : string) (mode : Z) : M unit :=
  with_live parent (fun parentInode => with_dir parentInode (
    free ← GetFreeInodes;
    if free <=? 0 then reply_error ENOSPC
    else
      ino ← ChildInodeNumberWithName parent name;
      if negb (ino =? INO_NOTFOUND) then reply_error EEXIST
      else
        r ← do_create_node parent name (Z.lor mode S_IFDIR) 0 None;
        reply_created r)).

Definition PATH_MAX := 4096.

(** The two space checks reply but do not return. *)
Definition FuseSymlink (link : string) (parent : Z) (name : string) : M unit :=
  with_live parent (fun parentInode => with_dir parentInode (
    room ← CheckHasSpaceFor None (Z.min (Z.of_nat (String.length name)) PATH_MAX);
    (if negb room then reply_error ENOSPC else mret tt);;
    free ← GetFreeInodes;
    (if free <=? 0 then reply_error ENOSPC else mret tt);;
    ino ← ChildInodeNumberWithName parent name;
    if negb (ino =? INO_NOTFOUND) then reply_error EEXIST
    else
      r ← do_create_node parent name (Z.lor 0x1ff S_IFLNK) 0 (Some link);
      reply_created r)).

Definition FuseCreate (parent : Z) (name : string) (mode : Z) : M unit :=
  with_live parent (fun parentInode => with_dir parentInode (
    r ← do_create_node parent name (Z.lor mode S_IFREG) 0 None;
    if 0 <? r then ReplyCreate r else reply_error (- r))).

Definition FuseReadLink (ino : Z) : M unit :=
  with_live ino (fun i =>
    match derived i with
    | SymLink link => send (reply_readlink link)
    | _ => reply_error EINVAL
    end).

(** *** Links and removal *)

Definition FuseLink (ino newparent : Z) (newname : string) : M unit :=
  with_live ino (fun _ => with_live newparent (fun parent => with_dir parent (
    existingIno ← ChildInodeNumberWithName newparent newname;
    if negb (existingIno =? INO_NOTFOUND) then reply_error EEXIST
    else
      ret ← AddChild newparent newname ino;
      if ret <? 0 then reply_error (- ret)
      else
        IncrementLinkCount ino;;
        ReplyEntry ino))).

Definition FuseUnlink (parent : Z) (name : string) : M unit :=
  with_live parent (fun parentInode => with_dir parentInode (
    ino ← ChildInodeNumberWithName parent name;
    if ino =? INO_NOTFOUND then reply_error ENOENT
    else
      RemoveChild parent name;;
      o ← GetInode ino;
      match o with
      | None => fail crash_assert
      | Some _ => DecrementLinkCount ino;; reply_error 0
      end)).

(** [while (dir_p->NumLinks() > 0) dir_p->DecrementLinkCount();]: each pass
    lowers the count by one, so the count at the start is enough fuel. *)
Fixpoint drop_links (fuel : nat) (p : Z) : M unit :=
  match fuel with
  | O => mret tt
  | S n =>
      d ← deref p;
      if 0 <? NumLinks d then DecrementLinkCount p;; drop_links n p else mret tt
  end.

Definition FuseRmdir (parent : Z) (name : string) : M unit :=
  with_live parent (fun parentInode => with_dir parentInode (
    ino ← ChildInodeNumberWithName parent name;
    if ino =? INO_NOTFOUND then reply_error ENOENT
    else if ino =? parent then reply_error EINVAL
    else with_live ino (fun dir => with_dir dir (
      empty ← IsEmpty ino;
      if negb empty then reply_error ENOTEMPTY
      else
        RemoveChild parent name;;
        DecrementLinkCount parent;;
        d ← deref ino;
        drop_links (Z.to_nat (NumLinks d)) ino;;
        reply_error 0)))).

(** The renaming proper, once the two directories and the source are known. *)
Definition is_dir_now (p : Z) : M bool := i ← deref p; mret (S_ISDIR (GetMode i)).

Definition rename_replace (parent : Z) (name : string) (newparent : Z)
    (newname : string) (srcIno existingIno : Z) : M unit :=
  DecrementLinkCount existingIno;;
  UpdateChild newparent newname srcIno;;
  RemoveChild parent name;;
  isdir ← is_dir_now existingIno;
  (if (isdir : bool) then
     DecrementLinkCount existingIno;;
     DecrementLinkCount existingIno;;
     DecrementLinkCount parent
   else mret tt);;
  reply_error 0.

Definition rename_move (parent : Z) (name : string) (newparent : Z)
    (newname : string) (srcIno : Z) : M unit :=
  AddChild newparent newname srcIno;;
  RemoveChild parent name;;
  isdir ← is_dir_now srcIno;
  (if (isdir : bool) then
     DecrementLinkCount parent;;
     IncrementLinkCount newparent
   else mret tt);;
  reply_error 0.

Definition FuseRename (parent : Z) (name : string) (newparent : Z)
    (newname : string) : M unit :=
  with_live parent (fun parentInode =>
  with_live newparent (fun newParentInode =>
  with_dir parentInode (with_dir newParentInode (
    srcIno ← ChildInodeNumberWithName parent name;
    with_live srcIno (fun srcInode =>
      existingIno ← ChildInodeNumberWithName newparent newname;
      o ← GetInode existingIno;
      match o with
      | Some existing =>
          if 0 <? NumLinks existing then
            if S_ISDIR (GetMode srcInode) && negb (S_ISDIR (GetMode existing))
            then reply_error ENOTDIR
            else
              empty ← (if S_ISDIR (GetMode existing) then
                         match dir_children existing with
                         | None => fail crash_assert
                         | Some _ => IsEmpty existingIno
                         end
                       else mret true);
              if negb empty then reply_error ENOTEMPTY
              else if negb (S_ISDIR (GetMode srcInode)) && S_ISDIR (GetMode existing)
              then reply_error EISDIR
              else rename_replace parent name newparent newname srcIno existingIno
          else rename_move parent name newparent newname srcIno
      | None => rename_move parent name newparent newname srcIno
      end))))).

(** *** Extended attributes; [position] is 0 on Linux *)

Definition FuseSetXAttr (ino : Z) (name : string) (value : list byte) (flags : Z)
  : M unit :=
  with_live ino (fun _ => SetXAttrAndReply ino name value flags 0).
Definition FuseGetXAttr (ino : Z) (name : string) (size : Z) : M unit :=
  with_live ino (fun _ => GetXAttrAndReply ino name size 0).
Definition FuseListXAttr (ino size : Z) : M unit :=
  with_live ino (fun _ => ListXAttrAndReply ino size).
Definition FuseRemoveXAttr (ino : Z) (name : string) : M unit :=
  with_live ino (fun _ => RemoveXAttrAndReply ino name).

(** *** Reading a directory

    [direntry_size name] is what libfuse's [fuse_add_direntry] returns for an
    entry: the bytes the entry needs, whether or not they fit. *)

Section readdir.
Context (direntry_size : string -> Z).

(** The loop over the entries from the iterator on: the new iterator and cookie
    and the entries put in the buffer. Without a buffer the code hands libfuse a pointer made
    from null, which is taken as a crash at the first entry. *)
Fixpoint fill_dirents (w : world) (have_buf : bool) (bufSize : Z)
    (rest : list (string * Z)) (i c bytesAdded entriesAdded : Z) (acc : list dirent)
  : (Z * Z * list dirent) + crash :=
  match rest with
  | [] => inl (i, c, acc)
  | (name, child_ino) :: rest' =>
      if entriesAdded <? kReadDirEntriesPerResponse then
        match get_inode w child_ino with
        | None => fill_dirents w have_buf bufSize rest' (i + 1) c bytesAdded entriesAdded acc
        | Some child =>
            if HasNoLinks child then
              fill_dirents w have_buf bufSize rest' (i + 1) c bytesAdded entriesAdded acc
            else
              let stbuf := set_st_ino child_ino (GetAttr child) in
              let c := c + 1 in
              let newBytes := bytesAdded + direntry_size name in
              if bufSize <? newBytes then
                (* --(ctx->it); bytesAdded = oldSize; break; *)
                if i =? 0 then inr crash_iterator else inl (i - 1, c, acc)
              else if have_buf then
                fill_dirents w have_buf bufSize rest' (i + 1) c newBytes
                  (entriesAdded + 1) (acc ++ [mkDirent name stbuf c])
              else inr crash_null
        end
      else inl (i, c, acc)
  end.

Definition FuseReadDir (ino size off : Z) : M unit :=
  with_live ino (fun inode => with_dir inode (
    key ← PrepareReaddir ino off;
    match key with
    | None => send (reply_buf [])
    | Some key =>
        e ← ask;
        let bufSize := Z.min kReadDirBufSize size in
        let have_buf := can_alloc e bufSize in
        (if have_buf then mret tt else reply_error ENOMEM);;
        w ← get;
        ctx ← get_or crash_dangling (readdirStates w !! key);
        match fill_dirents w have_buf bufSize
                (drop (Z.to_nat (it ctx)) (children ctx)) (it ctx) (cookie ctx) 0 0 [] with
        | inr c => fail c
        | inl (i, c, entries) =>
            modify (set_readdirStates
              (<[key := mkReadDirCtx c i (children ctx)]> (readdirStates w)));;
            RecycleStates;;
            send (reply_dirents entries)
        end
    end)).
End readdir.
