(* ===== verification/CkptRestore.v ===== *)
(** * Checkpoint and restore: [cr_util.cpp] and [fuse_cpp_ramfs.cpp]

    The pool of stored states, the copy constructors of the inode classes, and
    the [checkpoint] and [restore] operations behind the [ioctl] requests. A
    copy shares the blocks of the extended attributes with the original. *)

From S2P Require Import Prelude World Util Table InodeOps FileOps DirectoryOps Nodes.

(** ** Definitions *)

(** *** The pool: [cr_util.cpp] *)

Definition empty_statvfs : statvfs := mkStatvfs 0 0 0 0 0 0 0 0 0 0 0.
Definition empty_state : verifs2_state := mkVerifs2State [] [] empty_statvfs.

Definition insert_state (key : Z) (s : verifs2_state) : M Z :=
  w ← get;
  match state_pool w !! key with
  | Some _ => mret (- EEXIST)
  | None => modify (set_state_pool (<[key := s]> (state_pool w)));; mret 0
  end.

Definition find_state (key : Z) : M verifs2_state :=
  w ← get; mret (default empty_state (state_pool w !! key)).

Definition remove_state (key : Z) : M Z :=
  w ← get;
  match state_pool w !! key with
  | None => mret (- ENOENT)
  | Some _ => modify (set_state_pool (delete key (state_pool w)));; mret 0
  end.

Definition get_state_pool : M (gmap Z verifs2_state) := w ← get; mret (state_pool w).

Definition clear_states : M unit := modify (set_state_pool ∅).

(** *** Copying inodes *)

(** The copy constructor of [File]: [st_blocks] blocks are allocated and copied; the constructor
    exits the process when the allocation fails. *)
Definition copy_File (i : inode) (m_buf : list byte) : M inode :=
  e ← ask;
  let bufsize := u64 (st_blocks (attr i) * BufBlockSize) in
  if negb (can_alloc e bufsize) then fail crash_exit
  else
    b ← get_or crash_bounds (mem_read m_buf 0 bufsize);
    mret (mkObject (base i) (File b)).

Definition copy_Directory (i : inode) (m_children : list (string * Z)) : inode :=
  mkObject (base i) (Directory m_children).
Definition copy_SymLink (i : inode) (m_link : string) : inode :=
  mkObject (base i) (SymLink m_link).
Definition copy_SpecialInode (i : inode) (m_type : SpecialInodeTypes) : inode :=
  mkObject (base i) (SpecialInode m_type).

(** The branches on the mode; [None] is [-EBADF], a [dynamic_cast] that gave
    null. An uncaught [std::bad_alloc] ends the process. *)
Definition copy_object (i : inode) : M (option inode) :=
  e ← ask;
  let fresh (m : M inode) : M (option inode) :=
    if can_new e then c ← m; mret (Some c) else fail crash_exit in
  if S_ISREG (GetMode i) then
    match derived i with File b => fresh (copy_File i b) | _ => mret None end
  else if S_ISDIR (GetMode i) then
    match derived i with
    | Directory l => fresh (mret (copy_Directory i l)) | _ => mret None end
  else if S_ISLNK (GetMode i) then
    match derived i with
    | SymLink s => fresh (mret (copy_SymLink i s)) | _ => mret None end
  else
    match derived i with
    | SpecialInode t => fresh (mret (copy_SpecialInode i t)) | _ => mret None end.

(** The loop over a table; it stops at the first inode that cannot be copied. *)
Fixpoint copy_table (t : list (option inode)) : M (option (list (option inode))) :=
  match t with
  | [] => mret (Some [])
  | None :: t' =>
      r ← copy_table t';
      mret (option_map (cons None) r)
  | Some i :: t' =>
      c ← copy_object i;
      match c with
      | None => mret None
      | Some i' =>
          r ← copy_table t';
          mret (option_map (cons (Some i')) r)
      end
  end.

(** *** The operations: the results are the [int]s the functions return *)

Definition checkpoint (key : Z) : M Z :=
  w ← get;
  copied_files ← copy_table (Inodes w);
  match copied_files with
  | None => mret (- EBADF)
  | Some t => insert_state key (mkVerifs2State t (DeletedInodes w) (m_stbuf w))
  end.

(** The notifications for one inode, then for the names in a directory. *)
Definition stale_names (i : inode) (l : list (string * Z)) : list notification :=
  (fun c => inval_entry (GetIno i) c.1)
    <$> filter (fun c => (0 <? c.2) && negb (is_dot c.1) = true) l.

Definition invalidate_inode (i : inode) : M unit :=
  (if m_markedForDeletion (base i) then mret tt else notify (inval_inode (GetIno i)));;
  if S_ISDIR (GetMode i) then
    l ← get_or crash_null (dir_children i);
    modify (fun w => foldl (fun w n => add_notification n w) w (stale_names i l))
  else mret tt.

Fixpoint invalidate_all (t : list (option inode)) : M unit :=
  match t with
  | [] => mret tt
  | None :: t' => invalidate_all t'
  | Some i :: t' => invalidate_inode i;; invalidate_all t'
  end.

Definition invalidate_kernel_states : M unit := w ← get; invalidate_all (Inodes w).

(** [empty()] of a vector or a queue. *)
Definition is_nil {A} (l : list A) : bool := match l with [] => true | _ => false end.

Definition restore (key : Z) : M Z :=
  stored ← find_state key;
  if is_nil (vs_inodes stored) && is_nil (vs_deleted stored) then mret (- ENOENT)
  else
    invalidate_kernel_states;;
    w ← get;
    let tmp_DeletedInodes := DeletedInodes w in
    let tmp_m_stbuf := m_stbuf w in
    modify (set_DeletedInodes (vs_deleted stored));;
    modify (set_stbuf (vs_stat stored));;
    newfiles ← copy_table (vs_inodes stored);
    match newfiles with
    | Some t =>
        modify (set_Inodes t);;
        remove_state key;;
        mret 0
    | None =>
        modify (set_DeletedInodes tmp_DeletedInodes);;
        modify (set_stbuf tmp_m_stbuf);;
        mret (- EBADF)
    end.

(** ** Objects that can be copied *)

(** The class of the object is the one the code expects from its mode. *)
Definition class_matches (i : inode) : bool :=
  match derived i with
  | File _ => S_ISREG (GetMode i)
  | Directory _ => S_ISDIR (GetMode i)
  | SymLink _ => S_ISLNK (GetMode i)
  | SpecialInode _ =>
      negb (S_ISREG (GetMode i) || S_ISDIR (GetMode i) || S_ISLNK (GetMode i))
  end.

(** Moreover the buffer of a file has the size its block count says. *)
Definition copyable (i : inode) : Prop :=
  class_matches i = true /\
  match derived i with
  | File b => zlen b = BufBlockSize * st_blocks (attr i) /\ zlen b < 2 ^ 64
  | _ => True
  end.

Definition slots (P : inode -> Prop) (t : list (option inode)) : Prop :=
  Forall (fun o => match o with Some i => P i | None => True end) t.

(** The allocator serves the copies of the objects of [t]. *)
Definition memory_for (e : env) (t : list (option inode)) : Prop :=
  can_new e = true /\
  slots (fun i => match derived i with File b => can_alloc e (zlen b) = true | _ => True end) t.

Definition invalidations (t : list (option inode)) : list notification :=
  t ≫= (fun o => match o with
    | None => []
    | Some i =>
        (if m_markedForDeletion (base i) then [] else [inval_inode (GetIno i)])
        ++ match derived i with
           | Directory l => if S_ISDIR (GetMode i) then stale_names i l else []
           | _ => []
           end
    end).

(** ** Lemmas *)

Lemma mode_is_unique a b m : mode_is a m = true -> mode_is b m = true -> a = b.
Proof. unfold mode_is. intros. zbool. congruence. Qed.

Lemma mode_is_other a b m : mode_is a m = true -> a <> b -> mode_is b m = false.
Proof.
  intros Ha Hab. destruct (mode_is b m) eqn:Hb; [|done].
  by destruct Hab; eapply mode_is_unique.
Qed.

Lemma mem_read_all b : mem_read b 0 (zlen b) = Some b.
Proof. rewrite mem_read_Some by lia. by rewrite Nat2Z.id, take_ge. Qed.

Lemma copy_object_run e w i :
  copyable i -> memory_for e [Some i] -> copy_object i e w = Ok (Some i) w.
Proof.
  intros [Hc Hb] [Hn Hm]. apply Forall_inv in Hm. destruct i as [b d].
  unfold copy_object, mbind, M_bind, class_matches in *. simpl in *. rewrite Hn.
  destruct d as [buf|l|t|s]; simpl in *.
  - rewrite Hc. destruct Hb as [Hb Hlt]. unfold copy_File, mbind, M_bind. simpl.
    rewrite (Z.mul_comm _ BufBlockSize), <- Hb, u64_small by lia.
    rewrite Hm, mem_read_all. done.
  - unfold S_ISREG. rewrite (mode_is_other _ S_IFREG _ Hc) by done. by rewrite Hc.
  - zbool. repeat match goal with H : _ = false |- _ => rewrite H; clear H end. done.
  - unfold S_ISREG, S_ISDIR. rewrite (mode_is_other _ S_IFREG _ Hc) by done.
    rewrite (mode_is_other _ S_IFDIR _ Hc) by done. by rewrite Hc.
Qed.

Lemma copy_table_run e w t :
  slots copyable t -> memory_for e t -> copy_table t e w = Ok (Some t) w.
Proof.
  induction t as [|[i|] t IH]; intros Hc [Hn Hm]; [done|..];
    apply list.Forall_cons in Hc as [Hi Hc]; apply list.Forall_cons in Hm as [Hmi Hm];
    unfold mbind, M_bind; simpl; unfold mbind, M_bind.
  - rewrite copy_object_run; [|done|by split; [|constructor; [|constructor]]].
    by rewrite IH by done.
  - by rewrite IH by done.
Qed.

(** Copying does not change the world. *)
Lemma copy_object_pure i : Respects eq (copy_object i).
Proof. unfold copy_object, copy_File. respects. Qed.

Lemma copy_table_pure t : Respects eq (copy_table t).
Proof.
  induction t as [|[i|] t IH]; simpl; [by respects|..].
  - apply respects_bind; [typeclasses eauto|apply copy_object_pure|]. intros [i'|].
    + apply respects_bind; [typeclasses eauto|done|]. intros r. by respects.
    + by respects.
  - apply respects_bind; [typeclasses eauto|done|]. intros r. by respects.
Qed.

Definition add_notifications (ns : list notification) (w : world) : world :=
  mkWorld (Inodes w) (DeletedInodes w) (m_stbuf w) (readdirStates w) (state_pool w)
    (heap w) (replies w) (notifications w ++ ns).

Lemma add_notifications_nil w : add_notifications [] w = w.
Proof. destruct w. unfold add_notifications. simpl. by rewrite app_nil_r. Qed.

Lemma add_notifications_app ns ms w :
  add_notifications ms (add_notifications ns w) = add_notifications (ns ++ ms) w.
Proof. unfold add_notifications. simpl. by rewrite app_assoc. Qed.

Lemma foldl_add_notification ns w :
  foldl (fun w n => add_notification n w) w ns = add_notifications ns w.
Proof.
  revert w. induction ns as [|n ns IH]; intros w; simpl.
  - by rewrite add_notifications_nil.
  - rewrite IH. change (add_notification n w) with (add_notifications [n] w).
    apply add_notifications_app.
Qed.

Lemma invalidate_all_run e w t :
  slots (fun i => class_matches i = true) t ->
  invalidate_all t e w = Ok tt (add_notifications (invalidations t) w).
Proof.
  revert w. induction t as [|[i|] t IH]; intros w Hc.
  { simpl. by rewrite add_notifications_nil. }
  - apply list.Forall_cons in Hc as [Hi Hc]. simpl. unfold mbind, M_bind.
    assert (invalidate_inode i e w = Ok tt (add_notifications (invalidations [Some i]) w))
      as ->; [|rewrite IH, add_notifications_app by done; unfold invalidations; simpl;
               by rewrite app_nil_r].
    unfold invalidations, invalidate_inode, class_matches, dir_children in *. simpl.
    rewrite app_nil_r. unfold mbind, M_bind. destruct (m_markedForDeletion (base i)); simpl.
    all: destruct (derived i) as [b|l|ty|s]; simpl.
    all: try (unfold S_ISDIR; rewrite (mode_is_other _ S_IFDIR _ Hi) by done).
    all: zbool.
    all: try match goal with H : S_ISDIR _ = _ |- _ => rewrite H end; simpl.
    all: unfold modify, mret, M_ret; rewrite ?foldl_add_notification, ?add_notifications_nil;
      try change (add_notification ?n ?x) with (add_notifications [n] x);
      rewrite ?add_notifications_app; done.
  - apply list.Forall_cons in Hc as [_ Hc]. simpl. by rewrite IH.
Qed.

(** The state [checkpoint] stores. *)
Definition snapshot (w : world) : verifs2_state :=
  mkVerifs2State (Inodes w) (DeletedInodes w) (m_stbuf w).

(** [checkpoint] with a key that is not in use stores the inode table, the queue
    of deleted numbers and the counters as they are; a key in use gives
    [-EEXIST]. Nothing else of the world changes. *)
Lemma checkpoint_run e w key :
  slots copyable (Inodes w) -> memory_for e (Inodes w) ->
  checkpoint key e w =
    match state_pool w !! key with
    | Some _ => Ok (- EEXIST) w
    | None => Ok 0 (set_state_pool (<[key := snapshot w]> (state_pool w)) w)
    end.
Proof.
  intros Hc Hm. unfold checkpoint, mbind, M_bind. simpl.
  rewrite copy_table_run by done. unfold insert_state, mbind, M_bind. simpl.
  by destruct (state_pool w !! key).
Qed.

(** The world that [restore] makes from the stored state [s]. *)
Definition restored (key : Z) (s : verifs2_state) (w : world) : world :=
  mkWorld (vs_inodes s) (vs_deleted s) (vs_stat s) (readdirStates w)
    (delete key (state_pool w)) (heap w) (replies w)
    (notifications w ++ invalidations (Inodes w)).

Lemma restore_run e w key s :
  state_pool w !! key = Some s -> vs_inodes s <> [] ->
  slots copyable (vs_inodes s) -> memory_for e (vs_inodes s) ->
  slots (fun i => class_matches i = true) (Inodes w) ->
  restore key e w = Ok 0 (restored key s w).
Proof.
  intros Hs Hne Hc Hm Hw. unfold restore, find_state, invalidate_kernel_states.
  unfold mbind, M_bind. simpl. rewrite Hs. simpl.
  destruct (is_nil (vs_inodes s)) eqn:E; [by destruct (vs_inodes s)|]. simpl.
  rewrite invalidate_all_run by done. simpl.
  rewrite copy_table_run by done. unfold remove_state, mbind, M_bind. simpl.
  by rewrite Hs.
Qed.

(** C25. A stored state is restored exactly: after [restore] the inode table, the
    queue of deleted numbers and the counters are the stored ones, the key is
    free again, and the kernel was told to drop every inode and directory entry
    of the table that was replaced. *)
Theorem restore_returns_stored e w key s :
  state_pool w !! key = Some s -> vs_inodes s <> [] ->
  slots copyable (vs_inodes s) -> memory_for e (vs_inodes s) ->
  slots (fun i => class_matches i = true) (Inodes w) ->
  restore key e w = Ok 0 (restored key s w) /\
  (forall ino i, get_inode w ino = Some i -> m_markedForDeletion (base i) = false ->
     inval_inode (GetIno i) ∈ notifications (restored key s w)) /\
  (forall ino i l name c, get_inode w ino = Some i -> derived i = Directory l ->
     (name, c) ∈ l -> 0 < c -> is_dot name = false ->
     inval_entry (GetIno i) name ∈ notifications (restored key s w)).
Proof.
  intros Hs Hne Hc Hm Hw. split; [by apply restore_run|].
  assert (Hin : forall ino i n, get_inode w ino = Some i ->
    n ∈ invalidations [Some i] -> n ∈ notifications (restored key s w)).
  { intros ino i n Hi Hn. apply elem_of_app. right.
    apply get_inode_Some, vec_at_Some in Hi as [_ Hi].
    apply list_elem_of_bind. exists (Some i). split.
    - unfold invalidations in Hn. simpl in Hn. by rewrite app_nil_r in Hn.
    - by apply list_elem_of_lookup_2 in Hi. }
  split.
  - intros ino i Hi Hd. eapply Hin; [done|]. unfold invalidations. simpl. rewrite Hd.
    set_solver.
  - intros ino i l name c Hi Hder Hl Hpos Hdot. eapply Hin; [done|].
    unfold invalidations. simpl. rewrite app_nil_r, Hder.
    assert (class_matches i = true) as Hcm.
    { apply get_inode_Some, vec_at_Some in Hi as [_ Hi].
      by apply (Forall_lookup_1 _ _ _ _ Hw Hi). }
    unfold class_matches in Hcm. rewrite Hder in Hcm. rewrite Hcm.
    apply elem_of_app. right. apply list_elem_of_fmap. exists (name, c).
    split; [done|]. apply list_elem_of_filter. split; [|done]. simpl.
    rewrite Hdot. by rewrite (proj2 (Z.ltb_lt 0 c)).
Qed.

(** What a checkpoint and the later operations depend on. *)
Definition stored_data (w : world) := (snapshot w, state_pool w, heap w).

Lemma invalidate_all_data t : Respects (same stored_data) (invalidate_all t).
Proof.
  induction t as [|[i|] t IH]; simpl; [by respects| |done].
  apply respects_bind; [typeclasses eauto| |by intros _].
  unfold invalidate_inode. repeat first [respects_step | solve [by respects]].
  - by apply respects_modify.
  - apply respects_modify. intros w. by rewrite foldl_add_notification.
Qed.

Lemma fail_atomic e w key r w' :
  (checkpoint key e w = Ok r w' \/ restore key e w = Ok r w') -> r <> 0 ->
  snapshot w' = snapshot w /\ state_pool w' = state_pool w /\ heap w' = heap w.
Proof.
  intros H Hr. cut (stored_data w' = stored_data w).
  { unfold stored_data. intros [=]. unfold snapshot. split; [by f_equal|done]. }
  destruct H as [H|H].
  - unfold checkpoint, mbind, M_bind in H. simpl in H.
    destruct (copy_table _ e w) as [[t|] w1|] eqn:E; [| |done];
      apply copy_table_pure in E as <-.
    + unfold insert_state, mbind, M_bind in H. simpl in H.
      destruct (state_pool w !! key); injection H as <- <-; [done|congruence].
    + by injection H as <- <-.
  - unfold restore, find_state, mbind, M_bind in H. simpl in H.
    destruct (is_nil _ && is_nil _); [by injection H as <- <-|].
    unfold invalidate_kernel_states, mbind, M_bind in H. simpl in H.
    destruct (invalidate_all _ e w) as [? w1|] eqn:E; [|done].
    apply invalidate_all_data in E. simpl in H.
    destruct (copy_table _ e _) as [[t|] w2|] eqn:E2; [| |done];
      apply copy_table_pure in E2 as <-.
    + unfold remove_state, mbind, M_bind in H. simpl in H.
      destruct (state_pool w1 !! key); injection H as <- <-; congruence.
    + injection H as <- <-. rewrite <- E. by destruct w1.
Qed.

(** C26. A failed [restore] or [checkpoint] leaves the file system and the pool
    as they were: the queue and the counters that [restore] overwrites first are
    put back. *)
Theorem checkpoint_restore_fail_atomic e w key r w' :
  (checkpoint key e w = Ok r w' \/ restore key e w = Ok r w') -> r <> 0 ->
  snapshot w' = snapshot w /\ state_pool w' = state_pool w /\ heap w' = heap w.
Proof. apply fail_atomic. Qed.
