(* ===== verification/Codec.v ===== *)
(** * Object representations

    The bytes that [memcpy] moves for the structures a state file holds: the
    x86-64 layouts of [struct stat], [struct fuse_entry_param], [struct statvfs]
    and [struct inode_state] of [pickle.cpp]. A codec is a pair of functions of
    fixed width with the law that decoding inverts encoding on the values the
    type can hold; structures are built from integers, pairs and padding. *)

From S2P Require Import Prelude World.

(** ** Codecs *)

Record codec (A : Type) := mkCodec {
  width : nat;
  enc : A -> list byte;
  dec : list byte -> A;
  valid : A -> Prop;
  enc_length : forall a, length (enc a) = width;
  dec_enc : forall a, valid a -> dec (enc a) = a }.
Arguments width {A} c.
Arguments enc {A} c a.
Arguments dec {A} c b.
Arguments valid {A} c a.
Arguments enc_length {A} c a.
Arguments dec_enc {A} c a.

Definition signed (n : nat) (z : Z) : Z :=
  if z <? 2 ^ (Z.of_nat n * 8 - 1) then z else z - 2 ^ (Z.of_nat n * 8).

Lemma uint_law n z :
  0 <= z < 2 ^ (Z.of_nat n * 8) -> le_value (le_bytes n z) = z.
Proof. intros H. rewrite le_value_bytes. by apply Z.mod_small. Qed.

Lemma sint_law n z :
  (0 < n)%nat /\ - 2 ^ (Z.of_nat n * 8 - 1) <= z < 2 ^ (Z.of_nat n * 8 - 1) ->
  signed n (le_value (le_bytes n z)) = z.
Proof.
  intros [Hn H]. rewrite le_value_bytes. unfold signed.
  assert (E : 2 ^ (Z.of_nat n * 8) = 2 * 2 ^ (Z.of_nat n * 8 - 1)).
  { rewrite <- Z.pow_succ_r by lia. f_equal. lia. }
  rewrite E. set (B := 2 ^ (Z.of_nat n * 8 - 1)) in *.
  destruct (decide (0 <= z)).
  - rewrite Z.mod_small by lia. destruct (Z.ltb_spec z B); lia.
  - replace (z `mod` (2 * B)) with (z + 2 * B).
    + destruct (Z.ltb_spec (z + 2 * B) B); lia.
    + symmetry. rewrite <- (Z.mod_small (z + 2 * B) (2 * B)) by lia.
      rewrite <- (Z.mul_1_l (2 * B)) at 2. by rewrite Z_mod_plus_full.
Qed.

Definition uint (n : nat) : codec Z :=
  mkCodec Z n (le_bytes n) le_value (fun z => 0 <= z < 2 ^ (Z.of_nat n * 8))
    (le_bytes_length n) (uint_law n).

Definition sint (n : nat) : codec Z :=
  mkCodec Z n (le_bytes n) (fun b => signed n (le_value b))
    (fun z => (0 < n)%nat /\
       - 2 ^ (Z.of_nat n * 8 - 1) <= z < 2 ^ (Z.of_nat n * 8 - 1))
    (le_bytes_length n) (sint_law n).

(** Padding is zero: the objects are cleared before they are filled. *)
Definition pad (n : nat) : codec unit :=
  mkCodec unit n (fun _ => replicate n x00) (fun _ => tt) (fun _ => True)
    (fun _ => length_replicate n x00) (fun a _ => match a with tt => eq_refl end).

Section pair.
Context {A B : Type} (c : codec A) (d : codec B).

Lemma pair_length (p : A * B) : length (enc c p.1 ++ enc d p.2) = (width c + width d)%nat.
Proof. by rewrite length_app, !enc_length. Qed.

Lemma pair_law (p : A * B) :
  valid c p.1 /\ valid d p.2 ->
  (dec c (take (width c) (enc c p.1 ++ enc d p.2)),
   dec d (drop (width c) (enc c p.1 ++ enc d p.2))) = p.
Proof.
  intros [Ha Hb]. assert (Hl := enc_length c p.1).
  rewrite take_app_length', drop_app_length' by done.
  rewrite !dec_enc by done. by destruct p.
Qed.

Definition pair_codec : codec (A * B) :=
  mkCodec (A * B) (width c + width d) (fun p => enc c p.1 ++ enc d p.2)
    (fun b => (dec c (take (width c) b), dec d (drop (width c) b)))
    (fun p => valid c p.1 /\ valid d p.2) pair_length pair_law.
End pair.

Section iso.
Context {A B : Type} (f : A -> B) (g : B -> A) (Hgf : forall a, g (f a) = a)
  (c : codec B).

Lemma iso_law a : valid c (f a) -> g (dec c (enc c (f a))) = a.
Proof. intros H. by rewrite dec_enc. Qed.

Definition iso : codec A :=
  mkCodec A (width c) (fun a => enc c (f a)) (fun b => g (dec c b))
    (fun a => valid c (f a)) (fun a => enc_length c (f a)) iso_law.
End iso.

Declare Scope codec_scope.
Delimit Scope codec_scope with codec.
Notation "c # d" := (pair_codec c d) (at level 60, right associativity) : codec_scope.

(** ** The structures *)

Section layouts.
Local Open Scope codec_scope.

Lemma timespec_iso a : (fun p => Timespec p.1 p.2) (tv_sec a, tv_nsec a) = a.
Proof. by destruct a. Qed.

Definition timespec_codec : codec timespec :=
  iso (fun a => (tv_sec a, tv_nsec a)) (fun p => Timespec p.1 p.2) timespec_iso
    (sint 8 # sint 8).

Definition stat_fields (a : stat) :=
  (st_dev a, (st_ino a, (st_nlink a, (st_mode a, (st_uid a, (st_gid a, (tt,
  (st_rdev a, (st_size a, (st_blksize a, (st_blocks a,
  (st_atim a, (st_mtim a, (st_ctim a, tt)))))))))))))).
Definition stat_of (f : Z * (Z * (Z * (Z * (Z * (Z * (unit *
    (Z * (Z * (Z * (Z * (timespec * (timespec * (timespec * unit)))))))))))))) : stat :=
  let '(dev, (ino, (nlink, (mode, (uid, (gid, (_,
    (rdev, (size, (blksize, (blocks, (at_, (mt, (ct, _)))))))))))))) := f in
  mkStat dev ino nlink mode uid gid rdev size blksize blocks at_ mt ct.

Lemma stat_iso a : stat_of (stat_fields a) = a.
Proof. by destruct a. Qed.

(** [struct stat], 144 bytes *)
Definition stat_codec : codec stat :=
  iso stat_fields stat_of stat_iso
    (uint 8 # uint 8 # uint 8 # uint 4 # uint 4 # uint 4 # pad 4 #
     uint 8 # sint 8 # sint 8 # sint 8 #
     timespec_codec # timespec_codec # timespec_codec # pad 24).

Definition entry_fields (p : fuse_entry_param) :=
  (ep_ino p, (ep_generation p, (ep_attr p, (ep_attr_timeout p, ep_entry_timeout p)))).
Definition entry_of (f : Z * (Z * (stat * (Z * Z)))) : fuse_entry_param :=
  let '(ino, (gen, (a, (t1, t2)))) := f in mkEntry ino gen a t1 t2.

Lemma entry_iso p : entry_of (entry_fields p) = p.
Proof. by destruct p. Qed.

(** [struct fuse_entry_param], 176 bytes *)
Definition entry_codec : codec fuse_entry_param :=
  iso entry_fields entry_of entry_iso
    (uint 8 # uint 8 # stat_codec # uint 8 # uint 8).

Definition statvfs_fields (s : statvfs) :=
  (f_bsize s, (f_frsize s, (f_blocks s, (f_bfree s, (f_bavail s, (f_files s,
  (f_ffree s, (f_favail s, (f_fsid s, (f_flag s, (f_namemax s, tt))))))))))).
Definition statvfs_of (f : Z * (Z * (Z * (Z * (Z * (Z * (Z * (Z * (Z * (Z * (Z * unit)))))))))))
  : statvfs :=
  let '(a, (b, (c, (d, (e, (g, (h, (i, (j, (k, (l, _))))))))))) := f in
  mkStatvfs a b c d e g h i j k l.

Lemma statvfs_iso s : statvfs_of (statvfs_fields s) = s.
Proof. by destruct s. Qed.

(** [struct statvfs], 112 bytes *)
Definition statvfs_codec : codec statvfs :=
  iso statvfs_fields statvfs_of statvfs_iso
    (uint 8 # uint 8 # uint 8 # uint 8 # uint 8 # uint 8 # uint 8 # uint 8 #
     uint 8 # uint 8 # uint 8 # pad 24).

(** A [bool]: any byte but 0 is read as true. *)
Definition bool_byte (b : bool) : list byte := [if b then x01 else x00].
Definition byte_bool (l : list byte) : bool :=
  match l with x00 :: _ => false | _ :: _ => true | [] => false end.

Lemma bool_length b : length (bool_byte b) = 1%nat.
Proof. done. Qed.
Lemma bool_law b : True -> byte_bool (bool_byte b) = b.
Proof. by destruct b. Qed.

Definition bool_codec : codec bool :=
  mkCodec bool 1 bool_byte byte_bool (fun _ => True) bool_length bool_law.

Definition inode_state_fields (s : bool * Z) := (s.1, (tt, s.2)).
Definition inode_state_of (f : bool * (unit * Z)) : bool * Z := (f.1, f.2.2).

Lemma inode_state_iso s : inode_state_of (inode_state_fields s) = s.
Proof. by destruct s. Qed.

(** [struct inode_state]: does the inode exist, and its mode; 8 bytes *)
Definition inode_state_codec : codec (bool * Z) :=
  iso inode_state_fields inode_state_of inode_state_iso
    (bool_codec # pad 3 # uint 4).
End layouts.

(** ** The sizes of the C structures *)

Lemma layout_widths :
  width stat_codec = 144%nat /\ width entry_codec = 176%nat /\
  width statvfs_codec = 112%nat /\ width inode_state_codec = 8%nat.
Proof. done. Qed.

#[export] Hint Rewrite @enc_length : len.
