(* ===== verification/Pickle.v ===== *)
(** * State files: [Pickle] and [Load] of the inode classes and [pickle.cpp]

    A state file holds a header (its size and the SHA-256 digest of the rest),
    then the counters, the inode table, the queue of deleted numbers and the
    checkpoint pool. [sha256] is OpenSSL's digest and [host] what the host's
    system calls answer. The branch for OpenSSL before 3.0 is modelled. *)

From S2P Require Import Prelude World Util Table InodeOps FileOps DirectoryOps Nodes.
From S2P Require Import CkptRestore Codec.

(** ** Definitions *)

Definition size_t (z : Z) : list byte := le_bytes 8 z.
Definition string_bytes (s : string) : list byte := String.list_byte_of_string s.
Definition bytes_string (b : list byte) : string := String.string_of_list_byte b.

(** *** Sizes *)

Definition Inode_GetPickledSize (b : Inode) : Z :=
  1 + 8 + 176 + 8
  + foldr (fun x n => 8 + Z.of_nat (String.length x.1) + 8 + x.2.2 + n) 0 (m_xattr b).

Definition File_GetPickledSize (i : inode) : Z :=
  Inode_GetPickledSize (base i) + st_size (attr i).
Definition Directory_GetPickledSize (i : inode) (m_children : list (string * Z)) : Z :=
  Inode_GetPickledSize (base i) + 8
  + foldr (fun c n => 8 + 8 + Z.of_nat (String.length c.1) + n) 0 m_children.
Definition SymLink_GetPickledSize (i : inode) (m_link : string) : Z :=
  Inode_GetPickledSize (base i) + Z.of_nat (String.length m_link).
Definition SpecialInode_GetPickledSize (i : inode) : Z := Inode_GetPickledSize (base i) + 4.

(** The sum before it is a [size_t], and the virtual method. *)
Definition pickled_bytes (i : inode) : Z :=
  match derived i with
  | File _ => File_GetPickledSize i
  | Directory l => Directory_GetPickledSize i l
  | SymLink s => SymLink_GetPickledSize i s
  | SpecialInode _ => SpecialInode_GetPickledSize i
  end.
Definition GetPickledSize (i : inode) : Z := u64 (pickled_bytes i).

Create HintDb pickled.
#[export] Hint Unfold pickled_bytes File_GetPickledSize Directory_GetPickledSize SymLink_GetPickledSize
  SpecialInode_GetPickledSize : pickled.

(** *** Pickling an object: the bytes the method writes *)

Fixpoint pickle_xattrs (m : list (string * (Z * Z))) : M (list byte) :=
  match m with
  | [] => mret []
  | (key, (ptr, valsize)) :: m' =>
      val ← xread ptr 0 valsize;
      rest ← pickle_xattrs m';
      mret (size_t (Z.of_nat (String.length key)) ++ string_bytes key
            ++ size_t valsize ++ val ++ rest)
  end.

Definition Inode_Pickle (b : Inode) : M (list byte) :=
  xs ← pickle_xattrs (m_xattr b);
  mret (bool_byte (m_markedForDeletion b) ++ size_t (m_nlookup b)
        ++ enc entry_codec (m_fuseEntryParam b) ++ size_t (zlen (m_xattr b)) ++ xs).

Definition pickle_child (c : string * Z) : list byte :=
  size_t c.2 ++ size_t (Z.of_nat (String.length c.1)) ++ string_bytes c.1.

Definition type_code (t : SpecialInodeTypes) : Z :=
  match t with
  | SPECIAL_INODE_TYPE_NO_BLOCK => 0
  | SPECIAL_INODE_CHAR_DEV => 1
  | SPECIAL_INODE_BLOCK_DEV => 2
  | SPECIAL_INODE_FIFO => 3
  | SPECIAL_INODE_SOCK => 4
  end.

Definition File_Pickle (i : inode) (m_buf : list byte) : M (list byte) :=
  b ← Inode_Pickle (base i);
  data ← get_or crash_bounds (mem_read m_buf 0 (u64 (st_size (attr i))));
  mret (b ++ data).
Definition Directory_Pickle (i : inode) (m_children : list (string * Z)) : M (list byte) :=
  b ← Inode_Pickle (base i);
  mret (b ++ size_t (zlen m_children) ++ mjoin (pickle_child <$> m_children)).
Definition SymLink_Pickle (i : inode) (m_link : string) : M (list byte) :=
  b ← Inode_Pickle (base i); mret (b ++ string_bytes m_link).
Definition SpecialInode_Pickle (i : inode) (m_type : SpecialInodeTypes) : M (list byte) :=
  b ← Inode_Pickle (base i); mret (b ++ le_bytes 4 (type_code m_type)).

Definition Pickle (i : inode) : M (list byte) :=
  match derived i with
  | File buf => File_Pickle i buf
  | Directory l => Directory_Pickle i l
  | SymLink s => SymLink_Pickle i s
  | SpecialInode t => SpecialInode_Pickle i t
  end.

(** *** Loading an object from the data at [buf] *)

(** [memcpy] of [n] bytes from the data, and the data behind them. *)
Definition read_n (n : Z) (ptr : list byte) : M (list byte * list byte) :=
  b ← get_or crash_bounds (mem_read ptr 0 n);
  mret (b, drop (Z.to_nat n) ptr).

Definition read_size_t (ptr : list byte) : M (Z * list byte) :=
  '(b, ptr) ← read_n 8 ptr; mret (le_value b, ptr).

(** A block that [malloc] gave, with the value copied into it. *)
Definition xstore (value : list byte) : M Z :=
  w ← get;
  let a := next_addr (heap w) in
  modify (set_heap (mkHeap (<[a := value]> (blocks (heap w))) (a + 1)));;
  mret a.

(** [ClearXAttrs] frees the values and empties the map. *)
Definition free_values (m : list (string * (Z * Z))) (h : xheap) : xheap :=
  mkHeap (foldr (fun x b => delete x.2.1 b) (blocks h) m) (next_addr h).

(** [std::map::insert] keeps a value that is there. *)
Definition smap_add {V} (k : string) (v : V) (m : list (string * V)) :=
  match smap_find k m with Some _ => m | None => smap_insert k v m end.

(** The loop over the extended attributes; the flag is false after a failed
    allocation. *)
Fixpoint load_xattrs (n : nat) (ptr : list byte) (m : list (string * (Z * Z)))
  : M (bool * list (string * (Z * Z)) * list byte) :=
  match n with
  | O => mret (true, m, ptr)
  | S n' =>
      '(keysize, ptr) ← read_size_t ptr;
      '(key, ptr) ← read_n keysize ptr;
      '(valsize, ptr) ← read_size_t ptr;
      e ← ask;
      if negb (can_alloc e valsize) then mret (false, m, ptr)
      else
        '(val, ptr) ← read_n valsize ptr;
        a ← xstore val;
        load_xattrs n' ptr (smap_add (bytes_string key) (a, valsize) m)
  end.

(** The bytes used and the members read; 0 bytes after a failed allocation. *)
Definition Inode_Load (buf : list byte) : M (Z * Inode) :=
  '(marked, ptr) ← read_n 1 buf;
  '(nlookup, ptr) ← read_size_t ptr;
  '(entry, ptr) ← read_n 176 ptr;
  '(n_xattrs, ptr) ← read_size_t ptr;
  '(ok, m, ptr) ← load_xattrs (Z.to_nat n_xattrs) ptr [];
  let b := mkInode (byte_bool marked) nlookup (dec entry_codec entry) in
  if (ok : bool) then mret (zlen buf - zlen ptr, b m)
  else
    modify (fun w => set_heap (free_values m (heap w)) w);;
    mret (0, b []).

Definition File_Load (buf : list byte) : M (Z * inode) :=
  e ← ask;
  '(offset, b) ← Inode_Load buf;
  let a := ep_attr (m_fuseEntryParam b) in
  let fsize := u64 (st_size a) in
  let fcap := u64 (st_blksize a * u64 (st_blocks a)) in
  if negb (can_alloc e fcap) then
    modify (fun w => set_heap (free_values (m_xattr b) (heap w)) w);;
    mret (0, mkObject (set_xattrs [] b) (File []))
  else
    '(data, _) ← read_n fsize (drop (Z.to_nat offset) buf);
    m_buf ← get_or crash_bounds (mem_write (zeros fcap) 0 data);
    mret (offset + fsize, mkObject b (File m_buf)).

Fixpoint load_children (n : nat) (ptr : list byte) : M (list (string * Z) * list byte) :=
  match n with
  | O => mret ([], ptr)
  | S n' =>
      '(ino, ptr) ← read_size_t ptr;
      '(namelen, ptr) ← read_size_t ptr;
      '(name, ptr) ← read_n namelen ptr;
      '(rest, ptr) ← load_children n' ptr;
      mret ((bytes_string name, ino) :: rest, ptr)
  end.

Definition Directory_Load (buf : list byte) : M (Z * inode) :=
  '(offset, b) ← Inode_Load buf;
  '(nchildren, ptr) ← read_size_t (drop (Z.to_nat offset) buf);
  '(l, ptr) ← load_children (Z.to_nat nchildren) ptr;
  mret (zlen buf - zlen ptr, mkObject b (Directory l)).

Definition SymLink_Load (buf : list byte) : M (Z * inode) :=
  '(offset, b) ← Inode_Load buf;
  let linksize := u64 (st_size (ep_attr (m_fuseEntryParam b))) in
  '(link, _) ← read_n linksize (drop (Z.to_nat offset) buf);
  mret (offset + linksize, mkObject b (SymLink (bytes_string link))).

(** A value outside the enumeration has no meaning. *)
Definition type_of_code (z : Z) : option SpecialInodeTypes :=
  find (fun t => type_code t =? z)
    [SPECIAL_INODE_TYPE_NO_BLOCK; SPECIAL_INODE_CHAR_DEV; SPECIAL_INODE_BLOCK_DEV;
     SPECIAL_INODE_FIFO; SPECIAL_INODE_SOCK].

Definition SpecialInode_Load (buf : list byte) : M (Z * inode) :=
  '(offset, b) ← Inode_Load buf;
  '(code, _) ← read_n 4 (drop (Z.to_nat offset) buf);
  t ← get_or crash_bounds (type_of_code (le_value code));
  mret (offset + 4, mkObject b (SpecialInode t)).

(** The branches of [load_file_system] on the recorded mode; [None] is
    [EINVAL]. *)
Definition load_object (mode : Z) (buf : list byte) : M (option (Z * inode)) :=
  let some (m : M (Z * inode)) : M (option (Z * inode)) := r ← m; mret (Some r) in
  if S_ISREG mode then some (File_Load buf)
  else if S_ISDIR mode then some (Directory_Load buf)
  else if S_ISLNK mode then some (SymLink_Load buf)
  else if S_ISCHR mode || S_ISBLK mode || S_ISSOCK mode || S_ISFIFO mode || (mode =? 0)
  then some (SpecialInode_Load buf)
  else mret None.

(** *** The host *)

(** [cfg_file] is the content of [/tmp/pickle.cfg], [open_out] and [open_in] the
    answers of [open] for a path (the error number, or the content for reading),
    [write_result pos count] what [write] of [count] bytes at offset [pos] of
    the state file returns (-1, or the bytes written), [io_errno] the error
    number it then sets, [mmap_errno] the one of a failed [fstat] or [mmap]. *)
Record host := mkHost {
  cfg_file : Z + list byte;
  open_out : string -> option Z;
  open_in : string -> Z + list byte;
  write_result : Z -> Z -> Z;
  io_errno : Z;
  mmap_errno : option Z }.

(** [strnlen] *)
Fixpoint until_null (b : list byte) : list byte :=
  match b with
  | [] => []
  | x00 :: _ => []
  | c :: b' => c :: until_null b'
  end.

(** The path in the configuration file, or the error thrown. *)
Definition fetch_filepath (h : host) : M (Z + string) :=
  match cfg_file h with
  | inl err => mret (inl err)
  | inr content =>
      e ← ask;
      if can_alloc e 4096
      then mret (inr (bytes_string (until_null (take (Z.to_nat 4096) content))))
      else mret (inl ENOMEM)
  end.

(** *** Pickling the file system *)

(** One [write_and_hash]; the flag marks those after which the loop moves the
    front of the queue of deleted numbers to its back. *)
Record chunk := mkChunk { ck_data : list byte; ck_rotates : bool }.
Definition plain (b : list byte) : chunk := mkChunk b false.

(** The chunks up to the end or up to the error thrown. *)
Definition chunks : Type := list chunk * option Z.
Definition then_chunks (a : chunks) (m : M chunks) : M chunks :=
  match a.2 with
  | Some _ => mret a
  | None => b ← m; mret (a.1 ++ b.1, b.2)
  end.

(** [Pickle] fills a buffer of [GetPickledSize] bytes, which is then written
    whole. *)
Definition pickle_slot (o : option inode) : M chunks :=
  match o with
  | None => mret ([plain (enc inode_state_codec (false, 0))], None)
  | Some i =>
      e ← ask;
      let pickled_size := GetPickledSize i in
      if negb (can_alloc e pickled_size) then mret ([], Some ENOMEM)
      else
        b ← Pickle i;
        data ← get_or crash_bounds
                 (mem_write (mem_resize (junk e) [] pickled_size) 0 b);
        mret ([plain (enc inode_state_codec (true, GetMode i)); plain data], None)
  end.

Fixpoint pickle_slots (t : list (option inode)) : M chunks :=
  match t with
  | [] => mret ([], None)
  | o :: t' => a ← pickle_slot o; then_chunks a (pickle_slots t')
  end.

Definition pickle_numbers (rotates : bool) (q : list Z) : list chunk :=
  plain (size_t (zlen q)) :: ((fun ino => mkChunk (size_t ino) rotates) <$> q).

Definition pickle_stored (key : Z) (s : verifs2_state) : M chunks :=
  then_chunks ([plain (size_t key); plain (size_t (zlen (vs_inodes s)))], None)
    (a ← pickle_slots (vs_inodes s);
     then_chunks a
       (mret (pickle_numbers false (vs_deleted s)
              ++ [plain (enc statvfs_codec (vs_stat s))], None))).

Fixpoint pickle_pool (pool : list (Z * verifs2_state)) : M chunks :=
  match pool with
  | [] => mret ([], None)
  | (key, s) :: pool' => a ← pickle_stored key s; then_chunks a (pickle_pool pool')
  end.

(** What [pickle_file_system] writes, in order. The pool is an [unordered_map]; one
    order of its entries is fixed here. *)
Definition pickle_chunks : M chunks :=
  w ← get;
  then_chunks ([plain (enc statvfs_codec (m_stbuf w)); plain (size_t (zlen (Inodes w)))], None)
    (a ← pickle_slots (Inodes w);
     then_chunks a
       (then_chunks (pickle_numbers true (DeletedInodes w)
                     ++ [plain (size_t (Z.of_nat (size (state_pool w))))], None)
          (pickle_pool (map_to_list (state_pool w))))).

(** The state file behind the header, the bytes fed to the digest, and how often
    the queue was rotated. *)
Record out := mkOut { out_data : list byte; out_hash : list byte; out_rotations : nat }.

Definition header_size := 40.

(** The writes in order, up to a short one, which throws (the flag is false).
    A result of -1 is no error: it is compared as a [size_t]. *)
Fixpoint write_chunks (h : host) (cs : list chunk) (o : out) : out * bool :=
  match cs with
  | [] => (o, true)
  | c :: cs' =>
      let count := zlen (ck_data c) in
      let r := write_result h (header_size + zlen (out_data o)) count in
      let data := out_data o ++ take (Z.to_nat r) (ck_data c) in
      if u64 r <? count then (mkOut data (out_hash o) (out_rotations o), false)
      else
        write_chunks h cs'
          (mkOut data (out_hash o ++ ck_data c)
             (out_rotations o + (if ck_rotates c then 1 else 0))%nat)
  end.

(** The result of the function, the output, and the offset at which the file
    cursor is left. A short write throws with [errno] still 0. *)
Definition pickle_file_system (h : host) : M (Z * out * Z) :=
  cs ← pickle_chunks;
  let '(o, complete) := write_chunks h cs.1 (mkOut [] [] 0) in
  modify (fun w =>
    let q := DeletedInodes w in
    set_DeletedInodes (drop (out_rotations o) q ++ take (out_rotations o) q) w);;
  if (complete : bool) then
    match cs.2 with
    | None => mret (0, o, header_size + zlen (out_data o))
    | Some err => mret (- err, o, header_size)
    end
  else mret (- 0, o, header_size).

(** The file after [write] of the header at offset 0 returned [r]. *)
Definition put_header (header data : list byte) (r : Z) : list byte :=
  let hd := take (Z.to_nat r) header in
  if is_nil data then hd else hd ++ zeros (header_size - zlen hd) ++ data.

Section digest.
Context (sha256 : list byte -> list byte) (h : host).

(** [struct state_file_header] *)
Definition header_bytes (fsize : Z) (hash : list byte) : list byte := size_t fsize ++ hash.

(** The result and the state file, when one was opened. After an error the result is
    [-errno]; it is still the error of the failed [malloc]. *)
Definition pickle_verifs2 : M (Z * option (list byte)) :=
  p ← fetch_filepath h;
  match p with
  | inl err => mret (- err, None)
  | inr path =>
      match open_out h path with
      | Some err => mret (- err, None)
      | None =>
          '(res, o, filelen) ← pickle_file_system h;
          if res <? 0 then mret (res, Some (put_header [] (out_data o) 0))
          else
            let header := header_bytes filelen (sha256 (out_hash o)) in
            let r := write_result h 0 header_size in
            mret (if 0 <=? r then 0 else - io_errno h,
                  Some (put_header header (out_data o) r))
      end
  end.

(** *** Verifying a state file with content [f] *)

Definition verify_file_size (f : list byte) (expected : Z) : Z :=
  if zlen f =? expected then 0 else -1.

Definition verify_file_integrity (rest expected : list byte) : Z :=
  if bool_decide (sha256 rest = expected) then 0 else -3.

Definition verify_state_file (f : list byte) : Z :=
  if zlen f <? header_size then ENOSPC
  else
    let fsize := le_value (take 8 f) in
    let hash := take 32 (drop 8 f) in
    let res := verify_file_size f fsize in
    if negb (res =? 0) then res
    else verify_file_integrity (drop (Z.to_nat header_size) f) hash.

(** *** Loading the file system *)

(** The loop over the table: the objects appended, then the data left or the
    error thrown. A slot without inode adds nothing. *)
Fixpoint load_slots (n : nat) (ptr : list byte) : M (list inode * (Z + list byte)) :=
  match n with
  | O => mret ([], inr ptr)
  | S n' =>
      '(info, ptr) ← read_n 8 ptr;
      let '(exists_, mode) := dec inode_state_codec info in
      if negb exists_ then load_slots n' ptr
      else
        r ← load_object mode ptr;
        match r with
        | None => mret ([], inl EINVAL)
        | Some (res, i) =>
            if res =? 0 then mret ([i], inl ENOMEM)
            else
              '(objs, k) ← load_slots n' (drop (Z.to_nat res) ptr);
              mret (i :: objs, k)
        end
  end.

Fixpoint load_numbers (n : nat) (ptr : list byte) : M (list Z * list byte) :=
  match n with
  | O => mret ([], ptr)
  | S n' =>
      '(ino, ptr) ← read_size_t ptr;
      '(q, ptr) ← load_numbers n' ptr;
      mret (ino :: q, ptr)
  end.

(** One entry of the pool. *)
Definition load_stored (ptr : list byte) : M (Z + list byte) :=
  '(key, ptr) ← read_size_t ptr;
  '(num_stored_files, ptr) ← read_size_t ptr;
  '(objs, k) ← load_slots (Z.to_nat num_stored_files) ptr;
  match k with
  | inl err => mret (inl err)
  | inr ptr =>
      '(num, ptr) ← read_size_t ptr;
      '(q, ptr) ← load_numbers (Z.to_nat num) ptr;
      '(st, ptr) ← read_n 112 ptr;
      ret ← insert_state key (mkVerifs2State (Some <$> objs) q (dec statvfs_codec st));
      if ret =? 0 then mret (inr ptr) else mret (inl EINVAL)
  end.

Fixpoint load_pool (n : nat) (ptr : list byte) : M (Z + list byte) :=
  match n with
  | O => mret (inr ptr)
  | S n' =>
      r ← load_stored ptr;
      match r with
      | inl err => mret (inl err)
      | inr ptr => load_pool n' ptr
      end
  end.

(** The bytes used, or the negative error. *)
Definition load_file_system (data : list byte) : M Z :=
  '(st, ptr) ← read_n 112 data;
  modify (set_stbuf (dec statvfs_codec st));;
  '(num_inodes, ptr) ← read_size_t ptr;
  '(objs, k) ← load_slots (Z.to_nat num_inodes) ptr;
  modify (fun w => set_Inodes (Inodes w ++ (Some <$> objs)) w);;
  match k with
  | inl err => mret (- err)
  | inr ptr =>
      '(num, ptr) ← read_size_t ptr;
      '(q, ptr) ← load_numbers (Z.to_nat num) ptr;
      modify (fun w => set_DeletedInodes (DeletedInodes w ++ q) w);;
      '(num_state_pool, ptr) ← read_size_t ptr;
      r ← load_pool (Z.to_nat num_state_pool) ptr;
      match r with
      | inl err => mret (- err)
      | inr ptr => mret (zlen data - zlen ptr)
      end
  end.

(** The result of [load_file_system] is not used. *)
Definition load_verifs2 : M Z :=
  p ← fetch_filepath h;
  match p with
  | inl err => mret (- err)
  | inr path =>
      match open_in h path with
      | inl err => mret (- err)
      | inr f =>
          let res := verify_state_file f in
          if 0 <? res then mret (- res)
          else if res =? -1 then mret (- EMSGSIZE)
          else if res =? -2 then mret (- EPROTO)
          else if res =? -3 then mret (- EINVAL)
          else
            match mmap_errno h with
            | Some err => mret (- err)
            | None =>
                clear_states;;
                modify (set_Inodes []);;
                modify (set_DeletedInodes []);;
                load_file_system (drop (Z.to_nat header_size) f);;
                mret res
            end
      end
  end.
End digest.
