(* ===== verification/Requests.v ===== *)
(** * Requests: the [FuseOps] table, [ioctl], and runs of the file system

    A request is one call of libfuse through the operation table that the
    constructor of [FuseRamFs] fills; [FuseOps] is that table. [Stable R] is the
    interface between the handlers and the properties of runs: a relation on
    worlds that the building blocks of the handlers respect is respected by
    every request that is not an [ioctl]. *)

From S2P Require Import Prelude World Util Table InodeOps FileOps DirectoryOps Nodes.
From S2P Require Import Handlers CkptRestore Codec Pickle.

(** ** Definitions *)

(** The [ioctl] commands of [cr.h]: [_IO('1', '1' + n)]. *)
Definition VERIFS2_IOC_CODE := 0x31.
Definition VERIFS2_IOC (n : Z) : Z :=
  Z.lor (Z.shiftl VERIFS2_IOC_CODE 8) (VERIFS2_IOC_CODE + n).
Definition VERIFS_CHECKPOINT := VERIFS2_IOC 1.
Definition VERIFS_RESTORE := VERIFS2_IOC 2.
Definition VERIFS_PICKLE := VERIFS2_IOC 3.
Definition VERIFS_LOAD := VERIFS2_IOC 4.

(** The members of [struct fuse_lowlevel_ops] that the constructor sets, with the
    arguments the handlers use. *)
Inductive request :=
  | op_lookup (parent : Z) (name : string)
  | op_forget (ino nlookup : Z)
  | op_getattr (ino : Z)
  | op_setattr (ino : Z) (new : stat) (to_set : Z)
  | op_readlink (ino : Z)
  | op_mknod (parent : Z) (name : string) (mode rdev : Z)
  | op_mkdir (parent : Z) (name : string) (mode : Z)
  | op_unlink (parent : Z) (name : string)
  | op_rmdir (parent : Z) (name : string)
  | op_symlink (link : string) (parent : Z) (name : string)
  | op_rename (parent : Z) (name : string) (newparent : Z) (newname : string)
  | op_link (ino newparent : Z) (newname : string)
  | op_open (ino : Z)
  | op_read (ino size off : Z)
  | op_write (ino : Z) (buf : option (list byte)) (off : Z)
  | op_flush
  | op_release (ino : Z)
  | op_fsync (ino : Z)
  | op_opendir (ino : Z)
  | op_readdir (ino size off : Z)
  | op_releasedir (ino : Z)
  | op_fsyncdir (ino : Z)
  | op_statfs
  | op_setxattr (ino : Z) (name : string) (value : list byte) (flags : Z)
  | op_getxattr (ino : Z) (name : string) (size : Z)
  | op_listxattr (ino size : Z)
  | op_removexattr (ino : Z) (name : string)
  | op_access (ino mask : Z)
  | op_create (parent : Z) (name : string) (mode : Z)
  | op_getlk
  | op_ioctl (cmd arg : Z).

Section table.
Context (direntry_size : string -> Z) (sha256 : list byte -> list byte) (h : host).

(** The result is the state file that the command wrote, if any. *)
Definition FuseIoctl (cmd arg : Z) : M (option (list byte)) :=
  '(ret, file) ←
    (if cmd =? VERIFS_CHECKPOINT then r ← checkpoint (u64 arg); mret (r, None)
     else if cmd =? VERIFS_RESTORE then r ← restore (u64 arg); mret (r, None)
     else if cmd =? VERIFS_PICKLE then pickle_verifs2 sha256 h
     else if cmd =? VERIFS_LOAD then r ← load_verifs2 sha256 h; mret (r, None)
     else mret (ENOSYS, None));
  (if ret =? 0 then send (reply_ioctl 0) else reply_error (- ret));;
  mret file.

Definition FuseOps (r : request) : M unit :=
  match r with
  | op_lookup parent name => FuseLookup parent name
  | op_forget ino nlookup => FuseForget ino nlookup
  | op_getattr ino => FuseGetAttr ino
  | op_setattr ino new to_set => FuseSetAttr ino new to_set
  | op_readlink ino => FuseReadLink ino
  | op_mknod parent name mode rdev => FuseMknod parent name mode rdev
  | op_mkdir parent name mode => FuseMkdir parent name mode
  | op_unlink parent name => FuseUnlink parent name
  | op_rmdir parent name => FuseRmdir parent name
  | op_symlink link parent name => FuseSymlink link parent name
  | op_rename parent name newparent newname => FuseRename parent name newparent newname
  | op_link ino newparent newname => FuseLink ino newparent newname
  | op_open ino => FuseOpen ino
  | op_read ino size off => FuseRead ino size off
  | op_write ino buf off => FuseWrite ino buf off
  | op_flush => FuseFlush
  | op_release ino => FuseRelease ino
  | op_fsync ino => FuseFsync ino
  | op_opendir ino => FuseOpenDir ino
  | op_readdir ino size off => FuseReadDir direntry_size ino size off
  | op_releasedir ino => FuseReleaseDir ino
  | op_fsyncdir ino => FuseFsyncDir ino
  | op_statfs => FuseStatfs
  | op_setxattr ino name value flags => FuseSetXAttr ino name value flags
  | op_getxattr ino name size => FuseGetXAttr ino name size
  | op_listxattr ino size => FuseListXAttr ino size
  | op_removexattr ino name => FuseRemoveXAttr ino name
  | op_access ino mask => FuseAccess ino mask
  | op_create parent name mode => FuseCreate parent name mode
  | op_getlk => FuseGetLock
  | op_ioctl cmd arg => FuseIoctl cmd arg;; mret tt
  end.

(** ** Runs *)

(** What the kernel guarantees of a request: offsets and sizes of files are
    [loff_t] values, and [chmod] does not change the type of an inode. *)
Definition kernel_ok (w : world) (r : request) : Prop :=
  match r with
  | op_setattr ino new to_set =>
      0 <= st_size new < 2 ^ 63 /\
      (flag_set to_set FUSE_SET_ATTR_MODE = true ->
       forall i, get_inode w ino = Some i ->
         Z.land (st_mode new) S_IFMT = Z.land (GetMode i) S_IFMT)
  | op_write _ (Some data) off => 0 <= off /\ off + zlen data < 2 ^ 63
  | _ => True
  end.

Definition is_ioctl (r : request) : bool :=
  match r with op_ioctl _ _ => true | _ => false end.

(** One request served, and a sequence of them, each in its environment. *)
Definition step (w : world) (r : request) (w' : world) : Prop :=
  kernel_ok w r /\ exists e a, FuseOps r e w = Ok a w'.

Inductive steps : world -> list request -> world -> Prop :=
  | steps_nil w : steps w [] w
  | steps_cons w r w1 rs w2 : step w r w1 -> steps w1 rs w2 -> steps w (r :: rs) w2.

(** A mounted file system: constructed with its limits, then [FuseInit]. *)
Definition mounted (blocks inodes : Z) (w : world) : Prop :=
  exists e gid uid umask a,
    FuseInit gid uid umask e (construct blocks inodes) = Ok a w.
End table.

(** ** The interface of the handlers *)

(** The object [j] differs from [i] at most in counts, times, owner, permissions
    and extended attributes. *)
Definition benign (i j : inode) : Prop :=
  derived j = derived i /\
  ep_ino (m_fuseEntryParam (base j)) = ep_ino (m_fuseEntryParam (base i)) /\
  st_ino (attr j) = st_ino (attr i) /\ st_size (attr j) = st_size (attr i) /\
  st_blocks (attr j) = st_blocks (attr i) /\
  Z.land (GetMode j) S_IFMT = Z.land (GetMode i) S_IFMT.

(** Moreover the extended attributes are the same. *)
Definition tame (i j : inode) : Prop := benign i j /\ m_xattr (base j) = m_xattr (base i).

(** What a relation has to be kept by, so that the requests keep it that change no
    iterator, no extended attribute and no number. *)
Class Quiet (R : relation world) : Prop := {
  quiet_preorder :: PreOrder R;
  stable_reply w r : R w (add_reply r w);
  quiet_object w p i j :
    get_inode w p = Some i -> tame i j -> R w (put_inode p (Some j) w);
  stable_truncate p n : 0 <= n < 2 ^ 63 -> Respects R (FileTruncate p n);
  stable_write p d off :
    0 <= off -> off + zlen d < 2 ^ 63 -> Respects R (File_WriteAndReply p d off);
  stable_AddChild p name ino : Respects R (AddChild p name ino);
  stable_RemoveChild p name : Respects R (RemoveChild p name);
  stable_UpdateChild p name ino : Respects R (UpdateChild p name ino);
  stable_create parent name mode dev symlink :
    Respects R (do_create_node parent name mode dev symlink) }.

(** For every request but [forget]. *)
Class Steady (R : relation world) : Prop := {
  steady_quiet :: Quiet R;
  stable_heap w hp : R w (set_heap hp w);
  stable_contexts w s : R w (set_readdirStates s w);
  stable_object w p i j :
    get_inode w p = Some i -> benign i j -> R w (put_inode p (Some j) w) }.

(** For [forget]. *)
Class Reclaims (R : relation world) : Prop :=
  stable_reclaim e w ino i n a w' :
    get_inode w ino = Some i ->
    (DeleteInode ino;; UpdateUsedInodes (-1);; UpdateUsedBlocks n) e w = Ok a w' ->
    R w w'.

(** For all requests. *)
Class Stable (R : relation world) : Prop := {
  stable_steady :: Steady R;
  stable_reclaims :: Reclaims R }.

(** The head of an application. *)
Ltac head_of t := lazymatch t with ?f _ => head_of f | _ => t end.

Section quiet.
Context (R : relation world) `{!Quiet R}.

Lemma stable_send r : Respects R (send r).
Proof. apply respects_modify. intros w. apply stable_reply. Qed.

Lemma stable_reply_error n : Respects R (reply_error n).
Proof. apply stable_send. Qed.

Lemma stable_update p f : (forall i, tame i (f i)) -> Respects R (update p f).
Proof.
  intros Hf. apply respects_update; [typeclasses eauto|]. intros w i Hi.
  by eapply quiet_object.
Qed.

Local Hint Resolve stable_send stable_reply_error stable_AddChild stable_RemoveChild stable_UpdateChild stable_create : verifs.

Ltac stable :=
  intros; repeat first
    [ solve [auto with verifs typeclass_instances]
    | solve [apply stable_update; intros; repeat split; done]
    | respects_step ].

Lemma stable_ReplyEntry p : Respects R (ReplyEntry p).
Proof. unfold ReplyEntry. stable. Qed.
Lemma stable_ReplyCreate p : Respects R (ReplyCreate p).
Proof. unfold ReplyCreate. stable. Qed.
Lemma stable_ReplyAttr p : Respects R (ReplyAttr p).
Proof. unfold ReplyAttr. stable. Qed.
Lemma stable_IncrementLinkCount p : Respects R (IncrementLinkCount p).
Proof. unfold IncrementLinkCount. stable. Qed.
Lemma stable_DecrementLinkCount p : Respects R (DecrementLinkCount p).
Proof. unfold DecrementLinkCount. stable. Qed.
Lemma stable_ChildInodeNumber p name : Respects R (ChildInodeNumberWithName p name).
Proof. unfold ChildInodeNumberWithName. stable. Qed.
Lemma stable_IsEmpty p : Respects R (IsEmpty p).
Proof. unfold IsEmpty. stable. Qed.
Lemma stable_reply_created ino : Respects R (reply_created ino).
Proof. unfold reply_created. pose stable_ReplyEntry. stable. Qed.
Lemma stable_is_dir_now p : Respects R (is_dir_now p).
Proof. unfold is_dir_now. stable. Qed.

Local Hint Resolve stable_ReplyEntry stable_ReplyCreate stable_ReplyAttr
  stable_IncrementLinkCount stable_DecrementLinkCount stable_ChildInodeNumber
  stable_IsEmpty stable_reply_created stable_is_dir_now : verifs.

Lemma stable_with_live ino k :
  (forall i, Respects R (k i)) -> Respects R (with_live ino k).
Proof. intros Hk. unfold with_live. stable. Qed.

Lemma stable_with_dir i k : Respects R k -> Respects R (with_dir i k).
Proof. intros Hk. unfold with_dir. stable. Qed.

(** Extended attributes *)

Lemma stable_xread ptr off n : Respects R (xread ptr off n).
Proof. unfold xread. stable. Qed.

Local Hint Resolve stable_xread : verifs.

Lemma stable_GetXAttr p name size pos : Respects R (GetXAttrAndReply p name size pos).
Proof. unfold GetXAttrAndReply. stable. Qed.
Lemma stable_ListXAttr p size : Respects R (ListXAttrAndReply p size).
Proof. unfold ListXAttrAndReply. stable. Qed.

(** Data *)

Lemma stable_WriteAndReply p d off :
  0 <= off -> off + zlen d < 2 ^ 63 -> Respects R (WriteAndReply p d off).
Proof.
  intros. unfold WriteAndReply, Directory_WriteAndReply, SpecialInode_WriteAndReply,
    SymLink_WriteAndReply. pose proof (stable_write p d off). stable.
Qed.

Lemma stable_ReadAndReply p size off : Respects R (ReadAndReply p size off).
Proof.
  unfold ReadAndReply, File_ReadAndReply, Directory_ReadAndReply,
    SpecialInode_ReadAndReply, SymLink_ReadAndReply. stable.
Qed.

(** Names *)

Lemma stable_drop_links fuel p : Respects R (drop_links fuel p).
Proof. induction fuel; simpl; stable. Qed.

Lemma stable_rename_replace p n p' n' s x : Respects R (rename_replace p n p' n' s x).
Proof. unfold rename_replace. stable. Qed.
Lemma stable_rename_move p n p' n' s : Respects R (rename_move p n p' n' s).
Proof. unfold rename_move. stable. Qed.

Local Hint Resolve stable_GetXAttr stable_ListXAttr stable_ReadAndReply stable_drop_links
  stable_rename_replace stable_rename_move : verifs.

(** The requests *)

Ltac stable_handler :=
  repeat first [ apply stable_with_live; intros ? | apply stable_with_dir
               | progress stable ].

Lemma stable_ReplyAccess p mask gid uid : Respects R (ReplyAccess p mask gid uid).
Proof. unfold ReplyAccess. stable. Qed.
Local Hint Resolve stable_ReplyAccess : verifs.

Lemma stable_FuseWrite w ino buf off :
  kernel_ok w (op_write ino buf off) -> Respects R (FuseWrite ino buf off).
Proof.
  intros Hk. unfold FuseWrite. destruct buf as [d|]; [|apply stable_reply_error].
  destruct Hk. apply stable_with_live. intros _. by apply stable_WriteAndReply.
Qed.

Lemma stable_Forget ino n : Respects R (Forget ino n).
Proof. unfold Forget. stable. Qed.

Lemma tame_setattr t new to_set i :
  flag_set to_set FUSE_SET_ATTR_SIZE = false ->
  (flag_set to_set FUSE_SET_ATTR_MODE = true ->
   Z.land (st_mode new) S_IFMT = Z.land (GetMode i) S_IFMT) ->
  tame i (on_attr (apply_setattr t new to_set) i).
Proof.
  intros Hs Hm. unfold tame, benign, GetMode, apply_setattr in *. rewrite Hs.
  destruct (flag_set to_set FUSE_SET_ATTR_MODE); simpl.
  all: repeat match goal with |- context [if ?b then _ else _] => destruct b end.
  all: repeat split; simpl; auto.
Qed.

Lemma stable_FuseSetAttr ino new to_set e w a w' :
  kernel_ok w (op_setattr ino new to_set) ->
  FuseSetAttr ino new to_set e w = Ok a w' -> R w w'.
Proof.
  intros [Hn Hk]. unfold FuseSetAttr, with_live, mbind, M_bind. simpl.
  destruct (get_inode w ino) as [i|] eqn:Hi; [|intros [= _ <-]; apply stable_reply].
  destruct (HasNoLinks i); [intros [= _ <-]; apply stable_reply|].
  destruct (flag_set to_set FUSE_SET_ATTR_SIZE) eqn:Hs.
  - destruct (file_buf i); [|destruct (S_ISDIR _); intros [= _ <-]; apply stable_reply].
    rewrite u64_small by lia. revert e w a w' Hk Hi. intros e w a w' _ _ H. revert H.
    apply (respects_bind R (FileTruncate ino (st_size new))
      (fun ret => if ret =? 0 then ReplyAttr ino else reply_error ret)).
    + by apply stable_truncate.
    + stable.
  - unfold ReplySetAttr, mbind, M_bind. simpl. rewrite (update_run _ _ _ _ i) by done.
    rewrite (deref_run _ _ _ _ (get_put_eq _ _ _ _ Hi)). intros [= _ <-].
    transitivity (put_inode ino (Some (on_attr (apply_setattr (now e) new to_set) i)) w).
    + eapply quiet_object; [done|]. apply tame_setattr; [done|]. intros. by apply Hk.
    + apply stable_reply.
Qed.

Definition is_forget (r : request) : bool :=
  match r with op_forget _ _ => true | _ => false end.
(** Requests that change iterators or extended attributes. *)
Definition is_memory (r : request) : bool :=
  match r with
  | op_readdir _ _ _ | op_setxattr _ _ _ _ | op_removexattr _ _ => true
  | _ => false
  end.

Lemma quiet_FuseOps direntry_size sha256 h r e w a w' :
  is_ioctl r = false -> is_forget r = false -> is_memory r = false -> kernel_ok w r ->
  FuseOps direntry_size sha256 h r e w = Ok a w' -> R w w'.
Proof.
  intros Hi Hf Hm Hk. destruct r; simpl FuseOps; try done;
    try (by apply stable_FuseSetAttr); try (by apply (stable_FuseWrite w));
    match goal with |- ?m e w = _ -> _ => cut (Respects R m); [by intros H; apply H|] end.
  all: match goal with |- Respects _ (?f) => let hd := head_of f in unfold hd end.
  all: stable_handler.
Qed.

Lemma stable_FuseForget `{!Reclaims R} ino n : Respects R (FuseForget ino n).
Proof.
  intros e w a w'. unfold FuseForget, mbind, M_bind. simpl.
  destruct (get_inode w ino) as [i|] eqn:Hi; [|intros [= _ <-]; reflexivity].
  destruct (Forget ino n e w) as [[] w1|] eqn:E1; [|done]. apply stable_Forget in E1.
  destruct (deref ino e w1) as [j w2|] eqn:E2; [|done].
  apply deref_Ok in E2 as [Hj ->].
  destruct (Forgotten j); [|intros [= _ <-]; done].
  destruct (HasNoLinks j); [|intros [= _ <-]; done].
  intros H. transitivity w1; [done|].
  exact (stable_reclaim e w1 ino j (s64 (- UsedBlocks j)) a w' Hj H).
Qed.
End quiet.

Section steady.
Context (R : relation world) `{!Steady R}.

Lemma stable_benign p f : (forall i, benign i (f i)) -> Respects R (update p f).
Proof.
  intros Hf. apply respects_update; [typeclasses eauto|]. intros w i Hi.
  by eapply stable_object.
Qed.

Lemma stable_set_heap hp : Respects R (modify (set_heap hp)).
Proof. apply respects_modify. intros w. apply stable_heap. Qed.

Lemma stable_set_contexts s : Respects R (modify (set_readdirStates s)).
Proof. apply respects_modify. intros w. apply stable_contexts. Qed.

Local Hint Resolve stable_send stable_reply_error stable_set_heap stable_set_contexts : verifs.
Local Hint Extern 1 (Respects R (update _ _)) =>
  apply stable_benign; intros; repeat split; done : verifs.

Lemma stable_xrealloc ptr n : Respects R (xrealloc ptr n).
Proof. unfold xrealloc. respects. Qed.
Lemma stable_xwrite ptr off v : Respects R (xwrite ptr off v).
Proof. unfold xwrite. respects. Qed.
Local Hint Resolve stable_xrealloc stable_xwrite : verifs.

Lemma stable_SetXAttr p name v flags pos :
  Respects R (SetXAttrAndReply p name v flags pos).
Proof. unfold SetXAttrAndReply. respects. Qed.
Lemma stable_RemoveXAttr p name : Respects R (RemoveXAttrAndReply p name).
Proof. unfold RemoveXAttrAndReply. respects. Qed.

Lemma stable_PrepareReaddir p c : Respects R (PrepareReaddir p c).
Proof. unfold PrepareReaddir. respects. Qed.
Lemma stable_RecycleStates : Respects R RecycleStates.
Proof. apply respects_modify. intros w. apply stable_contexts. Qed.

Local Hint Resolve stable_SetXAttr stable_RemoveXAttr stable_PrepareReaddir
  stable_RecycleStates : verifs.

Lemma steady_FuseOps direntry_size sha256 h r e w a w' :
  is_ioctl r = false -> is_forget r = false -> kernel_ok w r ->
  FuseOps direntry_size sha256 h r e w = Ok a w' -> R w w'.
Proof.
  intros Hi Hf Hk. destruct (is_memory r) eqn:Hm; [|by apply (quiet_FuseOps R _ _ _ _ _ _ _ _ Hi Hf Hm Hk)].
  destruct r; simpl FuseOps; try done;
    match goal with |- ?m e w = _ -> _ => cut (Respects R m); [by intros H; apply H|] end.
  all: match goal with |- Respects _ (?f) => let hd := head_of f in unfold hd end.
  all: repeat first [ apply (stable_with_live R); intros ? | apply (stable_with_dir R)
                    | progress respects ].
Qed.
End steady.

Section stable.
Context (R : relation world) `{!Stable R}.

(** A served request that is not an [ioctl] respects every stable relation. *)
Lemma stable_FuseOps direntry_size sha256 h r e w a w' :
  is_ioctl r = false -> kernel_ok w r ->
  FuseOps direntry_size sha256 h r e w = Ok a w' -> R w w'.
Proof.
  intros Hi Hk. destruct (is_forget r) eqn:Hf; [|by apply (steady_FuseOps R _ _ _ _ _ _ _ _ Hi Hf Hk)].
  destruct r; try done. by apply (stable_FuseForget R).
Qed.
End stable.
