(* ===== verification/Invariant.v ===== *)
(** * The invariant of the file system

    What holds of the inode table, the queue of deleted numbers and the inode
    counters in every state the file system can reach, and that every operation
    keeps it: the numbers of the objects, the representation of files,
    directories and links, the queue as the exact list of free slots, and the
    count of free inodes. *)

From S2P Require Import Prelude World Util Table InodeOps FileOps DirectoryOps Nodes.
From S2P Require Import Handlers CkptRestore Codec Pickle Requests.

(** ** Definitions *)

(** A directory object with children [l]. The size is a [ssize_t]; when it does
    not overflow this is [dir_repr]. *)
Definition dir_inv (i : inode) (l : list (string * Z)) : Prop :=
  derived i = Directory l /\ NoDup l.*1 /\ st_size (attr i) = s64 (dir_bytes l) /\
  st_blocks (attr i) = get_nblocks (dir_bytes l) BufBlockSize.

Definition link_blocks (n : Z) : Z := n / BufBlockSize + (if n `mod` BufBlockSize =? 0 then 0 else 1).

Record object_ok (ino : Z) (i : inode) : Prop := {
  obj_entry : ep_ino (m_fuseEntryParam (base i)) = ino;
  obj_ino : st_ino (attr i) = ino;
  obj_class : class_matches i = true;
  obj_data :
    match derived i with
    | File _ => exists c, file_repr i c
    | Directory l => dir_inv i l
    | SymLink s =>
        st_size (attr i) = Z.of_nat (String.length s) /\
        st_blocks (attr i) = link_blocks (Z.of_nat (String.length s))
    | SpecialInode _ => st_size (attr i) = 0 /\ st_blocks (attr i) = 0
    end }.

(** The number of inodes in the table. *)
Fixpoint live (t : list (option inode)) : Z :=
  match t with
  | [] => 0
  | Some _ :: t' => 1 + live t'
  | None :: t' => live t'
  end.

Record fs_ok (w : world) : Prop := {
  ok_objects ino i : get_inode w ino = Some i -> object_ok ino i;
  ok_queue : NoDup (DeletedInodes w);
  ok_deleted ino : ino ∈ DeletedInodes w <-> vec_at (Inodes w) ino = Some None;
  ok_ffree : f_ffree (m_stbuf w) = f_files (m_stbuf w) - live (Inodes w);
  ok_favail : f_favail (m_stbuf w) = f_ffree (m_stbuf w);
  ok_limit : zlen (Inodes w) <= f_files (m_stbuf w) < 2 ^ 64 }.

(** ** Counting *)

Lemma live_app t u : live (t ++ u) = live t + live u.
Proof. induction t as [|[i|] t IH]; simpl; lia. Qed.

Lemma live_bound t : 0 <= live t <= zlen t.
Proof. induction t as [|[i|] t IH]; simpl in *; lia. Qed.

Lemma live_full t : (forall n, t !! n <> Some None) -> live t = zlen t.
Proof.
  induction t as [|[i|] t IH]; intros H; simpl; [done| |].
  - rewrite Nat2Z.inj_succ, IH; [lia|]. intros n. apply (H (S n)).
  - by destruct (H 0%nat).
Qed.

Definition weight (o : option inode) : Z := match o with Some _ => 1 | None => 0 end.

Lemma live_insert t n o o' :
  t !! n = Some o -> live (<[n := o']> t) = live t - weight o + weight o'.
Proof.
  intros H. assert (Hn := lookup_lt_Some _ _ _ H).
  rewrite insert_take_drop by done.
  rewrite <- (take_drop_middle t n o H) at 3.
  rewrite !live_app. change (o' :: drop (S n) t) with ([o'] ++ drop (S n) t).
  change (o :: drop (S n) t) with ([o] ++ drop (S n) t). rewrite !live_app.
  destruct o, o'; simpl; lia.
Qed.

(** ** Single steps on the table *)

(** Replacing an object by a well-formed one. *)
Lemma fs_ok_put w p i j :
  fs_ok w -> get_inode w p = Some i -> object_ok p j -> fs_ok (put_inode p (Some j) w).
Proof.
  intros Hw Hi Hj. pose proof (get_inode_range _ _ _ Hi) as Hr.
  pose proof (get_inode_slot _ _ _ Hi) as [_ Hs]. split; simpl; try apply Hw.
  - intros q x. rewrite get_put_inode by done. case_decide as E.
    + by intros [= <-]; subst.
    + apply Hw.
  - intros q. rewrite vec_at_insert by done. case_decide as E; [|apply Hw].
    subst q. rewrite (ok_deleted _ Hw p), (proj1 (get_inode_Some _ _ _) Hi). naive_solver.
  - rewrite (live_insert _ _ _ _ Hs). simpl. rewrite (ok_ffree _ Hw). lia.
  - rewrite length_insert. apply Hw.
Qed.

(** A change of the block counters. *)
Lemma fs_ok_stbuf w s :
  fs_ok w -> f_files s = f_files (m_stbuf w) -> f_ffree s = f_ffree (m_stbuf w) ->
  f_favail s = f_favail (m_stbuf w) -> fs_ok (set_stbuf s w).
Proof.
  intros Hw E1 E2 E3. split; simpl; rewrite ?E1, ?E2, ?E3; apply Hw.
Qed.

Lemma fs_ok_charge w n : fs_ok w -> fs_ok (set_stbuf (charge_blocks n (m_stbuf w)) w).
Proof. intros Hw. by apply fs_ok_stbuf. Qed.

Lemma fs_ok_resized w p n i j :
  fs_ok w -> get_inode w p = Some i -> object_ok p j -> fs_ok (resized w p n j).
Proof.
  intros Hw Hi Hj. unfold resized, charged. destruct (n =? 0); [by eapply fs_ok_put|].
  eapply fs_ok_put; [by apply fs_ok_charge|done|done].
Qed.

Lemma fs_ok_charged w p n i j :
  fs_ok w -> get_inode w p = Some i -> object_ok p j -> fs_ok (charged w p n j).
Proof.
  intros Hw Hi Hj. unfold charged. eapply fs_ok_put; [by apply fs_ok_charge|done|done].
Qed.

(** Changes outside the table and the counters. *)
Lemma fs_ok_frame w w' :
  fs_ok w -> Inodes w' = Inodes w -> DeletedInodes w' = DeletedInodes w ->
  m_stbuf w' = m_stbuf w -> fs_ok w'.
Proof.
  intros Hw E1 E2 E3. assert (E4 : forall ino, get_inode w' ino = get_inode w ino).
  { intros ino. unfold get_inode. by rewrite E1. }
  split; rewrite ?E1, ?E2, ?E3; try apply Hw. intros ino i. rewrite E4. apply Hw.
Qed.

(** Removing an object and counting it as free. *)
Lemma fs_ok_delete w ino i s :
  fs_ok w -> get_inode w ino = Some i ->
  f_files s = f_files (m_stbuf w) -> f_ffree s = u64 (f_ffree (m_stbuf w) + 1) ->
  f_favail s = u64 (f_favail (m_stbuf w) + 1) ->
  fs_ok (set_stbuf s (set_DeletedInodes (DeletedInodes w ++ [ino]) (put_inode ino None w))).
Proof.
  intros Hw Hi E1 E2 E3. pose proof (get_inode_range _ _ _ Hi) as Hr.
  pose proof (get_inode_slot _ _ _ Hi) as [_ Hs].
  assert (Hl := live_insert _ _ _ None Hs). simpl in Hl.
  assert (Hb := live_bound (<[Z.to_nat ino := None]> (Inodes w))).
  assert (Hf := ok_ffree _ Hw). assert (Hfa := ok_favail _ Hw).
  assert (Hlim := ok_limit _ Hw). len.
  split; simpl.
  - intros q x. change (get_inode _ q) with (get_inode (put_inode ino None w) q).
    rewrite get_put_inode by done. case_decide; [done|apply Hw].
  - apply list.NoDup_app. split; [apply Hw|]. split; [|apply NoDup_singleton].
    intros x Hx Hx'%list_elem_of_singleton. subst x.
    apply (ok_deleted _ Hw) in Hx. apply get_inode_Some in Hi. congruence.
  - intros q. rewrite vec_at_insert, elem_of_app, list_elem_of_singleton by done.
    rewrite (ok_deleted _ Hw q). case_decide; naive_solver.
  - rewrite E1, E2, Hl, u64_small by lia. lia.
  - rewrite E2, E3, Hfa. done.
  - rewrite E1. len.
Qed.

(** ** The operations on one object *)

Lemma benign_class i j : benign i j -> class_matches j = class_matches i.
Proof.
  intros (Hd & _ & _ & _ & _ & Hm). unfold class_matches, S_ISREG, S_ISDIR, S_ISLNK, mode_is.
  by rewrite Hd, Hm.
Qed.

Lemma benign_ok ino i j : benign i j -> object_ok ino i -> object_ok ino j.
Proof.
  intros Hb [He Hi Hc Ho]. pose proof Hb as (Hd & H1 & H2 & H3 & H4 & _). split.
  - congruence.
  - congruence.
  - by rewrite (benign_class _ _ Hb).
  - rewrite Hd. destruct (derived i) as [b|l|ty|s] eqn:E.
    + destruct Ho as (c & b' & Hb' & Hr). exists c, b'. rewrite Hd, H3, H4. split; [congruence|done].
    + unfold dir_inv in *. rewrite H3, H4. tauto.
    + by rewrite H3, H4.
    + by rewrite H3, H4.
Qed.

(** Setting the content of a file or the children of a directory. *)
Lemma file_ok ino i buf f c :
  object_ok ino i -> file_buf i <> None -> file_repr (set_file buf f i) c ->
  st_ino (f (attr i)) = st_ino (attr i) -> st_mode (f (attr i)) = st_mode (attr i) ->
  object_ok ino (set_file buf f i).
Proof.
  intros [He Hi Hc Ho] Hf Hr E1 E2. split.
  - done.
  - change (st_ino (f (attr i)) = ino). congruence.
  - unfold class_matches, file_buf in *. simpl.
    change (S_ISREG (st_mode (f (attr i))) = true). rewrite E2.
    by destruct (derived i).
  - simpl. eauto.
Qed.

Lemma dir_ok ino i l f :
  object_ok ino i -> dir_children i <> None -> NoDup l.*1 ->
  st_ino (f (attr i)) = st_ino (attr i) -> st_mode (f (attr i)) = st_mode (attr i) ->
  st_size (f (attr i)) = s64 (dir_bytes l) ->
  st_blocks (f (attr i)) = get_nblocks (dir_bytes l) BufBlockSize ->
  object_ok ino (on_attr f (set_children l i)).
Proof.
  intros [He Hi Hc Ho] Hf Hn E1 E2 E3 E4. split.
  - done.
  - change (st_ino (f (attr i)) = ino). congruence.
  - unfold class_matches, dir_children in *. simpl.
    change (S_ISDIR (st_mode (f (attr i))) = true). rewrite E2.
    by destruct (derived i).
  - simpl. by repeat split.
Qed.

(** The object that a method of [File] or [Directory] works on. *)
Lemma file_of_ok w p i b :
  fs_ok w -> get_inode w p = Some i -> file_buf i = Some b -> exists c, file_repr i c.
Proof.
  intros Hw Hi Hb. pose proof (obj_data _ _ (ok_objects _ Hw _ _ Hi)) as Hd.
  unfold file_buf in Hb. by destruct (derived i).
Qed.

Lemma dir_of_ok w p i l :
  fs_ok w -> get_inode w p = Some i -> dir_children i = Some l -> dir_inv i l.
Proof.
  intros Hw Hi Hb. pose proof (obj_data _ _ (ok_objects _ Hw _ _ Hi)) as Hd.
  unfold dir_children in Hb. destruct (derived i); by simplify_eq.
Qed.

Lemma deref_file_Ok {A} p (k : inode -> list byte -> M A) e w a w' :
  (f ← deref p; b ← get_or crash_null (file_buf f); k f b) e w = Ok a w' ->
  exists f b, get_inode w p = Some f /\ file_buf f = Some b.
Proof.
  unfold mbind, M_bind. destruct (deref p e w) as [f w0|] eqn:E0; [|done].
  apply deref_Ok in E0 as [Hf ->]. destruct (file_buf f) as [b|] eqn:Hb; [|done]. eauto.
Qed.

Lemma ask_Ok {A} (k : env -> M A) e w r : (x ← ask; k x) e w = r -> k e e w = r.
Proof. done. Qed.

Lemma deref_dir_Ok {A} p (k : inode -> list (string * Z) -> M A) e w a w' :
  (d ← deref p; l ← get_or crash_null (dir_children d); k d l) e w = Ok a w' ->
  exists d l, get_inode w p = Some d /\ dir_children d = Some l /\ k d l e w = Ok a w'.
Proof.
  unfold mbind, M_bind. destruct (deref p e w) as [d w0|] eqn:E0; [|done].
  apply deref_Ok in E0 as [Hd ->]. destruct (dir_children d) as [l|] eqn:Hl; [|done]. eauto.
Qed.

Lemma keeps_FileTruncate p n : 0 <= n < 2 ^ 63 -> Respects (keeps fs_ok) (FileTruncate p n).
Proof.
  intros Hn e w a w' H Hw. destruct (deref_file_Ok _ _ _ _ _ _ H) as (f & b & Hf & Hb).
  destruct (file_of_ok _ _ _ _ Hw Hf Hb) as [c Hc].
  pose proof (FileTruncate_spec e w p f c n Hf Hc Hn) as Hs. cbv zeta in Hs.
  destruct (negb _); [congruence|]. destruct (negb _ && _ && _); [congruence|].
  destruct Hs as (buf & Hrun & Hr). rewrite H in Hrun. injection Hrun as _ ->.
  eapply fs_ok_charged; [done|done|].
  by eapply (file_ok p f buf _ _ (ok_objects _ Hw _ _ Hf)); [congruence|exact Hr|..].
Qed.

Lemma keeps_reply r : Respects (keeps fs_ok) (send r).
Proof. apply respects_modify. intros w Hw. by eapply fs_ok_frame. Qed.

Lemma keeps_File_WriteAndReply p d off :
  0 <= off -> off + zlen d < 2 ^ 63 -> Respects (keeps fs_ok) (File_WriteAndReply p d off).
Proof.
  intros Ho Hn e w a w' H Hw. destruct (deref_file_Ok _ _ _ _ _ _ H) as (f & b & Hf & Hb).
  destruct (file_of_ok _ _ _ _ Hw Hf Hb) as [c Hc].
  assert (Hrep : forall r x, fs_ok x -> fs_ok (add_reply r x)).
  { intros r x Hx. by eapply fs_ok_frame. }
  pose proof (WriteAndReply_spec e w p f c d off Hf Hc Ho Hn) as Hs. cbv zeta in Hs.
  destruct (_ && negb (has_space_for _ _ _)); [rewrite H in Hs; injection Hs as _ ->; auto|].
  destruct (_ && negb _); [rewrite H in Hs; injection Hs as _ ->; auto|].
  destruct Hs as (buf & Hrun & Hr). rewrite H in Hrun. injection Hrun as _ ->.
  apply Hrep. assert (object_ok p (set_file buf (fun a => touch_mc (now e)
    (if zlen c <? off + zlen d then set_st_size (off + zlen d)
       (set_st_blocks (get_nblocks (off + zlen d) BufBlockSize) a) else a)) f)).
  { eapply (file_ok p f buf _ _ (ok_objects _ Hw _ _ Hf)); [congruence|exact Hr|..];
      by destruct (zlen c <? off + zlen d). }
  destruct (_ <? _); [by eapply fs_ok_charged|by eapply fs_ok_put].
Qed.

(** ** The operations on directories *)

Lemma get_nblocks_u64 n b : get_nblocks (u64 n) b = get_nblocks n b.
Proof.
  unfold get_nblocks. rewrite <- !Z.add_sub_assoc. by rewrite u64_add_l.
Qed.

Lemma get_nblocks_range n : 0 <= get_nblocks n BufBlockSize < 2 ^ 55.
Proof.
  unfold get_nblocks, BufBlockSize. pose proof (u64_range (n + 512 - 1)).
  split; [apply Z.div_pos; lia|apply Z.div_lt_upper_bound; lia].
Qed.

Definition size_attr (size : Z) (a : stat) : stat :=
  set_st_blocks (get_nblocks size BufBlockSize) (set_st_size (s64 size) a).

Lemma UpdateSize_Ok e w p d size delta a w' :
  get_inode w p = Some d -> st_size (attr d) = s64 size ->
  st_blocks (attr d) = get_nblocks size BufBlockSize ->
  UpdateSize p delta e w = Ok a w' ->
  exists n, w' = resized w p n (on_attr (size_attr (size + delta)) d).
Proof.
  intros Hd Hs Hb. unfold UpdateSize, mbind, M_bind. rewrite (deref_run _ _ _ _ Hd).
  rewrite Hs, Hb. destruct (_ && _); [done|].
  rewrite (Z.add_comm (s64 size)), u64_add_s64, (Z.add_comm delta).
  rewrite get_nblocks_u64, s64_u64, (u64_small (get_nblocks size _))
    by (pose proof (get_nblocks_range size); lia).
  rewrite (update_run _ _ _ _ d) by done.
  pose proof (get_nblocks_range (size + delta)). pose proof (get_nblocks_range size).
  destruct (Z.eqb_spec (get_nblocks (size + delta) BufBlockSize)
              (get_nblocks size BufBlockSize)) as [En|En]; simpl.
  - intros [= _ <-]. exists 0. unfold resized. simpl. do 2 f_equal. apply on_attr_ext.
    unfold size_attr. rewrite En. symmetry. by apply set_st_blocks_id.
  - rewrite (update_run _ _ _ _ _ (get_put_eq _ _ _ _ Hd)). simpl.
    rewrite (s64_small (get_nblocks (size + delta) _)), s64_small by lia.
    rewrite put_put_inode, on_attr_on_attr. intros [= _ <-].
    exists (get_nblocks (size + delta) BufBlockSize - get_nblocks size BufBlockSize).
    unfold resized. by rewrite (proj2 (Z.eqb_neq _ 0)) by lia.
Qed.

Lemma keeps_AddChild p name ino : Respects (keeps fs_ok) (AddChild p name ino).
Proof.
  intros e w a w' H Hw. apply deref_dir_Ok in H as (d & l & Hd & Hl & H).
  pose proof (dir_of_ok _ _ _ _ Hw Hd Hl) as (_ & Hnd & Hs & Hb).
  destruct (dir_find name l) eqn:Hf; [by injection H as _ <-|].
  unfold mbind, M_bind in H. simpl in H.
  destruct (has_space_for _ _ _); simpl in H; [|by injection H as _ <-].
  rewrite (update_run _ _ _ _ d) in H by done.
  destruct (UpdateSize _ _ _ _) as [[] w1|] eqn:E; [|done]. injection H as _ <-.
  destruct (UpdateSize_Ok _ _ _ (set_children (l ++ [(name, ino)]) d) _ _ _ _ (get_put_eq _ _ _ _ Hd) Hs Hb E) as [n ->].
  rewrite resized_put, <- (dir_bytes_snoc l name ino).
  eapply fs_ok_resized; [done|done|]. apply dir_ok; try done.
  - by apply (ok_objects _ Hw).
  - by rewrite Hl.
  - rewrite fmap_app. apply list.NoDup_app. split; [done|].
    split; [|by apply NoDup_singleton]. simpl.
    apply dir_find_None in Hf. set_solver.
Qed.

Lemma keeps_RemoveChild p name : Respects (keeps fs_ok) (RemoveChild p name).
Proof.
  intros e w a w' H Hw. unfold RemoveChild in H. apply ask_Ok in H.
  apply deref_dir_Ok in H as (d & l & Hd & Hl & H).
  pose proof (dir_of_ok _ _ _ _ Hw Hd Hl) as (_ & Hnd & Hs & Hb).
  destruct (dir_find name l) eqn:Hf; [|by injection H as _ <-].
  unfold mbind, M_bind in H. simpl in H. rewrite (update_run _ _ _ _ d) in H by done.
  destruct (UpdateSize _ _ _ _) as [[] w1|] eqn:E; [|done].
  destruct (UpdateSize_Ok _ _ _ (set_children (dir_erase name l) d) _ _ _ _ (get_put_eq _ _ _ _ Hd) Hs Hb E) as [n ->].
  rewrite (update_run _ _ _ _ _ (get_resized _ _ _ _ _ (get_put_eq _ _ _ _ Hd))) in H.
  injection H as _ <-. rewrite resized_put, put_resized, on_attr_on_attr.
  eapply fs_ok_resized; [done|done|]. apply dir_ok; try done.
  - by apply (ok_objects _ Hw).
  - by rewrite Hl.
  - by apply dir_erase_nodup.
  - simpl. rewrite dir_bytes_erase by (apply dir_find_is_Some; eauto).
    rewrite <- (s64_u64 (_ + _)), u64_add_s64, s64_u64. done.
  - simpl. rewrite dir_bytes_erase by (apply dir_find_is_Some; eauto).
    rewrite <- (get_nblocks_u64 (_ + _)), u64_add_s64, get_nblocks_u64. done.
Qed.

Lemma keeps_UpdateChild p name ino : Respects (keeps fs_ok) (UpdateChild p name ino).
Proof.
  intros e w a w' H Hw. unfold UpdateChild in H. apply ask_Ok in H.
  apply deref_dir_Ok in H as (d & l & Hd & Hl & H).
  pose proof (dir_of_ok _ _ _ _ Hw Hd Hl) as (_ & Hnd & Hs & Hb).
  destruct (dir_find name l) eqn:Hf; [|by injection H as _ <-].
  unfold mbind, M_bind in H. simpl in H. rewrite (update_run _ _ _ _ d) in H by done.
  rewrite (update_run _ _ _ _ _ (get_put_eq _ _ _ _ Hd)) in H.
  injection H as _ <-. rewrite put_put_inode.
  eapply fs_ok_put; [done|done|]. apply dir_ok; try done.
  - by apply (ok_objects _ Hw).
  - by rewrite Hl.
  - by rewrite dir_assign_names.
  - simpl. by rewrite dir_bytes_assign.
  - simpl. by rewrite dir_bytes_assign.
Qed.

(** ** Creation and removal of objects *)

(** The object after [Initialize]. *)
Definition initialized (t : timespec) (ino mode nlink gid uid : Z) (i : inode) : inode :=
  let j := on_base (set_entry (initial_entry t ino mode nlink gid uid)) i in
  match derived i with
  | Directory _ => on_attr (resize_attr sizeof_std_vector) j
  | SymLink link => on_attr (symlink_attr link) j
  | _ => j
  end.

(** The block that [Directory::Initialize] charges by itself. *)
Definition own_charge (i : inode) : Z :=
  match derived i with Directory _ => 1 | _ => 0 end.

Lemma Initialize_run e w p i ino mode nlink gid uid :
  get_inode w p = Some i ->
  Initialize p ino mode nlink gid uid e w
  = Ok tt (resized w p (own_charge i) (initialized (now e) ino mode nlink gid uid i)).
Proof.
  intros Hi. unfold Initialize, Directory_Initialize, SymLink_Initialize, Inode_Initialize.
  unfold own_charge, initialized, mbind, M_bind. rewrite (deref_run _ _ _ _ Hi).
  destruct (derived i) as [b|l|ty|s] eqn:Ed; simpl; rewrite (update_run _ _ _ _ i) by done.
  - done.
  - rewrite (UpdateSize_run _ _ _ _ _ (get_put_eq _ _ _ _ Hi)); [|done..].
    by rewrite resized_put.
  - done.
  - rewrite (update_run _ _ _ _ _ (get_put_eq _ _ _ _ Hi)). by rewrite put_put_inode.
Qed.

(** The number a new object gets, and the table and the queue that hold it. *)
Definition next_ino (w : world) : Z :=
  match DeletedInodes w with [] => zlen (Inodes w) | ino :: _ => ino end.
Definition enlist (i : inode) (w : world) : world :=
  match DeletedInodes w with
  | [] => set_Inodes (Inodes w ++ [Some i]) w
  | ino :: q => put_inode ino (Some i) (set_DeletedInodes q w)
  end.

Lemma enlist_put w i j : put_inode (next_ino w) (Some j) (enlist i w) = enlist j w.
Proof.
  unfold next_ino, enlist. destruct (DeletedInodes w); [|by rewrite put_put_inode].
  unfold put_inode, set_Inodes. simpl. rewrite Nat2Z.id.
  by rewrite insert_app_r_alt, Nat.sub_diag by lia.
Qed.

(** Before the new object, the slot is free. *)
Lemma next_ino_fresh w : fs_ok w -> get_inode w (next_ino w) = None.
Proof.
  intros Hw. unfold next_ino, get_inode. destruct (DeletedInodes w) as [|ino q] eqn:E.
  - unfold vec_at. rewrite (proj2 (Z.leb_le _ _)) by lia.
    by rewrite Nat2Z.id, lookup_ge_None_2.
  - assert (Hd : ino ∈ DeletedInodes w) by (rewrite E; by left).
    apply (ok_deleted _ Hw) in Hd. by rewrite Hd.
Qed.

Lemma next_ino_slot w : fs_ok w ->
  0 <= next_ino w < zlen (Inodes w) \/ DeletedInodes w = [] /\ next_ino w = zlen (Inodes w).
Proof.
  intros Hw. unfold next_ino. destruct (DeletedInodes w) as [|ino q] eqn:E; [by right|].
  left. assert (Hd : ino ∈ DeletedInodes w) by (rewrite E; by left).
  apply (ok_deleted _ Hw) in Hd. by eapply vec_at_range.
Qed.

Lemma get_enlist w i ino :
  fs_ok w ->
  get_inode (enlist i w) ino = if decide (ino = next_ino w) then Some i else get_inode w ino.
Proof.
  intros Hw. destruct (next_ino_slot w Hw) as [Hr|[Hq Hn]].
  - unfold enlist, next_ino in *. destruct (DeletedInodes w) as [|x q]; [lia|].
    rewrite get_put_inode by done. repeat case_decide; done || congruence.
  - unfold enlist, get_inode. rewrite Hq. simpl. rewrite vec_at_snoc, Hn.
    by case_decide.
Qed.

Lemma take_number_run e w i :
  fs_ok w -> take_number i e w = Ok (next_ino w) (enlist i w).
Proof.
  intros Hw. unfold take_number, mbind, M_bind. simpl.
  pose proof (next_ino_slot w Hw) as Hs. pose proof (ok_limit _ Hw) as Hl.
  unfold next_ino, enlist in *. destruct (DeletedInodes w) as [|ino q] eqn:E.
  - unfold AddInode, mbind, M_bind. simpl. rewrite length_app. simpl.
    unfold mret, M_ret. f_equal. rewrite u64_small by lia. lia.
  - unfold PopOneDeletedInode, UpdateInode, mbind, M_bind. simpl. rewrite E. simpl.
    rewrite store_slot_run; [done|]. simpl. destruct Hs as [?|[? ?]]; [done|congruence].
Qed.

(** Adding an object and counting it as used. *)
Lemma fs_ok_enlist w i s :
  fs_ok w -> 0 < f_ffree (m_stbuf w) -> object_ok (next_ino w) i ->
  f_files s = f_files (m_stbuf w) -> f_ffree s = u64 (f_ffree (m_stbuf w) - 1) ->
  f_favail s = u64 (f_favail (m_stbuf w) - 1) ->
  fs_ok (set_stbuf s (enlist i w)).
Proof.
  intros Hw Hfree Hi E1 E2 E3. pose proof (ok_limit _ Hw) as Hlim.
  pose proof (ok_ffree _ Hw) as Hf. pose proof (ok_favail _ Hw) as Hfa.
  pose proof (live_bound (Inodes w)) as Hlb.
  assert (Hlive : live (Inodes (enlist i w)) = live (Inodes w) + 1 /\
    zlen (Inodes (enlist i w)) <= f_files (m_stbuf w)).
  { unfold enlist. destruct (DeletedInodes w) as [|ino q] eqn:E; simpl.
    - rewrite live_app, length_app. simpl.
      assert (Hfull : live (Inodes w) = zlen (Inodes w)).
      { apply live_full. intros n Hn.
        assert (Hv : vec_at (Inodes w) (Z.of_nat n) = Some None)
          by (apply vec_at_Some; rewrite Nat2Z.id; split; [lia|done]).
        apply (ok_deleted _ Hw) in Hv. rewrite E in Hv. by apply elem_of_nil in Hv. }
      lia.
    - assert (Hd : ino ∈ DeletedInodes w) by (rewrite E; by left).
      apply (ok_deleted _ Hw), vec_at_Some in Hd as [_ Hd].
      rewrite (live_insert _ _ _ _ Hd), length_insert. simpl. lia. }
  split; simpl.
  - intros ino x. change (get_inode _ ino) with (get_inode (enlist i w) ino).
    rewrite get_enlist by done. case_decide; [|apply Hw]. by intros [= <-]; subst.
  - pose proof (ok_queue _ Hw) as Hq. unfold enlist.
    destruct (DeletedInodes w) eqn:E; simpl; [by rewrite E|by apply list.NoDup_cons in Hq as [_ ?]].
  - intros ino. pose proof (ok_deleted _ Hw ino) as Hd. pose proof (ok_queue _ Hw) as Hq.
    pose proof (next_ino_slot w Hw) as Hs. unfold enlist, next_ino in *.
    destruct (DeletedInodes w) as [|x q] eqn:E; simpl.
    + rewrite E, vec_at_snoc. case_decide as En; [|done].
      split; [by intros ?%elem_of_nil|done].
    + destruct Hs as [Hs|[? _]]; [|done]. apply list.NoDup_cons in Hq as [Hx _].
      rewrite vec_at_insert by done. case_decide as En.
      * subst. split; [done|congruence].
      * rewrite <- Hd, elem_of_cons. naive_solver.
  - rewrite E1, E2, u64_small by lia. lia.
  - rewrite E2, E3, Hfa. done.
  - rewrite E1. lia.
Qed.

(** The counters after [RegisterInode]: a directory is charged by its own
    [Initialize] and once more with all its blocks. *)
Definition register_stat (i new : inode) (s : statvfs) : statvfs :=
  let s := charge_inodes 1 s in
  let s := if own_charge i =? 0 then s else charge_blocks (own_charge i) s in
  charge_blocks (s64 (UsedBlocks new)) s.

Lemma RegisterInode_run e w i mode nlink gid uid :
  fs_ok w ->
  let new := initialized (now e) (next_ino w) mode nlink gid uid i in
  RegisterInode i mode nlink gid uid e w
  = Ok (next_ino w) (set_stbuf (register_stat i new (m_stbuf w)) (enlist new w)).
Proof.
  intros Hw new. unfold RegisterInode, mbind, M_bind. rewrite take_number_run by done.
  simpl. set (w1 := set_stbuf _ (enlist i w)).
  assert (H1 : get_inode w1 (next_ino w) = Some i).
  { change (get_inode (enlist i w) (next_ino w) = Some i).
    rewrite get_enlist by done. by rewrite decide_True. }
  rewrite (Initialize_run _ _ _ _ _ _ _ _ _ H1).
  rewrite (deref_run _ _ _ _ (get_resized _ _ _ _ _ H1)). fold new. simpl.
  unfold mret, M_ret. f_equal. rewrite <- (enlist_put w i new).
  assert (Hst : forall x, m_stbuf (enlist x w) = m_stbuf w).
  { intros x. unfold enlist. by destruct (DeletedInodes w). }
  subst w1. unfold resized, charged, register_stat.
  destruct (own_charge i =? 0); simpl; by rewrite Hst.
Qed.

(** An object that [make_node] gives for a mode. *)
Definition fresh_for (mode : Z) (i : inode) : Prop :=
  match derived i with
  | File b => b = [] /\ S_ISREG mode = true
  | Directory l => l = [] /\ S_ISDIR mode = true
  | SymLink _ => S_ISLNK mode = true
  | SpecialInode _ => S_ISREG mode || S_ISDIR mode || S_ISLNK mode = false
  end.

Lemma make_node_fresh mode dev symlink i links :
  make_node mode dev symlink = Some (i, links) -> fresh_for mode i.
Proof.
  unfold make_node, fresh_for.
  destruct (S_ISREG mode) eqn:?; [by intros [= <- _]|].
  destruct (S_ISDIR mode) eqn:?; [by intros [= <- _]|].
  assert (Ho : forall f, mode_is f mode = true -> f <> S_IFLNK -> S_ISLNK mode = false).
  { intros f Hf Hne. by apply (mode_is_other f). }
  destruct (S_ISCHR mode) eqn:E; [intros [= <- _]; simpl; by apply (Ho S_IFCHR)|].
  destruct (S_ISBLK mode) eqn:E1; [intros [= <- _]; simpl; by apply (Ho S_IFBLK)|].
  destruct (S_ISFIFO mode) eqn:E2; [intros [= <- _]; simpl; by apply (Ho S_IFIFO)|].
  destruct (S_ISSOCK mode) eqn:E3; [intros [= <- _]; simpl; by apply (Ho S_IFSOCK)|].
  destruct (S_ISLNK mode) eqn:E4; [|done].
  destruct symlink; [|done]. by intros [= <- _].
Qed.

Lemma symlink_attr_sizes link a :
  st_blksize a = BufBlockSize ->
  st_size (symlink_attr link a) = Z.of_nat (String.length link) /\
  st_blocks (symlink_attr link a) = link_blocks (Z.of_nat (String.length link)).
Proof.
  intros Hb. set (n := Z.of_nat (String.length link)). unfold symlink_attr. fold n. simpl.
  rewrite Hb. pose proof (Z.div_mod n BufBlockSize ltac:(done)).
  pose proof (Z.mod_pos_bound n BufBlockSize ltac:(done)). unfold link_blocks.
  destruct (Z.ltb_spec (BufBlockSize * (n / BufBlockSize)) n);
    destruct (Z.eqb_spec (n `mod` BufBlockSize) 0); simpl; lia.
Qed.

Lemma symlink_attr_frame link a :
  st_ino (symlink_attr link a) = st_ino a /\ st_mode (symlink_attr link a) = st_mode a.
Proof. unfold symlink_attr. by case_match. Qed.

Lemma initialized_ok t ino mode nlink gid uid i :
  fresh_for mode i -> object_ok ino (initialized t ino mode nlink gid uid i).
Proof.
  destruct i as [b d]. unfold fresh_for, initialized. simpl.
  destruct d as [buf|l|ty|s]; intros Hf; split; try done; simpl.
  - apply Hf.
  - exists [], buf. destruct Hf as [-> _]. by repeat split.
  - apply Hf.
  - destruct Hf as [-> _]. split; [done|]. split; [apply NoDup_nil_2|]. done.
  - unfold class_matches. simpl. unfold GetMode, attr. simpl. by rewrite Hf.
  - by apply symlink_attr_frame.
  - unfold class_matches. simpl. unfold GetMode, attr. simpl.
    by rewrite (proj2 (symlink_attr_frame _ _)).
  - by apply symlink_attr_sizes.
Qed.

Lemma keeps_RegisterInode e w i mode nlink gid uid ino w' :
  fs_ok w -> 0 < f_ffree (m_stbuf w) -> fresh_for mode i ->
  RegisterInode i mode nlink gid uid e w = Ok ino w' -> fs_ok w'.
Proof.
  intros Hw Hf Hm. rewrite RegisterInode_run by done. intros [= _ <-].
  apply fs_ok_enlist; try done.
  - by apply initialized_ok.
  - unfold register_stat. by destruct (own_charge i =? 0).
  - unfold register_stat. by destruct (own_charge i =? 0).
  - unfold register_stat. by destruct (own_charge i =? 0).
Qed.

(** The failure path of [do_create_node], and the end of [FuseForget]. *)
Lemma keeps_undo ino (ret : Z) :
  Respects (keeps fs_ok) (UpdateUsedInodes (-1);; n ← deref ino;
    UpdateUsedBlocks (s64 (UsedBlocks n));; DeleteInode ino;; mret ret : M Z).
Proof.
  intros e w a w' H Hw. unfold mbind, M_bind in H. simpl in H.
  destruct (deref ino e _) as [n w1|] eqn:E; [|done]. apply deref_Ok in E as [Hn ->].
  unfold DeleteInode, mbind, M_bind in H. simpl in H.
  rewrite store_slot_run in H by (by eapply get_inode_range in Hn).
  injection H as _ <-.
  exact (fs_ok_delete w ino n (charge_blocks (s64 (UsedBlocks n))
    (charge_inodes (-1) (m_stbuf w))) Hw Hn eq_refl eq_refl eq_refl).
Qed.

Lemma keeps_reclaim e w ino i n a w' :
  get_inode w ino = Some i ->
  (DeleteInode ino;; UpdateUsedInodes (-1);; UpdateUsedBlocks n) e w = Ok a w' ->
  keeps fs_ok w w'.
Proof.
  intros Hi H Hw. unfold DeleteInode, mbind, M_bind in H. simpl in H.
  rewrite store_slot_run in H by (by eapply get_inode_range in Hi).
  injection H as _ <-.
  exact (fs_ok_delete w ino i (charge_blocks n (charge_inodes (-1) (m_stbuf w)))
           Hw Hi eq_refl eq_refl eq_refl).
Qed.

Lemma keeps_IncrementLinkCount p : Respects (keeps fs_ok) (IncrementLinkCount p).
Proof.
  apply respects_update; [typeclasses eauto|]. intros w i Hi Hw.
  eapply fs_ok_put; [done|done|]. eapply benign_ok; [|by apply (ok_objects _ Hw)].
  by repeat split.
Qed.

#[local] Hint Resolve keeps_AddChild keeps_RemoveChild keeps_UpdateChild
  keeps_IncrementLinkCount keeps_undo : verifs.

Lemma keeps_do_create_node parent name mode dev symlink :
  Respects (keeps fs_ok) (do_create_node parent name mode dev symlink).
Proof.
  intros e w a w' H Hw. unfold do_create_node in H. apply ask_Ok in H.
  destruct (make_node mode dev symlink) as [[i links]|] eqn:Em; [|by injection H as _ <-].
  destruct (negb (can_new e)); [by injection H as _ <-|].
  unfold mbind at 1, M_bind at 1 in H. simpl in H.
  destruct (f_ffree (m_stbuf w) <=? 0) eqn:Ef; [by injection H as _ <-|]. zbool.
  unfold mbind at 1, M_bind at 1 in H.
  destruct (RegisterInode _ _ _ _ _ e w) as [ino w1|] eqn:Er; [|done].
  apply (keeps_RegisterInode e w i mode links (ctx_gid e) (ctx_uid e) ino w1) in Er;
    [|done|done|by eapply make_node_fresh].
  revert H Er. match goal with |- ?m e w1 = _ -> _ => cut (Respects (keeps fs_ok) m) end.
  { intros Hm H. by eapply Hm. }
  respects.
Qed.

(** Every request keeps the invariant. *)
#[export] Instance fs_ok_stable : Stable (keeps fs_ok).
Proof.
  assert (Hobj : forall w p i j, get_inode w p = Some i -> benign i j ->
    keeps fs_ok w (put_inode p (Some j) w)).
  { intros w p i j Hi Hb Hw. eapply fs_ok_put; [done|done|].
    eapply benign_ok; [done|by apply (ok_objects _ Hw)]. }
  split; [split; [split| |..]|].
  - typeclasses eauto.
  - intros w r Hw. by eapply fs_ok_frame.
  - intros w p i j Hi [Hb _]. by eapply Hobj.
  - apply keeps_FileTruncate.
  - apply keeps_File_WriteAndReply.
  - apply keeps_AddChild.
  - apply keeps_RemoveChild.
  - apply keeps_UpdateChild.
  - apply keeps_do_create_node.
  - intros w hp Hw. by eapply fs_ok_frame.
  - intros w s Hw. by eapply fs_ok_frame.
  - apply Hobj.
  - exact keeps_reclaim.
Qed.
