(* ===== verification/Runs.v ===== *)
(** * Runs of the file system

    From mounting through any sequence of requests: what no request but an
    [ioctl] changes, the invariant in every reachable state, and checkpoint and
    restore around arbitrary work. *)

From S2P Require Import Prelude World Util Table InodeOps FileOps DirectoryOps Nodes.
From S2P Require Import Handlers CkptRestore Codec Pickle Requests Invariant.

(** ** What requests do not touch *)

(** The limits of the file system, the checkpoint pool and the notifications
    sent. *)
Definition fixed_part (w : world) :=
  (f_blocks (m_stbuf w), f_files (m_stbuf w), state_pool w, notifications w).

Abbreviation keeps_fixed m := (Respects (same fixed_part) m).

Lemma fixed_update p f : keeps_fixed (update p f).
Proof. apply respects_update; [typeclasses eauto|]. done. Qed.
Lemma fixed_store_slot p o : keeps_fixed (store_slot p o).
Proof. apply respects_store_slot; [typeclasses eauto|]. done. Qed.
Lemma fixed_UpdateUsedBlocks n : keeps_fixed (UpdateUsedBlocks n).
Proof. by apply respects_modify. Qed.
Lemma fixed_UpdateUsedInodes n : keeps_fixed (UpdateUsedInodes n).
Proof. by apply respects_modify. Qed.
Lemma fixed_send r : keeps_fixed (send r).
Proof. by apply respects_modify. Qed.
Lemma fixed_set_Inodes t : keeps_fixed (modify (set_Inodes t)).
Proof. by apply respects_modify. Qed.
Lemma fixed_set_DeletedInodes q : keeps_fixed (modify (set_DeletedInodes q)).
Proof. by apply respects_modify. Qed.

#[local] Hint Resolve fixed_update fixed_store_slot fixed_UpdateUsedBlocks
  fixed_UpdateUsedInodes fixed_send fixed_set_Inodes fixed_set_DeletedInodes : verifs.

Lemma fixed_UpdateSize p n : keeps_fixed (UpdateSize p n).
Proof. unfold UpdateSize. respects. Qed.
Lemma fixed_DeleteInode ino : keeps_fixed (DeleteInode ino).
Proof.
  unfold DeleteInode. apply respects_bind; [typeclasses eauto|auto with verifs|].
  intros _. by apply respects_modify.
Qed.
Lemma fixed_AddInode i : keeps_fixed (AddInode i).
Proof.
  unfold AddInode. apply respects_bind; [typeclasses eauto|by apply respects_modify|].
  respects.
Qed.

#[local] Hint Resolve fixed_UpdateSize fixed_DeleteInode fixed_AddInode : verifs.

Lemma fixed_AddChild p name ino : keeps_fixed (AddChild p name ino).
Proof. unfold AddChild. respects. Qed.
Lemma fixed_Initialize p ino mode nlink gid uid :
  keeps_fixed (Initialize p ino mode nlink gid uid).
Proof.
  unfold Initialize, Directory_Initialize, SymLink_Initialize, Inode_Initialize. respects.
Qed.
Lemma fixed_take_number i : keeps_fixed (take_number i).
Proof. unfold take_number, PopOneDeletedInode, UpdateInode. respects. Qed.

#[local] Hint Resolve fixed_AddChild fixed_Initialize fixed_take_number : verifs.

Lemma fixed_RegisterInode i mode nlink gid uid :
  keeps_fixed (RegisterInode i mode nlink gid uid).
Proof. unfold RegisterInode. respects. Qed.

#[local] Hint Resolve fixed_RegisterInode : verifs.

#[export] Instance fixed_stable : Stable (same fixed_part).
Proof.
  split; [split; [split; try done|done..]|].
  - typeclasses eauto.
  - intros. unfold FileTruncate. respects.
  - intros. unfold File_WriteAndReply, reply_error. respects.
  - intros. apply fixed_AddChild.
  - intros. unfold RemoveChild. respects.
  - intros. unfold UpdateChild. respects.
  - intros. unfold do_create_node, IncrementLinkCount. respects.
  - intros e w ino i n a w' _. revert e w a w'.
    apply (respects_bind (same fixed_part) (DeleteInode ino)
      (fun _ => UpdateUsedInodes (-1);; UpdateUsedBlocks n)); respects.
Qed.

(** ** The invariant of the whole system *)

(** A stored state is one the file system could be in. *)
Definition world_of (s : verifs2_state) : world :=
  mkWorld (vs_inodes s) (vs_deleted s) (vs_stat s) ∅ ∅ (mkHeap ∅ 1) [] [].

Definition state_ok (files : Z) (s : verifs2_state) : Prop :=
  fs_ok (world_of s) /\ f_files (vs_stat s) = files.

(** A property of the current state and of every stored one. *)
Definition all_states (P : verifs2_state -> Prop) (w : world) : Prop :=
  P (snapshot w) /\ map_Forall (fun _ => P) (state_pool w).

(** [files] is the configured number of inodes. *)
Definition sys_ok (files : Z) : world -> Prop := all_states (state_ok files).

Lemma fs_ok_snapshot w : fs_ok (world_of (snapshot w)) <-> fs_ok w.
Proof. split; intros H; by eapply fs_ok_frame. Qed.

Lemma sys_ok_fs files w : sys_ok files w -> fs_ok w.
Proof. intros [[H _] _]. by apply fs_ok_snapshot. Qed.

Lemma object_copyable ino i : object_ok ino i -> copyable i.
Proof.
  intros [_ _ Hc Hd]. split; [done|]. destruct (derived i) as [b| | |] eqn:E; try done.
  destruct Hd as (c & buf & Hb & Hs & Hlt & Hbl & Hlen & _).
  assert (buf = b) as -> by congruence. split; [done|]. rewrite Hlen, Hbl.
  pose proof (nblocks_small (zlen c) ltac:(lia)). unfold BufBlockSize in *. lia.
Qed.

Lemma fs_ok_slots P w :
  fs_ok w -> (forall ino i, object_ok ino i -> P i) -> slots P (Inodes w).
Proof.
  intros Hw HP. apply Forall_lookup_2. intros n [i|] Hn; [|done].
  apply (HP (Z.of_nat n)), (ok_objects _ Hw), get_inode_Some, vec_at_Some.
  rewrite Nat2Z.id. split; [lia|done].
Qed.

Lemma fs_ok_copyable w : fs_ok w -> slots copyable (Inodes w).
Proof. intros Hw. by apply (fs_ok_slots _ w Hw), object_copyable. Qed.

Lemma fs_ok_classed w : fs_ok w -> slots (fun i => class_matches i = true) (Inodes w).
Proof. intros Hw. apply (fs_ok_slots _ w Hw). by intros ino i []. Qed.

(** A copy that was made is exact. *)
Lemma copy_object_Ok e w i r w' :
  copyable i -> copy_object i e w = Ok r w' -> r = Some i /\ w' = w.
Proof.
  intros Hc H. pose proof (copy_object_pure _ _ _ _ _ H) as <-. split; [|done].
  destruct (can_new e) eqn:Hn.
  - destruct (match derived i with File b => can_alloc e (zlen b) | _ => true end) eqn:Ha.
    + rewrite copy_object_run in H; [congruence|done|]. split; [done|].
      constructor; [|constructor]. by destruct (derived i).
    + destruct (derived i) as [b| | |] eqn:Ed; try done. destruct Hc as [Hc Hb].
      unfold copy_object, class_matches, mbind, M_bind in *. simpl in *.
      rewrite Ed in *. rewrite Hc, Hn in H. destruct Hb as [Hb Hlt].
      unfold copy_File, mbind, M_bind in H. simpl in H.
      rewrite (Z.mul_comm _ BufBlockSize), <- Hb, u64_small, Ha in H by lia. done.
  - unfold copy_object, mbind, M_bind in H. simpl in H. rewrite Hn in H.
    destruct Hc as [Hc _]. unfold class_matches in Hc.
    destruct (derived i); unfold S_ISREG, S_ISDIR, S_ISLNK in *.
    all: try rewrite Hc in H; try done.
    + by rewrite (mode_is_other _ S_IFREG _ Hc) in H.
    + zbool. by repeat match goal with H' : _ = false |- _ => rewrite H' in H; clear H' end.
    + rewrite (mode_is_other _ S_IFREG _ Hc) in H by done.
      by rewrite (mode_is_other _ S_IFDIR _ Hc) in H.
Qed.

Lemma copy_table_Ok e w t r w' :
  slots copyable t -> copy_table t e w = Ok r w' -> r = Some t /\ w' = w.
Proof.
  revert r w'. induction t as [|[i|] t IH]; intros r w' Hc H; simpl in H.
  - by injection H as <- <-.
  - apply list.Forall_cons in Hc as [Hi Hc]. unfold mbind, M_bind in H.
    destruct (copy_object i e w) as [c w1|] eqn:E; [|done].
    apply copy_object_Ok in E as [-> ->]; [|done].
    destruct (copy_table t e w) as [r' w2|] eqn:E2; [|done].
    destruct (IH r' w2 Hc eq_refl) as [-> ->]. by injection H as <- <-.
  - apply list.Forall_cons in Hc as [_ Hc]. unfold mbind, M_bind in H.
    destruct (copy_table t e w) as [r' w2|] eqn:E2; [|done].
    destruct (IH r' w2 Hc eq_refl) as [-> ->]. by injection H as <- <-.
Qed.

(** ** Mounting *)

Lemma root_mode_dir umask :
  S_ISDIR (Z.lor S_IFDIR (Z.land 0x1ff (Z.lnot umask))) = true.
Proof.
  unfold S_ISDIR, mode_is. apply Z.eqb_eq. rewrite Z.land_lor_distr_l.
  rewrite (Z.land_comm 0x1ff), <- Z.land_assoc.
  change (Z.land 0x1ff S_IFMT) with 0. by rewrite Z.land_0_r.
Qed.

Lemma construct_ok blocks inodes :
  f_files (initial_stbuf blocks inodes) < 2 ^ 64 -> fs_ok (construct blocks inodes).
Proof.
  intros Hf. split; simpl.
  - intros ino i H. apply get_inode_slot in H as [_ H]. by destruct (Z.to_nat ino).
  - apply NoDup_nil_2.
  - intros ino. split; [by intros ?%elem_of_nil|].
    intros [_ H]%vec_at_Some. by destruct (Z.to_nat ino).
  - lia.
  - done.
  - split; [|done]. destruct (inodes <=? 0) eqn:E; zbool; [done|lia].
Qed.

Lemma construct_reset blocks inodes :
  set_stbuf (reset_free (m_stbuf (construct blocks inodes))) (construct blocks inodes)
  = construct blocks inodes.
Proof. done. Qed.

Lemma RegisterInode_ffree e w i mode nlink gid uid ino w' :
  fs_ok w -> 0 < f_ffree (m_stbuf w) -> fresh_for mode i ->
  RegisterInode i mode nlink gid uid e w = Ok ino w' ->
  fs_ok w' /\ f_ffree (m_stbuf w') = f_ffree (m_stbuf w) - 1.
Proof.
  intros Hw Hf Hm H. split; [by eapply keeps_RegisterInode|].
  rewrite RegisterInode_run in H by done. injection H as _ <-.
  pose proof (ok_limit _ Hw). pose proof (ok_ffree _ Hw).
  pose proof (live_bound (Inodes w)). rewrite <- (u64_small (f_ffree _ - 1)) by lia.
  unfold register_stat. by destruct (own_charge i =? 0).
Qed.

Lemma FuseInit_fixed gid uid umask : keeps_fixed (FuseInit gid uid umask).
Proof.
  unfold FuseInit. apply respects_bind; [typeclasses eauto|by apply respects_modify|].
  respects.
Qed.

Lemma FuseInit_ok gid uid umask e w a w' :
  fs_ok w -> set_stbuf (reset_free (m_stbuf w)) w = w -> 2 <= f_ffree (m_stbuf w) ->
  FuseInit gid uid umask e w = Ok a w' -> fs_ok w'.
Proof.
  intros H1 Hreset Hf H. unfold FuseInit in H. apply bind_Ok in H as ([] & w1 & E0 & H).
  unfold modify in E0. rewrite Hreset in E0. injection E0 as <-.
  apply bind_Ok in H as (x & w2 & E1 & H).
  apply RegisterInode_ffree in E1 as [H2 Hfree]; [|done|lia|done].
  apply bind_Ok in H as (root & w3 & E2 & H).
  apply keeps_RegisterInode in E2; [|done|lia|by split; [|apply root_mode_dir]].
  apply bind_Ok in H as (r1 & w4 & E3 & H). apply keeps_AddChild in E3.
  apply bind_Ok in H as (r2 & w5 & E4 & H). apply keeps_AddChild in E4.
  injection H as _ <-. by apply E4, E3.
Qed.

Lemma mounted_ok blocks inodes w :
  2 <= f_files (initial_stbuf blocks inodes) < 2 ^ 64 -> mounted blocks inodes w ->
  sys_ok (f_files (initial_stbuf blocks inodes)) w.
Proof.
  intros Hf (e & gid & uid & umask & a & H).
  pose proof (FuseInit_fixed _ _ _ _ _ _ _ H) as Hs.
  unfold same, fixed_part in Hs. injection Hs as _ Hs1 Hs2 _.
  split; [split|].
  - apply fs_ok_snapshot. eapply FuseInit_ok; [|apply construct_reset| |exact H].
    + apply construct_ok. lia.
    + apply Hf.
  - exact Hs1.
  - rewrite Hs2. apply map_Forall_empty.
Qed.

(** ** [ioctl] *)

Lemma all_states_frame P w w' :
  all_states P w -> snapshot w' = snapshot w -> state_pool w' = state_pool w ->
  all_states P w'.
Proof. unfold all_states. by intros H -> ->. Qed.

(** A checkpoint stores the current state, or changes nothing. *)
Lemma checkpoint_cases files key e w r w' :
  sys_ok files w -> checkpoint key e w = Ok r w' ->
  (r <> 0 /\ w' = w) \/
  (state_pool w !! key = None /\
   w' = set_state_pool (<[key := snapshot w]> (state_pool w)) w).
Proof.
  intros Hw H. apply bind_Ok in H as (x & w1 & [= <- <-] & H).
  apply bind_Ok in H as (t & w2 & E & H).
  apply copy_table_Ok in E as [-> ->]; [|by apply fs_ok_copyable; eapply sys_ok_fs].
  unfold insert_state in H. apply bind_Ok in H as (x & w1 & [= <- <-] & H).
  destruct (state_pool w !! key) eqn:Ek; injection H as <- <-; [by left|by right].
Qed.

(** A restore brings a stored state back and forgets it, or changes nothing. *)
Lemma restore_cases files key e w r w' :
  sys_ok files w -> restore key e w = Ok r w' ->
  w' = w \/
  exists s, state_pool w !! key = Some s /\ snapshot w' = s /\
    state_pool w' = delete key (state_pool w).
Proof.
  intros Hw H. apply bind_Ok in H as (s & w1 & [= <- <-] & H).
  destruct (is_nil _ && is_nil _) eqn:En; [left; by injection H as _ <-|right].
  destruct (state_pool w !! key) as [s|] eqn:Ek; [|done]. simpl in H.
  pose proof (proj2 Hw key s Ek) as [Hs _].
  apply bind_Ok in H as ([] & w1 & E1 & H).
  apply bind_Ok in E1 as (x & w2 & [= <- <-] & E1). apply invalidate_all_data in E1.
  unfold same, stored_data in E1. injection E1 as Ei Ed Et Ep Eh.
  apply bind_Ok in H as (x & w2 & [= <- <-] & H).
  apply bind_Ok in H as ([] & w2 & [= <-] & H).
  apply bind_Ok in H as ([] & w2 & [= <-] & H).
  apply bind_Ok in H as (t & w2 & E & H).
  apply copy_table_Ok in E as [-> ->]; [|by apply (fs_ok_copyable (world_of s))].
  apply bind_Ok in H as ([] & w2 & [= <-] & H).
  apply bind_Ok in H as (y & w2 & E & H). injection H as _ <-.
  apply bind_Ok in E as (x & w3 & [= <- <-] & E). simpl in E. rewrite Ep, Ek in E.
  injection E as _ <-. exists s. split; [done|]. split; [by destruct s|done].
Qed.

Lemma all_states_checkpoint P files key e w r w' :
  sys_ok files w -> all_states P w -> checkpoint key e w = Ok r w' -> all_states P w'.
Proof.
  intros Hw [Hs Hp] H. destruct (checkpoint_cases _ _ _ _ _ _ Hw H) as [[_ ->]|[_ ->]].
  - by split.
  - split; [exact Hs|]. by apply map_Forall_insert_2.
Qed.

Lemma all_states_restore P files key e w r w' :
  sys_ok files w -> all_states P w -> restore key e w = Ok r w' -> all_states P w'.
Proof.
  intros Hw [Hs Hp] H.
  destruct (restore_cases _ _ _ _ _ _ Hw H) as [->|(s & Hk & Es & Ep)]; [by split|].
  split; [rewrite Es; by apply (Hp key)|]. rewrite Ep. by apply map_Forall_delete.
Qed.

Lemma fs_ok_permute w q :
  fs_ok w -> q ≡ₚ DeletedInodes w -> fs_ok (set_DeletedInodes q w).
Proof.
  intros Hw Hq. split; simpl; try apply Hw.
  - rewrite Hq. apply Hw.
  - intros ino. rewrite Hq. apply Hw.
Qed.

(** Building the data of a state file changes nothing. *)
Lemma pure_xread ptr off n : Respects eq (xread ptr off n).
Proof. unfold xread. respects. Qed.
#[local] Hint Resolve pure_xread : verifs.

Lemma pure_pickle_xattrs m : Respects eq (pickle_xattrs m).
Proof. induction m as [|[k [p v]] m IH]; simpl; respects. Qed.
#[local] Hint Resolve pure_pickle_xattrs : verifs.

Lemma pure_pickle_slots t : Respects eq (pickle_slots t).
Proof.
  assert (forall o, Respects eq (pickle_slot o)).
  { intros o. unfold pickle_slot, Pickle, File_Pickle, Directory_Pickle, SymLink_Pickle,
      SpecialInode_Pickle, Inode_Pickle. respects. }
  induction t as [|o t IH]; simpl; [by respects|].
  apply respects_bind; [typeclasses eauto|done|]. intros a. unfold then_chunks. respects.
Qed.
#[local] Hint Resolve pure_pickle_slots : verifs.

Lemma pure_pickle_pool pool : Respects eq (pickle_pool pool).
Proof.
  induction pool as [|[k s] pool IH]; simpl; [by respects|].
  unfold pickle_stored, then_chunks. respects.
Qed.
#[local] Hint Resolve pure_pickle_pool : verifs.

Lemma pure_pickle_chunks : Respects eq pickle_chunks.
Proof. unfold pickle_chunks, then_chunks. respects. Qed.

Lemma respects_pure {A} R `{!PreOrder R} (m : M A) : Respects eq m -> Respects R m.
Proof. intros Hm e w a w' H. apply Hm in H as <-. reflexivity. Qed.

(** Insensitive to the order of the queue of deleted numbers. *)
Class AnyQueue (P : verifs2_state -> Prop) : Prop :=
  any_queue s q : q ≡ₚ vs_deleted s -> P s -> P (mkVerifs2State (vs_inodes s) q (vs_stat s)).

#[export] Instance state_ok_any_queue files : AnyQueue (state_ok files).
Proof.
  intros s q Hq [Hs Hf]. split; [|done].
  exact (fs_ok_permute (world_of s) q Hs Hq).
Qed.

Lemma all_states_rotate P `{!AnyQueue P} w k :
  all_states P w ->
  all_states P
    (set_DeletedInodes (drop k (DeletedInodes w) ++ take k (DeletedInodes w)) w).
Proof.
  intros [Hs Hp]. split; [|exact Hp]. apply (any_queue (snapshot w)); [|done]. simpl.
  rewrite Permutation_app_comm. by rewrite take_drop.
Qed.

(** Pickling only turns the queue of deleted numbers. *)
Lemma respects_pickle R `{!PreOrder R} sha256 h :
  (forall w k, R w (set_DeletedInodes (drop k (DeletedInodes w) ++ take k (DeletedInodes w)) w)) ->
  Respects R (pickle_verifs2 sha256 h).
Proof.
  intros HR. unfold pickle_verifs2. apply respects_bind; [done| |].
  { unfold fetch_filepath. respects. }
  intros [err|path]; [by respects|]. destruct (open_out h path); [by respects|].
  apply respects_bind; [done| |intros [[res o] len]; by respects].
  unfold pickle_file_system. apply respects_bind; [done| |].
  { apply respects_pure; [done|apply pure_pickle_chunks]. }
  intros cs. destruct (write_chunks _ _ _) as [o complete].
  apply respects_bind; [done| |intros _; by respects].
  apply respects_modify. intros w. apply HR.
Qed.

Lemma all_states_pickle P `{!AnyQueue P} sha256 h :
  Respects (keeps (all_states P)) (pickle_verifs2 sha256 h).
Proof.
  apply respects_pickle; [typeclasses eauto|]. intros w k Hw. by apply all_states_rotate.
Qed.

(** ** Steps *)

Definition is_load (r : request) : bool :=
  match r with op_ioctl cmd _ => cmd =? VERIFS_LOAD | _ => false end.

Section runs.
Context (direntry_size : string -> Z) (sha256 : list byte -> list byte) (h : host).

Lemma all_states_FuseIoctl P `{!AnyQueue P} files cmd arg e w a w' :
  (cmd =? VERIFS_LOAD) = false -> sys_ok files w -> all_states P w ->
  FuseIoctl sha256 h cmd arg e w = Ok a w' -> all_states P w'.
Proof.
  intros Hl Hok Hw H. unfold FuseIoctl in H. rewrite Hl in H.
  apply bind_Ok in H as ([ret file] & w1 & E & H).
  assert (H1 : all_states P w1).
  { destruct (cmd =? VERIFS_CHECKPOINT); [|destruct (cmd =? VERIFS_RESTORE);
      [|destruct (cmd =? VERIFS_PICKLE);
        [eapply (all_states_pickle P); eassumption|by injection E as _ _ <-]]].
    - apply bind_Ok in E as (r & w2 & E & [= _ _ <-]). by eapply all_states_checkpoint.
    - apply bind_Ok in E as (r & w2 & E & [= _ _ <-]). by eapply all_states_restore. }
  apply bind_Ok in H as ([] & w2 & E2 & [= _ <-]).
  destruct (ret =? 0); injection E2 as <-; by eapply all_states_frame.
Qed.

Lemma sys_ok_FuseIoctl files cmd arg :
  (cmd =? VERIFS_LOAD) = false ->
  Respects (keeps (sys_ok files)) (FuseIoctl sha256 h cmd arg).
Proof.
  intros Hl e w a w' H Hw.
  exact (all_states_FuseIoctl (state_ok files) files _ _ _ _ _ _ Hl Hw Hw H).
Qed.

Lemma sys_ok_step files w r w' :
  sys_ok files w -> is_load r = false -> step direntry_size sha256 h w r w' ->
  sys_ok files w'.
Proof.
  intros Hw Hl (Hk & e & a & H). destruct (is_ioctl r) eqn:Hi.
  - destruct r; try done. simpl in H, Hl.
    apply bind_Ok in H as (x & w1 & E & [= _ <-]).
    by eapply sys_ok_FuseIoctl.
  - pose proof (stable_FuseOps (keeps fs_ok) _ _ _ _ _ _ _ _ Hi Hk H) as Hok.
    pose proof (stable_FuseOps (same fixed_part) _ _ _ _ _ _ _ _ Hi Hk H) as Hfix.
    injection Hfix as _ Hf Hp _. pose proof (sys_ok_fs _ _ Hw) as Hfs.
    destruct Hw as [[_ Hfiles] Hpool]. split; [split|].
    + by apply fs_ok_snapshot, Hok.
    + simpl in *. congruence.
    + by rewrite Hp.
Qed.

Lemma sys_ok_steps files w rs w' :
  sys_ok files w -> Forall (fun r => is_load r = false) rs ->
  steps direntry_size sha256 h w rs w' -> sys_ok files w'.
Proof.
  intros Hw Hl Hs. induction Hs as [|w r w1 rs w2 Hr Hs IH]; [done|].
  apply list.Forall_cons in Hl as [Hl1 Hl]. apply IH; [|done]. by eapply sys_ok_step.
Qed.

Lemma checkpoint_inv files key e w w' :
  sys_ok files w -> checkpoint key e w = Ok 0 w' ->
  state_pool w !! key = None /\
  w' = set_state_pool (<[key := snapshot w]> (state_pool w)) w.
Proof. intros Hw H. by destruct (checkpoint_cases _ _ _ _ _ _ Hw H) as [[? _]|?]. Qed.

Lemma fixed_steps w rs w' :
  Forall (fun r => is_ioctl r = false) rs -> steps direntry_size sha256 h w rs w' ->
  fixed_part w' = fixed_part w.
Proof.
  intros Hl Hs. induction Hs as [|w r w1 rs w2 [Hk (e & a & Hr)] Hs IH]; [done|].
  apply list.Forall_cons in Hl as [Hl1 Hl]. rewrite (IH Hl).
  by apply (stable_FuseOps (same fixed_part) _ _ _ _ _ _ _ _ Hl1 Hk Hr).
Qed.

(** C1. Every state that a mounted file system can reach by requests other than
    loading a state file is well formed: the table, the queue of deleted
    numbers and the counters satisfy [fs_ok], the limit of inodes is the one of
    the mount, and so does every checkpoint in the pool. *)
Theorem reachable_ok blocks inodes w rs w' :
  2 <= f_files (initial_stbuf blocks inodes) < 2 ^ 64 ->
  mounted blocks inodes w -> Forall (fun r => is_load r = false) rs ->
  steps direntry_size sha256 h w rs w' ->
  fs_ok w' /\ f_files (m_stbuf w') = f_files (initial_stbuf blocks inodes) /\
  forall key s, state_pool w' !! key = Some s -> fs_ok (world_of s).
Proof.
  intros Hf Hm Hl Hs.
  pose proof (sys_ok_steps _ _ _ _ (mounted_ok _ _ _ Hf Hm) Hl Hs) as Hok.
  split; [by eapply sys_ok_fs|]. destruct Hok as [[_ Hfiles] Hp].
  split; [done|]. intros key s Hk. by apply (Hp key s Hk).
Qed.

(** The pool holds the state of [w] under the key, then come other requests. *)
Lemma restore_after files w key w1 rs w2 e' :
  sys_ok files w -> Inodes w <> [] -> state_pool w !! key = None ->
  sys_ok files w1 -> state_pool w1 = <[key := snapshot w]> (state_pool w) ->
  Forall (fun r => is_ioctl r = false) rs -> steps direntry_size sha256 h w1 rs w2 ->
  memory_for e' (Inodes w) ->
  exists w3, restore key e' w2 = Ok 0 w3 /\ snapshot w3 = snapshot w /\
    state_pool w3 = state_pool w.
Proof.
  intros Hw Hne Hnone Hok1 Hp1 Hio Hs Hm.
  pose proof (fixed_steps _ _ _ Hio Hs) as Hfix. injection Hfix as _ _ Hp _.
  assert (Hok2 : sys_ok files w2).
  { eapply sys_ok_steps; [exact Hok1| |exact Hs]. eapply Forall_impl; [|exact Hio].
    intros r. by destruct r. }
  pose proof (sys_ok_fs _ _ Hw) as Hfs. pose proof (sys_ok_fs _ _ Hok2) as Hfs2.
  assert (Hk : state_pool w2 !! key = Some (snapshot w))
    by (rewrite Hp, Hp1; apply lookup_insert_eq).
  eexists. split; [apply (restore_run _ _ _ _ Hk); try done|].
  - by apply fs_ok_copyable.
  - by apply fs_ok_classed.
  - split; [done|]. simpl. rewrite Hp, Hp1. by rewrite delete_insert_id.
Qed.

(** C2. A checkpoint undoes arbitrary work: after [checkpoint] in a reachable
    state and any sequence of requests other than [ioctl], [restore] with the
    same key succeeds and brings back the inode table, the queue and the
    counters of the moment of the checkpoint, and the pool of before it. The
    inodes hold the pointers to their extended attributes, whose values the
    checkpoint shares. *)
Theorem restore_undoes_work files w key e w1 rs w2 e' :
  sys_ok files w -> Inodes w <> [] ->
  checkpoint key e w = Ok 0 w1 ->
  Forall (fun r => is_ioctl r = false) rs -> steps direntry_size sha256 h w1 rs w2 ->
  memory_for e' (Inodes w) ->
  exists w3, restore key e' w2 = Ok 0 w3 /\ snapshot w3 = snapshot w /\
    state_pool w3 = state_pool w.
Proof.
  intros Hw Hne Hck. destruct (checkpoint_inv _ _ _ _ _ Hw Hck) as [Hnone ->].
  apply restore_after with (files := files); [done..|by eapply all_states_checkpoint|done].
Qed.
End runs.
