(* ===== verification/Types.v ===== *)
(** * Types of inodes

    An inode keeps its class and the type in its mode from the request that makes it to
    the [forget] that takes it out of the table. *)

From S2P Require Import Prelude World Util Table InodeOps FileOps DirectoryOps Nodes.
From S2P Require Import Handlers CkptRestore Requests Invariant Runs.

(** ** Definitions *)

Definition type_of (i : inode) : Z := Z.land (GetMode i) S_IFMT.

Inductive class := a_file | a_directory | a_special | a_link.
Definition class_of (i : inode) : class :=
  match derived i with
  | File _ => a_file
  | Directory _ => a_directory
  | SpecialInode _ => a_special
  | SymLink _ => a_link
  end.

(** The inodes of the table are there with their types, those of [but] apart. *)
Definition typed (but : Z -> Prop) (w w' : world) : Prop :=
  forall ino i, ~ but ino -> get_inode w ino = Some i ->
    exists j, get_inode w' ino = Some j /\ type_of j = type_of i.

#[export] Instance typed_preorder but : PreOrder (typed but).
Proof.
  split.
  - intros w ino i _ Hi. eauto.
  - intros w1 w2 w3 H12 H23 ino i Hb Hi. destruct (H12 ino i Hb Hi) as (j & Hj & <-). eauto.
Qed.

(** ** Operations *)

Section typed.
Context (but : Z -> Prop).

Lemma typed_same w w' : Inodes w' = Inodes w -> typed but w w'.
Proof. intros E ino i _ Hi. exists i. unfold get_inode in *. by rewrite E. Qed.

Lemma typed_put w p i j :
  get_inode w p = Some i -> type_of j = type_of i -> typed but w (put_inode p (Some j) w).
Proof.
  intros Hi Hj ino x _ Hx. rewrite get_put_inode by (by eapply get_inode_range).
  case_decide; [|eauto]. subst. exists j. split; [done|]. congruence.
Qed.

Lemma typed_update p f : (forall i, type_of (f i) = type_of i) -> Respects (typed but) (update p f).
Proof.
  intros Hf. apply respects_update; [typeclasses eauto|]. intros w i Hi. by eapply typed_put.
Qed.

Lemma typed_modify f : (forall w, Inodes (f w) = Inodes w) -> Respects (typed but) (modify f).
Proof. intros Hf. apply respects_modify. intros w. by apply typed_same. Qed.
End typed.

(** The type survives every update that leaves the mode alone. *)
#[local] Hint Extern 1 (Respects (typed _) (update _ _)) =>
  apply typed_update; intros; unfold type_of, GetMode, touch_mc; repeat case_match; reflexivity : verifs.
#[local] Hint Extern 1 (Respects (typed _) (modify _)) => apply typed_modify; intros; reflexivity : verifs.

Section operations.
Context (but : Z -> Prop).

Lemma typed_UpdateUsedBlocks n : Respects (typed but) (UpdateUsedBlocks n).
Proof. unfold UpdateUsedBlocks. respects. Qed.
Lemma typed_UpdateUsedInodes n : Respects (typed but) (UpdateUsedInodes n).
Proof. unfold UpdateUsedInodes. respects. Qed.
Lemma typed_send r : Respects (typed but) (send r).
Proof. unfold send. respects. Qed.
Local Hint Resolve typed_UpdateUsedBlocks typed_UpdateUsedInodes typed_send : verifs.

Lemma typed_UpdateSize p n : Respects (typed but) (UpdateSize p n).
Proof. unfold UpdateSize. respects. Qed.
Lemma typed_FileTruncate p n : Respects (typed but) (FileTruncate p n).
Proof. unfold FileTruncate. respects. Qed.
Lemma typed_WriteAndReply p d off : Respects (typed but) (File_WriteAndReply p d off).
Proof. unfold File_WriteAndReply, reply_error. respects. Qed.
Local Hint Resolve typed_UpdateSize : verifs.
Lemma typed_AddChild p name ino : Respects (typed but) (AddChild p name ino).
Proof. unfold AddChild. respects. Qed.
Lemma typed_RemoveChild p name : Respects (typed but) (RemoveChild p name).
Proof. unfold RemoveChild. respects. Qed.
Lemma typed_UpdateChild p name ino : Respects (typed but) (UpdateChild p name ino).
Proof. unfold UpdateChild. respects. Qed.
Lemma typed_IncrementLinkCount p : Respects (typed but) (IncrementLinkCount p).
Proof. unfold IncrementLinkCount. respects. Qed.
End operations.

(** A slot that is excepted can be emptied. *)
Lemma typed_DeleteInode ino : Respects (typed (eq ino)) (DeleteInode ino).
Proof.
  unfold DeleteInode. apply respects_bind; [typeclasses eauto| |intros; by apply typed_modify].
  apply respects_store_slot; [typeclasses eauto|]. intros w Hr q i Hq Hi.
  rewrite get_put_inode by done. rewrite decide_False by done. eauto.
Qed.

#[local] Hint Resolve typed_UpdateUsedBlocks typed_UpdateUsedInodes typed_send typed_AddChild
  typed_IncrementLinkCount typed_DeleteInode : verifs.

(** A new node takes a free number, so that it replaces nothing. *)
Lemma typed_do_create_node but parent name mode dev symlink e w a w' :
  fs_ok w -> do_create_node parent name mode dev symlink e w = Ok a w' -> typed but w w'.
Proof.
  intros Hw H. unfold do_create_node in H. apply ask_Ok in H.
  destruct (make_node mode dev symlink) as [[i links]|]; [|by injection H as _ <-].
  destruct (negb (can_new e)); [by injection H as _ <-|].
  unfold mbind at 1, M_bind at 1 in H. simpl in H.
  destruct (f_ffree (m_stbuf w) <=? 0); [by injection H as _ <-|].
  unfold mbind at 1, M_bind at 1 in H. rewrite RegisterInode_run in H by done.
  set (w1 := set_stbuf _ _) in H.
  assert (H1 : typed but w w1).
  { intros q j _ Hq. exists j. split; [|done]. change (get_inode w1 q) with (get_inode (enlist (initialized (now e) (next_ino w) mode links (ctx_gid e) (ctx_uid e) i) w) q).
    rewrite get_enlist by done. rewrite decide_False; [done|].
    intros ->. by rewrite next_ino_fresh in Hq. }
  assert (H2 : typed (eq (next_ino w)) w1 w').
  { revert H. match goal with |- ?m e w1 = _ -> _ => cut (Respects (typed (eq (next_ino w))) m) end.
    { intros Hm H. by eapply Hm. }
    respects. }
  intros q j Hb Hq. destruct (H1 q j Hb Hq) as (x & Hx & <-). apply H2; [|done].
  intros <-. by rewrite next_ino_fresh in Hq.
Qed.

(** The types together with the invariant. *)
Definition keeps_types (w w' : world) : Prop :=
  fs_ok w -> fs_ok w' /\ typed (fun _ => False) w w'.

Lemma keeps_types_respects {A} (m : M A) :
  Respects (keeps fs_ok) m -> (forall e w a w', fs_ok w -> m e w = Ok a w' -> typed (fun _ => False) w w') ->
  Respects keeps_types m.
Proof. intros Hk Ht e w a w' H Hw. split; [by eapply Hk|by eapply Ht]. Qed.

#[export] Instance keeps_types_steady : Steady keeps_types.
Proof.
  assert (Hobj : forall w p i j, get_inode w p = Some i -> benign i j ->
    keeps_types w (put_inode p (Some j) w)).
  { intros w p i j Hi Hb Hw. split; [by eapply (stable_object (R := keeps fs_ok))|].
    eapply typed_put; [done|]. apply Hb. }
  split; [split|..].
  - split.
    + intros w Hw. by split.
    + intros w1 w2 w3 H12 H23 H1. destruct (H12 H1) as [H2 T12]. destruct (H23 H2) as [H3 T23].
      split; [done|]. by transitivity w2.
  - intros w r Hw. split; [by eapply fs_ok_frame|by apply typed_same].
  - intros w p i j Hi [Hb _]. by eapply Hobj.
  - intros p n Hn. apply keeps_types_respects; [by apply keeps_FileTruncate|].
    intros e w a w' _. apply typed_FileTruncate.
  - intros p d off H1 H2. apply keeps_types_respects; [by apply keeps_File_WriteAndReply|].
    intros e w a w' _. apply typed_WriteAndReply.
  - intros p name ino. apply keeps_types_respects; [apply keeps_AddChild|].
    intros e w a w' _. apply typed_AddChild.
  - intros p name. apply keeps_types_respects; [apply keeps_RemoveChild|].
    intros e w a w' _. apply typed_RemoveChild.
  - intros p name ino. apply keeps_types_respects; [apply keeps_UpdateChild|].
    intros e w a w' _. apply typed_UpdateChild.
  - intros. apply keeps_types_respects; [apply keeps_do_create_node|].
    intros e w a w'. apply typed_do_create_node.
  - intros w hp Hw. split; [by eapply fs_ok_frame|by apply typed_same].
  - intros w s Hw. split; [by eapply fs_ok_frame|by apply typed_same].
  - apply Hobj.
Qed.

(** ** Classes *)

(** The type in the mode of a well-formed object tells its class. *)
Definition class_of_type (t : Z) : class :=
  if t =? S_IFREG then a_file else if t =? S_IFDIR then a_directory
  else if t =? S_IFLNK then a_link else a_special.

Lemma class_of_ok ino i : object_ok ino i -> class_of i = class_of_type (type_of i).
Proof.
  intros Hok. pose proof (obj_class _ _ Hok) as Hc. clear Hok.
  unfold class_matches, class_of, class_of_type, type_of in *.
  unfold S_ISREG, S_ISDIR, S_ISLNK, mode_is in Hc.
  destruct (derived i); try (apply Z.eqb_eq in Hc; by rewrite Hc).
  by repeat destruct (_ =? _).
Qed.

(** A forget keeps the other inodes, and takes out its own only without links. *)
Lemma forget_types ino n e w a w' q i :
  FuseForget ino n e w = Ok a w' -> get_inode w q = Some i ->
  (exists j, get_inode w' q = Some j /\ type_of j = type_of i) \/
  q = ino /\ get_inode w' q = None /\ HasNoLinks i = true.
Proof.
  unfold FuseForget. unfold mbind at 1, M_bind at 1. simpl. intros H Hq.
  destruct (get_inode w ino) as [o|] eqn:Ho; [|injection H as _ <-; eauto].
  unfold Forget, mbind, M_bind in H. rewrite (update_run _ _ _ _ _ Ho) in H. simpl in H.
  set (j := on_base _ o) in H. set (w1 := add_reply _ _) in H.
  assert (Hj : get_inode w1 ino = Some j) by (subst w1; by eapply get_put_eq).
  assert (H1 : typed (fun _ => False) w w1).
  { transitivity (put_inode ino (Some j) w); [by eapply typed_put|by apply typed_same]. }
  rewrite (deref_run _ _ _ _ Hj) in H.
  assert (Hkept : w' = w1 ->
    exists x, get_inode w' q = Some x /\ type_of x = type_of i).
  { intros ->. apply H1; [by intros []|done]. }
  destruct (Forgotten j); [|left; apply Hkept; by injection H as _ <-].
  destruct (HasNoLinks j) eqn:Hl; [|left; apply Hkept; by injection H as _ <-].
  unfold DeleteInode, mbind, M_bind in H. simpl in H.
  rewrite store_slot_run in H by (by eapply get_inode_range). injection H as _ <-.
  destruct (decide (q = ino)) as [->|Hne].
  - right. split; [done|]. split; [|by replace i with o by congruence].
    change (get_inode (put_inode ino None w1) ino = None).
    rewrite get_put_inode by (by eapply get_inode_range). by rewrite decide_True.
  - left. destruct (H1 q i) as (x & Hx & Ht); [by intros []|done|]. exists x. split; [|done].
    change (get_inode (put_inode ino None w1) q = Some x).
    rewrite get_put_inode by (by eapply get_inode_range). by rewrite decide_False.
Qed.

(** C14. In every state that a mounted file system reaches, loading a state file apart, a
    request other than an [ioctl] leaves each inode of the table with its class and its
    type, and the two agree; only [forget] takes one out, its own, and only
    when it has no links. *)
Theorem inodes_keep_their_type direntry_size sha256 h blocks inodes w rs w1 r w2 ino i :
  2 <= f_files (initial_stbuf blocks inodes) < 2 ^ 64 -> mounted blocks inodes w ->
  Forall (fun r => is_load r = false) rs -> steps direntry_size sha256 h w rs w1 ->
  is_ioctl r = false -> step direntry_size sha256 h w1 r w2 -> get_inode w1 ino = Some i ->
  (exists j, get_inode w2 ino = Some j /\ type_of j = type_of i /\
     class_of j = class_of i /\ class_of j = class_of_type (type_of j)) \/
  (exists n, r = op_forget ino n) /\ get_inode w2 ino = None /\ HasNoLinks i = true.
Proof.
  intros Hf Hm Hl Hs Hio [Hk (e & a & Hr)] Hi.
  pose proof (sys_ok_steps _ _ _ _ _ _ _ (mounted_ok _ _ _ Hf Hm) Hl Hs) as Hok%sys_ok_fs.
  assert (fs_ok w2) as Hok2 by by apply (stable_FuseOps (keeps fs_ok) _ _ _ _ _ _ _ _ Hio Hk Hr).
  assert (Hclass : forall j, get_inode w2 ino = Some j -> type_of j = type_of i ->
    class_of j = class_of i /\ class_of j = class_of_type (type_of j)).
  { intros j Hj Ht. pose proof (class_of_ok ino j (ok_objects _ Hok2 _ _ Hj)) as Hcj.
    pose proof (class_of_ok ino i (ok_objects _ Hok _ _ Hi)) as Hci. rewrite Ht in Hcj. by rewrite Ht, Hci. }
  destruct (is_forget r) eqn:Hfg.
  - destruct r as [|q n| | | | | | | | | | | | | | | | | | | | | | | | | | | | | ]; try done.
    destruct (forget_types _ _ _ _ _ _ _ _ Hr Hi) as [(j & Hj & Ht)|(-> & Hn & H0)].
    + left. exists j. split_and!; [done|done|by apply Hclass..].
    + right. split_and!; [by eexists|done|done].
  - left. destruct (steady_FuseOps keeps_types _ _ _ _ _ _ _ _ Hio Hfg Hk Hr Hok) as [_ Ht].
    destruct (Ht ino i) as (j & Hj & Htj); [by intros []|done|].
    exists j. split_and!; [done|done|by apply Hclass..].
Qed.
