(* ===== verification/Replies.v ===== *)
(** * Replies

    libfuse expects one reply per request. [Sends n m]: a successful run of [m]
    sends [n] replies. The requests are counted here, with the ones that send
    none or several. *)

From S2P Require Import Prelude World Util Table InodeOps FileOps DirectoryOps Nodes.
From S2P Require Import Handlers CkptRestore Codec Pickle Requests.

(** ** Counting replies *)

Definition replied (n : nat) (w w' : world) : Prop :=
  exists rs, replies w' = replies w ++ rs /\ length rs = n.

Abbreviation Sends n m := (Respects (replied n) m).
Abbreviation Quiet m := (Respects (same replies) m).

Lemma sends_send r : Sends 1 (send r).
Proof. intros e w a w' [= _ <-]. by exists [r]. Qed.

Lemma sends_reply_error n : Sends 1 (reply_error n).
Proof. apply sends_send. Qed.

Lemma sends_quiet {A} (m : M A) : Quiet m -> Sends 0 m.
Proof. intros Hm e w a w' H. exists []. rewrite app_nil_r. split; [exact (Hm _ _ _ _ H)|done]. Qed.

Lemma sends_bind {A B} n k (m : M A) (f : A -> M B) :
  Sends n m -> (forall a, Sends k (f a)) -> Sends (n + k) (m ≫= f).
Proof.
  intros Hm Hf e w b w' (a & w1 & H1 & H2)%bind_Ok.
  apply Hm in H1 as (rs1 & E1 & L1). apply Hf in H2 as (rs2 & E2 & L2).
  exists (rs1 ++ rs2). rewrite E2, E1, app_assoc, length_app. split; [done|lia].
Qed.

(** A quiet beginning, and a quiet end. *)
Lemma sends_after {A B} n (m : M A) (f : A -> M B) :
  Quiet m -> (forall a, Sends n (f a)) -> Sends n (m ≫= f).
Proof. intros Hm Hf. by apply (sends_bind 0); [apply sends_quiet|]. Qed.

Lemma sends_before {A B} n (m : M A) (f : A -> M B) :
  Sends n m -> (forall a, Quiet (f a)) -> Sends n (m ≫= f).
Proof.
  intros Hm Hf. rewrite <- (Nat.add_0_r n).
  apply sends_bind; [done|]. intros a. apply sends_quiet, Hf.
Qed.

Lemma sends_fail {A} n c : Sends n (fail c : M A).
Proof. by intros e w a w'. Qed.

(** ** Quiet building blocks *)

Lemma quiet_update p f : Quiet (update p f).
Proof. apply respects_update; [typeclasses eauto|]. done. Qed.
Lemma quiet_store_slot p o : Quiet (store_slot p o).
Proof. apply respects_store_slot; [typeclasses eauto|]. done. Qed.
Lemma quiet_modify f : (forall w, replies (f w) = replies w) -> Quiet (modify f).
Proof. intros Hf. by apply respects_modify. Qed.

Ltac quiet_leaf := solve [apply quiet_modify; done].
Ltac quiet :=
  intros; repeat first
    [ solve [auto with verifs typeclass_instances] | quiet_leaf | respects_step ].

#[local] Hint Resolve quiet_update quiet_store_slot : verifs.

Lemma quiet_UpdateUsedBlocks n : Quiet (UpdateUsedBlocks n).
Proof. quiet. Qed.
Lemma quiet_UpdateUsedInodes n : Quiet (UpdateUsedInodes n).
Proof. quiet. Qed.
#[local] Hint Resolve quiet_UpdateUsedBlocks quiet_UpdateUsedInodes : verifs.

Lemma quiet_FileTruncate p n : Quiet (FileTruncate p n).
Proof. unfold FileTruncate. quiet. Qed.
Lemma quiet_UpdateSize p n : Quiet (UpdateSize p n).
Proof. unfold UpdateSize. quiet. Qed.
#[local] Hint Resolve quiet_FileTruncate quiet_UpdateSize : verifs.

Lemma quiet_AddChild p name ino : Quiet (AddChild p name ino).
Proof. unfold AddChild. quiet. Qed.
Lemma quiet_RemoveChild p name : Quiet (RemoveChild p name).
Proof. unfold RemoveChild. quiet. Qed.
Lemma quiet_UpdateChild p name ino : Quiet (UpdateChild p name ino).
Proof. unfold UpdateChild. quiet. Qed.
Lemma quiet_ChildInodeNumber p name : Quiet (ChildInodeNumberWithName p name).
Proof. unfold ChildInodeNumberWithName. quiet. Qed.
Lemma quiet_IsEmpty p : Quiet (IsEmpty p).
Proof. unfold IsEmpty. quiet. Qed.
Lemma quiet_is_dir_now p : Quiet (is_dir_now p).
Proof. unfold is_dir_now. quiet. Qed.
Lemma quiet_Increment p : Quiet (IncrementLinkCount p).
Proof. unfold IncrementLinkCount. quiet. Qed.
Lemma quiet_Decrement p : Quiet (DecrementLinkCount p).
Proof. unfold DecrementLinkCount. quiet. Qed.
Lemma quiet_DeleteInode p : Quiet (DeleteInode p).
Proof. unfold DeleteInode. quiet. Qed.
#[local] Hint Resolve quiet_AddChild quiet_RemoveChild quiet_UpdateChild
  quiet_ChildInodeNumber quiet_IsEmpty quiet_is_dir_now quiet_Increment quiet_Decrement
  quiet_DeleteInode : verifs.

Lemma quiet_drop_links fuel p : Quiet (drop_links fuel p).
Proof. induction fuel; simpl; quiet. Qed.
Lemma quiet_Initialize p ino mode nlink gid uid : Quiet (Initialize p ino mode nlink gid uid).
Proof.
  unfold Initialize, Directory_Initialize, SymLink_Initialize, Inode_Initialize. quiet.
Qed.
Lemma quiet_take_number i : Quiet (take_number i).
Proof. unfold take_number, AddInode, PopOneDeletedInode, UpdateInode. quiet. Qed.
#[local] Hint Resolve quiet_drop_links quiet_Initialize quiet_take_number : verifs.

Lemma quiet_RegisterInode i mode nlink gid uid : Quiet (RegisterInode i mode nlink gid uid).
Proof. unfold RegisterInode. quiet. Qed.
#[local] Hint Resolve quiet_RegisterInode : verifs.

Lemma quiet_do_create_node parent name mode dev symlink :
  Quiet (do_create_node parent name mode dev symlink).
Proof. unfold do_create_node. quiet. Qed.

Lemma quiet_xrealloc ptr n : Quiet (xrealloc ptr n).
Proof. unfold xrealloc. quiet. Qed.
Lemma quiet_xwrite ptr off v : Quiet (xwrite ptr off v).
Proof. unfold xwrite. quiet. Qed.
Lemma quiet_xread ptr off n : Quiet (xread ptr off n).
Proof. unfold xread. quiet. Qed.
Lemma quiet_PrepareReaddir p c : Quiet (PrepareReaddir p c).
Proof. unfold PrepareReaddir. quiet. Qed.
Lemma quiet_RecycleStates : Quiet RecycleStates.
Proof. quiet. Qed.
#[local] Hint Resolve quiet_do_create_node quiet_xrealloc quiet_xwrite quiet_xread
  quiet_PrepareReaddir quiet_RecycleStates : verifs.

(** *** [ioctl] *)

Lemma quiet_copy_table t : Quiet (copy_table t).
Proof.
  intros e w a w' H. by apply copy_table_pure in H as <-.
Qed.
Lemma quiet_invalidate_all t : Quiet (invalidate_all t).
Proof.
  induction t as [|[i|] t IH]; simpl; [by quiet| |done].
  apply respects_bind; [typeclasses eauto| |by intros _]. unfold invalidate_inode, notify.
  quiet. apply quiet_modify. intros w. by rewrite foldl_add_notification.
Qed.
#[local] Hint Resolve quiet_copy_table quiet_invalidate_all : verifs.

Lemma quiet_insert_state key s : Quiet (insert_state key s).
Proof. unfold insert_state. quiet. Qed.
#[local] Hint Resolve quiet_insert_state : verifs.

Lemma quiet_checkpoint key : Quiet (checkpoint key).
Proof. unfold checkpoint. quiet. Qed.
Lemma quiet_restore key : Quiet (restore key).
Proof. unfold restore, find_state, invalidate_kernel_states, remove_state. quiet. Qed.

Lemma quiet_pickle_xattrs m : Quiet (pickle_xattrs m).
Proof. induction m as [|[k [p v]] m IH]; simpl; quiet. Qed.
#[local] Hint Resolve quiet_pickle_xattrs : verifs.
Lemma quiet_pickle_slots t : Quiet (pickle_slots t).
Proof.
  induction t as [|o t IH]; simpl; [by quiet|].
  unfold pickle_slot, Pickle, File_Pickle, Directory_Pickle, SymLink_Pickle,
    SpecialInode_Pickle, Inode_Pickle, then_chunks. quiet.
Qed.
#[local] Hint Resolve quiet_pickle_slots : verifs.
Lemma quiet_pickle_pool pool : Quiet (pickle_pool pool).
Proof.
  induction pool as [|[k s] pool IH]; simpl; [by quiet|].
  unfold pickle_stored, then_chunks. quiet.
Qed.
#[local] Hint Resolve quiet_pickle_pool : verifs.
Lemma quiet_pickle_verifs2 sha256 h : Quiet (pickle_verifs2 sha256 h).
Proof.
  unfold pickle_verifs2, fetch_filepath, pickle_file_system, pickle_chunks, then_chunks. quiet.
Qed.

Lemma quiet_read_n n ptr : Quiet (read_n n ptr).
Proof. unfold read_n. quiet. Qed.
#[local] Hint Resolve quiet_read_n : verifs.
Lemma quiet_read_size_t ptr : Quiet (read_size_t ptr).
Proof. unfold read_size_t. quiet. Qed.
#[local] Hint Resolve quiet_read_size_t : verifs.
Lemma quiet_load_xattrs n ptr m : Quiet (load_xattrs n ptr m).
Proof. revert ptr m. induction n; intros; simpl; unfold xstore; quiet. Qed.
#[local] Hint Resolve quiet_load_xattrs : verifs.
Lemma quiet_Inode_Load buf : Quiet (Inode_Load buf).
Proof. unfold Inode_Load. quiet. Qed.
#[local] Hint Resolve quiet_Inode_Load : verifs.
Lemma quiet_load_children n ptr : Quiet (load_children n ptr).
Proof. revert ptr. induction n; intros; simpl; quiet. Qed.
#[local] Hint Resolve quiet_load_children : verifs.
Lemma quiet_load_object mode buf : Quiet (load_object mode buf).
Proof.
  unfold load_object, File_Load, Directory_Load, SymLink_Load, SpecialInode_Load. quiet.
Qed.
#[local] Hint Resolve quiet_load_object : verifs.
Lemma quiet_load_slots n ptr : Quiet (load_slots n ptr).
Proof. revert ptr. induction n; intros; simpl; quiet. Qed.
Lemma quiet_load_numbers n ptr : Quiet (load_numbers n ptr).
Proof. revert ptr. induction n; intros; simpl; quiet. Qed.
#[local] Hint Resolve quiet_load_slots quiet_load_numbers : verifs.
Lemma quiet_load_pool n ptr : Quiet (load_pool n ptr).
Proof. revert ptr. induction n; intros; simpl; unfold load_stored; quiet. Qed.
#[local] Hint Resolve quiet_load_pool : verifs.
Lemma quiet_load_verifs2 sha256 h : Quiet (load_verifs2 sha256 h).
Proof. unfold load_verifs2, fetch_filepath, load_file_system, clear_states. quiet. Qed.
#[local] Hint Resolve quiet_checkpoint quiet_restore quiet_pickle_verifs2
  quiet_load_verifs2 : verifs.

(** ** Handlers that send one reply *)

#[local] Hint Resolve sends_send sends_reply_error sends_fail : verifs.

Ltac sends_step :=
  lazymatch goal with
  | |- Respects _ (_ ≫= _) => apply sends_after; [solve [quiet]|intros ?]
  | |- Respects _ (if ?b then _ else _) => destruct b eqn:?
  | |- Respects _ (match ?x with _ => _ end) => destruct x eqn:?
  | |- Respects _ (let _ := _ in _) => cbv zeta
  end.
Ltac sends := intros; repeat first [ solve [auto with verifs] | sends_step ].

Lemma sends_ReplyEntry p : Sends 1 (ReplyEntry p).
Proof. unfold ReplyEntry. sends. Qed.
Lemma sends_ReplyCreate p : Sends 1 (ReplyCreate p).
Proof. unfold ReplyCreate. sends. Qed.
Lemma sends_ReplyAttr p : Sends 1 (ReplyAttr p).
Proof. unfold ReplyAttr. sends. Qed.
Lemma sends_ReplySetAttr p new to_set : Sends 1 (ReplySetAttr p new to_set).
Proof. unfold ReplySetAttr. sends. Qed.
Lemma sends_ReplyAccess p mask gid uid : Sends 1 (ReplyAccess p mask gid uid).
Proof. unfold ReplyAccess. sends. Qed.
Lemma sends_reply_created ino : Sends 1 (reply_created ino).
Proof. unfold reply_created. pose sends_ReplyEntry. sends. Qed.
Lemma sends_WriteAndReply p d off : Sends 1 (WriteAndReply p d off).
Proof.
  unfold WriteAndReply, File_WriteAndReply, Directory_WriteAndReply,
    SpecialInode_WriteAndReply, SymLink_WriteAndReply. sends.
Qed.
Lemma sends_ReadAndReply p size off : Sends 1 (ReadAndReply p size off).
Proof.
  unfold ReadAndReply, File_ReadAndReply, Directory_ReadAndReply,
    SpecialInode_ReadAndReply, SymLink_ReadAndReply. sends.
Qed.
Lemma sends_SetXAttr p name v flags pos : Sends 1 (SetXAttrAndReply p name v flags pos).
Proof. unfold SetXAttrAndReply. sends. Qed.
Lemma sends_GetXAttr p name size pos : Sends 1 (GetXAttrAndReply p name size pos).
Proof. unfold GetXAttrAndReply. sends. Qed.
Lemma sends_ListXAttr p size : Sends 1 (ListXAttrAndReply p size).
Proof. unfold ListXAttrAndReply. sends. Qed.
Lemma sends_RemoveXAttr p name : Sends 1 (RemoveXAttrAndReply p name).
Proof. unfold RemoveXAttrAndReply. sends. Qed.
Lemma sends_rename_replace p n p' n' s x : Sends 1 (rename_replace p n p' n' s x).
Proof. unfold rename_replace. sends. Qed.
Lemma sends_rename_move p n p' n' s : Sends 1 (rename_move p n p' n' s).
Proof. unfold rename_move. sends. Qed.

#[local] Hint Resolve sends_ReplyEntry sends_ReplyCreate sends_ReplyAttr
  sends_ReplySetAttr sends_ReplyAccess sends_reply_created sends_WriteAndReply
  sends_ReadAndReply sends_SetXAttr sends_GetXAttr sends_ListXAttr sends_RemoveXAttr
  sends_rename_replace sends_rename_move : verifs.

Lemma sends_with_live ino k : (forall i, Sends 1 (k i)) -> Sends 1 (with_live ino k).
Proof. intros Hk. unfold with_live. sends. Qed.
Lemma sends_with_dir i k : Sends 1 k -> Sends 1 (with_dir i k).
Proof. intros Hk. unfold with_dir. sends. Qed.

Lemma sends_FuseIoctl sha256 h cmd arg : Sends 1 (FuseIoctl sha256 h cmd arg).
Proof.
  unfold FuseIoctl. apply sends_after; [quiet|]. intros [ret file].
  apply sends_before; [sends|quiet].
Qed.

Ltac sends_handler :=
  repeat first [ apply sends_with_live; intros ? | apply sends_with_dir | progress sends ].

(** The requests with a fixed number of replies. *)
Definition regular (r : request) : bool :=
  match r with
  | op_forget _ _ | op_getlk | op_symlink _ _ _ | op_readdir _ _ _ => false
  | _ => true
  end.

Lemma sends_regular direntry_size sha256 h r :
  regular r = true -> Sends 1 (FuseOps direntry_size sha256 h r).
Proof.
  intros Hr. destruct r; simpl FuseOps; try done;
    try (apply sends_before; [apply sends_FuseIoctl|quiet]);
    match goal with |- Respects _ (?f) => let hd := head_of f in unfold hd end.
  all: sends_handler.
Qed.

(** ** The other requests *)

(** A [readdir] gets to its listing: the inode is a directory with a link, and the listing
    starts or its context is there. *)
Definition lists (w : world) (ino off : Z) : bool :=
  match get_inode w ino with
  | Some i => negb (HasNoLinks i) && bool_decide (is_Some (dir_children i)) &&
      ((off =? 0) || bool_decide (is_Some (readdirStates w !! cookie_key off)))
  | None => false
  end.

(** The replies that libfuse gets for a request. [forget] of an unknown inode and
    [getlk] are not answered; [symlink] goes on after it reported that space or
    inodes are missing, and [readdir] after it reported that its buffer could not be
    allocated. *)
Definition expected_replies (e : env) (w : world) (r : request) : nat :=
  match r with
  | op_forget ino _ => match get_inode w ino with Some _ => 1 | None => 0 end
  | op_getlk => 0
  | op_symlink _ parent name =>
      match get_inode w parent with
      | Some i =>
          if HasNoLinks i || negb (bool_decide (is_Some (dir_children i))) then 1
          else
            1 + (if has_space_for (m_stbuf w) None
                      (Z.min (Z.of_nat (String.length name)) PATH_MAX) then 0 else 1)
              + (if f_ffree (m_stbuf w) <=? 0 then 1 else 0)
      | None => 1
      end
  | op_readdir ino size off =>
      if lists w ino off && negb (can_alloc e (Z.min kReadDirBufSize size)) then 2 else 1
  | _ => 1
  end.

Lemma replies_FuseForget ino n e w a w' :
  FuseForget ino n e w = Ok a w' -> replied (expected_replies e w (op_forget ino n)) w w'.
Proof.
  intros H. apply bind_Ok in H as (o & w1 & [= <- <-] & H). simpl.
  destruct (get_inode w ino); [|injection H as _ <-; exists []; by rewrite app_nil_r].
  revert H. apply (sends_before 1 (Forget ino n)); [unfold Forget; sends|quiet].
Qed.

Lemma replied_trans n k w1 w2 w3 :
  replied n w1 w2 -> replied k w2 w3 -> replied (n + k) w1 w3.
Proof.
  intros (rs1 & E1 & L1) (rs2 & E2 & L2). exists (rs1 ++ rs2).
  rewrite E2, E1, app_assoc, length_app. split; [done|lia].
Qed.

(** The conditional reply of [FuseSymlink], which does not return. *)
Lemma reply_if_run (b : bool) n e w a w' :
  (if b then reply_error n else mret tt) e w = Ok a w' ->
  replied (if b then 1 else 0) w w' /\ m_stbuf w' = m_stbuf w.
Proof.
  destruct b; intros [= _ <-]; (split; [|done]).
  - by exists [reply_err n].
  - exists []. by rewrite app_nil_r.
Qed.

Lemma replies_FuseSymlink link parent name e w a w' :
  FuseSymlink link parent name e w = Ok a w' ->
  replied (expected_replies e w (op_symlink link parent name)) w w'.
Proof.
  intros H. apply bind_Ok in H as (o & w1 & [= <- <-] & H). simpl.
  destruct (get_inode w parent) as [i|]; [|by apply sends_reply_error in H].
  destruct (HasNoLinks i); [by apply sends_reply_error in H|]. simpl.
  unfold with_dir in H.
  destruct (dir_children i); simpl; [|by apply sends_reply_error in H].
  apply bind_Ok in H as (room & w1 & [= <- <-] & H).
  apply bind_Ok in H as ([] & w1 & E1 & H). apply reply_if_run in E1 as [R1 S1].
  apply bind_Ok in H as (free & w2 & [= <- <-] & H).
  apply bind_Ok in H as ([] & w2 & E2 & H). apply reply_if_run in E2 as [R2 _].
  rewrite S1 in R2.
  assert (R3 : replied 1 w2 w').
  { revert H. apply sends_after; [quiet|]. intros ino. sends. }
  pose proof (replied_trans _ _ _ _ _ R1 (replied_trans _ _ _ _ _ R2 R3)) as R.
  destruct (has_space_for _ _ _), (f_ffree (m_stbuf w) <=? 0); exact R.
Qed.

(** A listing that starts or goes on has a context. *)
Lemma PrepareReaddir_found p off e w o w' :
  PrepareReaddir p off e w = Ok o w' ->
  bool_decide (is_Some o) = (off =? 0) || bool_decide (is_Some (readdirStates w !! cookie_key off)).
Proof.
  intros H. apply bind_Ok in H as (w0 & w1 & [= <- <-] & H).
  destruct (off =? 0); simpl in H |- *.
  - apply bind_Ok in H as (e' & w1 & [= <- <-] & H). apply bind_Ok in H as (d & w1 & _ & H).
    apply bind_Ok in H as (l & w2 & _ & H). apply bind_Ok in H as (key & w3 & _ & H).
    apply bind_Ok in H as ([] & w4 & _ & H). by injection H as <- _.
  - destruct (readdirStates w !! _); by injection H as <- _.
Qed.

Lemma replies_FuseReadDir direntry_size ino size off e w a w' :
  FuseReadDir direntry_size ino size off e w = Ok a w' ->
  replied (expected_replies e w (op_readdir ino size off)) w w'.
Proof.
  intros H. unfold FuseReadDir in H. simpl. unfold lists.
  apply bind_Ok in H as (o & w1 & [= <- <-] & H).
  destruct (get_inode w ino) as [i|]; [|by apply sends_reply_error in H].
  destruct (HasNoLinks i); [by apply sends_reply_error in H|].
  unfold with_dir in H. destruct (dir_children i); [|by apply sends_reply_error in H].
  apply bind_Ok in H as (key & w1 & E1 & H). simpl.
  rewrite <- (PrepareReaddir_found _ _ _ _ _ _ E1).
  apply (sends_quiet _ (quiet_PrepareReaddir ino off)) in E1.
  apply (replied_trans 0 _ _ w1); [done|]. destruct key as [key|]; [|by apply sends_send in H].
  apply bind_Ok in H as (e' & w2 & [= <- <-] & H).
  apply bind_Ok in H as ([] & w2 & E2 & H). rewrite bool_decide_true by done. simpl.
  assert (R1 : replied (if can_alloc e (Z.min kReadDirBufSize size) then 0 else 1) w1 w2).
  { destruct (can_alloc _ _); [|by apply sends_reply_error in E2].
    injection E2 as <-. exists []. by rewrite app_nil_r. }
  assert (R2 : replied 1 w2 w').
  { revert H. apply sends_after; [quiet|]. intros w0. sends. }
  pose proof (replied_trans _ _ _ _ _ R1 R2) as R. by destruct (can_alloc _ _).
Qed.

(** C27. Every request that is served gets exactly the replies that [expected_replies] counts,
    appended to the earlier ones: one for each request except [forget] of an unknown inode
    and [getlk], which get none, [symlink] when space or inodes are missing, which gets
    two or three, and a [readdir] that comes to its listing but gets no memory for its
    buffer, which gets two if it is served at all. *)
Theorem replies_expected direntry_size sha256 h r e w a w' :
  FuseOps direntry_size sha256 h r e w = Ok a w' ->
  exists rs, replies w' = replies w ++ rs /\ length rs = expected_replies e w r.
Proof.
  intros H. change (replied (expected_replies e w r) w w').
  destruct (regular r) eqn:Hr.
  - apply sends_regular in H; [|done]. by destruct r.
  - destruct r; try done; simpl FuseOps in H.
    + by apply replies_FuseForget in H.
    + by apply replies_FuseSymlink in H.
    + by apply replies_FuseReadDir in H.
    + injection H as _ <-. exists []. by rewrite app_nil_r.
Qed.
