(* ===== verification/Specs.v ===== *)
(** * What the requests do

    The functional behaviour of the handlers on well-formed objects, in terms of
    byte sequences for files and finite maps for directories, on every branch,
    and what a client sees from one request to the next. *)

From S2P Require Import Prelude World Util Table InodeOps FileOps DirectoryOps Nodes.
From S2P Require Import Handlers CkptRestore Codec Pickle Requests Invariant.

(** ** Reaching an object *)

(** A linked object of the table. *)
Definition linked (w : world) (ino : Z) (i : inode) : Prop :=
  get_inode w ino = Some i /\ HasNoLinks i = false.

Lemma with_live_run ino k e w i :
  linked w ino i -> with_live ino k e w = k i e w.
Proof.
  intros [Hi Hl]. unfold with_live, GetInode, mbind, M_bind. simpl. by rewrite Hi, Hl.
Qed.

Lemma with_dir_run i l k : dir_children i = Some l -> with_dir i k = k.
Proof. intros Hl. unfold with_dir. by rewrite Hl. Qed.

Lemma with_live_missing ino k e w :
  (forall i, ~ linked w ino i) -> with_live ino k e w = Ok tt (add_reply (reply_err ENOENT) w).
Proof.
  intros Hn. unfold with_live, GetInode, mbind, M_bind. simpl.
  destruct (get_inode w ino) as [i|] eqn:E; [|done].
  destruct (HasNoLinks i) eqn:E'; [done|]. by destruct (Hn i).
Qed.

Lemma repr_file_buf i c : file_repr i c -> exists b, file_buf i = Some b.
Proof. intros (b & Hb & _). exists b. unfold file_buf. by rewrite Hb. Qed.

Lemma ReplyAttr_run p i e w :
  get_inode w p = Some i -> ReplyAttr p e w = Ok tt (add_reply (reply_attr (attr i)) w).
Proof. intros Hi. unfold ReplyAttr, mbind, M_bind. by rewrite (deref_run _ _ _ _ Hi). Qed.

(** An object with one more lookup. *)
Definition looked_up (i : inode) : inode :=
  on_base (fun b => set_nlookup (u64 (m_nlookup b + 1)) b) i.

Lemma ReplyEntry_run p i e w :
  get_inode w p = Some i ->
  ReplyEntry p e w
  = Ok tt (add_reply (reply_entry (m_fuseEntryParam (base i)))
             (put_inode p (Some (looked_up i)) w)).
Proof.
  intros Hi. unfold ReplyEntry, mbind, M_bind. rewrite (update_run _ _ _ _ i) by done.
  by rewrite (deref_run _ _ _ _ (get_put_eq _ _ _ _ Hi)).
Qed.

Lemma get_charged w p n i j :
  get_inode w p = Some i -> get_inode (charged w p n j) p = Some j.
Proof. intros Hi. unfold charged. by eapply get_put_eq. Qed.

(** ** Files *)

(** C7. A [setattr] request with a size implements [ftruncate] on a regular file:
    it replies an error without any change when the counters do not cover the
    new blocks or the allocator refuses, and otherwise replies the new
    attributes, with the content cut or extended by zeros and the free blocks
    charged with the difference. *)
Theorem setattr_truncates e w ino f c new to_set :
  linked w ino f -> file_repr f c -> flag_set to_set FUSE_SET_ATTR_SIZE = true ->
  0 <= st_size new < 2 ^ 63 ->
  let n := st_size new in
  let nb := get_nblocks n BufBlockSize in
  let ob := get_nblocks (zlen c) BufBlockSize in
  if negb (has_space_for (m_stbuf w) (Some f) (n - zlen c))
  then FuseSetAttr ino new to_set e w = Ok tt (add_reply (reply_err (- ENOSPC)) w)
  else if negb (nb =? ob) && (0 <? nb) && negb (can_alloc e (nb * BufBlockSize))
  then FuseSetAttr ino new to_set e w = Ok tt (add_reply (reply_err EINVAL) w)
  else exists f',
    FuseSetAttr ino new to_set e w
    = Ok tt (add_reply (reply_attr (attr f')) (charged w ino (nb - ob) f')) /\
    file_repr f' (posix_truncate c n) /\ st_mtim (attr f') = now e.
Proof.
  intros Hf Hr Hs Hn n nb ob. pose proof (FileTruncate_spec e w ino f c n (proj1 Hf) Hr Hn) as H.
  destruct (repr_file_buf _ _ Hr) as [b Hb].
  unfold FuseSetAttr. rewrite (with_live_run _ _ _ _ _ Hf), Hs, Hb.
  rewrite u64_small by lia. fold n. unfold mbind, M_bind.
  cbv zeta in H. fold nb ob in H.
  destruct (negb (has_space_for _ _ _)); [by rewrite H|].
  destruct (negb _ && _ && _); [by rewrite H|]. destruct H as (buf & Hrun & Hr').
  eexists. split; [|split; [exact Hr'|done]]. rewrite Hrun. simpl.
  by rewrite (ReplyAttr_run _ _ _ _ (get_charged _ _ _ _ _ (proj1 Hf))).
Qed.

Lemma WriteAndReply_file p f d off e w :
  get_inode w p = Some f -> is_Some (file_buf f) ->
  WriteAndReply p d off e w = File_WriteAndReply p d off e w.
Proof.
  intros Hf [b Hb]. unfold WriteAndReply, mbind, M_bind. rewrite (deref_run _ _ _ _ Hf).
  unfold file_buf in Hb. by destruct (derived f).
Qed.

Lemma ReadAndReply_file p f size off e w :
  get_inode w p = Some f -> is_Some (file_buf f) ->
  ReadAndReply p size off e w = File_ReadAndReply p size off e w.
Proof.
  intros Hf [b Hb]. unfold ReadAndReply, mbind, M_bind. rewrite (deref_run _ _ _ _ Hf).
  unfold file_buf in Hb. by destruct (derived f).
Qed.

(** The world after a successful write left the object [f']. *)
Definition written (w : world) (ino : Z) (d c : list byte) (off : Z) (f' : inode) : world :=
  let n := off + zlen d in
  let nb := get_nblocks n BufBlockSize in
  let ob := get_nblocks (zlen c) BufBlockSize in
  add_reply (reply_write (zlen d))
    (if BufBlockSize * ob <? n then charged w ino (nb - ob) f' else put_inode ino (Some f') w).

Lemma FuseWrite_run e w ino f c d off :
  linked w ino f -> file_repr f c -> 0 <= off -> off + zlen d < 2 ^ 63 ->
  let n := off + zlen d in
  let nb := get_nblocks n BufBlockSize in
  let ob := get_nblocks (zlen c) BufBlockSize in
  let grows := BufBlockSize * ob <? n in
  if grows && negb (has_space_for (m_stbuf w) (Some f) (n - zlen c))
  then FuseWrite ino (Some d) off e w = Ok tt (add_reply (reply_err ENOSPC) w)
  else if grows && negb (can_alloc e (nb * BufBlockSize))
  then FuseWrite ino (Some d) off e w = Ok tt (add_reply (reply_write 0) w)
  else exists f',
    FuseWrite ino (Some d) off e w = Ok tt (written w ino d c off f') /\
    file_repr f' (posix_write c off d) /\ HasNoLinks f' = false.
Proof.
  intros Hf Hr Ho Hn n nb ob grows.
  pose proof (WriteAndReply_spec e w ino f c d off (proj1 Hf) Hr Ho Hn) as H.
  cbv zeta in H. fold n nb ob grows in H.
  assert (Hrun : FuseWrite ino (Some d) off e w = File_WriteAndReply ino d off e w).
  { unfold FuseWrite. rewrite (with_live_run _ _ _ _ _ Hf).
    eapply WriteAndReply_file; [apply Hf|by apply repr_file_buf with c]. }
  rewrite Hrun. destruct (grows && negb (has_space_for _ _ _)); [done|].
  destruct (grows && negb _); [done|]. destruct H as (buf & Hw & Hr').
  eexists. split; [exact Hw|]. split; [exact Hr'|].
  change (HasNoLinks ?x) with (st_nlink (attr x) =? 0). destruct Hf as [_ Hl].
  unfold set_file, HasNoLinks in *. simpl. by destruct (zlen c <? n).
Qed.

Lemma FuseRead_run e w ino f c size off :
  linked w ino f -> file_repr f c -> 0 <= off -> 0 <= size -> off + size < 2 ^ 64 ->
  FuseRead ino size off e w
  = Ok tt (add_reply (reply_buf (posix_read c off size))
      (if zlen c <? off then w
       else put_inode ino (Some (on_attr (set_st_atim (now e)) f)) w)).
Proof.
  intros Hf Hr Ho Hs Hn. unfold FuseRead. rewrite (with_live_run _ _ _ _ _ Hf).
  rewrite (ReadAndReply_file _ f); [|apply Hf|by apply repr_file_buf with c].
  by apply ReadAndReply_spec; [apply Hf|..].
Qed.

(** C5. A [write] request implements [pwrite] on a regular file: [ENOSPC] or a
    count of 0, without any change, when the counters or the allocator do not
    serve a growing file; otherwise the full count, with the bytes in place,
    the gap past the old end read as zeros whatever the allocator left there,
    and the free blocks charged with the new ones. No access leaves the
    buffer. *)
Theorem write_implements_pwrite e w ino f c d off :
  linked w ino f -> file_repr f c -> 0 <= off -> off + zlen d < 2 ^ 63 ->
  let n := off + zlen d in
  let nb := get_nblocks n BufBlockSize in
  let grows := BufBlockSize * get_nblocks (zlen c) BufBlockSize <? n in
  if grows && negb (has_space_for (m_stbuf w) (Some f) (n - zlen c))
  then FuseWrite ino (Some d) off e w = Ok tt (add_reply (reply_err ENOSPC) w)
  else if grows && negb (can_alloc e (nb * BufBlockSize))
  then FuseWrite ino (Some d) off e w = Ok tt (add_reply (reply_write 0) w)
  else exists f',
    FuseWrite ino (Some d) off e w = Ok tt (written w ino d c off f') /\
    file_repr f' (posix_write c off d).
Proof.
  intros Hf Hr Ho Hn n nb grows. pose proof (FuseWrite_run e w ino f c d off Hf Hr Ho Hn) as H.
  cbv zeta in H. fold n nb grows in H. destruct (grows && negb _); [done|].
  destruct (grows && negb _); [done|]. destruct H as (f' & H & Hr' & _). eauto.
Qed.

(** C8. A [read] request implements [pread] on a regular file: it replies the
    bytes of the content from the offset on, at most [size] of them and none
    past the end, never leaves the buffer, and changes nothing but the access
    time. *)
Theorem read_implements_pread e w ino f c size off :
  linked w ino f -> file_repr f c -> 0 <= off -> 0 <= size -> off + size < 2 ^ 64 ->
  FuseRead ino size off e w
  = Ok tt (add_reply (reply_buf (posix_read c off size))
      (if zlen c <? off then w
       else put_inode ino (Some (on_attr (set_st_atim (now e)) f)) w)).
Proof. apply FuseRead_run. Qed.

Lemma posix_read_write c off d :
  0 <= off -> posix_read (posix_write c off d) off (zlen d) = d.
Proof.
  intros Ho. unfold posix_read, posix_write.
  rewrite drop_app_length' by (unfold zeros; len).
  by rewrite Nat2Z.id, take_app_length.
Qed.

Lemma get_written w ino d c off f f' :
  get_inode w ino = Some f -> get_inode (written w ino d c off f') ino = Some f'.
Proof.
  intros Hf. unfold written. destruct (_ <? _); [by eapply get_charged|by eapply get_put_eq].
Qed.

(** C9. What was written is read back: after a [write] request that reported the
    full count, a [read] of the same range replies exactly these bytes, in
    whatever environment it is served. *)
Theorem write_then_read e e' w ino f c d off w1 :
  linked w ino f -> file_repr f c -> 0 <= off -> off + zlen d < 2 ^ 63 -> d <> [] ->
  FuseWrite ino (Some d) off e w = Ok tt w1 ->
  replies w1 = replies w ++ [reply_write (zlen d)] ->
  exists w2, FuseRead ino (zlen d) off e' w1 = Ok tt w2 /\
    replies w2 = replies w1 ++ [reply_buf d].
Proof.
  intros Hf Hr Ho Hn Hd Hw Hrep.
  assert (Hpos : zlen d <> 0) by (destruct d; simpl; [done|lia]).
  pose proof (FuseWrite_run e w ino f c d off Hf Hr Ho Hn) as H. cbv zeta in H.
  destruct (_ && negb (has_space_for _ _ _)); [rewrite Hw in H; injection H as ->|].
  { simpl in Hrep. by apply app_inv_head in Hrep. }
  destruct (_ && negb _); [rewrite Hw in H; injection H as ->|].
  { simpl in Hrep. apply app_inv_head in Hrep. injection Hrep as E. lia. }
  destruct H as (f' & H & Hr' & Hl'). rewrite Hw in H. injection H as ->.
  eexists. split.
  - eapply FuseRead_run; [|exact Hr'|lia..].
    split; [eapply get_written; apply Hf|done].
  - simpl. f_equal; [by destruct (_ <? _)|]. by rewrite posix_read_write.
Qed.

(** ** Names *)

Lemma ChildInodeNumber_run p d l name e w :
  get_inode w p = Some d -> dir_children d = Some l ->
  ChildInodeNumberWithName p name e w = Ok (child_number l name) w.
Proof.
  intros Hd Hl. unfold ChildInodeNumberWithName, mbind, M_bind.
  rewrite (deref_run _ _ _ _ Hd), Hl. done.
Qed.

(** What [lookup] replies for a name that stands for [target]. *)
Definition lookup_result (w : world) (target : option Z) : world :=
  match target with
  | None => add_reply (reply_err ENOENT) w
  | Some c =>
      match get_inode w c with
      | Some i =>
          if (c =? INO_NOTFOUND) || HasNoLinks i then add_reply (reply_err ENOENT) w
          else add_reply (reply_entry (m_fuseEntryParam (base i)))
                 (put_inode c (Some (looked_up i)) w)
      | None => add_reply (reply_err ENOENT) w
      end
  end.

Lemma FuseLookup_run e w parent p l name :
  linked w parent p -> derived p = Directory l ->
  FuseLookup parent name e w = Ok tt (lookup_result w (dir_map l !! name)).
Proof.
  intros Hp Hd. assert (Hl : dir_children p = Some l) by (unfold dir_children; by rewrite Hd).
  unfold FuseLookup. rewrite (with_live_run _ _ _ _ _ Hp), (with_dir_run _ _ _ Hl).
  unfold mbind, M_bind. rewrite (ChildInodeNumber_run _ _ _ _ _ _ (proj1 Hp) Hl).
  rewrite <- dir_find_map. unfold child_number, lookup_result.
  destruct (dir_find name l) as [c|]; simpl; [|done].
  destruct (c =? INO_NOTFOUND) eqn:E0; [by destruct (get_inode w c)|].
  unfold with_live, GetInode, mbind, M_bind. simpl.
  destruct (get_inode w c) as [i|] eqn:Hi; [|done].
  destruct (HasNoLinks i); [done|]. by apply ReplyEntry_run.
Qed.

(** C21. [lookup] in a linked directory is the lookup in its map of names: a name
    that stands for a linked inode is answered with the entry of that inode,
    whose lookup count goes up by one, and every other name with [ENOENT]. *)
Theorem lookup_is_map_lookup e w parent p l name :
  linked w parent p -> dir_repr p l ->
  FuseLookup parent name e w = Ok tt (lookup_result w (dir_map l !! name)).
Proof. intros Hp Hr. eapply FuseLookup_run; [done|apply Hr]. Qed.

(** The object whose link count changed by [n]. *)
Definition relinked (n : Z) (i : inode) : inode :=
  on_attr (fun a => set_st_nlink (u64 (st_nlink a + n)) a) i.

Lemma IncrementLinkCount_run p i e w :
  get_inode w p = Some i ->
  IncrementLinkCount p e w = Ok tt (put_inode p (Some (relinked 1 i)) w).
Proof. intros Hi. unfold IncrementLinkCount. by rewrite (update_run _ _ _ _ i). Qed.

Lemma DecrementLinkCount_run p i e w :
  get_inode w p = Some i ->
  DecrementLinkCount p e w = Ok tt (put_inode p (Some (relinked (-1) i)) w).
Proof. intros Hi. unfold DecrementLinkCount. by rewrite (update_run _ _ _ _ i). Qed.

Lemma get_resized_other w p n d i q :
  get_inode w p = Some d -> p <> q -> get_inode (resized w p n i) q = get_inode w q.
Proof.
  intros Hd Hne. pose proof (get_inode_range _ _ _ Hd).
  unfold resized, charged. destruct (n =? 0); rewrite get_put_inode by done;
    by rewrite decide_False.
Qed.

(** The number of blocks a change of the children adds. *)
Definition block_delta (l l' : list (string * Z)) : Z :=
  get_nblocks (dir_bytes l') BufBlockSize - get_nblocks (dir_bytes l) BufBlockSize.

(** C20. [link] adds a name: when the name is in use it replies [EEXIST], when the
    directory cannot grow [ENOSPC], both without any change; otherwise the name
    maps to the inode, whose link and lookup counts go up by one, and the reply
    is its entry. *)
Theorem link_adds_name e w ino i parent p l name :
  linked w ino i -> linked w parent p -> dir_repr p l -> ino <> parent ->
  dir_bytes l + elem_size name < 2 ^ 63 ->
  let l' := l ++ [(name, ino)] in
  if bool_decide (name ∈ l.*1)
  then FuseLink ino parent name e w = Ok tt (add_reply (reply_err EEXIST) w)
  else if negb (has_space_for (m_stbuf w) (Some p) (elem_size name))
  then FuseLink ino parent name e w = Ok tt (add_reply (reply_err ENOSPC) w)
  else exists p',
    let i' := relinked 1 i in
    FuseLink ino parent name e w
    = Ok tt (add_reply (reply_entry (m_fuseEntryParam (base i')))
        (put_inode ino (Some (looked_up i')) (resized w parent (block_delta l l') p'))) /\
    dir_repr p' l' /\ dir_map l' = <[name := ino]> (dir_map l).
Proof.
  intros Hi Hp Hr Hne Hb l'. pose proof (repr_children _ _ Hr) as Hl.
  unfold FuseLink. rewrite (with_live_run _ _ _ _ _ Hi), (with_live_run _ _ _ _ _ Hp).
  rewrite (with_dir_run _ _ _ Hl). unfold mbind, M_bind.
  rewrite (ChildInodeNumber_run _ _ _ _ _ _ (proj1 Hp) Hl). unfold child_number.
  pose proof (AddChild_spec e w parent p l name ino (proj1 Hp) Hr Hb) as Hadd.
  cbv zeta in Hadd. case_bool_decide as Hin.
  { apply dir_find_is_Some in Hin as [c Hc]. rewrite Hc. simpl.
    destruct (c =? INO_NOTFOUND); simpl; [by rewrite Hadd|done]. }
  rewrite (proj2 (dir_find_None _ _) Hin). simpl.
  destruct (negb (has_space_for _ _ _)); [by rewrite Hadd|].
  destruct Hadd as [Hrun Hr']. eexists. split; [|split; [exact Hr'|]].
  - rewrite Hrun. simpl.
    assert (Hi' : get_inode (resized w parent (block_delta l l') (on_attr (resize_attr
      (dir_bytes l')) (set_children l' p))) ino = Some i).
    { rewrite (get_resized_other _ _ _ p); [apply Hi|apply Hp|done]. }
    unfold block_delta in *. fold l'. rewrite (IncrementLinkCount_run _ _ _ _ Hi').
    rewrite (ReplyEntry_run _ _ _ _ (get_put_eq _ _ _ _ Hi')). by rewrite put_put_inode.
  - unfold dir_map, l'. by apply list_to_map_snoc.
Qed.

Lemma get_put_other w p i o q :
  get_inode w p = Some i -> p <> q -> get_inode (put_inode p o w) q = get_inode w q.
Proof.
  intros Hi Hne. rewrite get_put_inode by (by eapply get_inode_range).
  by rewrite decide_False.
Qed.

Lemma FuseUnlink_run e w parent p l name ino i :
  linked w parent p -> dir_repr p l -> dir_map l !! name = Some ino ->
  ino <> INO_NOTFOUND -> ino <> parent -> get_inode w ino = Some i ->
  elem_size name < 2 ^ 63 ->
  let l' := dir_erase name l in
  exists p',
    FuseUnlink parent name e w
    = Ok tt (add_reply (reply_err 0)
        (put_inode ino (Some (relinked (-1) i)) (resized w parent (block_delta l l') p'))) /\
    dir_repr p' l' /\ st_nlink (attr p') = st_nlink (attr p).
Proof.
  intros Hp Hr Hm H0 Hne Hi Hb l'. pose proof (repr_children _ _ Hr) as Hl.
  unfold FuseUnlink. rewrite (with_live_run _ _ _ _ _ Hp), (with_dir_run _ _ _ Hl).
  unfold mbind, M_bind. rewrite (ChildInodeNumber_run _ _ _ _ _ _ (proj1 Hp) Hl).
  rewrite <- dir_find_map in Hm. unfold child_number. rewrite Hm. simpl.
  rewrite (proj2 (Z.eqb_neq _ _) H0).
  pose proof (RemoveChild_spec e w parent p l name (proj1 Hp) Hr Hb) as Hrm.
  cbv zeta in Hrm. rewrite bool_decide_true in Hrm by (apply dir_find_is_Some; eauto).
  destruct Hrm as [Hrun Hr']. rewrite Hrun. eexists. split; [|split; [exact Hr'|done]].
  assert (Hi' := Hi). rewrite <- (get_resized_other w parent (block_delta l l') p
    (on_attr (fun a => touch_mc (now e) (resize_attr (dir_bytes l') a)) (set_children l' p))
    ino (proj1 Hp)) in Hi' by done.
  unfold block_delta in *. fold l'. unfold GetInode, mbind, M_bind. simpl.
  rewrite Hi'. by rewrite (DecrementLinkCount_run _ _ _ _ Hi').
Qed.

(** C16. [unlink] removes a name: the name disappears from the map of the
    directory, the link count of the inode goes down by one, the blocks that
    the directory no longer needs are given back, the reply is 0, and a
    [lookup] of the name that follows is answered with [ENOENT]. *)
Theorem unlink_removes_name e e' w parent p l name ino i :
  linked w parent p -> dir_repr p l -> dir_map l !! name = Some ino ->
  ino <> INO_NOTFOUND -> ino <> parent -> get_inode w ino = Some i ->
  elem_size name < 2 ^ 63 ->
  exists p' w',
    FuseUnlink parent name e w = Ok tt w' /\
    w' = add_reply (reply_err 0) (put_inode ino (Some (relinked (-1) i))
           (resized w parent (block_delta l (dir_erase name l)) p')) /\
    dir_repr p' (dir_erase name l) /\
    dir_map (dir_erase name l) = delete name (dir_map l) /\
    FuseLookup parent name e' w' = Ok tt (add_reply (reply_err ENOENT) w').
Proof.
  intros Hp Hr Hm H0 Hne Hi Hb.
  destruct (FuseUnlink_run e w parent p l name ino i Hp Hr Hm H0 Hne Hi Hb)
    as (p' & Hrun & Hr' & Hn).
  exists p'. eexists. split; [exact Hrun|]. split; [done|]. split; [done|].
  pose proof (children_delete name l ltac:(apply Hr)) as Hdel. split; [done|].
  erewrite (FuseLookup_run _ _ _ p' (dir_erase name l)).
  - rewrite Hdel, lookup_delete_eq. done.
  - split.
    + change (get_inode (add_reply _ ?x) parent) with (get_inode x parent).
      rewrite (get_put_other _ _ i); [|by rewrite (get_resized_other _ _ _ p); [|apply Hp|]|done].
      eapply get_resized, Hp.
    + destruct Hp as [_ Hp]. unfold HasNoLinks in *. by rewrite Hn.
  - apply Hr'.
Qed.

(** ** Creation *)

(** The world with the new object, before its name is added. *)
Definition registered (e : env) (w : world) (i : inode) (mode links : Z) : world :=
  let new := initialized (now e) (next_ino w) mode links (ctx_gid e) (ctx_uid e) i in
  set_stbuf (register_stat i new (m_stbuf w)) (enlist new w).

Lemma get_registered e w i mode links q :
  fs_ok w ->
  get_inode (registered e w i mode links) q =
    if decide (q = next_ino w)
    then Some (initialized (now e) (next_ino w) mode links (ctx_gid e) (ctx_uid e) i)
    else get_inode w q.
Proof. intros Hw. unfold registered. by rewrite <- get_enlist. Qed.

Lemma do_create_node_run e w parent p l name mode dev symlink i links :
  fs_ok w -> get_inode w parent = Some p -> dir_repr p l ->
  make_node mode dev symlink = Some (i, links) -> S_ISDIR mode = false ->
  can_new e = true -> 0 < f_ffree (m_stbuf w) ->
  dir_bytes l + elem_size name < 2 ^ 63 -> name ∉ l.*1 ->
  let w1 := registered e w i mode links in
  has_space_for (m_stbuf w1) (Some p) (elem_size name) = true ->
  let l' := l ++ [(name, next_ino w)] in
  exists p',
    do_create_node parent name mode dev symlink e w
    = Ok (s64 (next_ino w)) (resized w1 parent (block_delta l l') p') /\
    dir_repr p' l' /\ st_nlink (attr p') = st_nlink (attr p).
Proof.
  intros Hw Hp Hr Hm Hdir Hnew Hfree Hb Hname w1 Hroom l'.
  unfold do_create_node, mbind, M_bind. simpl. rewrite Hm, Hnew. simpl.
  rewrite (proj2 (Z.leb_gt _ _) Hfree).
  rewrite (RegisterInode_run e w i mode links) by done.
  change (set_stbuf _ (enlist _ w)) with w1. rewrite Hdir.
  assert (Hp1 : get_inode w1 parent = Some p).
  { subst w1. rewrite get_registered by done. rewrite decide_False; [done|].
    intros ->. by rewrite (next_ino_fresh _ Hw) in Hp. }
  pose proof (AddChild_spec e w1 parent p l name (next_ino w) Hp1 Hr Hb) as Hadd.
  cbv zeta in Hadd. rewrite bool_decide_false in Hadd by done. rewrite Hroom in Hadd.
  destruct Hadd as [Hrun Hr']. simpl. rewrite Hrun. simpl. eexists.
  split; [done|]. by split.
Qed.

Lemma linked_not_next w parent p : fs_ok w -> linked w parent p -> parent <> next_ino w.
Proof. intros Hw [Hp _] ->. by rewrite (next_ino_fresh _ Hw) in Hp. Qed.

(** What a client finds after a node was created under [name]. *)
Definition node_added (w w' : world) (parent : Z) (l : list (string * Z)) (name : string)
    (ino : Z) (new : inode) : Prop :=
  get_inode w ino = None /\ get_inode w' ino = Some new /\
  (exists p', linked w' parent p' /\ dir_repr p' (l ++ [(name, ino)]) /\
     dir_map (l ++ [(name, ino)]) = <[name := ino]> (dir_map l)) /\
  (forall q, q <> ino -> q <> parent -> get_inode w' q = get_inode w q).

Lemma node_added_resized e w i mode links parent p l name p' new r :
  fs_ok w -> linked w parent p -> name ∉ l.*1 ->
  dir_repr p' (l ++ [(name, next_ino w)]) -> st_nlink (attr p') = st_nlink (attr p) ->
  let w1 := registered e w i mode links in
  node_added w
    (add_reply r (put_inode (next_ino w) (Some new) (resized w1 parent
       (block_delta l (l ++ [(name, next_ino w)])) p')))
    parent l name (next_ino w) new.
Proof.
  intros Hw Hp Hn Hr' Hl w1. pose proof (next_ino_fresh _ Hw) as Hfresh.
  assert (Hne : parent <> next_ino w) by (intros ->; destruct Hp; congruence).
  assert (Hp1 : get_inode w1 parent = Some p).
  { subst w1. rewrite get_registered by done. rewrite decide_False by done. apply Hp. }
  set (new0 := initialized (now e) (next_ino w) mode links (ctx_gid e) (ctx_uid e) i).
  set (w2 := resized w1 parent _ p').
  assert (Hi2 : get_inode w2 (next_ino w) = Some new0).
  { subst w2. rewrite (get_resized_other _ _ _ p) by done. subst w1.
    rewrite get_registered by done. by rewrite decide_True. }
  split; [done|]. split; [exact (get_put_eq _ _ _ _ Hi2)|]. split.
  - exists p'. split; [|split; [done|by apply list_to_map_snoc]]. split.
    + change (get_inode (add_reply _ ?x) parent) with (get_inode x parent).
      rewrite (get_put_other _ _ _ _ _ Hi2) by done. eapply get_resized, Hp1.
    + destruct Hp as [_ Hp]. unfold HasNoLinks in *. by rewrite Hl.
  - intros q Hq1 Hq2. change (get_inode (add_reply _ ?x) q) with (get_inode x q).
    rewrite (get_put_other _ _ _ _ _ Hi2) by done. subst w2.
    rewrite (get_resized_other _ _ _ p) by done. subst w1.
    rewrite get_registered by done. by rewrite decide_False.
Qed.

Lemma ReplyCreate_run p i e w :
  get_inode w p = Some i ->
  ReplyCreate p e w
  = Ok tt (add_reply (reply_create (m_fuseEntryParam (base i)))
             (put_inode p (Some (looked_up i)) w)).
Proof.
  intros Hi. unfold ReplyCreate, mbind, M_bind. rewrite (update_run _ _ _ _ i) by done.
  by rewrite (deref_run _ _ _ _ (get_put_eq _ _ _ _ Hi)).
Qed.

Lemma replies_resized w p n i : replies (resized w p n i) = replies w.
Proof. unfold resized, charged. by destruct (n =? 0). Qed.

Lemma replies_registered e w i mode links : replies (registered e w i mode links) = replies w.
Proof. unfold registered, enlist. by destruct (DeletedInodes w). Qed.

(** A [lookup] of a name just added. *)
Lemma lookup_added e w w' parent l name ino new :
  node_added w w' parent l name ino new -> ino <> INO_NOTFOUND -> HasNoLinks new = false ->
  FuseLookup parent name e w'
  = Ok tt (add_reply (reply_entry (m_fuseEntryParam (base new)))
             (put_inode ino (Some (looked_up new)) w')).
Proof.
  intros (_ & Hnew & (p' & Hp' & Hr' & Hmap) & _) H0 Hl.
  rewrite (FuseLookup_run _ _ _ p' (l ++ [(name, ino)])); [|done|apply Hr'].
  rewrite Hmap, lookup_insert_eq. simpl. rewrite Hnew, Hl.
  by rewrite (proj2 (Z.eqb_neq _ _) H0).
Qed.

(** C10. [create] makes an empty regular file: with a free inode, room for the name
    and memory, it takes a number that was not in use, adds the name to the
    directory, changes no other inode, and replies the entry of a file with one
    link, no blocks and the owner of the request, which a [lookup] of the name
    then finds. *)
Theorem create_makes_file e e' w parent p l name mode :
  fs_ok w -> linked w parent p -> dir_repr p l -> name ∉ l.*1 ->
  dir_bytes l + elem_size name < 2 ^ 63 -> S_ISREG (Z.lor mode S_IFREG) = true ->
  can_new e = true -> 0 < f_ffree (m_stbuf w) -> 0 < next_ino w < 2 ^ 63 ->
  let ino := next_ino w in
  let new := initialized (now e) ino (Z.lor mode S_IFREG) 1 (ctx_gid e) (ctx_uid e)
               (new_inode (File [])) in
  let w1 := registered e w (new_inode (File [])) (Z.lor mode S_IFREG) 1 in
  has_space_for (m_stbuf w1) (Some p) (elem_size name) = true ->
  exists w', FuseCreate parent name mode e w = Ok tt w' /\
    replies w' = replies w ++ [reply_create (m_fuseEntryParam (base new))] /\
    node_added w w' parent l name ino (looked_up new) /\ file_repr new [] /\
    st_nlink (attr new) = 1 /\ st_uid (attr new) = ctx_uid e /\
    exists w2, FuseLookup parent name e' w' = Ok tt w2 /\
      replies w2 = replies w' ++ [reply_entry (m_fuseEntryParam (base new))].
Proof.
  intros Hw Hp Hr Hn Hb Hreg Hnew Hfree Hino ino new w1 Hroom.
  assert (Hne : parent <> next_ino w) by (by eapply linked_not_next).
  assert (Hm : make_node (Z.lor mode S_IFREG) 0 None = Some (new_inode (File []), 1))
    by (unfold make_node; by rewrite Hreg).
  assert (Hdir : S_ISDIR (Z.lor mode S_IFREG) = false)
    by (by apply (mode_is_other S_IFREG)).
  destruct (do_create_node_run e w parent p l name _ 0 None _ _ Hw (proj1 Hp) Hr Hm Hdir
              Hnew Hfree Hb Hn Hroom) as (p' & Hrun & Hr' & Hl').
  pose proof (node_added_resized e w (new_inode (File [])) (Z.lor mode S_IFREG) 1 parent p l name
    p' (looked_up new)
    (reply_create (m_fuseEntryParam (base new))) Hw Hp Hn Hr' Hl') as Hadd.
  cbv zeta in Hadd. fold ino w1 in Hadd, Hrun. eexists. split; [|split; [|split; [exact Hadd|]]].
  - unfold FuseCreate. rewrite (with_live_run _ _ _ _ _ Hp).
    rewrite (with_dir_run _ _ _ (repr_children _ _ Hr)). unfold mbind, M_bind.
    rewrite Hrun, s64_small, (proj2 (Z.ltb_lt _ _)) by (subst ino; lia).
    apply ReplyCreate_run.
    rewrite (get_resized_other _ _ _ p).
    + subst w1. rewrite get_registered by done. by rewrite decide_True.
    + subst w1. rewrite get_registered by done. by rewrite decide_False; [apply Hp|].
    + done.
  - simpl. subst w1. by rewrite replies_resized, replies_registered.
  - split; [by exists []|]. split; [done|]. split; [done|]. eexists.
    split; [eapply lookup_added; [exact Hadd|unfold INO_NOTFOUND; lia|done]|done].
Qed.

Lemma symlink_attr_nlink link a : st_nlink (symlink_attr link a) = st_nlink a.
Proof. unfold symlink_attr. by case_match. Qed.

(** C24. A symbolic link reads back: with a free inode, room for the name and
    memory, [symlink] adds the name and replies the entry of a link, and
    [readlink] of its number then replies the target. *)
Theorem symlink_then_readlink e e' w parent p l name link :
  fs_ok w -> linked w parent p -> dir_repr p l -> name ∉ l.*1 ->
  dir_bytes l + elem_size name < 2 ^ 63 ->
  has_space_for (m_stbuf w) None (Z.min (Z.of_nat (String.length name)) PATH_MAX) = true ->
  can_new e = true -> 0 < f_ffree (m_stbuf w) -> 0 < next_ino w < 2 ^ 63 ->
  let mode := Z.lor 0x1ff S_IFLNK in
  let ino := next_ino w in
  let new := initialized (now e) ino mode 1 (ctx_gid e) (ctx_uid e) (new_inode (SymLink link)) in
  let w1 := registered e w (new_inode (SymLink link)) mode 1 in
  has_space_for (m_stbuf w1) (Some p) (elem_size name) = true ->
  exists w', FuseSymlink link parent name e w = Ok tt w' /\
    replies w' = replies w ++ [reply_entry (m_fuseEntryParam (base new))] /\
    node_added w w' parent l name ino (looked_up new) /\
    st_size (attr new) = Z.of_nat (String.length link) /\
    FuseReadLink ino e' w' = Ok tt (add_reply (reply_readlink link) w').
Proof.
  intros Hw Hp Hr Hn Hb Hspace Hnew Hfree Hino mode ino new w1 Hroom.
  assert (Hne : parent <> next_ino w) by (by eapply linked_not_next).
  pose proof (repr_children _ _ Hr) as Hl.
  destruct (do_create_node_run e w parent p l name mode 0 (Some link) _ _ Hw (proj1 Hp) Hr
              eq_refl eq_refl Hnew Hfree Hb Hn Hroom) as (p' & Hrun & Hr' & Hl').
  pose proof (node_added_resized e w (new_inode (SymLink link)) mode 1 parent p l name p'
    (looked_up new) (reply_entry (m_fuseEntryParam (base new))) Hw Hp Hn Hr' Hl') as Hadd.
  cbv zeta in Hadd. fold ino w1 in Hadd, Hrun.
  eexists. split; [|split; [|split; [exact Hadd|]]].
  - unfold FuseSymlink. rewrite (with_live_run _ _ _ _ _ Hp), (with_dir_run _ _ _ Hl).
    unfold mbind, M_bind. simpl. rewrite Hspace. simpl. rewrite (proj2 (Z.leb_gt _ _) Hfree). simpl.
    rewrite (ChildInodeNumber_run _ _ _ _ _ _ (proj1 Hp) Hl). unfold child_number.
    rewrite (proj2 (dir_find_None _ _) Hn). simpl.
    change (Z.lor 511 S_IFLNK) with mode. rewrite Hrun. unfold reply_created.
    rewrite s64_small, (proj2 (Z.ltb_lt _ _)) by (subst ino; lia).
    apply ReplyEntry_run. rewrite (get_resized_other _ _ _ p).
    + subst w1. rewrite get_registered by done. by rewrite decide_True.
    + subst w1. rewrite get_registered by done. by rewrite decide_False; [apply Hp|].
    + done.
  - simpl. subst w1. by rewrite replies_resized, replies_registered.
  - split; [by apply symlink_attr_sizes|]. destruct Hadd as (_ & Hnew' & _).
    unfold FuseReadLink. erewrite with_live_run; [|split; [exact Hnew'|]]; [done|].
    change (HasNoLinks (looked_up new)) with (st_nlink (attr new) =? 0).
    unfold new, initialized. simpl. unfold attr. simpl.
    rewrite (symlink_attr_nlink link). done.
Qed.

(** ** Directories *)

(** The names of a new directory, and the object with them. *)
Definition dots (ino parent : Z) : list (string * Z) := [("."%string, ino); (".."%string, parent)].
Definition with_dots (ino parent : Z) (i : inode) : inode :=
  let l := dots ino parent in on_attr (resize_attr (dir_bytes l)) (set_children l i).

(** The size of an object that replaces another does not matter. *)
Lemma resize_twice m n l k i :
  on_attr (resize_attr n) (set_children l (on_attr (resize_attr m) (set_children k i)))
  = on_attr (resize_attr n) (set_children l i).
Proof. by destruct i as [[? ? [? ? [] ? ?] ?] ?]. Qed.

(** Both dots fit the first block, which [Initialize] has charged. *)
Lemma add_dots e w ino parent d p :
  get_inode w ino = Some d -> dir_repr d [] -> get_inode w parent = Some p ->
  GetIno p = parent -> ino <> parent ->
  (AddChild ino "." ino;; par ← deref parent; AddChild ino ".." (GetIno par);; mret tt) e w
  = Ok tt (put_inode ino (Some (with_dots ino parent d)) w) /\
  dir_repr (with_dots ino parent d) (dots ino parent).
Proof.
  intros Hd Hr Hp Hpi Hne. pose proof Hr as (Hder & _ & Hs & _ & Hb).
  assert (Hroom : forall s n i m, st_size (attr i) = m -> st_blocks (attr i) = 1 ->
    0 <= n -> 0 <= m -> m + n <= BufBlockSize -> has_space_for s (Some i) n = true).
  { intros s n i m Hsz Hbl Hn Hm Hmn. unfold has_space_for, Size, UsedBlocks.
    rewrite Hsz, Hbl. destruct (n <=? 0); [done|].
    assert (Hnb : get_nblocks (u64 (u64 m + n)) BufBlockSize <= u64 1).
    { unfold get_nblocks, BufBlockSize in *. rewrite (u64_small m), (u64_small (m + n)), !u64_small by lia.
      pose proof (Z.div_lt_upper_bound (m + n + 512 - 1) 512 2). lia. }
    by rewrite (proj2 (Z.leb_le _ _) Hnb). }
  pose proof (AddChild_spec e w ino d [] "." ino Hd Hr ltac:(done)) as H1.
  cbv zeta in H1. rewrite bool_decide_false in H1 by set_solver.
  rewrite (Hroom _ (elem_size ".") d 24) in H1 by done.
  destruct H1 as [H1 Hr1]. simpl app in *. set (d1 := on_attr _ _) in *.
  change (resized w ino _ d1) with (put_inode ino (Some d1) w) in H1.
  set (w1 := put_inode ino (Some d1) w) in *.
  assert (Hd1 : get_inode w1 ino = Some d1) by (by eapply get_put_eq).
  pose proof Hr1 as (_ & _ & Hs1 & _ & Hb1).
  pose proof (AddChild_spec e w1 ino d1 _ ".." parent Hd1 Hr1 ltac:(done)) as H2.
  cbv zeta in H2. rewrite bool_decide_false in H2 by set_solver.
  rewrite (Hroom _ (elem_size "..") d1 97) in H2 by done.
  destruct H2 as [H2 Hr2]. subst d1. rewrite resize_twice in H2, Hr2.
  unfold mbind, M_bind. rewrite H1. simpl. subst w1.
  erewrite deref_run; [|rewrite (get_put_other _ _ d); [exact Hp|done|done]].
  rewrite Hpi, H2.
  split; [|exact Hr2]. unfold mret, M_ret. rewrite resized_put. done.
Qed.

Section mkdir.
Context (e : env) (w : world) (parent : Z) (p : inode) (l : list (string * Z)).
Context (name : string) (mode : Z).
Context (Hw : fs_ok w) (Hp : linked w parent p) (Hr : dir_repr p l) (Hn : name ∉ l.*1).
Context (Hb : dir_bytes l + elem_size name < 2 ^ 63).
Context (Hdir : S_ISDIR (Z.lor mode S_IFDIR) = true) (Hnew : can_new e = true).
Context (Hfree : 0 < f_ffree (m_stbuf w)).

Let ino := next_ino w.
Let node := initialized (now e) ino (Z.lor mode S_IFDIR) 2 (ctx_gid e) (ctx_uid e)
              (new_inode (Directory [])).
Let new := with_dots ino parent node.
Let w1 := registered e w (new_inode (Directory [])) (Z.lor mode S_IFDIR) 2.
Let w2 := put_inode ino (Some new) w1.
Let n := block_delta l (l ++ [(name, ino)]).

Lemma mkdir_worlds :
  ino <> parent /\ get_inode w ino = None /\ get_inode w1 ino = Some node /\
  get_inode w1 parent = Some p /\ get_inode w2 ino = Some new /\ get_inode w2 parent = Some p.
Proof.
  pose proof (next_ino_fresh _ Hw) as Hfresh. fold ino in Hfresh.
  assert (Hne : ino <> parent) by (intros E; destruct Hp; congruence).
  assert (Hi1 : get_inode w1 ino = Some node).
  { subst w1. rewrite get_registered by done. by rewrite decide_True. }
  assert (Hp1 : get_inode w1 parent = Some p).
  { subst w1. rewrite get_registered by done. rewrite decide_False by done. apply Hp. }
  repeat (split; [done|]). split; [by eapply get_put_eq|].
  subst w2. by rewrite (get_put_other _ _ node).
Qed.

Lemma do_create_directory_run :
  has_space_for (m_stbuf w1) (Some p) (elem_size name) = true ->
  exists p',
    do_create_node parent name (Z.lor mode S_IFDIR) 0 None e w
    = Ok (s64 ino) (put_inode parent (Some (relinked 1 p')) (resized w2 parent n p')) /\
    dir_repr new (dots ino parent) /\ dir_repr p' (l ++ [(name, ino)]) /\
    st_nlink (attr p') = st_nlink (attr p).
Proof.
  intros Hroom. destruct mkdir_worlds as (Hne & _ & Hi1 & Hp1 & Hi2 & Hp2).
  assert (Hnode : dir_repr node []) by (split; [done|split; [constructor|done]]).
  assert (Hpi : GetIno p = parent) by apply (ok_objects w Hw parent p (proj1 Hp)).
  destruct (add_dots e w1 ino parent node p Hi1 Hnode Hp1 Hpi Hne) as [Hdots Hnr].
  pose proof (AddChild_spec e w2 parent p l name ino Hp2 Hr Hb) as Hadd.
  cbv zeta in Hadd. rewrite bool_decide_false in Hadd by done.
  change (m_stbuf w2) with (m_stbuf w1) in Hadd. rewrite Hroom in Hadd.
  destruct Hadd as [Hadd Hr']. change (get_nblocks _ _ - get_nblocks _ _) with n in Hadd.
  eexists. split; [|split; [exact Hnr|split; [exact Hr'|done]]].
  unfold do_create_node, make_node, ask, mbind, M_bind. cbv beta iota.
  assert (Hreg : S_ISREG (Z.lor mode S_IFDIR) = false)
    by (by apply (mode_is_other S_IFDIR)).
  rewrite Hreg, Hdir, Hnew.
  unfold GetFreeInodes, get, mbind, M_bind, mret, M_ret. cbv beta iota delta [negb].
  rewrite (proj2 (Z.leb_gt _ _) Hfree).
  rewrite (RegisterInode_run e w (new_inode (Directory [])) (Z.lor mode S_IFDIR) 2) by done.
  change (set_stbuf _ (enlist _ w)) with w1. fold ino.
  unfold mbind, M_bind, mret, M_ret in Hdots. rewrite Hdots.
  fold new w2. rewrite Hadd. cbv beta iota delta [Z.ltb Z.compare].
  by erewrite IncrementLinkCount_run by (by eapply get_resized).
Qed.
End mkdir.

(** C11. [mkdir] makes a directory: with a free inode, room for the name and memory,
    it takes a number that was not in use, adds the name to the parent, whose
    link count goes up by one, and replies the entry of a directory with two
    links that holds the dots; two blocks are charged for it although it uses
    one. *)
Theorem mkdir_makes_directory e w parent p l name mode :
  fs_ok w -> linked w parent p -> dir_repr p l -> name ∉ l.*1 ->
  dir_bytes l + elem_size name < 2 ^ 63 -> S_ISDIR (Z.lor mode S_IFDIR) = true ->
  can_new e = true -> 0 < f_ffree (m_stbuf w) -> 0 < next_ino w < 2 ^ 63 ->
  let ino := next_ino w in
  let mode' := Z.lor mode S_IFDIR in
  let new := with_dots ino parent
    (initialized (now e) ino mode' 2 (ctx_gid e) (ctx_uid e) (new_inode (Directory []))) in
  let s1 := charge_blocks 1 (charge_blocks 1 (charge_inodes 1 (m_stbuf w))) in
  let n := block_delta l (l ++ [(name, ino)]) in
  has_space_for s1 (Some p) (elem_size name) = true ->
  exists w' p', FuseMkdir parent name mode e w = Ok tt w' /\
    replies w' = replies w ++ [reply_entry (m_fuseEntryParam (base new))] /\
    get_inode w ino = None /\ get_inode w' ino = Some (looked_up new) /\
    dir_repr new (dots ino parent) /\ st_nlink (attr new) = 2 /\ UsedBlocks new = 1 /\
    get_inode w' parent = Some (relinked 1 p') /\ dir_repr p' (l ++ [(name, ino)]) /\
    st_nlink (attr p') = st_nlink (attr p) /\
    m_stbuf w' = (if n =? 0 then s1 else charge_blocks n s1).
Proof.
  intros Hw Hp Hr Hn Hb Hdir Hnew Hfree Hino ino mode' new s1 n Hroom.
  destruct (mkdir_worlds e w parent p mode Hw Hp) as (Hne & Hfresh & _ & _ & Hi2 & Hp2).
  destruct (do_create_directory_run e w parent p l name mode Hw Hp Hr Hn Hb Hdir Hnew Hfree Hroom)
    as (p' & Hrun & Hnr & Hr' & Hl').
  fold ino mode' in Hi2, Hp2, Hrun, Hnr, Hr'. fold new in Hi2, Hp2, Hrun, Hnr. fold n in Hrun.
  set (w2 := put_inode ino (Some new) _) in Hi2, Hp2, Hrun.
  assert (Hi3 : get_inode (put_inode parent (Some (relinked 1 p')) (resized w2 parent n p')) ino
                = Some new).
  { rewrite (get_put_other _ _ p'); [|by eapply get_resized|done].
    by rewrite (get_resized_other _ _ _ p). }
  eexists _, p'. split; [|split; [|split; [exact Hfresh|split; [|split; [exact Hnr|]]]]].
  - unfold FuseMkdir. rewrite (with_live_run _ _ _ _ _ Hp).
    rewrite (with_dir_run _ _ _ (repr_children _ _ Hr)). unfold GetFreeInodes, mbind, M_bind.
    cbv beta iota delta [get mret M_ret]. rewrite (proj2 (Z.leb_gt _ _) Hfree).
    rewrite (ChildInodeNumber_run _ _ _ _ _ _ (proj1 Hp) (repr_children _ _ Hr)).
    unfold child_number. rewrite (proj2 (dir_find_None _ _) Hn).
    change (negb (default INO_NOTFOUND None =? INO_NOTFOUND)) with false.
    cbv beta iota. fold mode'. rewrite Hrun. unfold reply_created. rewrite s64_small, (proj2 (Z.ltb_lt _ _)) by (subst ino; lia).
    by apply ReplyEntry_run.
  - assert (Hrep : replies (resized w2 parent n p') = replies w).
    { rewrite replies_resized. subst w2.
      change (replies (put_inode _ _ ?x)) with (replies x). apply replies_registered. }
    by rewrite <- Hrep.
  - by eapply get_put_eq.
  - split; [done|]. split; [done|]. split; [|split; [done|split; [done|]]].
    + change (get_inode (add_reply _ ?x) parent) with (get_inode x parent).
      rewrite (get_put_other _ _ _ _ _ Hi3) by done.
      eapply get_put_eq, get_resized, Hp2.
    + simpl. subst w2. unfold resized, charged. by destruct (n =? 0).
Qed.
