(* ===== verification/Errors.v ===== *)
(** * Requests on the wrong object

    The errors that all handlers share: an inode that is gone or has no link
    left, and an inode that is not a directory where one is needed. *)

From S2P Require Import Prelude World Util Table InodeOps FileOps DirectoryOps Nodes.
From S2P Require Import Handlers CkptRestore Codec Pickle Requests Invariant Specs.

(** The inodes that a request needs with a link left. A write without a buffer is
    refused before, and [fsync] is satisfied with an inode that has no links. *)
Definition targets (r : request) : list Z :=
  match r with
  | op_lookup p _ | op_mknod p _ _ _ | op_mkdir p _ _ | op_unlink p _ | op_rmdir p _
  | op_symlink _ p _ | op_create p _ _ => [p]
  | op_rename p _ q _ => [p; q]
  | op_link i p _ => [i; p]
  | op_getattr i | op_setattr i _ _ | op_readlink i | op_open i
  | op_read i _ _ | op_write i (Some _) _ | op_release i | op_opendir i
  | op_readdir i _ _ | op_releasedir i | op_fsyncdir i | op_setxattr i _ _ _
  | op_getxattr i _ _ | op_listxattr i _ | op_removexattr i _ | op_access i _ => [i]
  | op_write _ None _ | op_fsync _ | op_forget _ _ | op_flush | op_getlk | op_statfs
  | op_ioctl _ _ => []
  end.

(** The inodes that have to be directories. *)
Definition directories (r : request) : list Z :=
  match r with
  | op_lookup p _ | op_mknod p _ _ _ | op_mkdir p _ _ | op_unlink p _ | op_rmdir p _
  | op_symlink _ p _ | op_create p _ _ | op_link _ p _ => [p]
  | op_rename p _ q _ => [p; q]
  | op_opendir i | op_readdir i _ _ | op_releasedir i | op_fsyncdir i => [i]
  | _ => []
  end.

(** The objects that are refused there: [opendir] and [releasedir] refuse only regular
    files, the others all that are not directories. *)
Definition refused (r : request) (i : inode) : bool :=
  match r with
  | op_opendir _ | op_releasedir _ => bool_decide (is_Some (file_buf i))
  | _ => bool_decide (dir_children i = None)
  end.

Section errors.
Context (direntry_size : string -> Z) (sha256 : list byte -> list byte) (h : host).

(** A second inode that is missing. *)
Lemma with_live_second ino ino' k e w :
  (forall i, ~ linked w ino' i) ->
  with_live ino (fun i => with_live ino' (k i)) e w = Ok tt (add_reply (reply_err ENOENT) w).
Proof.
  intros Hn. destruct (get_inode w ino) as [i|] eqn:Hi.
  - destruct (HasNoLinks i) eqn:Hl.
    + apply with_live_missing. intros j [Hj Hj']. congruence.
    + rewrite (with_live_run ino _ e w i) by done. by apply with_live_missing.
  - apply with_live_missing. intros j [Hj _]. congruence.
Qed.

Lemma with_dir_refused i k : dir_children i = None -> with_dir i k = reply_error ENOTDIR.
Proof. intros Hd. unfold with_dir. by rewrite Hd. Qed.

(** C28. A request on an inode number that is out of range, free, or of an inode without
    links is answered with [ENOENT] and changes nothing; this holds for every inode that the
    request names, the two directories of [rename] and both numbers of [link] included.
    [fsync] is answered with [ENOENT] only for a number that is out of range or free, and
    with 0 otherwise. Not concerned are [write] without a buffer, which is refused before,
    and [forget], [flush], [getlk], [statfs] and [ioctl], which do not need the inode. *)
Theorem missing_inode_ENOENT r ino e w :
  (ino ∈ targets r -> (forall i, ~ linked w ino i) ->
   FuseOps direntry_size sha256 h r e w = Ok tt (add_reply (reply_err ENOENT) w)) /\
  FuseOps direntry_size sha256 h (op_fsync ino) e w
  = Ok tt (add_reply (reply_err (if get_inode w ino then 0 else ENOENT)) w).
Proof.
  split.
  - intros Ht Hn. destruct r as [| | | | | | | | | | | | | |? [d|] ?| | | | | | | | | | | | | | | |];
      simpl in Ht; rewrite ?elem_of_cons, ?elem_of_nil in Ht; destruct_or?; try done; subst;
      first [by apply with_live_missing | by apply with_live_second].
  - simpl. unfold FuseFsync, GetInode, mbind, M_bind. simpl. by destruct (get_inode w ino).
Qed.

(** C29. A request that needs a directory, on an inode of another class, is answered with
    [ENOTDIR] and changes nothing, provided that the inodes it names are there: [lookup],
    the creating and removing requests, both directories of [rename], the directory of
    [link], [readdir] and [fsyncdir]. [opendir] and [releasedir] refuse only regular files. *)
Theorem not_a_directory_ENOTDIR r ino i e w :
  ino ∈ directories r -> linked w ino i -> refused r i = true ->
  (forall t, t ∈ targets r -> exists j, linked w t j) ->
  FuseOps direntry_size sha256 h r e w = Ok tt (add_reply (reply_err ENOTDIR) w).
Proof.
  intros Hin Hi Hd Hall.
  destruct r; simpl in Hin, Hd; rewrite ?elem_of_cons, ?elem_of_nil in Hin; destruct_or?;
    try done; subst; apply bool_decide_eq_true in Hd.
  all: try (refine (eq_trans (with_live_run _ _ _ _ _ Hi) _); by rewrite with_dir_refused).
  - destruct (Hall newparent) as [j Hj]; [set_solver|].
    refine (eq_trans (with_live_run _ _ _ _ _ Hi) _).
    rewrite (with_live_run _ _ _ _ _ Hj). by rewrite with_dir_refused.
  - destruct (Hall parent) as [j Hj]; [set_solver|].
    refine (eq_trans (with_live_run _ _ _ _ _ Hj) _).
    rewrite (with_live_run _ _ _ _ _ Hi), (with_dir_refused i) by done.
    unfold with_dir. by destruct (dir_children j).
  - destruct (Hall ino0) as [j Hj]; [set_solver|].
    refine (eq_trans (with_live_run _ _ _ _ _ Hj) _).
    rewrite (with_live_run _ _ _ _ _ Hi). by rewrite with_dir_refused.
  - refine (eq_trans (with_live_run _ _ _ _ _ Hi) _). by destruct Hd as [b ->].
  - refine (eq_trans (with_live_run _ _ _ _ _ Hi) _). by destruct Hd as [b ->].
Qed.
End errors.
