(* ===== verification/Removal.v ===== *)
(** * Removing directories, forgetting inodes, renaming

    The functional behaviour of [FuseRmdir], [FuseForget] and [FuseRename]. *)

From S2P Require Import Prelude World Util Table InodeOps FileOps DirectoryOps Nodes.
From S2P Require Import Handlers CkptRestore Codec Pickle Requests Invariant Specs.

(** ** Directories *)

Definition unlinked (i : inode) : inode := on_attr (set_st_nlink 0) i.

Lemma NumLinks_small i : 0 <= st_nlink (attr i) < 2 ^ 31 -> NumLinks i = st_nlink (attr i).
Proof. intros H. unfold NumLinks, s32. rewrite Z.mod_small by lia. lia. Qed.

(** The loop of [FuseRmdir] ends with no links left. *)
Lemma drop_links_run fuel p d e w :
  get_inode w p = Some d -> st_nlink (attr d) = Z.of_nat fuel -> Z.of_nat fuel < 2 ^ 31 ->
  drop_links fuel p e w = Ok tt (put_inode p (Some (unlinked d)) w).
Proof.
  revert d w. induction fuel as [|n IH]; intros d w Hd Hn Hlt; simpl.
  - unfold mret, M_ret. f_equal. symmetry. unfold unlinked.
    replace (on_attr (set_st_nlink 0) d) with d; [by apply put_same|].
    destruct d as [[m k [ino g a t1 t2] x] der]. unfold attr in Hn. destruct a.
    simpl in Hn. by subst.
  - unfold mbind, M_bind. rewrite (deref_run _ _ _ _ Hd).
    rewrite NumLinks_small, Hn, (proj2 (Z.ltb_lt _ _)) by lia.
    rewrite (DecrementLinkCount_run _ _ _ _ Hd).
    rewrite (IH (relinked (-1) d)); [|by eapply get_put_eq| |lia].
    + by rewrite put_put_inode.
    + change (u64 (st_nlink (attr d) + -1) = Z.of_nat n). rewrite Hn, u64_small; lia.
Qed.

(** The names of an empty directory: dots and dead entries. *)
Definition dir_empty (w : world) (l : list (string * Z)) : bool :=
  forallb (fun c => is_dot c.1 || child_dead w c.2) l.

Lemma IsEmpty_run p d l e w :
  get_inode w p = Some d -> dir_children d = Some l ->
  IsEmpty p e w = Ok (dir_empty w l) w.
Proof.
  intros Hd Hl. unfold IsEmpty, mbind, M_bind. by rewrite (deref_run _ _ _ _ Hd), Hl.
Qed.

(** C17. [rmdir] of a directory with a live entry besides the dots replies
    [ENOTEMPTY] and changes nothing; an empty one loses all its links, its name
    disappears from the parent, whose link count goes down by one, the reply is
    0, and a [lookup] that follows is answered with [ENOENT]. *)
Theorem rmdir_removes_directory e e' w parent p l name ino d dl :
  linked w parent p -> dir_repr p l -> dir_map l !! name = Some ino ->
  linked w ino d -> dir_repr d dl -> ino <> INO_NOTFOUND -> ino <> parent ->
  0 <= st_nlink (attr d) < 2 ^ 31 -> elem_size name < 2 ^ 63 ->
  2 <= st_nlink (attr p) < 2 ^ 64 ->
  if negb (dir_empty w dl)
  then FuseRmdir parent name e w = Ok tt (add_reply (reply_err ENOTEMPTY) w)
  else exists p' w',
    FuseRmdir parent name e w = Ok tt w' /\
    w' = add_reply (reply_err 0) (put_inode ino (Some (unlinked d))
           (resized w parent (block_delta l (dir_erase name l)) p')) /\
    dir_repr p' (dir_erase name l) /\ st_nlink (attr p') = st_nlink (attr p) - 1 /\
    HasNoLinks (unlinked d) = true /\
    FuseLookup parent name e' w' = Ok tt (add_reply (reply_err ENOENT) w').
Proof.
  intros Hp Hr Hm Hd Hdr H0 Hne Hnl Hb Hnp. pose proof (repr_children _ _ Hr) as Hl.
  pose proof (repr_children _ _ Hdr) as Hdl.
  assert (Hf : dir_find name l = Some ino) by (by rewrite dir_find_map).
  unfold FuseRmdir. rewrite (with_live_run _ _ _ _ _ Hp), (with_dir_run _ _ _ Hl).
  unfold mbind, M_bind. rewrite (ChildInodeNumber_run _ _ _ _ _ _ (proj1 Hp) Hl).
  unfold child_number. rewrite Hf. simpl.
  rewrite (proj2 (Z.eqb_neq _ _) H0), (proj2 (Z.eqb_neq _ _) Hne).
  rewrite (with_live_run _ _ _ _ _ Hd), (with_dir_run _ _ _ Hdl).
  rewrite (IsEmpty_run _ _ _ _ _ (proj1 Hd) Hdl).
  destruct (dir_empty w dl); simpl; [|done].
  pose proof (RemoveChild_spec e w parent p l name (proj1 Hp) Hr Hb) as Hrm.
  cbv zeta in Hrm. rewrite bool_decide_true in Hrm by (apply dir_find_is_Some; eauto).
  destruct Hrm as [Hrun Hr']. rewrite Hrun.
  fold (block_delta l (dir_erase name l)).
  set (p1 := on_attr _ _) in *. set (n := block_delta _ _).
  assert (Hp1 : get_inode (resized w parent n p1) parent = Some p1)
    by (eapply get_resized, Hp).
  rewrite (DecrementLinkCount_run _ _ _ _ Hp1), put_resized.
  set (p' := relinked (-1) p1).
  assert (Hd1 : get_inode (resized w parent n p') ino = Some d)
    by (rewrite (get_resized_other _ _ _ p); [apply Hd|apply Hp|done]).
  rewrite (deref_run _ _ _ _ Hd1).
  rewrite (drop_links_run _ _ d) by (rewrite ?NumLinks_small; done || lia).
  assert (Hnl' : st_nlink (attr p') = st_nlink (attr p) - 1)
    by (change (u64 (st_nlink (attr p) + -1) = st_nlink (attr p) - 1);
        rewrite u64_small; lia).
  exists p'. eexists. split; [done|]. split; [done|]. split; [exact Hr'|].
  split; [done|]. split; [done|].
  rewrite (FuseLookup_run _ _ _ p' (dir_erase name l)); [|split|apply Hr'].
  - rewrite (children_delete name l ltac:(apply Hr)), lookup_delete_eq. done.
  - change (get_inode (add_reply _ ?x) parent) with (get_inode x parent).
    rewrite (get_put_other _ _ _ _ _ Hd1) by done. eapply get_resized, Hp.
  - unfold HasNoLinks. rewrite Hnl'. apply Z.eqb_neq. lia.
Qed.

(** ** Forgetting *)

(** The object with [n] lookups forgotten. *)
Definition forgot (n : Z) (i : inode) : inode :=
  on_base (fun b => set_nlookup (u64 (m_nlookup b - n)) b) i.

(** The world in which the object [i] is gone, its number is queued for reuse and
    its inode and blocks are free. *)
Definition reclaimed (w : world) (ino : Z) (i : inode) : world :=
  set_stbuf (charge_blocks (s64 (- UsedBlocks i)) (charge_inodes (-1) (m_stbuf w)))
    (set_DeletedInodes (DeletedInodes w ++ [ino]) (put_inode ino None w)).

(** C23. [forget] lowers the lookup count of an inode, and reclaims the inode
    exactly when no lookup and no link is left: its slot becomes free, its
    number is queued, one more inode and its blocks are free again, and the
    next creation reuses the number when no other is waiting. *)
Theorem forget_reclaims e w ino n i :
  fs_ok w -> get_inode w ino = Some i ->
  let i' := forgot n i in
  let w1 := add_reply reply_none w in
  if Forgotten i' && HasNoLinks i then
    FuseForget ino n e w = Ok tt (reclaimed w1 ino i) /\
    get_inode (reclaimed w1 ino i) ino = None /\
    f_ffree (m_stbuf (reclaimed w1 ino i)) = f_ffree (m_stbuf w) + 1 /\
    (DeletedInodes w = [] -> next_ino (reclaimed w1 ino i) = ino)
  else FuseForget ino n e w = Ok tt (add_reply reply_none (put_inode ino (Some i') w)).
Proof.
  intros Hw Hi i' w1. pose proof (get_inode_range _ _ _ Hi) as Hrange.
  unfold FuseForget, GetInode, mbind, M_bind. simpl. rewrite Hi.
  assert (Hfor : Forget ino n e w = Ok tt (add_reply reply_none (put_inode ino (Some i') w))).
  { unfold Forget, mbind, M_bind. by rewrite (update_run _ _ _ _ i). }
  rewrite Hfor. set (w2 := add_reply reply_none (put_inode ino (Some i') w)).
  assert (Hi2 : get_inode w2 ino = Some i') by (by eapply get_put_eq).
  rewrite (deref_run _ _ _ _ Hi2). change (HasNoLinks i') with (HasNoLinks i).
  destruct (Forgotten i'); simpl; [|done]. destruct (HasNoLinks i); simpl; [|done].
  split; [|split; [|split]].
  - unfold DeleteInode, mbind, M_bind.
    rewrite store_slot_run by (simpl; rewrite length_insert; done). simpl.
    unfold UpdateUsedBlocks, modify. do 2 f_equal. unfold w2, reclaimed, w1.
    unfold set_stbuf, set_DeletedInodes, put_inode, set_Inodes, add_reply. simpl.
    by rewrite list_insert_insert_eq.
  - change (get_inode (put_inode ino None w) ino = None).
    rewrite get_put_inode by done. by rewrite decide_True.
  - simpl. pose proof (ok_ffree _ Hw). pose proof (ok_limit _ Hw).
    pose proof (get_inode_slot _ _ _ Hi) as [_ Hs].
    pose proof (live_insert _ _ _ None Hs) as Hl. simpl in Hl.
    pose proof (live_bound (<[Z.to_nat ino := None]> (Inodes w))).
    pose proof (live_bound (Inodes w)). rewrite u64_small; lia.
  - intros Hq. unfold next_ino. simpl. by rewrite Hq.
Qed.

(** ** Renaming *)

Lemma put_resized_other w p q n i o :
  0 <= p -> 0 <= q -> p <> q ->
  put_inode q o (resized w p n i) = resized (put_inode q o w) p n i.
Proof.
  intros Hp Hq Hne. assert (Z.to_nat q <> Z.to_nat p) by lia.
  unfold resized, charged, put_inode, set_Inodes, set_stbuf.
  destruct (n =? 0); simpl; by rewrite list_insert_insert_ne.
Qed.

(** A directory that is moved takes a link from one directory to the other. *)
Definition moved_link (src : inode) (n : Z) (d : inode) : inode :=
  if S_ISDIR (GetMode src) then relinked n d else d.

(** An inode whose name is taken over loses a link, a directory three. *)
Definition replaced (x : inode) : inode :=
  let x' := relinked (-1) x in
  if S_ISDIR (GetMode x) then relinked (-1) (relinked (-1) x') else x'.
(** The parent that the source leaves, when a directory is replaced. *)
Definition left_by (x d : inode) : inode := if S_ISDIR (GetMode x) then relinked (-1) d else d.

Section rename.
Context (e : env) (w : world) (parent newparent src : Z) (p q i : inode)
  (l k : list (string * Z)) (name newname : string).
Hypothesis Hp : linked w parent p.
Hypothesis Hpr : dir_repr p l.
Hypothesis Hq : linked w newparent q.
Hypothesis Hqr : dir_repr q k.
Hypothesis Hname : dir_map l !! name = Some src.
Hypothesis Hi : linked w src i.
Hypothesis Hb : elem_size name < 2 ^ 63.

(** The common beginning: the two directories and the source are found. *)
Lemma FuseRename_begin :
  FuseRename parent name newparent newname e w =
    let existingIno := child_number k newname in
    match get_inode w existingIno with
    | Some x =>
        if 0 <? NumLinks x then
          if S_ISDIR (GetMode i) && negb (S_ISDIR (GetMode x))
          then Ok tt (add_reply (reply_err ENOTDIR) w)
          else if S_ISDIR (GetMode x) then
            match dir_children x with
            | None => Crash crash_assert
            | Some dl =>
                if dir_empty w dl then
                  if S_ISDIR (GetMode i)
                  then rename_replace parent name newparent newname src existingIno e w
                  else Ok tt (add_reply (reply_err EISDIR) w)
                else Ok tt (add_reply (reply_err ENOTEMPTY) w)
            end
          else rename_replace parent name newparent newname src existingIno e w
        else rename_move parent name newparent newname src e w
    | None => rename_move parent name newparent newname src e w
    end.
Proof.
  pose proof (repr_children _ _ Hpr) as Hl. pose proof (repr_children _ _ Hqr) as Hk.
  unfold FuseRename. rewrite (with_live_run _ _ _ _ _ Hp), (with_live_run _ _ _ _ _ Hq).
  rewrite (with_dir_run _ _ _ Hl), (with_dir_run _ _ _ Hk). unfold mbind, M_bind.
  rewrite (ChildInodeNumber_run _ _ _ _ _ _ (proj1 Hp) Hl).
  assert (child_number l name = src) as -> by (unfold child_number; by rewrite dir_find_map, Hname).
  rewrite (with_live_run _ _ _ _ _ Hi).
  rewrite (ChildInodeNumber_run _ _ _ _ _ _ (proj1 Hq) Hk).
  cbv zeta. generalize (child_number k newname) as existingIno. intros existingIno.
  change (GetInode existingIno e w) with (Ok (get_inode w existingIno) w).
  destruct (get_inode w existingIno) as [x|] eqn:Hx; [|done].
  destruct (0 <? NumLinks x); [|done].
  destruct (S_ISDIR (GetMode i)), (S_ISDIR (GetMode x)); simpl; try done.
  all: destruct (dir_children x) as [dl|] eqn:Hdl; [|done].
  all: rewrite (IsEmpty_run _ _ _ _ _ Hx Hdl); by destruct (dir_empty w dl).
Qed.

(** A name that is free is moved to. *)
Lemma FuseRename_free :
  newname ∉ k.*1 -> (forall z, get_inode w INO_NOTFOUND = Some z -> NumLinks z <= 0) ->
  FuseRename parent name newparent newname e w
  = rename_move parent name newparent newname src e w.
Proof.
  intros Hn Hz. rewrite FuseRename_begin. unfold child_number.
  rewrite (proj2 (dir_find_None _ _) Hn). simpl.
  destruct (get_inode w INO_NOTFOUND) as [z|] eqn:E; [|done].
  by rewrite (proj2 (Z.ltb_ge _ _) (Hz _ eq_refl)).
Qed.

(** Removing the old name from the old parent in a world [w1] that has the same
    directory there. *)
Lemma rename_remove w1 :
  get_inode w1 parent = Some p ->
  exists p', RemoveChild parent name e w1
    = Ok 0 (resized w1 parent (block_delta l (dir_erase name l)) p') /\
    dir_repr p' (dir_erase name l).
Proof.
  intros H1. pose proof (RemoveChild_spec e w1 parent p l name H1 Hpr Hb) as Hrm.
  cbv zeta in Hrm. rewrite bool_decide_true in Hrm.
  - destruct Hrm as [Hrun Hr]. eauto.
  - apply dir_find_is_Some. rewrite dir_find_map. eauto.
Qed.

Lemma is_dir_now_run w1 x j :
  get_inode w1 x = Some j -> is_dir_now x e w1 = Ok (S_ISDIR (GetMode j)) w1.
Proof. intros H. unfold is_dir_now, mbind, M_bind. by rewrite (deref_run _ _ _ _ H). Qed.

(** The end of a move: the link of a directory. *)
Lemma rename_links w1 p1 q1 :
  parent <> newparent -> src <> parent -> src <> newparent ->
  get_inode w1 parent = Some p1 -> get_inode w1 newparent = Some q1 -> get_inode w1 src = Some i ->
  (isdir ← is_dir_now src;
   (if (isdir : bool) then DecrementLinkCount parent;; IncrementLinkCount newparent else mret tt);;
   reply_error 0) e w1
  = Ok tt (add_reply (reply_err 0) (put_inode newparent (Some (moved_link i 1 q1))
      (put_inode parent (Some (moved_link i (-1) p1)) w1))).
Proof.
  intros Hne Hsp Hsq H1 H2 H3. unfold mbind, M_bind, moved_link. rewrite (is_dir_now_run _ _ i) by done.
  destruct (S_ISDIR (GetMode i)).
  - rewrite (DecrementLinkCount_run _ _ _ _ H1).
    rewrite (IncrementLinkCount_run newparent q1); [done|].
    by rewrite (get_put_other _ _ p1).
  - by rewrite (put_same w1 parent p1), (put_same w1 newparent q1).
Qed.

Lemma rename_move_run :
  parent <> newparent -> src <> parent -> src <> newparent ->
  newname ∉ k.*1 -> dir_bytes k + elem_size newname < 2 ^ 63 ->
  if has_space_for (m_stbuf w) (Some q) (elem_size newname)
  then exists p' q',
    rename_move parent name newparent newname src e w
    = Ok tt (add_reply (reply_err 0) (resized
        (resized w newparent (block_delta k (k ++ [(newname, src)])) (moved_link i 1 q'))
        parent (block_delta l (dir_erase name l)) (moved_link i (-1) p'))) /\
    dir_repr p' (dir_erase name l) /\ dir_repr q' (k ++ [(newname, src)])
  else exists p',
    rename_move parent name newparent newname src e w
    = Ok tt (add_reply (reply_err 0) (put_inode newparent (Some (moved_link i 1 q))
        (resized w parent (block_delta l (dir_erase name l)) (moved_link i (-1) p')))) /\
    dir_repr p' (dir_erase name l).
Proof.
  intros Hne Hsp Hsq Hn Hbk.
  pose proof (AddChild_spec e w newparent q k newname src (proj1 Hq) Hqr Hbk) as Hadd.
  cbv zeta in Hadd. rewrite bool_decide_false in Hadd by done.
  pose proof (get_inode_range _ _ _ (proj1 Hp)). pose proof (get_inode_range _ _ _ (proj1 Hq)).
  pose proof rename_links as Hlinks. unfold mbind, M_bind in Hlinks.
  unfold rename_move, mbind, M_bind.
  destruct (has_space_for _ _ _); simpl in Hadd.
  - destruct Hadd as [Hrun Hr']. rewrite Hrun.
    fold (block_delta k (k ++ [(newname, src)])). set (q' := on_attr _ _) in *.
    set (w1 := resized w newparent _ q').
    assert (Hp1 : get_inode w1 parent = Some p).
    { subst w1. rewrite (get_resized_other _ _ _ q); [apply Hp|apply Hq|done]. }
    assert (Hq1 : get_inode w1 newparent = Some q') by (subst w1; by eapply get_resized, Hq).
    assert (Hi1 : get_inode w1 src = Some i).
    { subst w1. rewrite (get_resized_other _ _ _ q); [apply Hi|apply Hq|done]. }
    destruct (rename_remove w1 Hp1) as (p' & Hrm & Hr). rewrite Hrm.
    rewrite (Hlinks _ p' q'); [|done|done|done|..].
    + exists p', q'. split; [|done]. rewrite put_resized, put_resized_other by lia.
      subst w1. by rewrite put_resized.
    + by eapply get_resized.
    + by rewrite (get_resized_other _ _ _ p).
    + by rewrite (get_resized_other _ _ _ p).
  - rewrite Hadd. destruct (rename_remove w (proj1 Hp)) as (p' & Hrm & Hr). rewrite Hrm.
    rewrite (Hlinks _ p' q); [|done|done|done|..].
    + exists p'. by rewrite put_resized.
    + by eapply get_resized, Hp.
    + rewrite (get_resized_other _ _ _ p); [apply Hq|apply Hp|done].
    + rewrite (get_resized_other _ _ _ p); [apply Hi|apply Hp|done].
Qed.

Lemma rename_replace_run x j :
  dir_map k !! newname = Some x -> get_inode w x = Some j ->
  parent <> newparent -> x <> parent -> x <> newparent -> x <> src ->
  exists p' q',
    rename_replace parent name newparent newname src x e w
    = Ok tt (add_reply (reply_err 0) (resized
        (put_inode newparent (Some q') (put_inode x (Some (replaced j)) w))
        parent (block_delta l (dir_erase name l)) (left_by j p'))) /\
    dir_repr p' (dir_erase name l) /\ dir_repr q' (dir_assign newname src k).
Proof.
  intros Hx Hj Hne Hxp Hxq Hxs. unfold rename_replace, replaced, left_by, mbind, M_bind.
  rewrite (DecrementLinkCount_run _ _ _ _ Hj). set (j1 := relinked (-1) j). set (w1 := put_inode x _ w).
  assert (Hq1 : get_inode w1 newparent = Some q)
    by (subst w1; rewrite (get_put_other _ _ j); [apply Hq|done|done]).
  pose proof (UpdateChild_spec e w1 newparent q k newname src Hq1 Hqr) as Hup.
  cbv zeta in Hup. rewrite bool_decide_true in Hup
    by (apply dir_find_is_Some; rewrite dir_find_map; eauto).
  destruct Hup as [Hup Hqr']. rewrite Hup. set (q' := on_attr _ _) in *.
  set (w2 := put_inode newparent (Some q') w1).
  assert (Hp2 : get_inode w2 parent = Some p).
  { subst w2 w1. rewrite (get_put_other _ _ q); [|done|done].
    rewrite (get_put_other _ _ j); [apply Hp|done|done]. }
  assert (Hx2 : get_inode w2 x = Some j1).
  { subst w2. rewrite (get_put_other _ _ q); [|done|done]. by eapply get_put_eq. }
  destruct (rename_remove w2 Hp2) as (p' & Hrm & Hr). rewrite Hrm.
  assert (Hx3 : forall n z, get_inode (resized w2 parent n z) x = Some j1).
  { intros n z. by rewrite (get_resized_other _ _ _ p). }
  rewrite (is_dir_now_run _ _ _ (Hx3 _ _)). change (GetMode j1) with (GetMode j).
  exists p', q'. split; [|done]. destruct (S_ISDIR (GetMode j)); [|done].
  pose proof (get_inode_range _ _ _ (proj1 Hp)). pose proof (get_inode_range _ _ _ Hj).
  pose proof (get_inode_range _ _ _ (proj1 Hq)).
  rewrite (DecrementLinkCount_run _ _ _ _ (Hx3 _ _)), put_resized_other by lia.
  rewrite (DecrementLinkCount_run x (relinked (-1) j1)).
  2: { rewrite (get_resized_other _ _ _ p); [by eapply get_put_eq| |done].
       by rewrite (get_put_other _ _ j1). }
  rewrite put_resized_other, put_put_inode by lia.
  rewrite (DecrementLinkCount_run parent p').
  2: { eapply get_resized. by rewrite (get_put_other _ _ j1). }
  rewrite put_resized. unfold reply_error, send, modify. do 3 f_equal. subst w2 w1.
  unfold put_inode, set_Inodes. simpl. f_equal. 
  rewrite (list_insert_insert_ne _ (Z.to_nat x) (Z.to_nat newparent)) by lia.
  by rewrite list_insert_insert_eq.
Qed.
End rename.

(** A request to rename [src] from [name] in [parent] to another directory. *)
Record rename_to (w : world) (parent newparent src : Z) (p q i : inode)
    (l k : list (string * Z)) (name : string) : Prop := {
  rf_parent : linked w parent p;
  rf_children : dir_repr p l;
  rf_newparent : linked w newparent q;
  rf_newchildren : dir_repr q k;
  rf_distinct : parent <> newparent;
  rf_name : dir_map l !! name = Some src;
  rf_source : linked w src i;
  rf_src_parent : src <> parent;
  rf_src_newparent : src <> newparent;
  rf_bound : elem_size name < 2 ^ 63 }.

(** C18. [rename] to a name that is free in another directory: with room
    in the new directory the old name is gone and the new one maps to the inode,
    in either directory with its size and blocks accounted for, and the link of a
    directory goes with it; without room the reply is 0 all the same, the inode has lost
    its name, and the new parent of a directory has a link too many. *)
Theorem rename_to_new_name e w parent newparent src p q i l k name newname :
  rename_to w parent newparent src p q i l k name ->
  newname ∉ k.*1 -> dir_bytes k + elem_size newname < 2 ^ 63 ->
  (forall z, get_inode w INO_NOTFOUND = Some z -> NumLinks z <= 0) ->
  let old := block_delta l (dir_erase name l) in
  if has_space_for (m_stbuf w) (Some q) (elem_size newname)
  then exists p' q',
    FuseRename parent name newparent newname e w
    = Ok tt (add_reply (reply_err 0) (resized
        (resized w newparent (block_delta k (k ++ [(newname, src)])) (moved_link i 1 q'))
        parent old (moved_link i (-1) p'))) /\
    dir_repr p' (dir_erase name l) /\ dir_repr q' (k ++ [(newname, src)]) /\
    dir_map (dir_erase name l) = delete name (dir_map l) /\
    dir_map (k ++ [(newname, src)]) = <[newname := src]> (dir_map k)
  else exists p',
    FuseRename parent name newparent newname e w
    = Ok tt (add_reply (reply_err 0) (put_inode newparent (Some (moved_link i 1 q))
        (resized w parent old (moved_link i (-1) p')))) /\
    dir_repr p' (dir_erase name l).
Proof.
  intros [Hp Hpr Hq Hqr Hne Hname Hi Hsp Hsq Hb] Hn Hbk Hz old.
  rewrite (FuseRename_free e w parent newparent src p q i l k) by done.
  pose proof (rename_move_run e w parent newparent src p q i l k name newname
    Hp Hpr Hq Hqr Hname Hi Hb Hne Hsp Hsq Hn Hbk) as H.
  destruct (has_space_for _ _ _); [|done]. destruct H as (p' & q' & H & H1 & H2).
  exists p', q'. split; [done|]. split; [done|]. split; [done|]. split.
  - apply children_delete, Hpr.
  - by apply list_to_map_snoc.
Qed.

(** C19. [rename] over a name that is taken in another directory, a file over a file or a
    directory over an empty one: the new name maps to the inode, the old name is gone, and
    the inode that had the new name loses one link, a directory three (which
    wraps around when it has its two); a parent that a directory leaves loses one. *)
Theorem rename_replaces e w parent newparent src p q i l k name newname x j :
  rename_to w parent newparent src p q i l k name ->
  dir_map k !! newname = Some x -> get_inode w x = Some j -> 0 < NumLinks j ->
  S_ISDIR (GetMode j) = S_ISDIR (GetMode i) ->
  (S_ISDIR (GetMode j) = true -> exists dl, dir_children j = Some dl /\ dir_empty w dl = true) ->
  x <> parent -> x <> newparent -> x <> src ->
  exists p' q',
    FuseRename parent name newparent newname e w
    = Ok tt (add_reply (reply_err 0) (resized
        (put_inode newparent (Some q') (put_inode x (Some (replaced j)) w))
        parent (block_delta l (dir_erase name l)) (left_by j p'))) /\
    dir_repr p' (dir_erase name l) /\ dir_repr q' (dir_assign newname src k) /\
    dir_map (dir_erase name l) = delete name (dir_map l) /\
    dir_map (dir_assign newname src k) = <[newname := src]> (dir_map k).
Proof.
  intros [Hp Hpr Hq Hqr Hne Hname Hi Hsp Hsq Hb] Hx Hj Hl Hsame Hempty Hxp Hxq Hxs.
  assert (Hrun : FuseRename parent name newparent newname e w
                 = rename_replace parent name newparent newname src x e w).
  { erewrite FuseRename_begin by done. unfold child_number.
    rewrite dir_find_map, Hx. simpl. rewrite Hj, <- Hsame, (proj2 (Z.ltb_lt _ _) Hl).
    destruct (S_ISDIR (GetMode j)); simpl; [|done].
    by destruct (Hempty eq_refl) as (dl & -> & ->). }
  rewrite Hrun.
  destruct (rename_replace_run e w parent newparent src p q l k name newname
    Hp Hpr Hq Hqr Hname Hb x j Hx Hj Hne Hxp Hxq Hxs) as (p' & q' & H & H1 & H2).
  exists p', q'. split; [done|]. split; [done|]. split; [done|]. split.
  - apply children_delete, Hpr.
  - apply children_assign; [apply Hqr|]. apply dir_find_is_Some. rewrite dir_find_map. eauto.
Qed.

(** The same within one directory. *)
Lemma rename_move_within e w parent src p i l name newname :
  linked w parent p -> dir_repr p l -> dir_map l !! name = Some src -> linked w src i ->
  src <> parent -> elem_size name < 2 ^ 63 ->
  newname ∉ l.*1 -> dir_bytes l + elem_size newname < 2 ^ 63 ->
  has_space_for (m_stbuf w) (Some p) (elem_size newname) = true ->
  let l1 := l ++ [(newname, src)] in
  exists p1 p',
    rename_move parent name parent newname src e w
    = Ok tt (add_reply (reply_err 0)
        (resized (resized w parent (block_delta l l1) p1) parent (block_delta l1 (dir_erase name l1))
           (moved_link i 1 (moved_link i (-1) p')))) /\
    dir_repr p1 l1 /\ dir_repr p' (dir_erase name l1) /\
    dir_map l1 = <[newname := src]> (dir_map l).
Proof.
  intros Hp Hpr Hname Hi Hsp Hb Hn Hbl Hroom l1.
  assert (Hne : name <> newname).
  { intros ->. apply Hn. apply dir_find_is_Some. rewrite dir_find_map. eauto. }
  pose proof (AddChild_spec e w parent p l newname src (proj1 Hp) Hpr Hbl) as Hadd.
  cbv zeta in Hadd. rewrite bool_decide_false in Hadd by done. rewrite Hroom in Hadd.
  destruct Hadd as [Hrun Hr1]. fold l1 in Hrun, Hr1. fold (block_delta l l1) in Hrun.
  set (p1 := on_attr _ _) in *. set (w1 := resized w parent _ p1) in Hrun.
  assert (Hp1 : get_inode w1 parent = Some p1) by (subst w1; by eapply get_resized, Hp).
  assert (Hmap : dir_map l1 = <[newname := src]> (dir_map l)) by by apply list_to_map_snoc.
  destruct (rename_remove e parent src p1 l1 name Hr1) with (w1 := w1) as (p' & Hrm & Hr); [|done|done|].
  { rewrite Hmap. by rewrite lookup_insert_ne. }
  exists p1, p'. split; [|done]. unfold rename_move, mbind, M_bind, moved_link. rewrite Hrun, Hrm.
  rewrite (is_dir_now_run e _ _ i).
  2: { rewrite (get_resized_other _ _ _ p1); [|done|done]. subst w1.
       rewrite (get_resized_other _ _ _ p); [apply Hi|apply Hp|done]. }
  destruct (S_ISDIR (GetMode i)); [|done].
  rewrite (DecrementLinkCount_run _ p'), put_resized by by eapply get_resized.
  by rewrite (IncrementLinkCount_run _ (relinked (-1) p')), put_resized by by eapply get_resized.
Qed.

(** [rename] to a free name of the same directory, with room: the one name is replaced by
    the other, and a directory that is renamed leaves the links of its parent alone. *)
Lemma rename_within_directory e w parent src p i l name newname :
  linked w parent p -> dir_repr p l -> dir_map l !! name = Some src -> linked w src i ->
  src <> parent -> elem_size name < 2 ^ 63 ->
  newname ∉ l.*1 -> dir_bytes l + elem_size newname < 2 ^ 63 ->
  (forall z, get_inode w INO_NOTFOUND = Some z -> NumLinks z <= 0) ->
  has_space_for (m_stbuf w) (Some p) (elem_size newname) = true ->
  let l1 := l ++ [(newname, src)] in
  exists p1 p',
    FuseRename parent name parent newname e w
    = Ok tt (add_reply (reply_err 0)
        (resized (resized w parent (block_delta l l1) p1) parent (block_delta l1 (dir_erase name l1))
           (moved_link i 1 (moved_link i (-1) p')))) /\
    dir_repr p' (dir_erase name l1) /\
    dir_map (dir_erase name l1) = <[newname := src]> (delete name (dir_map l)).
Proof.
  intros Hp Hpr Hname Hi Hsp Hb Hn Hbl Hz Hroom l1.
  rewrite (FuseRename_free e w parent parent src p p i l l) by done.
  destruct (rename_move_within e w parent src p i l name newname) as (p1 & p' & H & Hr1 & Hr & Hm);
    try done.
  exists p1, p'. split; [done|]. split; [done|].
  rewrite children_delete by apply Hr1. fold l1 in Hm. rewrite Hm. apply delete_insert_ne.
  intros ->. apply Hn. apply dir_find_is_Some. rewrite dir_find_map. eauto.
Qed.
