(* ===== verification/Attributes.v ===== *)
(** * Extended attributes, access and listing

    The functional behaviour of the attribute requests and of [readdir]. *)

From S2P Require Import Prelude World Util Table InodeOps FileOps DirectoryOps Nodes.
From S2P Require Import Handlers CkptRestore Codec Pickle Requests Invariant Specs.

(** ** Extended attributes *)

(** The pointer and size [v] stand for the value [b]. *)
Definition holds (h : xheap) (v : Z * Z) (b : list byte) : Prop :=
  v.2 = zlen b /\ ((v.1 = 0 /\ b = []) \/ (v.1 <> 0 /\ blocks h !! v.1 = Some b)).

(** Addresses are not null and allocation gives new ones. *)
Definition heap_ok (h : xheap) : Prop :=
  0 < next_addr h /\ forall a b, blocks h !! a = Some b -> 0 < a < next_addr h.

(** The value of a name before a request: empty when there is none. *)
Definition old_value (h : xheap) (i : inode) (name : string) (b : list byte) : Prop :=
  match smap_find name (m_xattr (base i)) with
  | None => b = []
  | Some v => holds h v b
  end.

Lemma xrealloc_run e w ptr old n :
  heap_ok (heap w) -> holds (heap w) (ptr, zlen old) old -> can_alloc e n = true ->
  exists a h, xrealloc ptr n e w = Ok (Some a) (set_heap h w) /\ a <> 0 /\
    blocks h !! a = Some (mem_resize (junk e) old n) /\ heap_ok h.
Proof.
  intros [Hn Hh] [_ Hold] Ha. unfold xrealloc, mbind, M_bind. simpl in *. rewrite Ha.
  assert (Hget : (if ptr =? 0 then mret [] else get_or crash_dangling (xblock (heap w) ptr))
                 = (mret old : M _)).
  { destruct Hold as [[-> ->]|[Hz Hb]]; [done|]. rewrite (proj2 (Z.eqb_neq _ _) Hz).
    unfold xblock. by rewrite Hb. }
  rewrite Hget. simpl. destruct ((ptr =? 0) || moves e) eqn:E; simpl.
  - eexists _, _. split; [done|]. split; [lia|]. split; [apply lookup_insert_eq|].
    split; [simpl; lia|]. intros a b. simpl.
    destruct (decide (a = next_addr (heap w))) as [->|Hne]; [lia|].
    rewrite lookup_insert_ne by done. intros Hd. apply lookup_delete_Some in Hd as [_ Hd].
    apply Hh in Hd. lia.
  - zbool. destruct Hold as [[Hz _]|[Hz Hb]]; [done|].
    eexists _, _. split; [done|]. split; [done|]. split; [apply lookup_insert_eq|].
    split; [done|]. intros a b. simpl. destruct (decide (a = ptr)) as [->|Hne].
    + intros _. by eapply Hh.
    + rewrite lookup_insert_ne by done. apply Hh.
Qed.

Lemma xwrite_run e w ptr value b :
  value <> [] -> ptr <> 0 -> blocks (heap w) !! ptr = Some b -> (length value <= length b)%nat ->
  xwrite ptr 0 value e w
  = Ok tt (set_heap (mkHeap (<[ptr := value ++ drop (length value) b]> (blocks (heap w)))
             (next_addr (heap w))) w).
Proof.
  intros Hv Hz Hb Hl. unfold xwrite, mbind, M_bind.
  rewrite (proj2 (Z.eqb_neq (zlen value) 0)) by (destruct value; simpl; [done|lia]).
  rewrite (proj2 (Z.eqb_neq _ _) Hz). simpl. unfold xblock. rewrite Hb. simpl.
  rewrite mem_write_Some by lia. done.
Qed.

(** After [setxattr] the name holds the new value over the old one. *)
Lemma SetXAttr_run e w ino i name value old :
  get_inode w ino = Some i -> heap_ok (heap w) -> old_value (heap w) i name old ->
  zlen value < 2 ^ 64 ->
  (zlen old < zlen value -> can_alloc e (zlen value) = true) ->
  exists i' h v,
    SetXAttrAndReply ino name value 0 0 e w
    = Ok tt (add_reply (reply_err 0) (set_heap h (put_inode ino (Some i') w))) /\
    smap_find name (m_xattr (base i')) = Some v /\
    holds h v (value ++ drop (length value) old) /\
    HasNoLinks i' = HasNoLinks i.
Proof.
  intros Hi Hh Hold Hlt Hall. unfold SetXAttrAndReply, mbind, M_bind.
  rewrite (deref_run _ _ _ _ Hi). rewrite !andb_false_r.
  set (found := smap_find name (m_xattr (base i))) in *.
  destruct (default (0, 0) found) as [ptr extent] eqn:Ed.
  assert (Hv : holds (heap w) (ptr, extent) old).
  { unfold old_value in Hold. fold found in Hold. destruct found as [v|]; simpl in Ed.
    - by subst v.
    - injection Ed as <- <-. subst old. split; [done|by left]. }
  rewrite Z.add_0_r, u64_small by lia. rewrite (update_run _ _ _ _ i) by done.
  set (i1 := set_xattr name (ptr, extent) i). pose proof (get_put_eq _ _ _ i1 Hi) as Hi1.
  assert (extent = zlen old) as -> by apply Hv.
  destruct (Z.ltb_spec (zlen old) (zlen value)) as [Hg|Hg].
  - destruct (xrealloc_run e (put_inode ino (Some i1) w) ptr old (zlen value) Hh Hv (Hall Hg))
      as (a & h & -> & Ha & Hb & _).
    rewrite (update_run _ _ _ _ i1) by done.
    assert (Hnil : value <> []) by (intros ->; simpl in Hg; lia).
    assert (Hmr : length (mem_resize (junk e) old (zlen value)) = length value).
    { pose proof (mem_resize_length (junk e) old (zlen value)). lia. }
    rewrite (xwrite_run _ _ _ _ (mem_resize (junk e) old (zlen value))); try done; [|lia].
    rewrite !drop_ge by lia. rewrite app_nil_r.
    exists (set_xattr name (a, zlen value) i1). eexists _, _.
    split; [|split; [|split]].
    + simpl. unfold put_inode, set_heap, set_Inodes. simpl.
      rewrite list_insert_insert_eq. done.
    + simpl. rewrite smap_find_insert, String.eqb_refl. done.
    + split; [done|]. right. split; [done|]. simpl. apply lookup_insert_eq.
    + done.
  - destruct (decide (value = [])) as [->|Hnil].
    + exists i1, (heap w), (ptr, zlen old). split; [|split; [|split]]; simpl.
      * unfold xwrite. simpl. by destruct w.
      * by rewrite smap_find_insert, String.eqb_refl.
      * by rewrite drop_0.
      * done.
    + destruct Hv as [_ [[_ ->]|[Hz Hb]]].
      { destruct value; simpl in Hg; [done|lia]. }
      rewrite (xwrite_run _ _ _ _ old); try done; [|lia].
      exists i1. eexists _, (ptr, zlen old). split; [|split; [|split]]; simpl.
      * done.
      * by rewrite smap_find_insert, String.eqb_refl.
      * split; [simpl; len|]. right. split; [done|]. apply lookup_insert_eq.
      * done.
Qed.

Lemma GetXAttr_run e w ino i name size v b :
  get_inode w ino = Some i -> smap_find name (m_xattr (base i)) = Some v ->
  holds (heap w) v b -> 0 < size < 2 ^ 64 ->
  GetXAttrAndReply ino name size 0 e w
  = Ok tt (add_reply (if size <? zlen b then reply_err ERANGE else reply_buf b) w).
Proof.
  intros Hi Hv [Hl Hb] Hs. unfold GetXAttrAndReply, mbind, M_bind.
  rewrite (deref_run _ _ _ _ Hi), Hv. destruct v as [ptr extent]. simpl in *. subst extent.
  rewrite (proj2 (Z.eqb_neq _ _)) by lia. rewrite Z.add_0_r, u64_small by lia.
  destruct (size <? zlen b); [done|]. unfold xread.
  destruct Hb as [[-> ->]|[Hz Hb]]; [done|].
  destruct (Z.eqb_spec (zlen b) 0) as [E|E].
  - destruct b; [done|simpl in E; lia].
  - rewrite (proj2 (Z.eqb_neq _ _) Hz). unfold mbind, M_bind, xblock. simpl.
    rewrite Hb. simpl. by rewrite mem_read_all.
Qed.

(** C32. An extended attribute reads back: after a [setxattr] without flags that the
    allocator serves, [getxattr] with a large enough buffer replies the new
    value, followed by what a longer old value had behind it, and with a smaller
    one [ERANGE]. *)
Theorem setxattr_then_getxattr e e' w ino i name value old size :
  linked w ino i -> heap_ok (heap w) -> old_value (heap w) i name old ->
  zlen value < 2 ^ 64 -> (zlen old < zlen value -> can_alloc e (zlen value) = true) ->
  0 < size < 2 ^ 64 ->
  let new := value ++ drop (length value) old in
  exists w1, FuseSetXAttr ino name value 0 e w = Ok tt w1 /\
    replies w1 = replies w ++ [reply_err 0] /\
    FuseGetXAttr ino name size e' w1
    = Ok tt (add_reply (if size <? zlen new then reply_err ERANGE else reply_buf new) w1).
Proof.
  intros Hi Hh Hold Hlt Hall Hs new.
  destruct (SetXAttr_run e w ino i name value old (proj1 Hi) Hh Hold Hlt Hall)
    as (i' & h & v & Hrun & Hf & Hv & Hl).
  eexists. split; [|split].
  - unfold FuseSetXAttr. rewrite (with_live_run _ _ _ _ _ Hi). exact Hrun.
  - done.
  - unfold FuseGetXAttr.
    assert (Hi' : get_inode (put_inode ino (Some i') w) ino = Some i')
      by (eapply get_put_eq, Hi).
    rewrite (with_live_run _ _ _ _ i').
    + by apply (GetXAttr_run _ _ _ i' _ _ v).
    + split; [exact Hi'|]. rewrite Hl. apply Hi.
Qed.

Lemma list_byte_length s : length (String.list_byte_of_string s) = String.length s.
Proof. induction s as [|c s IH]; simpl; [done|by f_equal]. Qed.

Lemma xattr_names_length m :
  zlen (xattr_names m) = foldr (fun kv n => Z.of_nat (String.length kv.1) + 1 + n) 0 m.
Proof.
  induction m as [|[k v] m IH]; [done|]. simpl foldr. rewrite <- IH.
  change (xattr_names ((k, v) :: m))
    with ((String.list_byte_of_string k ++ [x00]) ++ xattr_names m).
  rewrite !length_app, list_byte_length. simpl. lia.
Qed.

(** [listxattr] with size 0 reports exactly the number of bytes that the list
    takes, and with a buffer of that size it replies the list: the names in
    order, each with its null byte; the buffer it allocates is filled exactly. *)
Theorem listxattr_reports_size e e' w ino i :
  linked w ino i ->
  let names := xattr_names (m_xattr (base i)) in
  0 < zlen names < 2 ^ 64 -> can_alloc e' (zlen names) = true ->
  FuseListXAttr ino 0 e w = Ok tt (add_reply (reply_xattr (zlen names)) w) /\
  FuseListXAttr ino (zlen names) e' w = Ok tt (add_reply (reply_buf names) w) /\
  (forall size, 0 < size < zlen names ->
     FuseListXAttr ino size e' w = Ok tt (add_reply (reply_err ERANGE) w)).
Proof.
  intros Hi names Hn Ha.
  assert (Hsz : xattr_names_size (m_xattr (base i)) = zlen names)
    by (unfold xattr_names_size, names in *; rewrite <- xattr_names_length, u64_small; lia).
  unfold FuseListXAttr. split; [|split].
  - rewrite (with_live_run _ _ _ _ _ Hi). unfold ListXAttrAndReply, mbind, M_bind. simpl.
    rewrite (deref_run _ _ _ _ (proj1 Hi)), Hsz. done.
  - rewrite (with_live_run _ _ _ _ _ Hi). unfold ListXAttrAndReply, mbind, M_bind. simpl.
    rewrite (deref_run _ _ _ _ (proj1 Hi)), Hsz, Ha.
    rewrite (proj2 (Z.eqb_neq _ _)), Z.ltb_irrefl by lia. done.
  - intros size Hs.
    rewrite (with_live_run _ _ _ _ _ Hi). unfold ListXAttrAndReply, mbind, M_bind. simpl.
    rewrite (deref_run _ _ _ _ (proj1 Hi)), Hsz.
    by rewrite (proj2 (Z.eqb_neq _ _)), (proj2 (Z.ltb_lt _ _)) by lia.
Qed.

(** ** Access *)

(** The mode grants every permission of [mask] to the class whose bits start at
    [k]: 0 for others, 3 for the group, 6 for the owner. *)
Definition permits (mode mask k : Z) : Prop :=
  forall j, 0 <= j -> Z.testbit mask j = true -> Z.testbit mode (j + k) = true.

Lemma has_bits_spec mode mask k :
  0 <= k -> 0 <= Z.shiftl mask k < 2 ^ 32 ->
  has_bits mode (Z.shiftl mask k) = true <-> permits mode mask k.
Proof.
  intros Hk Hm. unfold has_bits, permits, u32. rewrite Z.eqb_eq, Z.mod_small by done. split.
  - intros H j Hj Hb. apply (f_equal (fun z => Z.testbit z (j + k))) in H.
    rewrite Z.land_spec, Z.shiftl_spec in H by lia.
    replace (j + k - k) with j in H by lia. rewrite Hb in H.
    by destruct (Z.testbit mode (j + k)).
  - intros H. apply Z.bits_inj'. intros n Hn. rewrite Z.land_spec, Z.shiftl_spec by lia.
    destruct (Z.testbit mask (n - k)) eqn:E; [|by rewrite andb_false_r].
    destruct (decide (0 <= n - k)).
    + rewrite <- (Z.sub_add k n), (H (n - k)) by done. done.
    + rewrite Z.testbit_neg_r in E by lia. done.
Qed.

(** [access] grants a request exactly when nothing is asked, or the bits for
    others grant it, or those for the group and the caller's group is the
    file's, or those for the owner and the caller is the owner; it replies 0 or
    [EACCES] accordingly and changes nothing. The mask, of which the kernel sets three
    bits, does not wrap when it is shifted. *)
Theorem access_grants e w ino i mask :
  linked w ino i -> 0 <= mask < 2 ^ 25 ->
  let mode := st_mode (attr i) in
  let granted := mask = F_OK \/ permits mode mask 0 \/
    (permits mode mask 3 /\ ctx_gid e = st_gid (attr i)) \/
    (permits mode mask 6 /\ ctx_uid e = st_uid (attr i)) in
  (FuseAccess ino mask e w = Ok tt (add_reply (reply_err 0) w) <-> granted) /\
  (FuseAccess ino mask e w = Ok tt (add_reply (reply_err EACCES) w) <-> ~ granted).
Proof.
  intros Hi Hm mode granted.
  assert (Hrun : FuseAccess ino mask e w
    = Ok tt (add_reply (reply_err (access_errno (attr i) mask (ctx_gid e) (ctx_uid e))) w)).
  { unfold FuseAccess. rewrite (with_live_run _ _ _ _ _ Hi).
    unfold ReplyAccess, mbind, M_bind. simpl. by rewrite (deref_run _ _ _ _ (proj1 Hi)). }
  assert (Hiff : access_errno (attr i) mask (ctx_gid e) (ctx_uid e) = 0 <-> granted).
  { unfold granted, access_errno.
    assert (Hs : forall z, 0 <= z < 2 ^ 31 -> s32 z = z).
    { intros z Hz. unfold s32. rewrite Z.mod_small; lia. }
    assert (H3 : Z.shiftl mask 3 = mask * 8) by by rewrite Z.shiftl_mul_pow2.
    assert (H6 : Z.shiftl mask 6 = mask * 64) by by rewrite Z.shiftl_mul_pow2.
    rewrite <- !has_bits_spec by (rewrite ?Z.shiftl_0_r; lia). fold mode. rewrite Z.shiftl_0_r.
    rewrite (Hs (Z.shiftl mask 3)), Z.shiftl_shiftl by lia. change (3 + 3) with 6.
    rewrite (Hs (Z.shiftl mask 6)) by lia.
    destruct (Z.eqb_spec mask F_OK); [tauto|].
    destruct (has_bits mode mask); [tauto|].
    destruct (has_bits mode (Z.shiftl mask 3)); simpl;
      destruct (Z.eqb_spec (ctx_gid e) (st_gid (attr i)));
      destruct (has_bits mode (Z.shiftl mask 6));
      destruct (Z.eqb_spec (ctx_uid e) (st_uid (attr i))); simpl; unfold EACCES;
      split; intros; intuition (congruence || lia). }
  assert (Hcases : access_errno (attr i) mask (ctx_gid e) (ctx_uid e) = 0 \/
                   access_errno (attr i) mask (ctx_gid e) (ctx_uid e) = EACCES).
  { unfold access_errno. repeat case_match; tauto. }
  rewrite Hrun, <- Hiff.
  assert (Hinj : forall a b, Ok tt (add_reply (reply_err a) w) = Ok tt (add_reply (reply_err b) w)
                 <-> a = b).
  { intros a b. split; [|by intros ->]. intros H. injection H as H.
    apply app_inv_head in H. by injection H. }
  rewrite !Hinj. unfold EACCES in *. split; [done|]. lia.
Qed.

(** ** Listing *)

Lemma cookie_key_of key n :
  0 <= key < 2 ^ 16 -> 0 <= n < 2 ^ 16 -> cookie_key (Z.shiftl key 16 + n) = key.
Proof.
  intros Hk Hn. unfold cookie_key. rewrite Z.shiftr_land.
  change (Z.shiftr 4294901760 16) with (Z.ones 16). rewrite Z.land_ones by lia.
  rewrite Z.shiftr_div_pow2, Z.shiftl_mul_pow2 by lia.
  rewrite Z.div_add_l by lia. rewrite Z.div_small, Z.add_0_r by lia.
  by apply Z.mod_small.
Qed.

Section listing.
Context (direntry_size : string -> Z) (Hsize : forall name, 0 <= direntry_size name).

(** The entries of a listing: the children that exist and have links, in order. *)
Definition entry_of_child (w : world) (c : string * Z) : option (string * stat) :=
  match get_inode w c.2 with
  | Some i => if HasNoLinks i then None else Some (c.1, set_st_ino c.2 (GetAttr i))
  | None => None
  end.
Definition listing (w : world) (l : list (string * Z)) : list (string * stat) :=
  omap (entry_of_child w) l.

Lemma listing_cons w c l :
  listing w (c :: l) =
    match entry_of_child w c with Some x => x :: listing w l | None => listing w l end.
Proof. done. Qed.

(** The entries as sent, with cookies counted up from [c]. *)
Fixpoint with_cookies (c : Z) (es : list (string * stat)) : list dirent :=
  match es with
  | [] => []
  | (name, st) :: es' => mkDirent name st (c + 1) :: with_cookies (c + 1) es'
  end.

Definition listing_bytes (es : list (string * stat)) : Z :=
  foldr (fun x n => direntry_size x.1 + n) 0 es.

Lemma listing_bytes_nonneg es : 0 <= listing_bytes es.
Proof.
  unfold listing_bytes. induction es as [|x es IH]; simpl; [lia|].
  pose proof (Hsize x.1). lia.
Qed.

Lemma fill_dirents_all w bufSize rest i c bytes entries acc :
  bytes + listing_bytes (listing w rest) <= bufSize ->
  entries + zlen (listing w rest) < kReadDirEntriesPerResponse ->
  fill_dirents direntry_size w true bufSize rest i c bytes entries acc
  = inl (i + zlen rest, c + zlen (listing w rest),
         acc ++ with_cookies c (listing w rest)).
Proof.
  revert i c bytes entries acc.
  induction rest as [|[name ino] rest IH]; intros i c bytes entries acc Hb He.
  { simpl. by rewrite !Z.add_0_r, app_nil_r. }
  assert (Hnn := listing_bytes_nonneg (listing w rest)).
  rewrite listing_cons in *. unfold entry_of_child in *. simpl fill_dirents.
  change (zlen ((name, ino) :: rest)) with (Z.of_nat (S (length rest))). cbn [fst snd] in *.
  destruct (get_inode w ino) as [child|] eqn:Hc; [destruct (HasNoLinks child) eqn:Hl|];
    simpl; simpl in Hb, He.
  - rewrite (proj2 (Z.ltb_lt _ _)) by lia. rewrite IH by done.
    by replace (i + 1 + zlen rest) with (i + Z.of_nat (S (length rest))) by lia.
  - assert (0 <= direntry_size name) by apply Hsize.
    fold (listing_bytes (listing w rest)) in Hb.
    rewrite (proj2 (Z.ltb_lt _ _)), (proj2 (Z.ltb_ge _ _)) by lia.
    rewrite IH, <- app_assoc by lia. simpl.
    replace (i + 1 + zlen rest) with (i + Z.of_nat (S (length rest))) by lia.
    by replace (c + 1 + zlen (listing w rest))
      with (c + Z.of_nat (S (length (listing w rest)))) by lia.
  - rewrite (proj2 (Z.ltb_lt _ _)) by lia. rewrite IH by done.
    by replace (i + 1 + zlen rest) with (i + Z.of_nat (S (length rest))) by lia.
Qed.

(** The first [readdir] of a directory whose live entries fit the response
    sends each of them once, in order, with the attributes of its inode and
    increasing cookies, and drops the reading context, since it is complete. *)
Theorem readdir_lists_small_directory e w ino d l size key :
  linked w ino d -> derived d = Directory l ->
  draw_key (rands e) (readdirStates w) = Some key ->
  can_alloc e (Z.min kReadDirBufSize size) = true ->
  listing_bytes (listing w l) <= Z.min kReadDirBufSize size ->
  zlen (listing w l) < kReadDirEntriesPerResponse ->
  exists w', FuseReadDir direntry_size ino size 0 e w = Ok tt w' /\
    replies w' = replies w ++ [reply_dirents (with_cookies (Z.shiftl key 16) (listing w l))] /\
    readdirStates w' !! key = None /\
    Inodes w' = Inodes w.
Proof.
  intros Hd Hder Hkey Ha Hb Hn.
  assert (Hl : dir_children d = Some l) by (unfold dir_children; by rewrite Hder).
  unfold FuseReadDir. rewrite (with_live_run _ _ _ _ _ Hd), (with_dir_run _ _ _ Hl).
  unfold PrepareReaddir, mbind, M_bind. simpl.
  rewrite (deref_run _ _ _ _ (proj1 Hd)), Hl. simpl. rewrite Hkey. simpl. rewrite Ha.
  simpl. rewrite lookup_insert_eq. simpl.
  set (w1 := set_readdirStates _ w). change (listing w l) with (listing w1 l) in Hb, Hn.
  change (drop (Z.to_nat 0) l) with l. rewrite fill_dirents_all by lia. simpl. eexists. split; [done|]. split; [done|].
  split; [|done]. apply map_lookup_filter_None. right. intros ctx Hctx.
  rewrite !insert_insert_eq, lookup_insert_eq in Hctx. injection Hctx as <-.
  unfold at_end. simpl. by rewrite Z.eqb_refl.
Qed.
End listing.
