(* ===== verification/Memory.v ===== *)
(** * Memory of extended attributes and iterators

    In runs without a restore every value of an extended attribute is in a block of its
    own, and in every run the iterators of listings are not before their first entries. *)

From S2P Require Import Prelude World Util Table InodeOps FileOps DirectoryOps Nodes.
From S2P Require Import Handlers CkptRestore Codec Pickle Requests Invariant Runs Attributes.

(** ** Definitions *)

Definition xattrs_at (w : world) (ino : Z) : option (list (string * (Z * Z))) :=
  (fun i => m_xattr (base i)) <$> get_inode w ino.

(** The name of the inode has the pointer and size [v]. *)
Definition xattr_at (w : world) (ino : Z) (name : string) (v : Z * Z) : Prop :=
  exists m, xattrs_at w ino = Some m /\ smap_find name m = Some v.

(** Every value is in memory, and no two names share a block. *)
Record values_ok (w : world) : Prop := {
  vo_heap : heap_ok (heap w);
  vo_sorted ino m : xattrs_at w ino = Some m -> smap_ok m;
  vo_holds ino name v : xattr_at w ino name v -> exists b, holds (heap w) v b;
  vo_own ino name v ino' name' v' :
    xattr_at w ino name v -> xattr_at w ino' name' v' -> v.1 <> 0 -> v'.1 = v.1 ->
    ino' = ino /\ name' = name }.

Definition iterators_ok (w : world) : Prop :=
  forall key ctx, readdirStates w !! key = Some ctx -> 0 <= it ctx.

(** Heap and iterators are the same, and each inode has the attributes that it had, or
    none. *)
Definition same_memory (w w' : world) : Prop :=
  heap w' = heap w /\ readdirStates w' = readdirStates w /\
  forall ino m, xattrs_at w' ino = Some m -> m = [] \/ xattrs_at w ino = Some m.

#[export] Instance same_memory_preorder : PreOrder same_memory.
Proof.
  split.
  - intros w. split_and!; auto.
  - intros w1 w2 w3 (H1 & H2 & H3) (K1 & K2 & K3). split_and!; [congruence|congruence|].
    intros ino m Hm. destruct (K3 ino m Hm) as [->|Hm2]; [by left|by apply H3].
Qed.

Lemma same_memory_iterators w w' : same_memory w w' -> iterators_ok w -> iterators_ok w'.
Proof. intros (_ & E & _) H key ctx. rewrite E. apply H. Qed.

Lemma same_memory_at w w' ino name v :
  same_memory w w' -> xattr_at w' ino name v -> xattr_at w ino name v.
Proof.
  intros (_ & _ & H) (m & Hm & Hf). destruct (H ino m Hm) as [->|Hm']; [done|]. by exists m.
Qed.

Lemma same_memory_values w w' : same_memory w w' -> values_ok w -> values_ok w'.
Proof.
  intros Hs Hw. pose proof (same_memory_at w w') as Hat. pose proof Hs as (Eh & _ & Hm). split.
  - rewrite Eh. apply Hw.
  - intros ino m Hx. destruct (Hm ino m Hx) as [->|Hx']; [constructor|]. by eapply vo_sorted.
  - intros ino name v Hv. rewrite Eh. by eapply (vo_holds w Hw), Hat.
  - intros ino name v ino' name' v' H1 H2. eapply (vo_own w Hw); by eapply Hat.
Qed.

(** ** Requests that leave the memory alone *)

Lemma xattrs_at_put w p j ino :
  0 <= p < zlen (Inodes w) ->
  xattrs_at (put_inode p j w) ino
  = if decide (p = ino) then (fun i => m_xattr (base i)) <$> j else xattrs_at w ino.
Proof. intros Hp. unfold xattrs_at. rewrite get_put_inode by done. by case_decide. Qed.

Lemma same_memory_table w w' :
  heap w' = heap w -> readdirStates w' = readdirStates w -> Inodes w' = Inodes w -> same_memory w w'.
Proof.
  intros E1 E2 E3. split_and!; [done|done|]. intros ino m. unfold xattrs_at, get_inode.
  rewrite E3. by right.
Qed.

Lemma same_memory_put w p i j :
  get_inode w p = Some i -> m_xattr (base j) = m_xattr (base i) ->
  same_memory w (put_inode p (Some j) w).
Proof.
  intros Hi Hj. split_and!; [done|done|]. intros ino m.
  rewrite xattrs_at_put by (by eapply get_inode_range). case_decide as E; [|by right].
  subst. simpl. rewrite Hj. intros [= <-]. right. unfold xattrs_at. by rewrite Hi.
Qed.

Lemma same_memory_update p f :
  (forall i, m_xattr (base (f i)) = m_xattr (base i)) -> Respects same_memory (update p f).
Proof.
  intros Hf. apply respects_update; [typeclasses eauto|]. intros w i Hi. by eapply same_memory_put.
Qed.

#[local] Hint Extern 1 (Respects same_memory (update _ _)) =>
  apply same_memory_update; intros; reflexivity : verifs.
#[local] Hint Extern 1 (Respects same_memory (modify _)) =>
  apply respects_modify; intros; apply same_memory_table; reflexivity : verifs.

(** A slot that is emptied or gets an object without attributes. *)
Lemma same_memory_store p o :
  (forall i, o = Some i -> m_xattr (base i) = []) -> Respects same_memory (store_slot p o).
Proof.
  intros Ho. apply respects_store_slot; [typeclasses eauto|]. intros w Hp.
  split_and!; [done|done|]. intros ino m. rewrite xattrs_at_put by done. case_decide; [|by right].
  destruct o as [i|]; [|done]. intros [= <-]. left. by apply Ho.
Qed.

Lemma same_memory_AddInode i : m_xattr (base i) = [] -> Respects same_memory (AddInode i).
Proof.
  intros Hi. unfold AddInode. apply respects_bind; [typeclasses eauto| |intros; respects].
  apply respects_modify. intros w. split_and!; [done|done|]. intros ino m.
  unfold xattrs_at, get_inode. simpl. rewrite vec_at_snoc. case_decide; [|by right].
  simpl. intros [= <-]. by left.
Qed.

Lemma same_memory_UpdateSize p n : Respects same_memory (UpdateSize p n).
Proof. unfold UpdateSize, UpdateUsedBlocks. respects. Qed.
#[local] Hint Resolve same_memory_UpdateSize : verifs.

Lemma same_memory_AddChild p name ino : Respects same_memory (AddChild p name ino).
Proof. unfold AddChild. respects. Qed.
Lemma same_memory_Initialize p ino mode nlink gid uid :
  Respects same_memory (Initialize p ino mode nlink gid uid).
Proof.
  unfold Initialize, Directory_Initialize, SymLink_Initialize, Inode_Initialize. respects.
Qed.
#[local] Hint Resolve same_memory_AddChild same_memory_Initialize : verifs.

Lemma same_memory_RegisterInode i mode nlink gid uid :
  m_xattr (base i) = [] -> Respects same_memory (RegisterInode i mode nlink gid uid).
Proof.
  intros Hi. pose proof (same_memory_AddInode i Hi).
  assert (forall p, Respects same_memory (store_slot p (Some i))).
  { intros p. apply same_memory_store. by intros ? [= <-]. }
  unfold RegisterInode, take_number, PopOneDeletedInode, UpdateInode, UpdateUsedInodes, UpdateUsedBlocks.
  respects.
Qed.

Lemma make_node_plain mode dev symlink i links :
  make_node mode dev symlink = Some (i, links) -> m_xattr (base i) = [].
Proof. unfold make_node. intros H. repeat case_match; by simplify_eq. Qed.

#[export] Instance same_memory_quiet : Quiet same_memory.
Proof.
  assert (Hdel : forall p, Respects same_memory (store_slot p None)).
  { intros p. by apply same_memory_store. }
  split.
  - typeclasses eauto.
  - intros w r. by apply same_memory_table.
  - intros w p i j Hi [_ Hx]. by eapply same_memory_put.
  - intros p n _. unfold FileTruncate, UpdateUsedBlocks. respects.
  - intros p d off _ _. unfold File_WriteAndReply, UpdateUsedBlocks, reply_error, send. respects.
  - apply same_memory_AddChild.
  - intros. unfold RemoveChild. respects.
  - intros. unfold UpdateChild. respects.
  - intros parent name mode dev symlink. unfold do_create_node.
    apply respects_bind; [typeclasses eauto|respects|intros e0].
    destruct (make_node mode dev symlink) as [[i links]|] eqn:Em; [|respects].
    pose proof (same_memory_RegisterInode i mode links (ctx_gid e0) (ctx_uid e0)
      (make_node_plain _ _ _ _ _ Em)).
    unfold DeleteInode, UpdateUsedInodes, UpdateUsedBlocks, IncrementLinkCount. respects.
Qed.

#[export] Instance same_memory_reclaims : Reclaims same_memory.
Proof.
  intros e w ino i n a w' _. revert e w a w'.
  assert (Respects same_memory (store_slot ino None)) by by apply same_memory_store.
  apply (respects_bind same_memory (DeleteInode ino) (fun _ => UpdateUsedInodes (-1);; UpdateUsedBlocks n));
    unfold DeleteInode, UpdateUsedInodes, UpdateUsedBlocks; respects.
Qed.

(** ** [readdir] *)

Lemma fill_dirents_iterator direntry_size w hb size rest i c bytes entries acc i' c' acc' :
  0 <= i -> fill_dirents direntry_size w hb size rest i c bytes entries acc = inl (i', c', acc') ->
  0 <= i'.
Proof.
  revert i c bytes entries acc. induction rest as [|[n d] rest IH]; intros i c bytes entries acc Hi;
    simpl; [by intros [= <- _ _]|].
  destruct (entries <? _); [|by intros [= <- _ _]].
  destruct (get_inode w d) as [ch|]; [|apply IH; lia].
  destruct (HasNoLinks ch); [apply IH; lia|]. destruct (size <? _).
  - destruct (Z.eqb_spec i 0); [done|]. intros [= <- _ _]. lia.
  - destruct hb; [apply IH; lia|done].
Qed.

(** What a request does to the memory. *)
Definition keeps_memory (w w' : world) : Prop :=
  (iterators_ok w -> iterators_ok w') /\ (values_ok w -> values_ok w').

#[export] Instance keeps_memory_preorder : PreOrder keeps_memory.
Proof. split; [by split|]. intros w1 w2 w3 [H1 H2] [H3 H4]. split; auto. Qed.

Lemma same_keeps_memory w w' : same_memory w w' -> keeps_memory w w'.
Proof. intros H. split; [by apply same_memory_iterators|by apply same_memory_values]. Qed.

Lemma same_keeps_respects {A} (m : M A) : Respects same_memory m -> Respects keeps_memory m.
Proof. intros H e w a w' Hr. by eapply same_keeps_memory, H. Qed.

(** Iterators do not matter to values, nor values to iterators. *)
Lemma keeps_memory_contexts w s :
  (iterators_ok w -> iterators_ok (set_readdirStates s w)) -> keeps_memory w (set_readdirStates s w).
Proof. intros H. split; [done|]. intros Hv. split; apply Hv. Qed.
Lemma keeps_memory_values w w' :
  readdirStates w' = readdirStates w -> (values_ok w -> values_ok w') -> keeps_memory w w'.
Proof. intros E H. split; [|done]. intros Hi key ctx. rewrite E. apply Hi. Qed.

Lemma keeps_memory_PrepareReaddir p c : Respects keeps_memory (PrepareReaddir p c).
Proof.
  intros e w a w' H. unfold PrepareReaddir in H. apply bind_Ok in H as (w0 & w1 & [= <- <-] & H).
  destruct (negb (c =? 0)).
  { assert (w' = w) as -> by (destruct (readdirStates w !! _); by injection H). reflexivity. }
  apply ask_Ok, deref_dir_Ok in H as (d & l & _ & _ & H).
  apply bind_Ok in H as (key & w1 & Hk & H).
  destruct (draw_key _ _) as [k|]; [|done]. injection Hk as -> <-.
  apply bind_Ok in H as ([] & w1 & [= <-] & [= _ <-]).
  apply keeps_memory_contexts. intros Hi k' ctx. simpl.
  destruct (decide (key = k')) as [->|Hne].
  - rewrite lookup_insert_eq. by intros [= <-].
  - rewrite lookup_insert_ne by done. apply Hi.
Qed.

#[local] Hint Extern 1 (Respects keeps_memory (reply_error _)) =>
  apply same_keeps_respects, (stable_reply_error same_memory) : verifs.
#[local] Hint Extern 1 (Respects keeps_memory (send _)) =>
  apply same_keeps_respects, (stable_send same_memory) : verifs.

Lemma keeps_memory_RecycleStates : Respects keeps_memory RecycleStates.
Proof.
  apply respects_modify. intros w. apply keeps_memory_contexts. intros Hi key ctx.
  simpl. intros [H _]%map_lookup_filter_Some. by eapply Hi.
Qed.
#[local] Hint Resolve keeps_memory_RecycleStates keeps_memory_PrepareReaddir : verifs.

Lemma keeps_memory_with_live ino k :
  (forall i, Respects keeps_memory (k i)) -> Respects keeps_memory (with_live ino k).
Proof. intros Hk. unfold with_live. respects. Qed.

(** The part of [FuseReadDir] from the iterator on. *)
Lemma keeps_memory_fill direntry_size key hb size :
  Respects keeps_memory (w ← get; ctx ← get_or crash_dangling (readdirStates w !! key);
    match fill_dirents direntry_size w hb size
            (drop (Z.to_nat (it ctx)) (children ctx)) (it ctx) (cookie ctx) 0 0 [] with
    | inr c => fail c
    | inl (i, c, entries) =>
        modify (set_readdirStates (<[key := mkReadDirCtx c i (children ctx)]> (readdirStates w)));;
        RecycleStates;; send (reply_dirents entries)
    end).
Proof.
  intros e w a w' H. apply bind_Ok in H as (w0 & w1 & [= <- <-] & H).
  apply bind_Ok in H as (ctx & w1 & Hc & H).
  destruct (readdirStates w !! key) as [x|] eqn:Hk; [|done]. injection Hc as -> <-.
  destruct (fill_dirents _ _ _ _ _ _ _ _ _ _) as [[[i c] entries]|] eqn:Hf; [|done].
  apply bind_Ok in H as ([] & w1 & [= <-] & H).
  transitivity (set_readdirStates (<[key := mkReadDirCtx c i (children ctx)]> (readdirStates w)) w).
  - apply keeps_memory_contexts. intros Hi k ctx'. simpl. destruct (decide (key = k)) as [->|Hne].
    + rewrite lookup_insert_eq. intros [= <-]. simpl. eapply fill_dirents_iterator; [|done]. by eapply Hi.
    + rewrite lookup_insert_ne by done. apply Hi.
  - revert H. match goal with |- ?m e ?x = _ -> _ => cut (Respects keeps_memory m); [by intros Hm; apply Hm|] end.
    respects.
Qed.

Lemma keeps_memory_FuseReadDir direntry_size ino size off :
  Respects keeps_memory (FuseReadDir direntry_size ino size off).
Proof.
  pose proof (keeps_memory_fill direntry_size). unfold FuseReadDir.
  apply keeps_memory_with_live. intros i. unfold with_dir. respects.
Qed.

(** ** Changes of values *)

Lemma xattr_at_put w p i name v ino name' v' :
  get_inode w p = Some i ->
  xattr_at (put_inode p (Some (set_xattr name v i)) w) ino name' v' <->
  if decide (ino = p /\ name' = name) then v' = v else xattr_at w ino name' v'.
Proof.
  intros Hi. pose proof (get_inode_range _ _ _ Hi) as Hp. unfold xattr_at.
  rewrite xattrs_at_put by done. destruct (decide (p = ino)) as [<-|Hne].
  - unfold xattrs_at. rewrite Hi. simpl.
    assert (Hiff : forall (m : list (string * (Z * Z))) u, (exists x, Some m = Some x /\ smap_find name' x = Some u) <->
      smap_find name' m = Some u) by naive_solver.
    rewrite !Hiff, smap_find_insert. destruct (String.eqb_spec name' name) as [->|Hn].
    + rewrite decide_True by done. naive_solver.
    + rewrite decide_False by naive_solver. done.
  - rewrite decide_False by naive_solver. done.
Qed.

Lemma sorted_put w p i name v ino m :
  (forall ino m, xattrs_at w ino = Some m -> smap_ok m) -> get_inode w p = Some i ->
  xattrs_at (put_inode p (Some (set_xattr name v i)) w) ino = Some m -> smap_ok m.
Proof.
  intros Hw Hi. rewrite xattrs_at_put by (by eapply get_inode_range).
  case_decide; [|by apply Hw]. intros [= <-]. apply smap_insert_ok.
  apply (Hw p). unfold xattrs_at. by rewrite Hi.
Qed.

(** A name gets a value that is in memory and that no other name has. *)
Lemma values_put w p i name v b :
  values_ok w -> get_inode w p = Some i -> holds (heap w) v b ->
  (forall ino name' v', xattr_at w ino name' v' -> v.1 <> 0 -> v'.1 = v.1 -> ino = p /\ name' = name) ->
  values_ok (put_inode p (Some (set_xattr name v i)) w).
Proof.
  intros Hw Hi Hv Hown. split.
  - apply Hw.
  - intros ino m. apply sorted_put; [apply Hw|done].
  - intros ino name' v'. rewrite xattr_at_put by done. case_decide as E; [|by apply Hw].
    intros ->. by exists b.
  - intros ino n1 v1 ino' n2 v2. rewrite !xattr_at_put by done.
    repeat case_decide; intros H1 H2 Hz Heq; destruct_and?; subst; try done.
    + destruct (Hown ino' n2 v2 H2) as [-> ->]; [done|congruence|done].
    + destruct (Hown ino n1 v1 H1) as [-> ->]; [congruence|congruence|done].
    + by eapply (vo_own w Hw).
Qed.

Lemma heap_ok_set h a b : heap_ok h -> is_Some (blocks h !! a) ->
  heap_ok (mkHeap (<[a := b]> (blocks h)) (next_addr h)).
Proof.
  intros [Hn Hh] [b0 Ha]. split; [done|]. intros a' b'. simpl.
  destruct (decide (a' = a)) as [->|Hne]; [intros _; by eapply Hh|].
  rewrite lookup_insert_ne by done. apply Hh.
Qed.

(** A block gets other bytes. *)
Lemma values_block w a old new :
  values_ok w -> blocks (heap w) !! a = Some old -> length new = length old ->
  values_ok (set_heap (mkHeap (<[a := new]> (blocks (heap w))) (next_addr (heap w))) w).
Proof.
  intros Hw Ha Hl. split.
  - apply heap_ok_set; [apply Hw|by rewrite Ha].
  - apply Hw.
  - intros ino name v Hv. destruct (vo_holds w Hw ino name v Hv) as (b & Hb1 & Hb2).
    destruct Hb2 as [Hb2|[Hz Hb2]]; [exists b; by split; [|left]|].
    destruct (decide (v.1 = a)) as [E|Hne].
    + exists new. split; [rewrite Hb1; simplify_eq; by rewrite Hl|].
      right. split; [done|]. simpl. rewrite E. apply lookup_insert_eq.
    + exists b. split; [done|]. right. split; [done|]. simpl. by rewrite lookup_insert_ne.
  - intros ino name v ino' name' v'. apply (vo_own w Hw).
Qed.

(** What [realloc] gives: the old block grown or shrunk in place, or a new one. *)
Record reallocated (h h' : xheap) (ptr a n : Z) : Prop := {
  re_heap : heap_ok h';
  re_block : exists new, blocks h' !! a = Some new /\ zlen new = n;
  re_null : a <> 0;
  re_others c : c <> a -> c <> ptr -> blocks h' !! c = blocks h !! c;
  re_place : a = ptr \/ blocks h !! a = None }.

Lemma xrealloc_Ok ptr n e w o w' :
  0 <= n -> xrealloc ptr n e w = Ok o w' ->
  o = None /\ w' = w \/
  exists a h, o = Some a /\ w' = set_heap h w /\
    (heap_ok (heap w) -> reallocated (heap w) h ptr a n).
Proof.
  intros Hn H. unfold xrealloc in H. apply ask_Ok in H.
  apply bind_Ok in H as (w0 & w1 & [= <- <-] & H).
  destruct (can_alloc e n); [|injection H as <- <-; by left].
  apply bind_Ok in H as (old & w1 & Ho & H).
  assert (w1 = w /\ (ptr <> 0 -> blocks (heap w) !! ptr = Some old)) as [-> Hold].
  { destruct (Z.eqb_spec ptr 0) as [->|Hz]; [by injection Ho as <- <-|].
    unfold xblock in Ho. destruct (blocks (heap w) !! ptr); [by injection Ho as -> <-|done]. }
  clear Ho. right.
  pose proof (mem_resize_length (junk e) old n Hn) as Hlen.
  destruct ((ptr =? 0) || moves e) eqn:E; apply bind_Ok in H as ([] & w1 & [= <-] & [= <- <-]);
    eexists _, _; (split; [done|]); (split; [done|]); intros [Hnext Hblocks].
  - assert (blocks (heap w) !! next_addr (heap w) = None) as Hfree.
    { destruct (blocks (heap w) !! next_addr (heap w)) eqn:Hb; [|done]. apply Hblocks in Hb. lia. }
    split; simpl; [|eexists; split; [apply lookup_insert_eq|done]|lia| |by right].
    + split; [simpl; lia|]. intros a b. simpl.
      destruct (decide (a = next_addr (heap w))) as [->|Hne]; [lia|].
      rewrite lookup_insert_ne by done. intros [_ Hd%Hblocks]%lookup_delete_Some. lia.
    + intros c H1 H2. by rewrite lookup_insert_ne, lookup_delete_ne.
  - zbool. split; simpl; [|eexists; split; [apply lookup_insert_eq|done]|done| |by left].
    + apply heap_ok_set; [by split|]. by rewrite Hold.
    + intros c H1 _. by rewrite lookup_insert_ne.
Qed.

Lemma values_realloc w p i name ptr extent a n h :
  values_ok w -> get_inode w p = Some i -> xattr_at w p name (ptr, extent) ->
  reallocated (heap w) h ptr a n ->
  values_ok (put_inode p (Some (set_xattr name (a, n) i)) (set_heap h w)).
Proof.
  intros Hw Hi Hat Hr. destruct Hr as [Hh (new & Hnew & Hn) Ha Hothers Hplace].
  assert (Hi' : get_inode (set_heap h w) p = Some i) by done.
  (* another name has another block, which is as it was *)
  assert (Hother : forall ino name' v b, xattr_at w ino name' v -> ~ (ino = p /\ name' = name) ->
    v.1 <> 0 -> blocks (heap w) !! v.1 = Some b -> v.1 <> a /\ blocks h !! v.1 = Some b).
  { intros ino name' v b Hv Hne Hz Hb.
    assert (v.1 <> ptr) as Hp.
    { intros E. apply Hne. apply (vo_own w Hw p name (ptr, extent) ino name' v); simpl; congruence. }
    assert (v.1 <> a) by (destruct Hplace as [->|Hf]; congruence).
    split; [done|]. by rewrite Hothers. }
  split.
  - done.
  - intros ino m. apply sorted_put; [apply Hw|done].
  - intros ino name' v. rewrite xattr_at_put by done. case_decide as E.
    + intros ->. exists new. split; [done|by right].
    + intros Hv. destruct (vo_holds w Hw ino name' v Hv) as (b & Hb1 & Hb2). exists b. split; [done|].
      destruct Hb2 as [Hb2|[Hz Hb2]]; [by left|right]. split; [done|].
      by destruct (Hother ino name' v b) as [_ ?].
  - intros ino n1 v1 ino' n2 v2. rewrite !xattr_at_put by done.
    assert (Hnot : forall ino name' v, xattr_at w ino name' v -> ~ (ino = p /\ name' = name) -> v.1 <> a).
    { intros q name' v Hv Hne E. destruct (vo_holds w Hw q name' v Hv) as (b & _ & [[? _]|[Hz Hb]]); [congruence|].
      by destruct (Hother q name' v b). }
    destruct (decide (ino = p /\ n1 = name)) as [[-> ->]|N1];
      destruct (decide (ino' = p /\ n2 = name)) as [[-> ->]|N2]; intros H1 H2 Hz Heq; [done| | |].
    + subst v1. by destruct (Hnot ino' n2 v2).
    + subst v2. by destruct (Hnot ino n1 v1).
    + by apply (vo_own w Hw ino n1 v1 ino' n2 v2).
Qed.

Lemma keeps_memory_xwrite ptr off value : Respects keeps_memory (xwrite ptr off value).
Proof.
  intros e w a w' H. unfold xwrite in H. destruct (zlen value =? 0); [by injection H as _ <-|].
  destruct (ptr =? 0); [done|]. apply bind_Ok in H as (w0 & w1 & [= <- <-] & H).
  apply bind_Ok in H as (old & w1 & Ho & H). unfold xblock in Ho.
  destruct (blocks (heap w) !! ptr) as [b|] eqn:Hb; [|done]. injection Ho as -> <-.
  apply bind_Ok in H as (new & w1 & Hn & H).
  destruct (mem_write old off value) as [x|] eqn:Hm; [|done]. injection Hn as -> <-.
  injection H as _ <-. apply keeps_memory_values; [done|]. intros Hw.
  eapply values_block; [done|done|]. by eapply mem_write_length.
Qed.
#[local] Hint Resolve keeps_memory_xwrite : verifs.

(** The entry that [m_xattr[name]] makes has the value that was there, or none. *)
Lemma keeps_memory_entry w p i name :
  get_inode w p = Some i ->
  let v := default (0, 0) (smap_find name (m_xattr (base i))) in
  keeps_memory w (put_inode p (Some (set_xattr name v i)) w).
Proof.
  intros Hi v. apply keeps_memory_values; [done|]. intros Hw. subst v.
  destruct (smap_find name (m_xattr (base i))) as [v|] eqn:Hf; simpl.
  - assert (Hat : xattr_at w p name v).
    { exists (m_xattr (base i)). unfold xattrs_at. by rewrite Hi. }
    destruct (vo_holds w Hw p name v Hat) as [b Hb]. eapply values_put; [done|done|done|].
    intros ino name' v' Hv Hz E. by apply (vo_own w Hw p name v ino name' v').
  - by eapply (values_put _ _ _ _ _ []); [done|done|split; [done|by left]|].
Qed.

Lemma keeps_memory_SetXAttr p name value flags position :
  Respects keeps_memory (SetXAttrAndReply p name value flags position).
Proof.
  intros e w a w' H. unfold SetXAttrAndReply in H.
  apply bind_Ok in H as (i & w0 & [Hi ->]%deref_Ok & H).
  assert (Herr : forall n w1 w2, reply_error n e w1 = Ok a w2 -> keeps_memory w1 w2).
  { intros n w1 w2 Hr. revert Hr. by apply same_keeps_respects, (stable_reply_error same_memory). }
  destruct (_ && _); [by eapply Herr|]. destruct (_ && _); [by eapply Herr|].
  destruct (default (0, 0) _) as [ptr extent] eqn:Ed.
  apply bind_Ok in H as ([] & w1 & Hu & H). rewrite (update_run _ _ _ _ _ Hi) in Hu. injection Hu as <-.
  set (i1 := set_xattr name (ptr, extent) i) in H. set (w1 := put_inode p (Some i1) w) in H.
  assert (Hi1 : get_inode w1 p = Some i1) by by eapply get_put_eq.
  transitivity w1.
  { subst w1 i1. rewrite <- Ed. by apply keeps_memory_entry. }
  assert (Hat : xattr_at w1 p name (ptr, extent)).
  { exists (m_xattr (base i1)). unfold xattrs_at. rewrite Hi1. split; [done|]. simpl.
    by rewrite smap_find_insert, String.eqb_refl. }
  clearbody w1 i1. clear Hi Ed w i. destruct (extent <? _).
  - apply bind_Ok in H as (o & w2 & Hr & H).
    destruct (xrealloc_Ok _ _ _ _ _ _ (proj1 (u64_range _)) Hr) as [[-> ->]|(b & h & -> & -> & Hre)];
      [by eapply Herr|].
    apply bind_Ok in H as ([] & w2 & Hu & H).
    rewrite (update_run p _ e (set_heap h w1) i1 Hi1) in Hu. injection Hu as <-.
    transitivity (put_inode p (Some (set_xattr name (b, u64 (zlen value + position)) i1)) (set_heap h w1)).
    + apply keeps_memory_values; [done|]. intros Hw.
      eapply values_realloc; [done|done|exact Hat|]. by apply Hre, Hw.
    + revert H. match goal with |- ?m e ?x = _ -> _ =>
        cut (Respects keeps_memory m); [by intros Hm; apply Hm|] end. respects.
  - revert H. match goal with |- ?m e ?x = _ -> _ =>
      cut (Respects keeps_memory m); [by intros Hm; apply Hm|] end. respects.
Qed.

Lemma keeps_memory_RemoveXAttr p name : Respects keeps_memory (RemoveXAttrAndReply p name).
Proof.
  unfold RemoveXAttrAndReply. apply respects_bind; [typeclasses eauto|respects|intros i0].
  destruct (smap_find _ _); [|respects].
  apply respects_bind; [typeclasses eauto| |intros; respects].
  apply respects_update; [typeclasses eauto|]. intros w i Hi.
  apply keeps_memory_values; [done|]. intros Hw.
  set (j := on_base _ i). pose proof (get_inode_range _ _ _ Hi) as Hp.
  assert (Hsorted : smap_ok (m_xattr (base i))).
  { apply (vo_sorted w Hw p). unfold xattrs_at. by rewrite Hi. }
  assert (Hat : forall ino n v, xattr_at (put_inode p (Some j) w) ino n v -> xattr_at w ino n v).
  { intros ino n v (m & Hm & Hf). rewrite xattrs_at_put in Hm by done. case_decide; [|by exists m].
    subst. injection Hm as <-. simpl in Hf. rewrite smap_find_erase in Hf by done.
    destruct (String.eqb n name); [done|]. exists (m_xattr (base i)). unfold xattrs_at. by rewrite Hi. }
  split.
  - apply Hw.
  - intros ino m. rewrite xattrs_at_put by done. case_decide; [|by apply Hw].
    intros [= <-]. by apply smap_erase_ok.
  - intros ino n v Hv. by eapply (vo_holds w Hw), Hat.
  - intros ino n v ino' n' v' H1 H2. by apply (vo_own w Hw ino n v ino' n' v'); apply Hat.
Qed.

(** ** Every request *)

Lemma keeps_memory_FuseOps direntry_size sha256 h r e w a w' :
  is_ioctl r = false -> kernel_ok w r ->
  FuseOps direntry_size sha256 h r e w = Ok a w' -> keeps_memory w w'.
Proof.
  intros Hi Hk H. destruct (is_memory r) eqn:Hm.
  - destruct r; try done; simpl in H; revert H;
      match goal with |- ?m e w = _ -> _ => cut (Respects keeps_memory m); [by intros H; apply H|] end.
    + apply keeps_memory_FuseReadDir.
    + apply keeps_memory_with_live. intros _. apply keeps_memory_SetXAttr.
    + apply keeps_memory_with_live. intros _. apply keeps_memory_RemoveXAttr.
  - apply same_keeps_memory. destruct (is_forget r) eqn:Hf.
    + destruct r; try done. simpl in H. by eapply (stable_FuseForget same_memory).
    + by eapply (quiet_FuseOps same_memory).
Qed.

Lemma same_iterators_restore key : Respects (same readdirStates) (restore key).
Proof.
  assert (forall t, Respects (same readdirStates) (invalidate_all t)).
  { induction t as [|[i|] t IH]; simpl; [by respects| |done].
    apply respects_bind; [typeclasses eauto| |by intros _].
    unfold invalidate_inode. repeat first [respects_step | solve [by respects]].
    - by apply respects_modify.
    - apply respects_modify. intros w. by rewrite foldl_add_notification. }
  assert (forall t, Respects (same readdirStates) (copy_table t)).
  { intros t. apply respects_pure; [typeclasses eauto|]. intros e w a w'. apply copy_table_pure. }
  unfold restore, find_state, remove_state, invalidate_kernel_states.
  repeat first [respects_step | solve [by respects] | solve [by apply respects_modify]].
Qed.

Lemma same_memory_pickle sha256 h : Respects same_memory (pickle_verifs2 sha256 h).
Proof.
  apply respects_pickle; [typeclasses eauto|]. intros w k. by apply same_memory_table.
Qed.

Definition is_restore (r : request) : bool :=
  match r with op_ioctl cmd _ => cmd =? VERIFS_RESTORE | _ => false end.

Section runs.
Context (direntry_size : string -> Z) (sha256 : list byte -> list byte) (h : host).

Lemma memory_FuseIoctl files cmd arg e w a w' :
  sys_ok files w -> (cmd =? VERIFS_LOAD) = false -> FuseIoctl sha256 h cmd arg e w = Ok a w' ->
  readdirStates w' = readdirStates w /\ ((cmd =? VERIFS_RESTORE) = false -> same_memory w w').
Proof.
  intros Hw Hl H. unfold FuseIoctl in H. rewrite Hl in H.
  apply bind_Ok in H as ([ret file] & w1 & E & H).
  assert (H1 : same_memory w1 w').
  { apply bind_Ok in H as ([] & w2 & E2 & [= _ <-]).
    destruct (ret =? 0); injection E2 as <-; by apply same_memory_table. }
  assert (H2 : readdirStates w1 = readdirStates w /\ ((cmd =? VERIFS_RESTORE) = false -> same_memory w w1)).
  { destruct (cmd =? VERIFS_CHECKPOINT); [|destruct (cmd =? VERIFS_RESTORE);
      [|destruct (cmd =? VERIFS_PICKLE)]].
    - apply bind_Ok in E as (r & w2 & E & [= _ _ <-]).
      destruct (checkpoint_cases _ _ _ _ _ _ Hw E) as [[_ ->]|[_ ->]];
        (split; [done|intros _; by apply same_memory_table]).
    - apply bind_Ok in E as (r & w2 & E & [= _ _ <-]). split; [|done].
      by apply same_iterators_restore in E.
    - apply same_memory_pickle in E. split; [apply E|done].
    - injection E as _ _ <-. split; [done|intros _; reflexivity]. }
  destruct H2 as [E2 H2]. split; [rewrite <- E2; apply H1|]. intros Hr.
  transitivity w1; [by apply H2|done].
Qed.

Lemma memory_step files w r w' :
  sys_ok files w -> is_load r = false -> step direntry_size sha256 h w r w' ->
  (iterators_ok w -> iterators_ok w') /\ (is_restore r = false -> values_ok w -> values_ok w').
Proof.
  intros Hw Hl (Hk & e & a & H). destruct (is_ioctl r) eqn:Hi.
  - destruct r; try done. simpl in H, Hl |- *. apply bind_Ok in H as (x & w1 & E & [= _ <-]).
    destruct (memory_FuseIoctl _ _ _ _ _ _ _ Hw Hl E) as [E1 E2]. split.
    + intros Hit key ctx. rewrite E1. apply Hit.
    + intros Hr. by apply same_memory_values, E2.
  - destruct (keeps_memory_FuseOps _ _ _ _ _ _ _ _ Hi Hk H) as [H1 H2]. by split.
Qed.

Lemma memory_steps files w rs w' :
  sys_ok files w -> Forall (fun r => is_load r = false) rs -> steps direntry_size sha256 h w rs w' ->
  (iterators_ok w -> iterators_ok w') /\
  (Forall (fun r => is_restore r = false) rs -> values_ok w -> values_ok w').
Proof.
  intros Hw Hl Hs. induction Hs as [|w r w1 rs w2 Hr Hs IH]; [done|].
  apply list.Forall_cons in Hl as [Hl1 Hl].
  destruct (memory_step _ _ _ _ Hw Hl1 Hr) as [H1 H2].
  destruct IH as [H3 H4]; [by eapply sys_ok_step|done|]. split; [auto|].
  intros [Hn1 Hn]%list.Forall_cons. auto.
Qed.
End runs.

Lemma mounted_memory blocks inodes w : mounted blocks inodes w -> iterators_ok w /\ values_ok w.
Proof.
  intros (e & gid & uid & umask & a & H).
  assert (same_memory (construct blocks inodes) w) as Hs.
  { revert H. match goal with |- ?m e ?x = _ -> _ =>
      cut (Respects same_memory m); [by intros Hm; apply Hm|] end.
    assert (forall i mode nlink g u, m_xattr (base i) = [] ->
      Respects same_memory (RegisterInode i mode nlink g u)) by apply same_memory_RegisterInode.
    unfold FuseInit. respects. }
  split.
  - by apply (same_memory_iterators _ _ Hs).
  - apply (same_memory_values _ _ Hs).
    assert (Hnone : forall ino m, xattrs_at (construct blocks inodes) ino = Some m -> False).
    { intros ino m. unfold xattrs_at, get_inode, vec_at. simpl. by destruct (0 <=? ino). }
    split.
    + split; [done|]. by intros a' b.
    + intros ino m Hm. by apply Hnone in Hm.
    + intros ino name v (m & Hm & _). by apply Hnone in Hm.
    + intros ino name v ino' name' v' (m & Hm & _). by apply Hnone in Hm.
Qed.
