(* ===== verification/PickleSpec.v ===== *)
(** * Pickling and loading agree

    [Pickle] writes exactly [GetPickledSize] bytes, [Load] reads back what
    [Pickle] wrote, and a state file that [pickle_verifs2] wrote passes
    [verify_state_file] and is read back by [load_verifs2]. Loaded extended
    attributes live in new blocks, so the objects are compared by the values
    their pointers stand for. *)

From S2P Require Import Prelude World Util Table InodeOps FileOps DirectoryOps Nodes.
From S2P Require Import Handlers CkptRestore Codec Pickle Requests Invariant Specs.
From S2P Require Import Attributes.

(** ** Values of extended attributes *)

Definition xvalue (h : xheap) (v : Z * Z) : option (list byte) :=
  if v.2 =? 0 then Some []
  else if v.1 =? 0 then None
  else b ← blocks h !! v.1; mem_read b 0 v.2.

Lemma xread_Ok ptr n e w v w' :
  xread ptr 0 n e w = Ok v w' <-> xvalue (heap w) (ptr, n) = Some v /\ w' = w.
Proof.
  unfold xread, xvalue. simpl. destruct (n =? 0).
  { split; [by intros [= <- <-]|]. by intros [[= <-] ->]. }
  destruct (ptr =? 0); [by split; [|intros [? _]]|].
  unfold mbind, M_bind, option_bind. simpl.
  unfold xblock. destruct (blocks (heap w) !! ptr) as [b|]; [|by split; [|intros [? _]]].
  simpl. destruct (mem_read b 0 n); simpl; [|by split; [|intros [? _]]].
  split; [by intros [= <- <-]|]. by intros [[= <-] ->].
Qed.

Lemma mem_read_length b off n v : mem_read b off n = Some v -> zlen v = n.
Proof.
  unfold mem_read. destruct (in_block b off n) eqn:E; [|done].
  apply in_block_true in E as (?&?&?). intros [= <-]. len.
Qed.

Lemma xvalue_length h v b : xvalue h v = Some b -> zlen b = v.2.
Proof.
  unfold xvalue. destruct (Z.eqb_spec v.2 0) as [->|]; [by intros [= <-]|].
  destruct (v.1 =? 0); [done|]. simpl.
  destruct (blocks h !! v.1); [|done]. apply mem_read_length.
Qed.

(** ** Sizes *)

Lemma pickle_xattrs_length m e w xs w' :
  pickle_xattrs m e w = Ok xs w' ->
  w' = w /\
  zlen xs = foldr (fun x n => 8 + Z.of_nat (String.length x.1) + 8 + x.2.2 + n) 0 m.
Proof.
  revert xs w'. induction m as [|[k [ptr n]] m IH]; intros xs w' H; simpl in H.
  { by injection H as <- <-. }
  apply bind_Ok in H as (v & w1 & Hv & H). apply xread_Ok in Hv as [Hv ->].
  apply bind_Ok in H as (rest & w1 & Hr & H). apply IH in Hr as [-> Hr].
  injection H as <- <-. split; [done|]. apply xvalue_length in Hv. simpl in *.
  unfold size_t, string_bytes. rewrite !length_app, !le_bytes_length, list_byte_length. lia.
Qed.

Lemma Inode_Pickle_length b e w bs w' :
  Inode_Pickle b e w = Ok bs w' -> w' = w /\ zlen bs = Inode_GetPickledSize b.
Proof.
  intros H. apply bind_Ok in H as (xs & w1 & Hx & H).
  apply pickle_xattrs_length in Hx as [-> Hx].
  pose proof (enc_length entry_codec (m_fuseEntryParam b)) as HE. revert HE H.
  generalize (enc entry_codec (m_fuseEntryParam b)). intros E HE H.
  injection H as <- <-. split; [done|]. unfold Inode_GetPickledSize. rewrite <- Hx.
  unfold size_t. simpl length. rewrite !length_app, !le_bytes_length, HE. simpl. lia.
Qed.

Lemma children_length l :
  zlen (mjoin (pickle_child <$> l))
  = foldr (fun c n => 8 + 8 + Z.of_nat (String.length c.1) + n) 0 l.
Proof.
  induction l as [|[n i] l IH]; [done|]. simpl foldr. rewrite <- IH.
  change (mjoin (pickle_child <$> (n, i) :: l))
    with (pickle_child (n, i) ++ mjoin (pickle_child <$> l)).
  unfold pickle_child, size_t, string_bytes.
  rewrite !length_app, !le_bytes_length, list_byte_length. simpl. lia.
Qed.

Lemma Pickle_length i e w bs w' :
  Pickle i e w = Ok bs w' -> zlen bs < 2 ^ 64 -> w' = w /\ zlen bs = GetPickledSize i.
Proof.
  intros H Hlt. unfold Pickle in H. unfold GetPickledSize. autounfold with pickled.
  destruct (derived i) as [buf|l|ty|s]; apply bind_Ok in H as (b & w1 & Hb & H);
    apply Inode_Pickle_length in Hb as [-> Hb].
  - destruct (mem_read buf 0 _) as [data|] eqn:Hm; [|done].
    apply mem_read_length in Hm. injection H as <- <-. split; [done|].
    assert (0 <= zlen b) by lia. pose proof (u64_range (st_size (attr i))).
    rewrite length_app, Nat2Z.inj_add in *. rewrite Hb, Hm in *.
    symmetry. rewrite <- u64_add_r. apply u64_small. lia.
  - injection H as <- <-. split; [done|]. pose proof (children_length l).
    unfold size_t in *. rewrite !length_app, le_bytes_length in *. rewrite u64_small; lia.
  - injection H as <- <-. split; [done|].
    rewrite !length_app, le_bytes_length in *. rewrite u64_small; lia.
  - injection H as <- <-. split; [done|]. unfold string_bytes in *.
    rewrite !length_app, list_byte_length in *. rewrite u64_small; lia.
Qed.

(** [Pickle] writes exactly the [GetPickledSize] bytes that the caller
    allocates for it, whatever the class of the inode, and changes nothing; so
    the buffer of [pickle_file_system] is filled and not overrun. *)
Theorem Pickle_fills_buffer i e w bs w' :
  Pickle i e w = Ok bs w' -> zlen bs < 2 ^ 64 -> w' = w /\ zlen bs = GetPickledSize i.
Proof. apply Pickle_length. Qed.

(** ** Reading back *)

Lemma read_n_app a r n e w : zlen a = n -> read_n n (a ++ r) e w = Ok (a, r) w.
Proof.
  intros Hn. unfold read_n, mbind, M_bind.
  rewrite mem_read_Some by (rewrite ?length_app; lia). simpl.
  replace (Z.to_nat n) with (length a) by lia.
  by rewrite drop_0, take_app_length, drop_app_length.
Qed.

Lemma read_size_t_app z r e w :
  0 <= z < 2 ^ 64 -> read_size_t (size_t z ++ r) e w = Ok (z, r) w.
Proof.
  intros Hz. unfold read_size_t, mbind, M_bind. rewrite read_n_app.
  - unfold size_t. by rewrite le_value_bytes8, u64_small.
  - unfold size_t. by rewrite le_bytes_length.
Qed.

Lemma bytes_string_bytes s : bytes_string (string_bytes s) = s.
Proof. apply String.string_of_list_byte_of_string. Qed.

(** The heap only grew. *)
Definition heap_ext (h h' : xheap) : Prop :=
  heap_ok h' /\ next_addr h <= next_addr h' /\
  forall a, a < next_addr h -> blocks h' !! a = blocks h !! a.

Lemma heap_ext_refl h : heap_ok h -> heap_ext h h.
Proof. intros H. split; [done|]. split; [lia|done]. Qed.

Lemma heap_ext_trans h1 h2 h3 : heap_ext h1 h2 -> heap_ext h2 h3 -> heap_ext h1 h3.
Proof.
  intros (_ & Hn1 & He1) (Hok & Hn2 & He2). split; [done|]. split; [lia|].
  intros a Ha. rewrite He2 by lia. by apply He1.
Qed.

(** The heap after [xstore] of a value. *)
Definition heap_put (h : xheap) (v : list byte) : xheap :=
  mkHeap (<[next_addr h := v]> (blocks h)) (next_addr h + 1).

Lemma heap_put_ext h v : heap_ok h -> heap_ext h (heap_put h v).
Proof.
  intros [Hn Hh]. split; [split; simpl; [lia|]|split; simpl; [lia|]].
  - intros a b Hb. destruct (decide (a = next_addr h)) as [->|Hne]; [lia|].
    rewrite lookup_insert_ne in Hb by done. apply Hh in Hb. lia.
  - intros a Ha. apply lookup_insert_ne. lia.
Qed.

(** An attribute [y] of a loaded object stands for what [x] stood for. *)
Definition same_attr (h h' : xheap) (x y : string * (Z * Z)) : Prop :=
  y.1 = x.1 /\ y.2.2 = x.2.2 /\ y.2.1 < next_addr h' /\
  exists v, xvalue h x.2 = Some v /\ xvalue h' y.2 = Some v.

Lemma same_attr_ext h h1 h2 x y :
  heap_ext h1 h2 -> same_attr h h1 x y -> same_attr h h2 x y.
Proof.
  intros (_ & Hn & He) (H1 & H2 & H3 & v & Hx & Hy). split; [done|]. split; [done|].
  split; [lia|]. exists v. split; [done|]. unfold xvalue in *.
  by rewrite He.
Qed.

Lemma smap_insert_last {V} k (v : V) m :
  Forall (fun x => key_lt x.1 k) m ->
  smap_insert k v m = m ++ [(k, v)] /\ smap_find k m = None.
Proof.
  induction m as [|[k0 v0] m IH]; intros H; [done|]. apply list.Forall_cons in H as [Hk H].
  destruct (IH H) as [IH1 IH2]. simpl in *. unfold key_lt in Hk.
  assert (Hgt : String.compare k k0 = Gt) by (by rewrite String.compare_antisym, Hk).
  rewrite Hgt, IH1. split; [done|]. destruct (String.eqb k k0) eqn:E; [|done].
  zbool. subst. by rewrite string_compare_refl in Hk.
Qed.

Lemma smap_ok_app {V} (acc : list (string * V)) k v m :
  smap_ok (acc ++ (k, v) :: m) -> Forall (fun x => key_lt x.1 k) acc.
Proof.
  unfold smap_ok. induction acc as [|[k0 v0] acc IH]; simpl; intros H; [done|].
  inversion H as [|? ? H1 H2]; subst. constructor; [|by apply IH].
  eapply list.Forall_forall in H2; [exact H2|]. rewrite fmap_app. set_solver.
Qed.

Lemma smap_ok_value {V} (acc : list (string * V)) k v v' m :
  smap_ok (acc ++ (k, v) :: m) -> smap_ok ((acc ++ [(k, v')]) ++ m).
Proof. unfold smap_ok. by rewrite !fmap_app, <- app_assoc. Qed.

(** Limits that a string, an attribute or a child in memory obeys. *)
Definition fits (n : Z) : Prop := 0 <= n < 2 ^ 64.
Definition attr_fits (x : string * (Z * Z)) : Prop :=
  fits (Z.of_nat (String.length x.1)) /\ fits x.2.2.

Lemma load_xattrs_run m acc rest e0 w0 xs e w :
  pickle_xattrs m e0 w0 = Ok xs w0 ->
  smap_ok (acc ++ m) -> Forall attr_fits m -> (forall n, can_alloc e n = true) ->
  heap_ok (heap w) ->
  exists m' h, load_xattrs (length m) (xs ++ rest) acc e w
    = Ok (true, acc ++ m', rest) (set_heap h w) /\
    heap_ext (heap w) h /\ Forall2 (same_attr (heap w0) h) m m'.
Proof.
  revert acc xs w. induction m as [|[k [ptr n]] m IH]; intros acc xs w Hp Hs Hf Ha Hh.
  { injection Hp as <-. exists [], (heap w). rewrite app_nil_r. simpl.
    split; [by destruct w|]. split; [by apply heap_ext_refl|done]. }
  simpl in Hp. apply bind_Ok in Hp as (v & w1 & Hv & Hp). apply xread_Ok in Hv as [Hv ->].
  apply bind_Ok in Hp as (xs' & w1 & Hx & Hp). injection Hp as <- ->.
  apply list.Forall_cons in Hf as [[Hfk Hfn] Hf]. simpl in Hfk, Hfn.
  pose proof (xvalue_length _ _ _ Hv) as Hlen. simpl in Hlen.
  simpl load_xattrs. unfold mbind, M_bind. rewrite <- !app_assoc.
  rewrite read_size_t_app by done.
  rewrite read_n_app by (unfold string_bytes; by rewrite list_byte_length).
  rewrite read_size_t_app by done. simpl. rewrite Ha. simpl. rewrite read_n_app by done.
  pose proof (heap_put_ext _ v Hh) as He1. fold (heap_put (heap w) v).
  set (h1 := heap_put (heap w) v) in *.
  assert (Hb1 : blocks h1 !! next_addr (heap w) = Some v) by apply lookup_insert_eq.
  rewrite bytes_string_bytes.
  destruct (smap_insert_last k (next_addr (heap w), n) acc (smap_ok_app _ _ _ _ Hs))
    as [Hins Hfind].
  unfold smap_add. rewrite Hfind, Hins.
  destruct (IH (acc ++ [(k, (next_addr (heap w), n))]) xs' (set_heap h1 w))
    as (m' & h & Hrun & Hext & Hall); try done.
  { by eapply smap_ok_value. }
  { apply He1. }
  rewrite Hrun. exists ((k, (next_addr (heap w), n)) :: m'), h.
  rewrite <- app_assoc. split; [done|]. simpl in Hext.
  split; [by eapply heap_ext_trans|]. constructor; [|done].
  apply (same_attr_ext _ h1); [done|]. split; [done|]. split; [done|]. simpl.
  split; [by apply (proj2 (proj1 He1) _ v)|]. exists v. split; [done|]. unfold xvalue in *. simpl in *.
  destruct (n =? 0); [done|]. destruct Hh as [Hpos _].
  rewrite (proj2 (Z.eqb_neq _ _)) by lia. rewrite Hb1. simpl. subst n. apply mem_read_all.
Qed.

Lemma ret_Ok {A} (a b : A) e w w' : (mret a : M A) e w = Ok b w' -> a = b /\ w = w'.
Proof. by intros [= -> ->]. Qed.

(** ** Objects *)

Definition base_fits (b : Inode) : Prop :=
  valid entry_codec (m_fuseEntryParam b) /\ fits (m_nlookup b) /\
  smap_ok (m_xattr b) /\ Forall attr_fits (m_xattr b) /\ fits (zlen (m_xattr b)).

Definition same_base (h h' : xheap) (b b' : Inode) : Prop :=
  m_markedForDeletion b' = m_markedForDeletion b /\ m_nlookup b' = m_nlookup b /\
  m_fuseEntryParam b' = m_fuseEntryParam b /\
  Forall2 (same_attr h h') (m_xattr b) (m_xattr b').

Lemma Inode_Load_run b bs rest e0 w0 e w :
  Inode_Pickle b e0 w0 = Ok bs w0 -> base_fits b -> (forall n, can_alloc e n = true) ->
  heap_ok (heap w) ->
  exists b' h, Inode_Load (bs ++ rest) e w = Ok (zlen bs, b') (set_heap h w) /\
    heap_ext (heap w) h /\ same_base (heap w0) h b b'.
Proof.
  intros Hp (Hv & Hn & Hs & Hf & Hx) Ha Hh.
  apply bind_Ok in Hp as (xs & w1 & Hxs & Hp).
  pose proof (pickle_xattrs_length _ _ _ _ _ Hxs) as [-> _].
  pose proof (enc_length entry_codec (m_fuseEntryParam b)) as HE.
  pose proof (dec_enc entry_codec (m_fuseEntryParam b) Hv) as HD. revert HE HD Hp.
  generalize (enc entry_codec (m_fuseEntryParam b)). intros E HE HD Hp.
  apply ret_Ok in Hp as [<- _].
  destruct (load_xattrs_run (m_xattr b) [] rest e0 w0 xs e w Hxs Hs Hf Ha Hh)
    as (m' & h & Hrun & Hext & Hall).
  eexists (mkInode (m_markedForDeletion b) (m_nlookup b) (m_fuseEntryParam b) m'), h.
  split; [|split; [exact Hext|split; [done|split; [done|split; [done|exact Hall]]]]].
  unfold Inode_Load, mbind, M_bind.
  rewrite <- !app_assoc.
  rewrite (read_n_app (bool_byte (m_markedForDeletion b))) by done.
  rewrite read_size_t_app by done. rewrite (read_n_app E) by (rewrite HE; done).
  rewrite read_size_t_app by done. rewrite Nat2Z.id. rewrite Hrun. simpl app.
  unfold mret, M_ret. f_equal. f_equal.
  - simpl length. rewrite !length_app. lia.
  - rewrite HD. f_equal. by destruct (m_markedForDeletion b).
Qed.

Definition child_fits (c : string * Z) : Prop :=
  fits c.2 /\ fits (Z.of_nat (String.length c.1)).

Lemma load_children_run l rest e w :
  Forall child_fits l ->
  load_children (length l) (mjoin (pickle_child <$> l) ++ rest) e w = Ok (l, rest) w.
Proof.
  induction l as [|[n i] l IH]; intros Hf; [done|]. apply list.Forall_cons in Hf as [[H1 H2] Hf].
  change (mjoin (pickle_child <$> (n, i) :: l))
    with (pickle_child (n, i) ++ mjoin (pickle_child <$> l)).
  unfold pickle_child at 1. simpl fst in *. simpl snd in *. rewrite <- !app_assoc.
  simpl load_children. unfold mbind, M_bind. rewrite !read_size_t_app by done.
  rewrite read_n_app by (unfold string_bytes; by rewrite list_byte_length).
  rewrite IH by done. by rewrite bytes_string_bytes.
Qed.

(** The limits of the data of an object; a link and a file have the size their
    attributes say. *)
Definition data_fits (i : inode) : Prop :=
  match derived i with
  | File b => fits (st_size (attr i)) /\ st_blksize (attr i) = BufBlockSize /\
      0 <= st_blocks (attr i) /\
      zlen b = BufBlockSize * st_blocks (attr i) /\ zlen b < 2 ^ 64 /\
      st_size (attr i) <= zlen b
  | Directory l => fits (zlen l) /\ Forall child_fits l
  | SymLink s => st_size (attr i) = Z.of_nat (String.length s) /\ fits (st_size (attr i))
  | SpecialInode _ =>
      S_ISCHR (GetMode i) || S_ISBLK (GetMode i) || S_ISSOCK (GetMode i)
      || S_ISFIFO (GetMode i) || (GetMode i =? 0) = true
  end.

Definition same_data (i i' : inode) : Prop :=
  match derived i, derived i' with
  | File b, File b' =>
      let n := Z.to_nat (st_size (attr i)) in take n b' = take n b /\ length b' = length b
  | d, d' => d' = d
  end.

Definition same_object (h h' : xheap) (i i' : inode) : Prop :=
  same_base h h' (base i) (base i') /\ same_data i i'.

Definition picklable (i : inode) : Prop :=
  base_fits (base i) /\ data_fits i /\ class_matches i = true.

Lemma load_File_run i buf bs rest e0 w0 e w :
  derived i = File buf -> File_Pickle i buf e0 w0 = Ok bs w0 -> picklable i ->
  (forall n, can_alloc e n = true) -> heap_ok (heap w) ->
  exists i' h, File_Load (bs ++ rest) e w = Ok (zlen bs, i') (set_heap h w) /\
    heap_ext (heap w) h /\ same_object (heap w0) h i i'.
Proof.
  intros Hd Hp (Hb & Hdat & _) Ha Hh. unfold data_fits in Hdat. rewrite Hd in Hdat.
  destruct Hdat as (Hsz & Hblk & Hbl & Hlen & Hlt & Hle). unfold fits in Hsz.
  apply bind_Ok in Hp as (b1 & w1 & Hb1 & Hp).
  pose proof (Inode_Pickle_length _ _ _ _ _ Hb1) as [-> _].
  rewrite u64_small in Hp by lia.
  destruct (mem_read buf 0 (st_size (attr i))) as [data|] eqn:Hm; [|done].
  injection Hp as <-. pose proof (mem_read_length _ _ _ _ Hm) as Hdl.
  rewrite <- app_assoc.
  destruct (Inode_Load_run (base i) b1 (data ++ rest) e0 w0 e w Hb1 Hb Ha Hh)
    as (b' & h & Hrun & Hext & Hsame).
  pose proof Hsame as (_ & _ & Hent & _).
  unfold File_Load, ask, mbind, M_bind. cbv beta iota.
  rewrite Hrun, Hent. fold (attr i). rewrite Hblk.
  rewrite (u64_small (st_size (attr i))), (u64_small (st_blocks (attr i))), <- Hlen
    by (unfold BufBlockSize in *; lia).
  rewrite u64_small, Ha by lia. cbv beta iota delta [negb].
  replace (drop (Z.to_nat (zlen b1)) (b1 ++ data ++ rest)) with (data ++ rest)
    by (rewrite Nat2Z.id; by rewrite drop_app_length).
  rewrite read_n_app by done.
  assert (Hz : zlen (zeros (zlen buf)) = zlen buf) by (unfold zeros; len).
  rewrite mem_write_Some by lia. cbv beta iota delta [get_or mret M_ret].
  eexists (mkObject b' (File (_ ++ _ ++ _))), h.
  split; [|split; [done|split; [exact Hsame|]]].
  - f_equal. f_equal. rewrite length_app. lia.
  - unfold same_data. rewrite Hd. simpl. split.
    + rewrite take_app_length' by lia.
      rewrite mem_read_Some in Hm by lia. by injection Hm as <-.
    + rewrite length_app, length_drop. unfold zeros in *. rewrite length_replicate. lia.
Qed.

(** The data behind what [Inode_Load] consumed. *)
Lemma drop_zlen (a b : list byte) : drop (Z.to_nat (zlen a)) (a ++ b) = b.
Proof. by rewrite Nat2Z.id, drop_app_length. Qed.

Lemma load_Directory_run i l bs rest e0 w0 e w :
  derived i = Directory l -> Directory_Pickle i l e0 w0 = Ok bs w0 -> picklable i ->
  (forall n, can_alloc e n = true) -> heap_ok (heap w) ->
  exists i' h, Directory_Load (bs ++ rest) e w = Ok (zlen bs, i') (set_heap h w) /\
    heap_ext (heap w) h /\ same_object (heap w0) h i i'.
Proof.
  intros Hd Hp (Hb & Hdat & _) Ha Hh. unfold data_fits in Hdat. rewrite Hd in Hdat.
  destruct Hdat as (Hn & Hc). apply bind_Ok in Hp as (b1 & w1 & Hb1 & Hp).
  pose proof (Inode_Pickle_length _ _ _ _ _ Hb1) as [-> _].
  apply ret_Ok in Hp as [<- _].
  destruct (Inode_Load_run (base i) b1
              (size_t (zlen l) ++ mjoin (pickle_child <$> l) ++ rest) e0 w0 e w Hb1 Hb Ha Hh)
    as (b' & h & Hrun & Hext & Hsame).
  exists (mkObject b' (Directory l)), h.
  split; [|split; [done|split; [exact Hsame|]]]; [|unfold same_data; by rewrite Hd].
  unfold Directory_Load, mbind, M_bind. rewrite <- !app_assoc, Hrun, drop_zlen.
  rewrite read_size_t_app, Nat2Z.id, load_children_run by done.
  unfold mret, M_ret. f_equal. f_equal. rewrite !length_app. lia.
Qed.

Lemma load_SymLink_run i s bs rest e0 w0 e w :
  derived i = SymLink s -> SymLink_Pickle i s e0 w0 = Ok bs w0 -> picklable i ->
  (forall n, can_alloc e n = true) -> heap_ok (heap w) ->
  exists i' h, SymLink_Load (bs ++ rest) e w = Ok (zlen bs, i') (set_heap h w) /\
    heap_ext (heap w) h /\ same_object (heap w0) h i i'.
Proof.
  intros Hd Hp (Hb & Hdat & _) Ha Hh. unfold data_fits in Hdat. rewrite Hd in Hdat.
  destruct Hdat as (Hn & Hc). apply bind_Ok in Hp as (b1 & w1 & Hb1 & Hp).
  pose proof (Inode_Pickle_length _ _ _ _ _ Hb1) as [-> _].
  apply ret_Ok in Hp as [<- _].
  destruct (Inode_Load_run (base i) b1 (string_bytes s ++ rest) e0 w0 e w Hb1 Hb Ha Hh)
    as (b' & h & Hrun & Hext & Hsame). pose proof Hsame as (_ & _ & Hent & _).
  exists (mkObject b' (SymLink s)), h.
  split; [|split; [done|split; [exact Hsame|]]]; [|unfold same_data; by rewrite Hd].
  unfold SymLink_Load, mbind, M_bind. rewrite <- !app_assoc, Hrun, drop_zlen, Hent.
  fold (attr i). rewrite u64_small by exact Hc.
  assert (Hl : zlen (string_bytes s) = st_size (attr i))
    by (unfold string_bytes; by rewrite list_byte_length).
  rewrite read_n_app by done. unfold mret, M_ret. rewrite bytes_string_bytes.
  f_equal. f_equal. rewrite length_app. lia.
Qed.

Lemma type_of_type_code t : type_of_code (type_code t) = Some t.
Proof. by destruct t. Qed.

Lemma load_Special_run i t bs rest e0 w0 e w :
  derived i = SpecialInode t -> SpecialInode_Pickle i t e0 w0 = Ok bs w0 -> picklable i ->
  (forall n, can_alloc e n = true) -> heap_ok (heap w) ->
  exists i' h, SpecialInode_Load (bs ++ rest) e w = Ok (zlen bs, i') (set_heap h w) /\
    heap_ext (heap w) h /\ same_object (heap w0) h i i'.
Proof.
  intros Hd Hp (Hb & _ & _) Ha Hh. apply bind_Ok in Hp as (b1 & w1 & Hb1 & Hp).
  pose proof (Inode_Pickle_length _ _ _ _ _ Hb1) as [-> _].
  apply ret_Ok in Hp as [<- _].
  destruct (Inode_Load_run (base i) b1 (le_bytes 4 (type_code t) ++ rest) e0 w0 e w Hb1 Hb Ha Hh)
    as (b' & h & Hrun & Hext & Hsame).
  exists (mkObject b' (SpecialInode t)), h.
  split; [|split; [done|split; [exact Hsame|]]]; [|unfold same_data; by rewrite Hd].
  unfold SpecialInode_Load, mbind, M_bind. rewrite <- !app_assoc, Hrun, drop_zlen.
  rewrite read_n_app by (by rewrite le_bytes_length).
  replace (le_value (le_bytes 4 (type_code t))) with (type_code t) by (by destruct t).
  rewrite type_of_type_code. unfold mret, M_ret. simpl get_or. unfold mret, M_ret.
  f_equal. f_equal. rewrite length_app, le_bytes_length. lia.
Qed.

(** Whatever the class, the branch of [load_file_system] for the recorded mode
    reads back the object that [Pickle] wrote. *)
Lemma load_object_run i bs rest e0 w0 e w :
  Pickle i e0 w0 = Ok bs w0 -> picklable i ->
  (forall n, can_alloc e n = true) -> heap_ok (heap w) ->
  exists i' h, load_object (GetMode i) (bs ++ rest) e w
    = Ok (Some (zlen bs, i')) (set_heap h w) /\
    heap_ext (heap w) h /\ same_object (heap w0) h i i'.
Proof.
  intros Hp Hok Ha Hh. pose proof Hok as (_ & Hdat & Hc).
  unfold Pickle, data_fits, class_matches, load_object in *.
  destruct (derived i) as [buf|l|ty|s] eqn:Hd.
  - destruct (load_File_run _ _ _ rest _ _ e w Hd Hp Hok Ha Hh) as (i' & h & Hrun & H).
    exists i', h. split; [|done]. rewrite Hc. unfold mbind, M_bind. by rewrite Hrun.
  - destruct (load_Directory_run _ _ _ rest _ _ e w Hd Hp Hok Ha Hh) as (i' & h & Hrun & H).
    exists i', h. split; [|done]. unfold S_ISREG. rewrite (mode_is_other _ S_IFREG _ Hc) by done.
    rewrite Hc. unfold mbind, M_bind. by rewrite Hrun.
  - destruct (load_Special_run _ _ _ rest _ _ e w Hd Hp Hok Ha Hh) as (i' & h & Hrun & H).
    exists i', h. split; [|done]. rewrite Hdat.
    destruct (S_ISREG (GetMode i)); [done|]. destruct (S_ISDIR (GetMode i)); [done|].
    destruct (S_ISLNK (GetMode i)); [done|].
    unfold mbind, M_bind. by rewrite Hrun.
  - destruct (load_SymLink_run _ _ _ rest _ _ e w Hd Hp Hok Ha Hh) as (i' & h & Hrun & H).
    exists i', h. split; [|done]. unfold S_ISREG, S_ISDIR.
    rewrite (mode_is_other _ S_IFREG _ Hc), (mode_is_other _ S_IFDIR _ Hc) by done.
    rewrite Hc. unfold mbind, M_bind. by rewrite Hrun.
Qed.

Lemma same_object_ext h h1 h2 i i' :
  heap_ext h1 h2 -> same_object h h1 i i' -> same_object h h2 i i'.
Proof.
  intros He ((H1 & H2 & H3 & H4) & Hd). split; [|done]. repeat (split; [done|]).
  eapply Forall2_impl; [|exact H4]. intros x y. by apply same_attr_ext.
Qed.

(** ** Tables *)

(** The bytes of a run of writes. *)
Definition bytes_of (cs : list chunk) : list byte := mjoin (ck_data <$> cs).

Lemma bytes_of_app a b : bytes_of (a ++ b) = bytes_of a ++ bytes_of b.
Proof. unfold bytes_of. by rewrite fmap_app, join_app. Qed.

Definition rotations (cs : list chunk) : nat := length (filter (fun c => ck_rotates c = true) cs).

Lemma rotations_app a b : rotations (a ++ b) = (rotations a + rotations b)%nat.
Proof. unfold rotations. by rewrite list.filter_app, length_app. Qed.

(** A run of [then_chunks] that did not throw. *)
Lemma then_chunks_Ok a m e w cs w' :
  then_chunks a m e w = Ok (cs, None) w' ->
  exists b, a.2 = None /\ m e w = Ok (b, None) w' /\ cs = a.1 ++ b.
Proof.
  destruct a as [ca [err|]]; unfold then_chunks; simpl; intros H; [by injection H|].
  apply bind_Ok in H as ([b err] & w1 & Hm & H). injection H as <- -> <-.
  by exists b.
Qed.

(** A slot that was written. *)
Lemma pickle_slot_Ok o e w cs w' :
  pickle_slot o e w = Ok (cs, None) w' ->
  w' = w /\ rotations cs = 0%nat /\
  match o with
  | None => bytes_of cs = enc inode_state_codec (false, 0)
  | Some i => exists bs, Pickle i e w = Ok bs w /\ 0 < zlen bs /\
      bytes_of cs = enc inode_state_codec (true, GetMode i) ++ bs
  end.
Proof.
  unfold pickle_slot. destruct o as [i|]; intros H.
  2: { apply ret_Ok in H as [[= <-] ->]. split; [done|]. split; [done|].
       unfold bytes_of. simpl. by rewrite app_nil_r. }
  apply bind_Ok in H as (e' & w1 & He & H). injection He as <- <-.
  destruct (can_alloc e (GetPickledSize i)); [|done].
  cbv beta iota delta [negb] in H.
  apply bind_Ok in H as (b & w1 & Hb & H).
  destruct (mem_write _ 0 b) as [data|] eqn:Hw; [|done].
  apply bind_Ok in H as (d & w2 & Hd & H). injection Hd as <- <-.
  apply ret_Ok in H as [H <-]. apply (f_equal fst) in H. cbv beta iota delta [fst] in H.
  subst cs.
  assert (Hlen : zlen (mem_resize (junk e) [] (GetPickledSize i)) = GetPickledSize i).
  { apply mem_resize_length. unfold GetPickledSize. apply u64_range. }
  assert (Hfit : zlen b <= GetPickledSize i).
  { unfold mem_write in Hw. destruct (in_block _ 0 _) eqn:E in Hw; [|done].
    apply in_block_true in E as (_ & _ & E). lia. }
  destruct (Pickle_length _ _ _ _ _ Hb) as [-> Hbl].
  { assert (GetPickledSize i < 2 ^ 64) by apply u64_range. lia. }
  split; [done|]. split; [done|]. exists b. split; [done|].
  rewrite mem_write_Some in Hw by lia. injection Hw as <-.
  split. 2: { unfold bytes_of. simpl. rewrite app_nil_r. f_equal.
    rewrite drop_ge by lia. by rewrite app_nil_r. }
  unfold Pickle in Hb.
  assert (Hb' : exists b0 r, b = b0 ++ r /\ Inode_Pickle (base i) e w = Ok b0 w).
  { destruct (derived i); apply bind_Ok in Hb as (b0 & w1 & Hi & Hb);
      pose proof (Inode_Pickle_length _ _ _ _ _ Hi) as [-> _].
    - destruct (mem_read _ 0 _); [|done]. injection Hb as <-. by eexists _, _.
    - injection Hb as <-. by eexists _, _.
    - injection Hb as <-. by eexists _, _.
    - injection Hb as <-. by eexists _, _. }
  destruct Hb' as (b0 & r & -> & Hi). apply bind_Ok in Hi as (xs & w1 & _ & Hi).
  apply ret_Ok in Hi as [<- _]. simpl. lia.
Qed.

Lemma picklable_mode i : picklable i -> valid inode_state_codec (true, GetMode i).
Proof.
  intros ((Hv & _) & _ & _). destruct Hv as (_ & _ & Hs & _).
  destruct Hs as (_ & _ & _ & Hm & _). split; [done|]. split; [done|exact Hm].
Qed.

(** The objects of a table, holes left out. *)
Definition present (t : list (option inode)) : list inode := omap id t.

(** The loop of [load_file_system] over the table reads back the objects of the
    table that the loop of [pickle_file_system] wrote. *)
Lemma load_slots_run t e0 w0 cs w1 :
  pickle_slots t e0 w0 = Ok (cs, None) w1 -> slots picklable t ->
  w1 = w0 /\ rotations cs = 0%nat /\
  forall rest e w, (forall n, can_alloc e n = true) -> heap_ok (heap w) ->
  exists objs h, load_slots (length t) (bytes_of cs ++ rest) e w
    = Ok (objs, inr rest) (set_heap h w) /\
    heap_ext (heap w) h /\ Forall2 (same_object (heap w0) h) (present t) objs.
Proof.
  revert cs. induction t as [|o t IH]; intros cs Hp Hs; simpl in Hp.
  { injection Hp as <- <-. split; [done|]. split; [done|]. intros rest e w Ha Hh.
    exists [], (heap w). split; [by destruct w|]. split; [by apply heap_ext_refl|done]. }
  apply list.Forall_cons in Hs as [Ho Hs].
  apply bind_Ok in Hp as ([c err] & w2 & Hc & Hp).
  apply then_chunks_Ok in Hp as (cs' & Herr & Hp & ->). simpl in Herr. subst err.
  apply pickle_slot_Ok in Hc as (-> & Hr & Hc).
  destruct (IH _ Hp Hs) as (-> & Hr' & Hload). split; [done|].
  split; [rewrite rotations_app; simpl fst; by rewrite Hr, Hr'|]. intros rest e w Ha Hh.
  simpl fst. rewrite bytes_of_app, <- app_assoc. cbn [load_slots length].
  unfold mbind, M_bind. destruct o as [i|].
  - destruct Hc as (bs & Hb & Hpos & ->). rewrite <- app_assoc.
    rewrite read_n_app by (by rewrite enc_length).
    rewrite dec_enc by (by apply picklable_mode). cbv beta iota delta [negb].
    destruct (load_object_run i bs (bytes_of cs' ++ rest) e0 w0 e w Hb Ho Ha Hh)
      as (i' & h1 & Hrun & Hext & Hsame).
    rewrite Hrun. rewrite (proj2 (Z.eqb_neq (zlen bs) 0)) by lia. rewrite drop_zlen.
    destruct (Hload rest e (set_heap h1 w) Ha (proj1 Hext)) as (objs & h & Hrun2 & Hext2 & Hall).
    rewrite Hrun2. exists (i' :: objs), h. split; [done|].
    split; [by eapply heap_ext_trans|]. constructor; [|done]. by eapply same_object_ext.
  - rewrite Hc. rewrite read_n_app by (by rewrite enc_length).
    rewrite dec_enc by done. cbv beta iota delta [negb]. by apply Hload.
Qed.

Lemma pickle_numbers_bytes b q :
  bytes_of (pickle_numbers b q) = size_t (zlen q) ++ mjoin (size_t <$> q).
Proof.
  unfold bytes_of, pickle_numbers. rewrite fmap_cons. simpl. f_equal.
  rewrite <- list_fmap_compose. done.
Qed.

Lemma load_numbers_run q rest e w :
  Forall fits q ->
  load_numbers (length q) (mjoin (size_t <$> q) ++ rest) e w = Ok (q, rest) w.
Proof.
  induction q as [|z q IH]; intros Hf; [done|]. apply list.Forall_cons in Hf as [Hz Hf].
  change (mjoin (size_t <$> z :: q)) with (size_t z ++ mjoin (size_t <$> q)).
  rewrite <- app_assoc. simpl load_numbers. unfold mbind, M_bind.
  by rewrite read_size_t_app, IH by done.
Qed.

(** ** Checkpoints *)

Definition state_fits (s : verifs2_state) : Prop :=
  slots picklable (vs_inodes s) /\ fits (zlen (vs_inodes s)) /\
  Forall fits (vs_deleted s) /\ fits (zlen (vs_deleted s)) /\
  valid statvfs_codec (vs_stat s).

(** No slot of the table is free. *)
Definition full (t : list (option inode)) : Prop := Forall is_Some t.

Lemma full_present t : full t -> t = Some <$> present t.
Proof. induction 1 as [|o t [i ->] _ IH]; [done|]. simpl. by f_equal. Qed.

(** A loaded table has the objects of the saved one, holes left out. *)
Definition same_table (h h' : xheap) (t t' : list (option inode)) : Prop :=
  exists objs, t' = Some <$> objs /\ Forall2 (same_object h h') (present t) objs.

Definition same_state (h h' : xheap) (s s' : verifs2_state) : Prop :=
  same_table h h' (vs_inodes s) (vs_inodes s') /\
  vs_deleted s' = vs_deleted s /\ vs_stat s' = vs_stat s.

Lemma same_table_ext h h1 h2 t t' :
  heap_ext h1 h2 -> same_table h h1 t t' -> same_table h h2 t t'.
Proof.
  intros He (objs & -> & H). exists objs. split; [done|].
  eapply Forall2_impl; [|exact H]. intros x y. by apply same_object_ext.
Qed.

Lemma same_state_ext h h1 h2 s s' :
  heap_ext h1 h2 -> same_state h h1 s s' -> same_state h h2 s s'.
Proof. intros He (H & ?). split; [by eapply same_table_ext|done]. Qed.

Lemma plain_bytes a cs : bytes_of (plain a :: cs) = a ++ bytes_of cs.
Proof. done. Qed.

Lemma rotations_plain a cs : rotations (plain a :: cs) = rotations cs.
Proof. done. Qed.

Lemma rotations_numbers b q :
  rotations (pickle_numbers b q) = if b then length q else 0%nat.
Proof.
  unfold pickle_numbers. rewrite rotations_plain.
  induction q as [|z q IH]; [by destruct b|]. unfold rotations in *. rewrite fmap_cons.
  destruct b; simpl length in *; by rewrite <- IH.
Qed.

(** One entry of the pool is read back and inserted under its key. *)
Lemma load_stored_run key s e0 w0 cs w1 :
  pickle_stored key s e0 w0 = Ok (cs, None) w1 -> state_fits s -> fits key ->
  w1 = w0 /\ rotations cs = 0%nat /\
  forall rest e w, (forall n, can_alloc e n = true) -> heap_ok (heap w) ->
  state_pool w !! key = None ->
  exists s' h, load_stored (bytes_of cs ++ rest) e w
    = Ok (inr rest) (set_state_pool (<[key := s']> (state_pool w)) (set_heap h w)) /\
    heap_ext (heap w) h /\ same_state (heap w0) h s s'.
Proof.
  intros Hp (Hs & Hn & Hq & Hqn & Hst) Hk.
  apply then_chunks_Ok in Hp as (cs1 & _ & Hp & ->).
  apply bind_Ok in Hp as ([c err] & w2 & Hc & Hp).
  apply then_chunks_Ok in Hp as (cs2 & Herr & Hp & ->). simpl in Herr. subst err.
  apply ret_Ok in Hp as [Hp ->]. apply (f_equal fst) in Hp.
  cbv beta iota delta [fst] in Hp. subst cs2.
  destruct (load_slots_run _ _ _ _ _ Hc Hs) as (-> & Hr & Hload). split; [done|].
  simpl fst. split.
  { rewrite !rotations_app, rotations_numbers, Hr. done. }
  intros rest e w Ha Hh Hnone.
  rewrite !bytes_of_app, !plain_bytes, pickle_numbers_bytes. 
  change (bytes_of []) with (@nil byte).
  rewrite ?app_nil_r, <- !app_assoc. unfold load_stored, mbind, M_bind.
  rewrite !read_size_t_app by done. rewrite Nat2Z.id, ?app_nil_l.
  match goal with |- context [bytes_of c ++ ?r] =>
    destruct (Hload r e w Ha Hh) as (objs & h & -> & Hext & Hall) end.
  rewrite read_size_t_app by done. rewrite Nat2Z.id, load_numbers_run by done.
  rewrite read_n_app by (by rewrite enc_length). rewrite dec_enc by done.
  unfold insert_state, get, modify, mbind, M_bind, mret, M_ret. cbv beta iota.
  change (state_pool (set_heap h w)) with (state_pool w). rewrite Hnone.
  cbv beta iota delta [Z.eqb].
  exists (mkVerifs2State (Some <$> objs) (vs_deleted s) (vs_stat s)), h.
  split; [done|]. split; [done|]. split; [|done]. by exists objs.
Qed.

(** What the loaded pool [P'] holds after the entries [l] were added to [P]. *)
Definition pool_loaded (h h' : xheap) (l : list (Z * verifs2_state))
    (P P' : gmap Z verifs2_state) : Prop :=
  (forall k, k ∉ l.*1 -> P' !! k = P !! k) /\
  Forall (fun x => exists s', P' !! x.1 = Some s' /\ same_state h h' x.2 s') l.

Lemma load_pool_run l e0 w0 cs w1 :
  pickle_pool l e0 w0 = Ok (cs, None) w1 ->
  Forall (fun x => fits x.1 /\ state_fits x.2) l -> NoDup l.*1 ->
  w1 = w0 /\ rotations cs = 0%nat /\
  forall rest e w, (forall n, can_alloc e n = true) -> heap_ok (heap w) ->
  (forall k, k ∈ l.*1 -> state_pool w !! k = None) ->
  exists P h, load_pool (length l) (bytes_of cs ++ rest) e w
    = Ok (inr rest) (set_state_pool P (set_heap h w)) /\
    heap_ext (heap w) h /\ pool_loaded (heap w0) h l (state_pool w) P.
Proof.
  revert cs. induction l as [|[key s] l IH]; intros cs Hp Hf Hnd; simpl in Hp.
  { injection Hp as <- <-. split; [done|]. split; [done|]. intros rest e w Ha Hh _.
    exists (state_pool w), (heap w). split; [by destruct w|].
    split; [by apply heap_ext_refl|]. by split. }
  apply list.Forall_cons in Hf as [[Hk Hs] Hf]. apply list.NoDup_cons in Hnd as [Hnotin Hnd].
  apply bind_Ok in Hp as ([c err] & w2 & Hc & Hp).
  apply then_chunks_Ok in Hp as (cs' & Herr & Hp & ->). simpl in Herr. subst err.
  destruct (load_stored_run _ _ _ _ _ _ Hc Hs Hk) as (-> & Hr & Hload).
  destruct (IH _ Hp Hf Hnd) as (-> & Hr' & Hload'). split; [done|].
  split; [rewrite rotations_app; simpl fst; by rewrite Hr, Hr'|]. intros rest e w Ha Hh Hnone.
  simpl fst. rewrite bytes_of_app, <- app_assoc. cbn [load_pool length].
  unfold mbind, M_bind.
  destruct (Hload (bytes_of cs' ++ rest) e w Ha Hh) as (s' & h1 & -> & Hext & Hsame).
  { apply Hnone. simpl. set_solver. }
  set (w2 := set_state_pool _ (set_heap h1 w)).
  destruct (Hload' rest e w2 Ha (proj1 Hext)) as (P & h & -> & Hext2 & Hout & Hin).
  { intros k Hkl. unfold w2. simpl. rewrite lookup_insert_ne by (intros ->; done).
    apply Hnone. simpl. set_solver. }
  exists P, h. split; [done|]. split; [by eapply heap_ext_trans|]. split.
  - intros k Hkl. simpl in Hkl. rewrite Hout by set_solver.
    unfold w2. simpl. rewrite lookup_insert_ne; [done|]. set_solver.
  - constructor; [|done]. exists s'. simpl. split; [|by eapply same_state_ext].
    rewrite Hout by done. unfold w2. simpl. apply lookup_insert_eq.
Qed.

(** ** State files *)

(** What a state file can represent. *)
Definition world_fits (w : world) : Prop :=
  state_fits (mkVerifs2State (Inodes w) (DeletedInodes w) (m_stbuf w)) /\
  (forall k s, state_pool w !! k = Some s -> fits k /\ state_fits s) /\
  fits (Z.of_nat (size (state_pool w))).

Definition same_pool (h h' : xheap) (P P' : gmap Z verifs2_state) : Prop :=
  forall k, option_Forall2 (same_state h h') (P !! k) (P' !! k).

Lemma pool_loaded_all h h' P P' :
  pool_loaded h h' (map_to_list P) ∅ P' -> same_pool h h' P P'.
Proof.
  intros [Hout Hin] k. destruct (P !! k) as [s|] eqn:E.
  - apply elem_of_map_to_list in E. rewrite list.Forall_forall in Hin.
    destruct (Hin _ E) as (s' & Hs & Hsame). simpl in Hs. rewrite Hs. by constructor.
  - rewrite Hout; [by rewrite lookup_empty; constructor|].
    intros ([k' s] & -> & Hk)%list_elem_of_fmap. apply elem_of_map_to_list in Hk.
    simpl in E. congruence.
Qed.

(** The loaded world: the objects of [w0], in the memory of [w]. *)
Definition loads (w0 w w' : world) : Prop :=
  m_stbuf w' = m_stbuf w0 /\ DeletedInodes w' = DeletedInodes w0 /\
  same_table (heap w0) (heap w') (Inodes w0) (Inodes w') /\
  same_pool (heap w0) (heap w') (state_pool w0) (state_pool w') /\
  heap_ext (heap w) (heap w').

(** The number of an object in a loaded table: of the objects that stood in front of it. *)
Definition new_number (t : list (option inode)) (ino : Z) : Z :=
  zlen (present (take (Z.to_nat ino) t)).

Lemma new_number_full t ino :
  full t -> 0 <= ino -> ino < zlen t -> new_number t ino = ino.
Proof.
  intros Hf Hpos Hlt. unfold new_number. set (n := Z.to_nat ino).
  assert (Hl : length (take n t) = n) by (rewrite length_take; lia).
  rewrite (full_present (take n t)) in Hl by by apply Forall_take.
  rewrite length_fmap in Hl. lia.
Qed.

Lemma present_lookup t n i :
  t !! n = Some (Some i) -> present t !! length (present (take n t)) = Some i.
Proof.
  revert n. induction t as [|[j|] t IH]; intros [|n] H; simplify_eq/=; try done; by apply IH.
Qed.

Lemma loads_numbers w0 w w' :
  loads w0 w w' -> forall ino i, get_inode w0 ino = Some i ->
  exists i', get_inode w' (new_number (Inodes w0) ino) = Some i' /\
    same_object (heap w0) (heap w') i i' /\
    (full (Inodes w0) -> new_number (Inodes w0) ino = ino).
Proof.
  intros (_ & _ & (objs & Ht & Hobjs) & _) ino i Hi.
  pose proof (get_inode_range _ _ _ Hi) as Hr. apply get_inode_slot in Hi as [Hpos Hi].
  destruct (Forall2_lookup_l _ _ _ _ _ Hobjs (present_lookup _ _ _ Hi)) as (i' & Hi' & Hsame).
  exists i'. split; [|split; [done|]].
  - apply get_inode_Some, vec_at_Some. unfold new_number. rewrite Nat2Z.id. split; [lia|].
    by rewrite Ht, list_lookup_fmap, Hi'.
  - intros Hf. apply new_number_full; [done|lia|lia].
Qed.

Lemma load_file_system_run e0 w0 cs w1 :
  pickle_chunks e0 w0 = Ok (cs, None) w1 -> world_fits w0 ->
  w1 = w0 /\ rotations cs = length (DeletedInodes w0) /\
  forall e w, (forall n, can_alloc e n = true) -> heap_ok (heap w) ->
  Inodes w = [] -> DeletedInodes w = [] -> state_pool w = ∅ ->
  exists w', load_file_system (bytes_of cs) e w = Ok (zlen (bytes_of cs)) w' /\
    loads w0 w w'.
Proof.
  intros Hp ((Hs & Hn & Hq & Hqn & Hst) & Hpool & Hpn). simpl in Hs, Hn, Hq, Hqn, Hst.
  apply bind_Ok in Hp as (w' & w2 & Hg & Hp). injection Hg as <- <-.
  apply then_chunks_Ok in Hp as (cs1 & _ & Hp & ->).
  apply bind_Ok in Hp as ([c err] & w2 & Hc & Hp).
  apply then_chunks_Ok in Hp as (cs2 & Herr & Hp & ->). simpl in Herr. subst err.
  apply then_chunks_Ok in Hp as (cs3 & _ & Hp & ->).
  destruct (load_slots_run _ _ _ _ _ Hc Hs) as (-> & Hr & Hload).
  destruct (load_pool_run _ _ _ _ _ Hp) as (-> & Hr' & Hload').
  { apply list.Forall_forall. intros [k s] Hk%elem_of_map_to_list. by apply Hpool. }
  { apply NoDup_fst_map_to_list. }
  split; [done|]. cbv beta iota delta [fst].
  split.
  { rewrite !rotations_app, rotations_numbers, Hr, Hr', !rotations_plain.
    change (rotations []) with 0%nat. lia. }
  intros e w Ha Hh Hi Hd Hpe.
  rewrite !bytes_of_app, !plain_bytes, pickle_numbers_bytes.
  change (bytes_of []) with (@nil byte). rewrite ?app_nil_r, <- !app_assoc.
  set (all := enc statvfs_codec _ ++ _).
  unfold load_file_system, mbind, M_bind. unfold all at 1.
  rewrite read_n_app by (by rewrite enc_length). rewrite dec_enc by done.
  unfold modify. cbv beta iota. rewrite read_size_t_app by done. rewrite Nat2Z.id.
  match goal with |- context [bytes_of c ++ ?r] =>
    destruct (Hload r e (set_stbuf (m_stbuf w0) w) Ha Hh) as (objs & h & -> & Hext & Hall) end.
  rewrite read_size_t_app by done. rewrite Nat2Z.id, load_numbers_run by done.
  rewrite read_size_t_app by done. rewrite Nat2Z.id.
  rewrite <- length_map_to_list.
  match goal with |- context [load_pool _ _ e ?wx] =>
    destruct (Hload' [] e wx Ha (proj1 Hext)) as (P & h2 & Hrun & Hext2 & HP) end.
  { intros k _. simpl. by rewrite Hpe. }
  rewrite app_nil_r in Hrun. rewrite Hrun. unfold mret, M_ret.
  eexists. split; [f_equal; simpl length; lia|].
  split; [done|]. split; [simpl; by rewrite Hd|]. split; [|split].
  - simpl. rewrite Hi. exists objs. split; [done|].
    eapply Forall2_impl; [|exact Hall]. intros x y. by apply same_object_ext.
  - apply pool_loaded_all. simpl in HP. by rewrite Hpe in HP.
  - by eapply heap_ext_trans.
Qed.

(** The only error thrown while the chunks are produced is [ENOMEM], after the allocator
    refused a request, and the length of a chunk is a [size_t]. *)
Definition chunks_ok (e : env) (a : chunks) : Prop :=
  (forall err, a.2 = Some err -> err = ENOMEM /\ exists n, can_alloc e n = false) /\
  Forall (fun c => zlen (ck_data c) < 2 ^ 64) a.1.

Definition yields_chunks (m : M chunks) : Prop :=
  forall e w a w', m e w = Ok a w' -> chunks_ok e a.

Lemma then_chunks_run_ok a m e w c w' :
  chunks_ok e a -> yields_chunks m -> then_chunks a m e w = Ok c w' -> chunks_ok e c.
Proof.
  intros Ha Hm. destruct a as [ca [er|]]; unfold then_chunks; simpl.
  - by intros [= <- <-].
  - intros H. apply bind_Ok in H as (b & w1 & Hb & H). injection H as <- <-.
    destruct (Hm _ _ _ _ Hb) as [He Hf]. split; [done|]. simpl.
    apply Forall_app. split; [apply Ha|done].
Qed.

Lemma then_chunks_ok a m :
  (forall e, chunks_ok e a) -> yields_chunks m -> yields_chunks (then_chunks a m).
Proof. intros Ha Hm e w c w'. by apply then_chunks_run_ok. Qed.

Lemma bind_chunks_ok m k :
  yields_chunks m -> yields_chunks k -> yields_chunks (a ← m; then_chunks a k).
Proof.
  intros Hm Hk e w c w' H. apply bind_Ok in H as (a & w1 & Ha & H).
  apply (then_chunks_run_ok _ _ _ _ _ _ (Hm _ _ _ _ Ha) Hk H).
Qed.

Lemma ret_chunks_ok cs : (forall e, chunks_ok e (cs, None)) -> yields_chunks (mret (cs, None)).
Proof. by intros Hc e w a w' [= <- <-]. Qed.

Lemma pickle_slot_ok o : yields_chunks (pickle_slot o).
Proof.
  unfold pickle_slot. intros e w a w' H. destruct o as [i|].
  2: { apply ret_Ok in H as [<- _]. split; [done|]. repeat constructor. }
  apply bind_Ok in H as (e' & w1 & He & H). injection He as <- <-.
  destruct (can_alloc e (GetPickledSize i)) eqn:Halloc; cbv beta iota delta [negb] in H.
  2: { apply ret_Ok in H as [<- _]. split; [|done]. intros err [= <-]. eauto. }
  apply bind_Ok in H as (b & w1 & Hb & H).
  destruct (mem_write _ 0 b) as [data|] eqn:Hw; [|done].
  apply bind_Ok in H as (d & w2 & Hd & H). injection Hd as <- <-.
  apply ret_Ok in H as [<- _]. split; [done|]. constructor; [done|].
  constructor; [|done]. cbn [ck_data plain]. rewrite (mem_write_length _ _ _ _ Hw).
  assert (0 <= GetPickledSize i < 2 ^ 64) by apply u64_range.
  rewrite mem_resize_length; lia.
Qed.

Lemma pickle_slots_ok t : yields_chunks (pickle_slots t).
Proof.
  induction t as [|o t IH]; [by apply ret_chunks_ok|]. cbn [pickle_slots].
  apply bind_chunks_ok; [apply pickle_slot_ok|done].
Qed.

Lemma pickle_numbers_ok b q cs :
  (forall e, chunks_ok e (cs, None)) -> forall e, chunks_ok e (pickle_numbers b q ++ cs, None).
Proof.
  intros Hc e. destruct (Hc e) as [_ Hf]. split; [done|]. unfold pickle_numbers. simpl fst. constructor; [done|].
  apply Forall_app. split; [|done]. apply Forall_fmap, list.Forall_forall. done.
Qed.

Lemma pickle_pool_ok l : yields_chunks (pickle_pool l).
Proof.
  induction l as [|[k s] l IH]; [by apply ret_chunks_ok|]. cbn [pickle_pool].
  apply bind_chunks_ok; [|done]. apply then_chunks_ok; [by split; [|repeat constructor]|].
  apply bind_chunks_ok; [apply pickle_slots_ok|].
  apply ret_chunks_ok, pickle_numbers_ok. split; [done|]. constructor; [|done].
  cbn [ck_data plain]. by rewrite enc_length.
Qed.

Lemma pickle_chunks_ok : yields_chunks pickle_chunks.
Proof.
  intros e w a w' H. apply bind_Ok in H as (w2 & w1 & Hg & H). injection Hg as <- <-.
  eapply then_chunks_ok; [| |exact H].
  { split; [done|]. constructor; [cbn [ck_data plain]; by rewrite enc_length|].
    repeat constructor. }
  apply bind_chunks_ok; [apply pickle_slots_ok|].
  apply then_chunks_ok; [|apply pickle_pool_ok].
  apply pickle_numbers_ok. split; [done|]. repeat constructor.
Qed.

Lemma rotations_cons c cs :
  rotations (c :: cs) = ((if ck_rotates c then 1 else 0) + rotations cs)%nat.
Proof. by destruct c as [d []]. Qed.

Lemma write_chunks_run h cs o :
  (forall pos n, write_result h pos n = n) ->
  Forall (fun c => zlen (ck_data c) < 2 ^ 64) cs ->
  write_chunks h cs o
  = (mkOut (out_data o ++ bytes_of cs) (out_hash o ++ bytes_of cs)
       (out_rotations o + rotations cs)%nat, true).
Proof.
  intros Hw. revert o. induction cs as [|c cs IH]; intros o Hf.
  { destruct o. simpl. unfold bytes_of. simpl. by rewrite !app_nil_r, Nat.add_0_r. }
  apply list.Forall_cons in Hf as [Hc Hf]. cbn [write_chunks]. rewrite Hw.
  rewrite u64_small by lia. rewrite Z.ltb_irrefl, IH by done. simpl out_data. simpl out_hash.
  rewrite Nat2Z.id, firstn_all, rotations_cons. unfold bytes_of. simpl.
  rewrite <- !app_assoc. f_equal. f_equal. lia.
Qed.

Section files.
Context (sha256 : list byte -> list byte) (Hsha : forall b, zlen (sha256 b) = 32).

(** The file that [pickle_verifs2] leaves for the data [d]. *)
Definition state_file (d : list byte) : list byte :=
  header_bytes (header_size + zlen d) (sha256 d) ++ d.

Lemma header_length n d : zlen (header_bytes n (sha256 d)) = header_size.
Proof.
  unfold header_bytes, size_t. rewrite length_app, le_bytes_length, Nat2Z.inj_add, Hsha.
  done.
Qed.

Lemma put_header_whole d :
  put_header (header_bytes (header_size + zlen d) (sha256 d)) d header_size = state_file d.
Proof.
  unfold put_header, state_file. pose proof (header_length (header_size + zlen d) d) as H.
  rewrite take_ge by lia. rewrite H, Z.sub_diag.
  change (zeros 0) with (@nil byte). destruct d; [|done]. cbn [is_nil]. by rewrite app_nil_r.
Qed.

Lemma verify_state_file_ok d :
  zlen (state_file d) < 2 ^ 64 -> verify_state_file sha256 (state_file d) = 0.
Proof.
  intros Hlt. unfold verify_state_file, state_file in *.
  pose proof (header_length (header_size + zlen d) d) as H.
  rewrite length_app in Hlt.
  rewrite (proj2 (Z.ltb_ge _ _)) by (rewrite length_app; lia).
  replace (drop (Z.to_nat header_size) _) with d.
  2: { symmetry. apply drop_app_length'. lia. }
  unfold header_bytes in *. rewrite <- !app_assoc.
  assert (H8 : length (size_t (header_size + zlen d)) = 8%nat) by apply le_bytes_length.
  rewrite take_app_length', drop_app_length' by done.
  rewrite take_app_length' by (pose proof (Hsha d); lia).
  replace (le_value (size_t (header_size + zlen d))) with (header_size + zlen d).
  2: { unfold size_t. rewrite le_value_bytes8, u64_small; [done|]. unfold header_size in *. lia. }
  unfold verify_file_size. rewrite (app_assoc _ _ d), length_app.
  rewrite (proj2 (Z.eqb_eq (Z.of_nat _) _)) by lia. simpl.
  unfold verify_file_integrity. by rewrite bool_decide_eq_true_2.
Qed.

(** A pickle that succeeded, when every write was complete. *)
Lemma pickle_verifs2_run h e0 w0 f w1 :
  (forall pos n, write_result h pos n = n) -> world_fits w0 ->
  pickle_verifs2 sha256 h e0 w0 = Ok (0, Some f) w1 ->
  w1 = w0 /\ exists cs, pickle_chunks e0 w0 = Ok (cs, None) w0 /\
    f = state_file (bytes_of cs).
Proof.
  intros Hw Hf H. apply bind_Ok in H as (p & w2 & Hp & H).
  assert (w2 = w0) as ->.
  { unfold fetch_filepath in Hp. destruct (cfg_file h); [by injection Hp|].
    apply bind_Ok in Hp as (e' & w3 & He & Hp). injection He as <- <-.
    by destruct (can_alloc e0 4096); injection Hp. }
  destruct p as [err|path]; [by injection H|]. destruct (open_out h path); [by injection H|].
  apply bind_Ok in H as ([[res o] filelen] & w2 & Hr & H).
  apply bind_Ok in Hr as ([cs err] & w3 & Hcs & Hr).
  pose proof (pickle_chunks_ok _ _ _ _ Hcs) as [Herr Hsm]. simpl in Herr, Hsm.
  cbv beta iota delta [fst snd] in Hr. rewrite (write_chunks_run h cs _ Hw Hsm) in Hr.
  apply bind_Ok in Hr as (u & w4 & Hm & Hr). injection Hm as _ <-.
  destruct err as [err|].
  { rewrite (proj1 (Herr err eq_refl)) in Hr. apply ret_Ok in Hr as [Hr <-]. injection Hr as <- _ _.
    apply ret_Ok in H as [H _]. by injection H. }
  destruct (load_file_system_run _ _ _ _ Hcs Hf) as (-> & Hrot & _).
  apply ret_Ok in Hr as [Hr <-]. injection Hr as <- <- <-.
  cbn [out_data out_hash out_rotations app] in H. rewrite Hw, Hrot in H.
  apply ret_Ok in H as [H <-]. split.
  - rewrite drop_all, firstn_all. by destruct w0.
  - exists cs. split; [done|]. injection H as <-. by rewrite put_header_whole.
Qed.

(** The path that a configuration file with content [cfg] names. *)
Definition config_path (cfg : list byte) : string :=
  bytes_string (until_null (take (Z.to_nat 4096) cfg)).

(** The host serves the configuration and the state file [f] that it names. *)
Definition serves (h : host) (f : list byte) : Prop :=
  exists cfg, cfg_file h = inr cfg /\ open_in h (config_path cfg) = inr f /\
    mmap_errno h = None.

Lemma fetch_run h cfg e w :
  cfg_file h = inr cfg -> can_alloc e 4096 = true ->
  fetch_filepath h e w = Ok (inr (config_path cfg)) w.
Proof.
  intros Hc Ha. unfold fetch_filepath. rewrite Hc.
  unfold ask, mbind, M_bind. cbv beta iota. by rewrite Ha.
Qed.

Lemma load_pickled h e0 w0 f w1 h' e w :
  (forall pos n, write_result h pos n = n) -> world_fits w0 ->
  pickle_verifs2 sha256 h e0 w0 = Ok (0, Some f) w1 -> zlen f < 2 ^ 64 ->
  serves h' f -> (forall n, can_alloc e n = true) -> heap_ok (heap w) ->
  w1 = w0 /\ verify_state_file sha256 f = 0 /\
  exists w', load_verifs2 sha256 h' e w = Ok 0 w' /\ loads w0 w w'.
Proof.
  intros Hw Hf H Hlt (cfg & Hcfg & Hin & Hmm) Ha Hh.
  destruct (pickle_verifs2_run _ _ _ _ _ Hw Hf H) as (-> & cs & Hcs & ->).
  pose proof (verify_state_file_ok _ Hlt) as Hv. split; [done|]. split; [done|].
  destruct (load_file_system_run _ _ _ _ Hcs Hf) as (_ & _ & Hload).
  destruct (Hload e (set_DeletedInodes [] (set_Inodes [] (set_state_pool ∅ w))) Ha Hh
    eq_refl eq_refl eq_refl) as (w' & Hrun & Hl).
  exists w'. split; [|done]. pose proof (fetch_run h' cfg e w Hcfg (Ha _)) as Hp.
  unfold load_verifs2, mbind, M_bind. rewrite Hp, Hin, Hv, Hmm.
  unfold clear_states, modify. cbv beta iota delta [Z.ltb Z.compare Z.eqb].
  unfold state_file at 1. rewrite drop_app_length' by
    (pose proof (header_length (header_size + zlen (bytes_of cs)) (bytes_of cs)); lia).
  match goal with |- match ?m with _ => _ end = _ =>
    replace m with (Ok (zlen (bytes_of cs)) w') by (symmetry; exact Hrun) end.
  done.
Qed.

(** A state file that [pickle_verifs2] wrote with complete writes passes
    [verify_state_file], pickling leaves the file system as it was, and
    [load_verifs2] of that file, in any process whose allocator works, gives back
    the counters, the queue of deleted numbers, the objects of the table in
    order and every checkpoint of the pool under its key. *)
Theorem pickle_then_load h e0 w0 f w1 h' e w :
  (forall pos n, write_result h pos n = n) -> world_fits w0 ->
  pickle_verifs2 sha256 h e0 w0 = Ok (0, Some f) w1 -> zlen f < 2 ^ 64 ->
  serves h' f -> (forall n, can_alloc e n = true) -> heap_ok (heap w) ->
  w1 = w0 /\ verify_state_file sha256 f = 0 /\
  exists w', load_verifs2 sha256 h' e w = Ok 0 w' /\ loads w0 w w'.
Proof. apply load_pickled. Qed.

(** C30. [load_verifs2] of a file that is too short, whose recorded size is not its
    size, or whose digest does not match, answers with the error for it and
    leaves the file system and the pool as they were. *)
Theorem load_rejects_damaged_file h f e w :
  serves h f -> can_alloc e 4096 = true ->
  (zlen f < header_size -> load_verifs2 sha256 h e w = Ok (- ENOSPC) w) /\
  (header_size <= zlen f -> le_value (take 8 f) <> zlen f ->
     load_verifs2 sha256 h e w = Ok (- EMSGSIZE) w) /\
  (header_size <= zlen f -> le_value (take 8 f) = zlen f ->
     sha256 (drop (Z.to_nat header_size) f) <> take 32 (drop 8 f) ->
     load_verifs2 sha256 h e w = Ok (- EINVAL) w).
Proof.
  intros (cfg & Hcfg & Hin & Hmm) Ha.
  pose proof (fetch_run h cfg e w Hcfg Ha) as Hp.
  unfold load_verifs2, mbind, M_bind. rewrite Hp, Hin. unfold verify_state_file.
  split; [|split].
  - intros Hl. by rewrite (proj2 (Z.ltb_lt (zlen f) _)) by done.
  - intros Hl Hne. rewrite (proj2 (Z.ltb_ge (zlen f) _)) by done. unfold verify_file_size.
    by rewrite (proj2 (Z.eqb_neq (zlen f) _)) by congruence.
  - intros Hl He Hne. rewrite (proj2 (Z.ltb_ge (zlen f) _)) by done. unfold verify_file_size.
    rewrite He, Z.eqb_refl. unfold verify_file_integrity.
    by rewrite bool_decide_eq_false_2 by done.
Qed.
End files.
