(* ===== verification/Returns.v ===== *)
(** * Code that returns

    Computations that end with a result and not in a crash, how they compose, and that
    pickling is one where the values of extended attributes are in memory. *)

From S2P Require Import Prelude World Util Table InodeOps FileOps DirectoryOps Nodes.
From S2P Require Import Handlers CkptRestore Codec Pickle Requests Invariant Runs.
From S2P Require Import Attributes Memory PickleSpec.

(** ** Composition *)

Definition returns {A} (m : M A) (e : env) (w : world) : Prop :=
  exists a w', m e w = Ok a w'.

Lemma returns_bind {A B} (m : M A) (k : A -> M B) e w :
  returns m e w -> (forall a w', m e w = Ok a w' -> returns (k a) e w') ->
  returns (m ≫= k) e w.
Proof.
  intros (a & w' & H) Hk. destruct (Hk a w' H) as (b & w2 & H2). exists b, w2.
  unfold mbind, M_bind. by rewrite H.
Qed.

Lemma returns_ret {A} (a : A) e w : returns (mret a) e w.
Proof. by exists a, w. Qed.
Lemma returns_modify f e w : returns (modify f) e w.
Proof. by exists tt, (f w). Qed.
Lemma returns_reply_error n e w : returns (reply_error n) e w.
Proof. apply returns_modify. Qed.
Lemma returns_send r e w : returns (send r) e w.
Proof. apply returns_modify. Qed.
Lemma returns_get {A} (k : world -> M A) e w : returns (k w) e w -> returns (w ← get; k w) e w.
Proof. done. Qed.
Lemma returns_ask {A} (k : env -> M A) e w : returns (k e) e w -> returns (e ← ask; k e) e w.
Proof. done. Qed.
Lemma returns_GetInode {A} p (k : option inode -> M A) e w :
  returns (k (get_inode w p)) e w -> returns (o ← GetInode p; k o) e w.
Proof. done. Qed.
Lemma returns_free {A} (k : Z -> M A) e w :
  (forall n, returns (k n) e w) -> returns (n ← GetFreeInodes; k n) e w.
Proof. intros H. apply H. Qed.
Lemma returns_space {A} o n (k : bool -> M A) e w :
  (forall b, returns (k b) e w) -> returns (b ← CheckHasSpaceFor o n; k b) e w.
Proof. intros H. apply H. Qed.

#[export] Hint Resolve returns_ret returns_modify returns_reply_error returns_send : verifs.

(** ** Pickling *)

(** The extended attributes of the object are in memory. *)
Definition values_held (h : xheap) (i : inode) : Prop :=
  Forall (fun x => exists b, holds h x.2 b) (m_xattr (base i)).

Lemma holds_value h v b : holds h v b -> xvalue h v = Some b.
Proof.
  intros [Hl Hb]. unfold xvalue. rewrite Hl. destruct Hb as [[-> ->]|[Hz Hb]]; [done|].
  destruct (Z.eqb_spec (zlen b) 0) as [E|E]; [by destruct b|].
  rewrite (proj2 (Z.eqb_neq _ _) Hz), Hb. simpl. apply mem_read_all.
Qed.

Lemma Inode_Pickle_returns b e w :
  Forall (fun x => exists v, holds (heap w) x.2 v) (m_xattr b) ->
  exists bs, Inode_Pickle b e w = Ok bs w.
Proof.
  intros H. unfold Inode_Pickle.
  assert (exists xs, pickle_xattrs (m_xattr b) e w = Ok xs w) as [xs Hx].
  { induction H as [|[k [ptr n]] m [v Hv] _ [rest IH]]; simpl; [by eexists|].
    apply holds_value in Hv. unfold mbind, M_bind.
    rewrite (proj2 (xread_Ok ptr n e w v w) (conj Hv eq_refl)), IH. by eexists. }
  unfold mbind, M_bind. rewrite Hx. by eexists.
Qed.

Lemma Pickle_returns ino i e w :
  object_ok ino i -> values_held (heap w) i ->
  exists bs, Pickle i e w = Ok bs w /\ zlen bs = pickled_bytes i.
Proof.
  intros Hi Hv. destruct (Inode_Pickle_returns (base i) e w Hv) as [b Hb].
  pose proof (proj2 (Inode_Pickle_length _ _ _ _ _ Hb)) as Hlen.
  pose proof (obj_data _ _ Hi) as Hd. unfold Pickle. autounfold with pickled.
  destruct (derived i) as [buf|l|ty|s] eqn:Ed; cbn beta iota in Hd;
    unfold File_Pickle, Directory_Pickle, SymLink_Pickle, SpecialInode_Pickle, mbind, M_bind;
    rewrite Hb.
  - destruct Hd as (c & buf' & Ed' & Hs & Hlt & Hblk & Hbuf & Hc).
    assert (buf' = buf) as -> by congruence.
    assert (length c <= length buf)%nat by (rewrite <- Hc, length_take; lia).
    rewrite Hs, u64_small by lia. rewrite mem_read_Some by lia.
    eexists. split; [done|]. rewrite length_app, drop_0, length_take. lia.
  - eexists. split; [done|]. pose proof (children_length l).
    unfold size_t. rewrite !length_app, le_bytes_length. lia.
  - eexists. split; [done|]. rewrite length_app, le_bytes_length. lia.
  - eexists. split; [done|]. unfold string_bytes. rewrite length_app, list_byte_length. lia.
Qed.

(** The object can be written to a state file. *)
Definition can_pickle (h : xheap) (i : inode) : Prop :=
  (exists ino, object_ok ino i) /\ values_held h i /\ pickled_bytes i < 2 ^ 64.

Lemma pickle_slot_returns o e w :
  (forall i, o = Some i -> can_pickle (heap w) i) -> exists cs, pickle_slot o e w = Ok cs w.
Proof.
  intros Ho. destruct o as [i|]; [|by eexists]. destruct (Ho i eq_refl) as ([ino Hi] & Hv & Hs).
  unfold pickle_slot, mbind, M_bind. simpl. destruct (can_alloc _ _); simpl; [|by eexists].
  destruct (Pickle_returns ino i e w Hi Hv) as (bs & -> & Hl).
  change (GetPickledSize i) with (u64 (pickled_bytes i)). rewrite u64_small by lia.
  assert (zlen (mem_resize (junk e) [] (pickled_bytes i)) = pickled_bytes i) as Hm
    by (apply mem_resize_length; lia).
  rewrite mem_write_Some by lia. by eexists.
Qed.

Lemma pickle_slots_returns t e w :
  slots (can_pickle (heap w)) t -> exists cs, pickle_slots t e w = Ok cs w.
Proof.
  induction t as [|o t IH]; intros H; [by eexists|]. apply list.Forall_cons in H as [Ho Ht].
  destruct (pickle_slot_returns o e w) as [[cs [err|]] Hc]; [by intros i ->| |].
  - simpl. unfold mbind, M_bind. rewrite Hc. by eexists.
  - destruct (IH Ht) as [ds Hd]. simpl. unfold mbind, M_bind. rewrite Hc.
    unfold then_chunks, mbind, M_bind. simpl. rewrite Hd. by eexists.
Qed.

Lemma pickle_pool_returns l e w :
  Forall (fun x => slots (can_pickle (heap w)) (vs_inodes x.2)) l ->
  exists cs, pickle_pool l e w = Ok cs w.
Proof.
  induction l as [|[key s] l IH]; intros H; [by eexists|]. apply list.Forall_cons in H as [Hs Hl]. simpl in Hs.
  destruct (IH Hl) as [ds Hd]. destruct (pickle_slots_returns _ e w Hs) as [[cs err] Hc].
  simpl. unfold pickle_stored, then_chunks, mbind, M_bind. simpl. rewrite Hc. simpl.
  destruct err; simpl; [by eexists|]. rewrite Hd. by eexists.
Qed.

Lemma pickle_chunks_returns e w :
  slots (can_pickle (heap w)) (Inodes w) ->
  (forall key s, state_pool w !! key = Some s -> slots (can_pickle (heap w)) (vs_inodes s)) ->
  exists cs, pickle_chunks e w = Ok cs w.
Proof.
  intros Ht Hp. destruct (pickle_slots_returns _ e w Ht) as [[cs err] Hc].
  destruct (pickle_pool_returns (map_to_list (state_pool w)) e w) as [ds Hd].
  { apply list.Forall_forall. intros [key s] Hin%elem_of_map_to_list. by eapply Hp. }
  unfold pickle_chunks, then_chunks, mbind, M_bind. simpl. rewrite Hc. simpl.
  destruct err; simpl; [by eexists|]. rewrite Hd. by eexists.
Qed.

(** Pickling ends with a result when the objects of the table and of the checkpoints can
    be written. *)
Lemma returns_pickle sha256 h e w :
  slots (can_pickle (heap w)) (Inodes w) ->
  (forall key s, state_pool w !! key = Some s -> slots (can_pickle (heap w)) (vs_inodes s)) ->
  returns (pickle_verifs2 sha256 h) e w.
Proof.
  intros Ht Hp. destruct (pickle_chunks_returns e w Ht Hp) as [cs Hcs].
  unfold pickle_verifs2. apply returns_bind.
  { unfold fetch_filepath. destruct (cfg_file h); [apply returns_ret|]. apply returns_ask.
    destruct (can_alloc _ _); apply returns_ret. }
  intros [err|path] w1 Hf; [apply returns_ret|].
  assert (w1 = w) as ->.
  { unfold fetch_filepath in Hf. destruct (cfg_file h); [by injection Hf|]. apply ask_Ok in Hf.
    destruct (can_alloc _ _); by injection Hf. }
  destruct (open_out h path); [apply returns_ret|]. apply returns_bind.
  - unfold pickle_file_system. apply returns_bind; [by eexists _, _|]. intros cs' w1 Hc.
    destruct (write_chunks _ _ _) as [o complete].
    apply returns_bind; [apply returns_modify|]. intros _ w2 _.
    destruct complete; [|apply returns_ret]. destruct (cs'.2); apply returns_ret.
  - intros [[res o] len] w1 _. destruct (res <? 0); apply returns_ret.
Qed.

(** In a state with its values in memory every object of the table can be written that
    is not too large. *)
Lemma values_picklable w :
  fs_ok w -> values_ok w -> slots (fun i => pickled_bytes i < 2 ^ 64) (Inodes w) ->
  slots (can_pickle (heap w)) (Inodes w).
Proof.
  intros Hw Hv Hs. apply Forall_lookup. intros n [i|] Hn; [|done].
  assert (Hi : get_inode w (Z.of_nat n) = Some i).
  { apply get_inode_Some, vec_at_Some. rewrite Nat2Z.id. split; [lia|done]. }
  split; [by exists (Z.of_nat n); apply (ok_objects _ Hw)|]. split.
  - apply list.Forall_forall. intros [k v] Hin. apply (vo_holds w Hv (Z.of_nat n) k).
    exists (m_xattr (base i)). unfold xattrs_at. rewrite Hi. split; [done|].
    apply smap_find_in; [|done]. apply (vo_sorted w Hv (Z.of_nat n)). unfold xattrs_at. by rewrite Hi.
  - eapply Forall_lookup_1 in Hs; [|exact Hn]. done.
Qed.
