(* ===== verification/Ranges.v ===== *)
(** * Values stay in the ranges of their types

    The model computes with unbounded integers. Here every field of every object, the
    queue and the counters are shown to hold values of their C types in all
    reachable states, when the arguments of the requests and the answers of the system
    do: the wrap-around that the definitions write out is enough. *)

From S2P Require Import Prelude World Util Table InodeOps FileOps DirectoryOps Nodes.
From S2P Require Import Handlers CkptRestore Codec Pickle Requests Invariant Runs PickleSpec.

(** ** Definitions *)

Definition fits32 (n : Z) : Prop := 0 <= n < 2 ^ 32.
Definition fits_signed (n : Z) : Prop := - 2 ^ 63 <= n < 2 ^ 63.

Definition time_range (t : timespec) : Prop := fits_signed (tv_sec t) /\ fits_signed (tv_nsec t).

(** [struct stat] *)
Record stat_range (a : stat) : Prop := {
  sr_dev : fits (st_dev a); sr_ino : fits (st_ino a); sr_nlink : fits (st_nlink a);
  sr_mode : fits32 (st_mode a); sr_uid : fits32 (st_uid a); sr_gid : fits32 (st_gid a);
  sr_rdev : fits (st_rdev a); sr_size : fits_signed (st_size a);
  sr_blksize : fits_signed (st_blksize a); sr_blocks : fits_signed (st_blocks a);
  sr_atim : time_range (st_atim a); sr_mtim : time_range (st_mtim a);
  sr_ctim : time_range (st_ctim a) }.

(** The types of a mode that a special inode has. *)
Definition special_mode (mode : Z) : bool :=
  S_ISCHR mode || S_ISBLK mode || S_ISSOCK mode || S_ISFIFO mode.

(** The numbers in a directory. *)
Definition numbers_fit (l : list (string * Z)) : Prop := Forall (fun c => fits c.2) l.

(** The members of an object. The inode with number 0, which [FuseInit] reserves, has no
    mode. *)
Record object_range (i : inode) : Prop := {
  or_attr : stat_range (attr i);
  or_ino : fits (ep_ino (m_fuseEntryParam (base i)));
  or_generation : fits (ep_generation (m_fuseEntryParam (base i)));
  or_attr_timeout : fits (ep_attr_timeout (m_fuseEntryParam (base i)));
  or_entry_timeout : fits (ep_entry_timeout (m_fuseEntryParam (base i)));
  or_lookup : fits (m_nlookup (base i));
  or_names : smap_ok (m_xattr (base i));
  or_values : Forall (fun x => fits x.2.2) (m_xattr (base i));
  or_blksize : st_blksize (attr i) = BufBlockSize;
  or_class :
    match derived i with
    | Directory l => numbers_fit l
    | SpecialInode _ =>
        special_mode (GetMode i) = true \/
        GetMode i = 0 /\ ep_ino (m_fuseEntryParam (base i)) = 0
    | _ => True
    end }.

Record statvfs_range (s : statvfs) : Prop := {
  vr_bsize : fits (f_bsize s); vr_frsize : fits (f_frsize s); vr_blocks : fits (f_blocks s);
  vr_bfree : fits (f_bfree s); vr_bavail : fits (f_bavail s); vr_files : fits (f_files s);
  vr_ffree : fits (f_ffree s); vr_favail : fits (f_favail s); vr_fsid : fits (f_fsid s);
  vr_flag : fits (f_flag s); vr_namemax : fits (f_namemax s) }.

(** The table, the queue and the counters of a state. *)
Record state_range (s : verifs2_state) : Prop := {
  rg_objects : slots object_range (vs_inodes s);
  rg_queue : Forall fits (vs_deleted s);
  rg_stat : statvfs_range (vs_stat s) }.

Definition ranged (w : world) : Prop := state_range (snapshot w).

(** What the system and the kernel pass in. The kernel never names the number 0, and the
    target of a link has a length. *)
Definition env_range (e : env) : Prop :=
  time_range (now e) /\ fits32 (ctx_uid e) /\ fits32 (ctx_gid e).

Definition request_range (r : request) : Prop :=
  match r with
  | op_forget ino _ => fits ino
  | op_setattr ino new _ => ino <> 0 /\ stat_range new
  | op_mknod _ _ mode _ | op_mkdir _ _ mode | op_create _ _ mode => fits32 mode
  | op_symlink link _ _ => Z.of_nat (String.length link) < 2 ^ 63
  | op_link ino _ _ => fits ino
  | _ => True
  end.

(** ** Triples

    With an environment in range, the computation keeps [P] and its result has [Q]. *)

Definition triple (P : world -> Prop) {A} (m : M A) (Q : A -> Prop) : Prop :=
  forall e w a w', env_range e -> P w -> m e w = Ok a w' -> P w' /\ Q a.

Class InRange (P : world -> Prop) : Prop := in_range w : P w -> ranged w.

#[export] Instance ranged_in_range : InRange ranged.
Proof. by intros w. Qed.

(** The object of a well-ranged table. *)
Lemma ranged_get w p i : ranged w -> get_inode w p = Some i -> object_range i.
Proof.
  intros [Ho _ _] [_ Hi]%get_inode_slot. eapply Forall_lookup_1 in Ho; [|exact Hi]. done.
Qed.

Section triple.
Context (P : world -> Prop) `{!InRange P}.

Lemma triple_bind {A B} (m : M A) (k : A -> M B) (Q : A -> Prop) R :
  triple P m Q -> (forall a, Q a -> triple P (k a) R) -> triple P (m ≫= k) R.
Proof.
  intros Hm Hk e w b w' He Hw H. apply bind_Ok in H as (a & w1 & H1 & H).
  destruct (Hm e w a w1 He Hw H1) as [Hw1 Ha]. by eapply (Hk a Ha e w1).
Qed.

Lemma triple_weaken {A} (m : M A) (Q R : A -> Prop) :
  triple P m Q -> (forall a, Q a -> R a) -> triple P m R.
Proof. intros Hm HQ e w a w' He Hw H. destruct (Hm _ _ _ _ He Hw H). auto. Qed.

Lemma triple_any {A} (m : M A) (Q : A -> Prop) : triple P m Q -> triple P m (fun _ => True).
Proof. intros Hm. by eapply triple_weaken. Qed.

Lemma triple_ret {A} (a : A) (Q : A -> Prop) : Q a -> triple P (mret a) Q.
Proof. intros HQ e w b w' _ Hw [= <- <-]. done. Qed.

Lemma triple_fail {A} c (Q : A -> Prop) : triple P (fail c) Q.
Proof. by intros e w b w' _ _. Qed.

Lemma triple_ask : triple P ask env_range.
Proof. intros e w b w' He Hw [= <- <-]. done. Qed.

Lemma triple_get : triple P get P.
Proof. intros e w b w' _ Hw [= <- <-]. done. Qed.

Lemma triple_get_or {A} c (o : option A) : triple P (get_or c o) (fun a => o = Some a).
Proof. destruct o; [by apply triple_ret|apply triple_fail]. Qed.

Lemma triple_modify f : (forall w, P w -> P (f w)) -> triple P (modify f) (fun _ => True).
Proof. intros Hf e w b w' _ Hw [= <- <-]. auto. Qed.

Lemma triple_GetInode p : triple P (GetInode p) (fun o => forall i, o = Some i -> object_range i).
Proof.
  intros e w o w' _ Hw [= <- <-]. split; [done|]. intros i Hi.
  by eapply ranged_get; [apply in_range|].
Qed.

Lemma triple_deref p : triple P (deref p) object_range.
Proof.
  intros e w i w' _ Hw [Hi ->]%deref_Ok. split; [done|]. by eapply ranged_get; [apply in_range|].
Qed.

Lemma triple_space o n : triple P (CheckHasSpaceFor o n) (fun _ => True).
Proof. by intros e w b w' _ Hw [= <- <-]. Qed.
Lemma triple_free : triple P GetFreeInodes (fun _ => True).
Proof. by intros e w b w' _ Hw [= <- <-]. Qed.
End triple.

#[export] Hint Resolve triple_ask triple_get triple_GetInode triple_deref triple_space
  triple_free triple_fail triple_get_or : ranges.

(** Splits a computation at its binds, conditionals and matches; the postcondition of the
    first part of a bind is the one a lemma of [ranges] gives, or none. *)
Ltac ranges_leaf :=
  solve [ eauto with ranges typeclass_instances
        | eapply triple_any; eauto with ranges typeclass_instances ].
Ltac triple_step :=
  lazymatch goal with
  | |- triple _ (_ ≫= _) _ =>
      first [ eapply triple_bind; [ranges_leaf|intros ? ?]
            | eapply (triple_bind _ _ _ (fun _ => True)); [|intros ? _] ]
  | |- triple _ (mret _) _ => apply triple_ret; eauto with ranges; fail
  | |- triple _ (if ?b then _ else _) _ => destruct b eqn:?
  | |- triple _ (match ?x with _ => _ end) _ => destruct x eqn:?
  | |- triple _ (let _ := _ in _) _ => cbv zeta
  end.
Ltac ranges := intros; repeat first [ ranges_leaf | triple_step ].

(** ** Changes of one object *)

Lemma fits_u64 z : fits (u64 z).
Proof. apply u64_range. Qed.
Lemma fits_s64 z : fits_signed (s64 z).
Proof. apply s64_range. Qed.
#[export] Hint Resolve fits_u64 fits_s64 : ranges.

Lemma ranged_put w p j : ranged w -> object_range j -> ranged (put_inode p (Some j) w).
Proof.
  intros [Ho Hq Hs] Hj. split; [|done|done]. simpl in *. by apply Forall_insert.
Qed.

Lemma ranged_update p f :
  (forall i, object_range i -> object_range (f i)) -> triple ranged (update p f) (fun _ => True).
Proof.
  intros Hf e w a w' _ Hw (i & Hi & ->)%update_Ok. split; [|done].
  apply ranged_put; [done|]. by eapply Hf, ranged_get.
Qed.

(** An assignment to the attributes leaves size of blocks and, for a special inode, the
    mode. *)
Lemma object_range_attr i f :
  object_range i -> stat_range (f (attr i)) -> st_blksize (f (attr i)) = BufBlockSize ->
  st_mode (f (attr i)) = GetMode i -> object_range (on_attr f i).
Proof.
  intros Hi Ha Hb Hm. destruct Hi. split; try done. simpl.
  destruct (derived i); try done. unfold GetMode in *. change (attr (on_attr f i)) with (f (attr i)).
  by rewrite Hm.
Qed.

(** Closes the goals on one field after the others are taken from the old attributes. *)
Ltac new_attr :=
  match goal with
  | H : object_range ?i |- object_range (on_attr _ ?i) =>
      apply object_range_attr;
      [ exact H
      | pose proof (or_attr _ H) as []; split; simpl; auto with ranges
      | exact (or_blksize _ H) | reflexivity ]
  end.

Section object.
Context (i : inode) (Hi : object_range i).

Lemma range_nlink n : object_range (on_attr (fun a => set_st_nlink (u64 (n a)) a) i).
Proof. new_attr. Qed.
Lemma range_size n : object_range (on_attr (set_st_size (s64 n)) i).
Proof. new_attr. Qed.
Lemma range_blocks n : object_range (on_attr (set_st_blocks (s64 n)) i).
Proof. new_attr. Qed.
Lemma range_atime t : time_range t -> object_range (on_attr (set_st_atim t) i).
Proof. intros Ht. new_attr. Qed.
Lemma range_touch t : time_range t -> object_range (on_attr (touch_mc t) i).
Proof. intros Ht. new_attr. Qed.

Lemma range_base f :
  m_fuseEntryParam (f (base i)) = m_fuseEntryParam (base i) -> fits (m_nlookup (f (base i))) ->
  smap_ok (m_xattr (f (base i))) -> Forall (fun x => fits x.2.2) (m_xattr (f (base i))) ->
  object_range (on_base f i).
Proof.
  intros E Hn Hs Hf. destruct Hi. split; unfold GetMode, attr in *; simpl; rewrite ?E; done.
Qed.

Lemma range_nlookup n : object_range (on_base (fun b => set_nlookup (u64 (n b)) b) i).
Proof. apply range_base; simpl; [done|apply fits_u64|apply Hi|apply Hi]. Qed.

Lemma range_set_xattr name ptr n : fits n -> object_range (set_xattr name (ptr, n) i).
Proof.
  intros Hv. apply range_base; simpl; [done|apply Hi|apply smap_insert_ok, Hi|].
  by apply smap_insert_Forall; [|apply Hi].
Qed.

Lemma range_erase_xattr name :
  object_range (on_base (fun b => set_xattrs (smap_erase name (m_xattr b)) b) i).
Proof.
  apply range_base; simpl; [done|apply Hi|apply smap_erase_ok, Hi|].
  apply smap_erase_Forall, Hi.
Qed.

(** The data of a file or of a directory. *)
Lemma range_file b : object_range (set_derived (File b) i).
Proof. destruct Hi. by split. Qed.
Lemma range_children l : numbers_fit l -> object_range (set_children l i).
Proof. intros Hl. destruct Hi. by split. Qed.
End object.

#[export] Hint Resolve range_nlink range_size range_blocks range_atime range_touch range_nlookup
  range_set_xattr range_erase_xattr range_children : ranges.

#[export] Hint Extern 1 (triple ranged (update _ _) _) =>
  apply ranged_update; intros; eauto with ranges : ranges.

(** ** Methods and operations *)

(** Changes outside the table, the queue and the counters. *)
Lemma ranged_frame f :
  (forall w, snapshot (f w) = snapshot w) -> triple ranged (modify f) (fun _ => True).
Proof. intros Hf. apply triple_modify. intros w. unfold ranged. by rewrite Hf. Qed.

Lemma ranged_send r : triple ranged (send r) (fun _ => True).
Proof. by apply ranged_frame. Qed.
Lemma ranged_reply_error n : triple ranged (reply_error n) (fun _ => True).
Proof. apply ranged_send. Qed.
Lemma ranged_set_heap h : triple ranged (modify (set_heap h)) (fun _ => True).
Proof. by apply ranged_frame. Qed.
Lemma ranged_contexts s : triple ranged (modify (set_readdirStates s)) (fun _ => True).
Proof. by apply ranged_frame. Qed.
Lemma ranged_Recycle : triple ranged RecycleStates (fun _ => True).
Proof. by apply ranged_frame. Qed.

Lemma ranged_stat f :
  (forall s, statvfs_range s -> statvfs_range (f s)) ->
  triple ranged (modify (fun w => set_stbuf (f (m_stbuf w)) w)) (fun _ => True).
Proof. intros Hf. apply triple_modify. intros w []. split; simpl in *; auto. Qed.

Lemma ranged_UpdateUsedBlocks n : triple ranged (UpdateUsedBlocks n) (fun _ => True).
Proof. apply ranged_stat. intros s []. split; simpl; auto with ranges. Qed.
Lemma ranged_UpdateUsedInodes n : triple ranged (UpdateUsedInodes n) (fun _ => True).
Proof. apply ranged_stat. intros s []. split; simpl; auto with ranges. Qed.

Lemma ranged_DeleteInode ino : fits ino -> triple ranged (DeleteInode ino) (fun _ => True).
Proof.
  intros Hi. eapply triple_bind; [|intros _ _].
  - intros e w a w' _ [Ho Hq Hs] [_ ->]%store_slot_Ok. split; [|exact I].
    split; [|done|done]. simpl in *. by apply Forall_insert.
  - apply triple_modify. intros w [Ho Hq Hs]. split; [done| |done]. simpl in *.
    apply Forall_app. auto.
Qed.

#[export] Hint Resolve ranged_send ranged_reply_error ranged_set_heap ranged_contexts
  ranged_Recycle ranged_UpdateUsedBlocks ranged_UpdateUsedInodes ranged_DeleteInode : ranges.

Lemma ranged_ReplyEntry p : triple ranged (ReplyEntry p) (fun _ => True).
Proof. unfold ReplyEntry. ranges. Qed.
Lemma ranged_ReplyCreate p : triple ranged (ReplyCreate p) (fun _ => True).
Proof. unfold ReplyCreate. ranges. Qed.
Lemma ranged_ReplyAttr p : triple ranged (ReplyAttr p) (fun _ => True).
Proof. unfold ReplyAttr. ranges. Qed.
Lemma ranged_Forget p n : triple ranged (Forget p n) (fun _ => True).
Proof. unfold Forget. ranges. Qed.
Lemma ranged_Increment p : triple ranged (IncrementLinkCount p) (fun _ => True).
Proof. unfold IncrementLinkCount. ranges. Qed.
Lemma ranged_Decrement p : triple ranged (DecrementLinkCount p) (fun _ => True).
Proof. unfold DecrementLinkCount. ranges. Qed.

Lemma env_now e : env_range e -> time_range (now e).
Proof. by intros [? _]. Qed.
Lemma entry_ino i : object_range i -> fits (GetIno i).
Proof. intros Hi. apply (sr_ino _ (or_attr _ Hi)). Qed.
#[export] Hint Resolve env_now entry_ino ranged_ReplyEntry ranged_ReplyCreate ranged_ReplyAttr
  ranged_Forget ranged_Increment ranged_Decrement : ranges.

Lemma range_set_file i buf f :
  object_range i -> (stat_range (attr i) -> stat_range (f (attr i))) ->
  st_blksize (f (attr i)) = st_blksize (attr i) -> st_mode (f (attr i)) = GetMode i ->
  object_range (set_file buf f i).
Proof.
  intros Hi Hf Hb Hm. apply object_range_attr; [by apply range_file|..].
  - apply Hf, Hi.
  - change (st_blksize (f (attr i)) = BufBlockSize). rewrite Hb. apply Hi.
  - exact Hm.
Qed.

Lemma ranged_FileTruncate p n : triple ranged (FileTruncate p n) (fun _ => True).
Proof.
  unfold FileTruncate. ranges. apply ranged_update. intros i Hi.
  apply range_set_file; [done| |done|done]. intros []. split; simpl; auto with ranges.
Qed.

Lemma ranged_File_Write p d off : triple ranged (File_WriteAndReply p d off) (fun _ => True).
Proof.
  unfold File_WriteAndReply. ranges. all: apply ranged_update; intros i Hi.
  all: apply range_set_file; [done| |by repeat case_match..].
  all: intros []; repeat case_match; split; simpl; auto with ranges.
Qed.

Lemma ranged_File_Read p n off : triple ranged (File_ReadAndReply p n off) (fun _ => True).
Proof. unfold File_ReadAndReply. ranges. Qed.

(** *** Directories *)

Lemma range_dir i l : object_range i -> dir_children i = Some l -> numbers_fit l.
Proof.
  intros Hi Hl. pose proof (or_class _ Hi) as Hc. unfold dir_children in Hl.
  destruct (derived i); by simplify_eq.
Qed.

Lemma range_find name l : numbers_fit l -> fits (child_number l name).
Proof.
  unfold child_number, INO_NOTFOUND, fits. induction 1 as [|[n i] l Hi Hl IH]; simpl; [lia|].
  by destruct (String.eqb n name).
Qed.
Lemma range_assign name ino l :
  fits ino -> numbers_fit l -> numbers_fit (dir_assign name ino l).
Proof.
  intros Hi. induction 1 as [|[n i] l Hn Hl IH]; simpl; [constructor|].
  destruct (String.eqb n name); by constructor.
Qed.
Lemma range_erase name l :
  numbers_fit l -> numbers_fit (dir_erase name l).
Proof.
  induction 1 as [|[n i] l Hn Hl IH]; simpl; [constructor|].
  destruct (String.eqb n name); by try constructor.
Qed.
Lemma range_add name ino l :
  fits ino -> numbers_fit l -> numbers_fit (l ++ [(name, ino)]).
Proof. intros Hi Hl. apply Forall_app. split; [done|]. by constructor. Qed.
#[export] Hint Resolve range_dir range_find range_assign range_erase range_add : ranges.

Lemma ranged_UpdateSize p n : triple ranged (UpdateSize p n) (fun _ => True).
Proof. unfold UpdateSize. ranges. Qed.
#[export] Hint Resolve ranged_UpdateSize ranged_FileTruncate ranged_File_Write ranged_File_Read : ranges.

Lemma ranged_AddChild p name ino : fits ino -> triple ranged (AddChild p name ino) (fun _ => True).
Proof. unfold AddChild. ranges. Qed.
Lemma ranged_UpdateChild p name ino :
  fits ino -> triple ranged (UpdateChild p name ino) (fun _ => True).
Proof. unfold UpdateChild. ranges. Qed.
Lemma ranged_RemoveChild p name : triple ranged (RemoveChild p name) (fun _ => True).
Proof. unfold RemoveChild. ranges. Qed.
Lemma ranged_Child p name : triple ranged (ChildInodeNumberWithName p name) fits.
Proof. unfold ChildInodeNumberWithName. ranges. Qed.
Lemma ranged_IsEmpty p : triple ranged (IsEmpty p) (fun _ => True).
Proof. unfold IsEmpty. ranges. Qed.
#[export] Hint Resolve ranged_AddChild ranged_UpdateChild ranged_RemoveChild ranged_Child
  ranged_IsEmpty : ranges.

(** *** Extended attributes *)

Lemma ranged_xrealloc ptr n : triple ranged (xrealloc ptr n) (fun _ => True).
Proof. unfold xrealloc. ranges. Qed.
Lemma ranged_xwrite ptr off v : triple ranged (xwrite ptr off v) (fun _ => True).
Proof. unfold xwrite. ranges. Qed.
Lemma ranged_xread ptr off n : triple ranged (xread ptr off n) (fun _ => True).
Proof. unfold xread. ranges. Qed.
#[export] Hint Resolve ranged_xrealloc ranged_xwrite ranged_xread : ranges.

Lemma range_value i name v :
  object_range i -> default (0, 0) (smap_find name (m_xattr (base i))) = v -> fits v.2.
Proof.
  intros Hi <-. pose proof (or_values _ Hi) as Hv. unfold fits in *.
  induction Hv as [|[k u] m Hu Hm IH]; simpl; [lia|]. by destruct (String.eqb name k).
Qed.

Lemma ranged_SetXAttr p name v flags pos :
  triple ranged (SetXAttrAndReply p name v flags pos) (fun _ => True).
Proof.
  unfold SetXAttrAndReply. eapply triple_bind; [apply (triple_deref ranged)|intros i Hi].
  destruct (_ && _); [ranges|]. destruct (_ && _); [ranges|]. cbv zeta.
  destruct (default (0, 0) _) as [ptr extent] eqn:Ed.
  apply range_value in Ed; [|done]. simpl in Ed. ranges.
Qed.

Lemma ranged_RemoveXAttr p name : triple ranged (RemoveXAttrAndReply p name) (fun _ => True).
Proof. unfold RemoveXAttrAndReply. ranges. Qed.
Lemma ranged_PrepareReaddir p c : triple ranged (PrepareReaddir p c) (fun _ => True).
Proof. unfold PrepareReaddir. ranges. Qed.
#[export] Hint Resolve ranged_SetXAttr ranged_RemoveXAttr ranged_PrepareReaddir : ranges.

Lemma ranged_drop_links n p : triple ranged (drop_links n p) (fun _ => True).
Proof. induction n; simpl; ranges. Qed.
Lemma ranged_is_dir_now p : triple ranged (is_dir_now p) (fun _ => True).
Proof. unfold is_dir_now. ranges. Qed.
#[export] Hint Resolve ranged_drop_links ranged_is_dir_now : ranges.

Lemma ranged_rename_replace p n p' n' s x :
  fits s -> triple ranged (rename_replace p n p' n' s x) (fun _ => True).
Proof. unfold rename_replace. ranges. Qed.
Lemma ranged_rename_move p n p' n' s :
  fits s -> triple ranged (rename_move p n p' n' s) (fun _ => True).
Proof. unfold rename_move. ranges. Qed.
#[export] Hint Resolve ranged_rename_replace ranged_rename_move : ranges.

(** ** The requests that make no inode and set no mode *)

Lemma triple_with_live P `{!InRange P} ino k :
  (forall n, triple P (reply_error n) (fun _ => True)) ->
  (forall i, object_range i -> triple P (k i) (fun _ => True)) ->
  triple P (with_live ino k) (fun _ => True).
Proof.
  intros He Hk. eapply triple_bind; [by apply triple_GetInode|intros o Ho].
  destruct o as [i|]; [|done]. destruct (HasNoLinks i); auto.
Qed.

Lemma triple_with_dir P i k :
  (forall n, triple P (reply_error n) (fun _ => True)) -> triple P k (fun _ => True) ->
  triple P (with_dir i k) (fun _ => True).
Proof. intros He Hk. unfold with_dir. by destruct (dir_children i). Qed.

(** Requests that make an inode, set a mode, or are an [ioctl]. *)
Definition is_making (r : request) : bool :=
  match r with
  | op_setattr _ _ _ | op_mknod _ _ _ _ | op_mkdir _ _ _ | op_symlink _ _ _
  | op_create _ _ _ | op_ioctl _ _ => true
  | _ => false
  end.

Lemma ranged_FuseOps direntry_size sha256 h r :
  is_making r = false -> request_range r ->
  triple ranged (FuseOps direntry_size sha256 h r) (fun _ => True).
Proof.
  intros Hm Hr. destruct r; try done; simpl in Hr |- *.
  all: match goal with |- triple _ ?f _ => let hd := head_of f in unfold hd end.
  all: unfold WriteAndReply, ReadAndReply, Directory_WriteAndReply, SpecialInode_WriteAndReply,
    SymLink_WriteAndReply, Directory_ReadAndReply, SpecialInode_ReadAndReply,
    SymLink_ReadAndReply, GetXAttrAndReply, ListXAttrAndReply, ReplyAccess, FsStat.
  all: repeat first
    [ ranges_leaf
    | apply triple_with_live; [typeclasses eauto|auto with ranges|intros ? ?]
    | apply triple_with_dir; [auto with ranges|]
    | triple_step ].
Qed.

(** ** Requests that make an inode *)

(** What a constructor leaves to [Initialize] to fill in. *)
Definition new_range (ino mode : Z) (i : inode) : Prop :=
  m_nlookup (base i) = 0 /\ m_xattr (base i) = [] /\
  match derived i with
  | Directory l => l = []
  | SymLink s => Z.of_nat (String.length s) < 2 ^ 63
  | SpecialInode _ => special_mode mode = true \/ mode = 0 /\ ino = 0
  | File _ => True
  end.

Lemma fits_small n : 0 <= n < 2 ^ 32 -> fits n /\ fits_signed n.
Proof. unfold fits, fits_signed. lia. Qed.

Lemma initial_range t ino mode nlink gid uid :
  time_range t -> fits ino -> fits32 mode -> fits nlink -> fits32 gid -> fits32 uid ->
  stat_range (initial_attr t ino mode nlink gid uid).
Proof. intros. split; simpl; try done; apply fits_small; unfold BufBlockSize; lia. Qed.

Lemma symlink_range link a :
  stat_range a -> st_blksize a = BufBlockSize -> Z.of_nat (String.length link) < 2 ^ 63 ->
  stat_range (symlink_attr link a) /\ st_blksize (symlink_attr link a) = BufBlockSize.
Proof.
  intros Ha Hb Hl. destruct (symlink_attr_sizes link a Hb) as [_ Hn]. revert Hn.
  set (n := Z.of_nat (String.length link)) in *. intros Hn.
  assert (0 <= n) by (unfold n; lia).
  assert (fits_signed (link_blocks n)) as Hs.
  { unfold fits_signed, link_blocks, BufBlockSize.
    assert (0 <= n / 512 < 2 ^ 54) by (split; [apply Z.div_pos|apply Z.div_lt_upper_bound]; lia).
    destruct (_ =? 0); lia. }
  rewrite <- Hn in Hs. clear Hn. unfold symlink_attr in *. fold n in Hs |- *.
  assert (fits_signed n) by (unfold fits_signed; lia).
  destruct Ha. case_match; split; [split| |split|]; simpl; done.
Qed.

Lemma initialized_range t ino mode nlink gid uid i :
  time_range t -> fits ino -> fits32 mode -> fits nlink -> fits32 gid -> fits32 uid ->
  new_range ino mode i -> object_range (initialized t ino mode nlink gid uid i).
Proof.
  intros Ht Hino Hmode Hn Hg Hu (Hlk & Hx & Hd).
  pose proof (initial_range t ino mode nlink gid uid Ht Hino Hmode Hn Hg Hu) as Ha.
  assert (Hone : fits one_second /\ fits 0) by (unfold fits, one_second; lia).
  destruct Hone as [Hone Hzero]. destruct i as [[marked nl ent xs] d]. simpl in *. subst nl xs.
  unfold initialized. simpl. destruct d as [b|l|ty|s].
  - split; simpl; try done. constructor.
  - subst l. split; simpl; try done; constructor.
  - split; simpl; try done. constructor.
  - destruct (symlink_range s _ Ha eq_refl Hd) as [Hs Hb].
    split; simpl; try done. constructor.
Qed.

(** The world after [RegisterInode]. *)
Lemma ranged_enlist w i s :
  ranged w -> object_range i -> statvfs_range s -> ranged (set_stbuf s (enlist i w)).
Proof.
  intros [Ho Hq Hs] Hi Hst. unfold enlist. simpl in *. destruct (DeletedInodes w) as [|n q] eqn:E.
  - split; simpl; [|by rewrite E|done]. apply Forall_app. split; [done|]. by constructor.
  - split; simpl; [by apply Forall_insert|by apply list.Forall_cons in Hq as [_ ?]|done].
Qed.

Lemma register_range i new s : statvfs_range s -> statvfs_range (register_stat i new s).
Proof.
  intros []. unfold register_stat. destruct (own_charge i =? 0); split; simpl; auto with ranges.
Qed.

Lemma next_ino_fits w : fs_ok w -> fits (next_ino w).
Proof.
  intros Hw. pose proof (ok_limit _ Hw). unfold fits. destruct (next_ino_slot w Hw) as [?|[_ ->]]; lia.
Qed.

Lemma ranged_RegisterInode i mode nlink gid uid e w ino w' :
  env_range e -> fs_ok w -> ranged w -> fits32 mode -> fits nlink -> fits32 gid -> fits32 uid ->
  new_range (next_ino w) mode i ->
  RegisterInode i mode nlink gid uid e w = Ok ino w' -> ranged w' /\ ino = next_ino w.
Proof.
  intros He Hw Hr Hm Hn Hg Hu Hi. rewrite RegisterInode_run by done. intros [= <- <-].
  split; [|done]. apply ranged_enlist; [done| |by apply register_range, Hr].
  apply initialized_range; try done; [by apply env_now|by apply next_ino_fits].
Qed.

Lemma make_node_range ino mode dev symlink i links :
  (forall s, symlink = Some s -> Z.of_nat (String.length s) < 2 ^ 63) ->
  make_node mode dev symlink = Some (i, links) -> new_range ino mode i /\ fits links.
Proof.
  intros Hs H. unfold make_node, new_range, special_mode, fits in *.
  repeat case_match; simplify_eq; simpl in *; repeat match goal with E : _ = true |- _ => rewrite E end;
    rewrite ?orb_true_r; split_and!; simplify_eq; try done; auto.
Qed.

(** The invariant with the ranges. *)
Definition good (w : world) : Prop := fs_ok w /\ ranged w.

#[export] Instance good_in_range : InRange good.
Proof. by intros w [_ ?]. Qed.

Lemma good_triple {A} (m : M A) Q :
  Respects (keeps fs_ok) m -> triple ranged m Q -> triple good m Q.
Proof.
  intros Hk Hm e w a w' He [Hw Hr] H. destruct (Hm _ _ _ _ He Hr H) as [Hr' Ha].
  split; [|done]. split; [by eapply Hk|done].
Qed.

Lemma good_do_create_node parent name mode dev symlink :
  fits32 mode -> (forall s, symlink = Some s -> Z.of_nat (String.length s) < 2 ^ 63) ->
  triple good (do_create_node parent name mode dev symlink) (fun _ => True).
Proof.
  intros Hm Hs e w a w' He [Hw Hr] H. split; [|done]. split; [by eapply keeps_do_create_node|].
  unfold do_create_node in H. apply ask_Ok in H.
  destruct (make_node mode dev symlink) as [[i links]|] eqn:Em; [|by injection H as _ <-].
  destruct (make_node_range (next_ino w) _ _ _ _ _ Hs Em) as [Hi Hl].
  destruct (negb (can_new e)); [by injection H as _ <-|].
  apply bind_Ok in H as (free & w0 & [= <- <-] & H).
  destruct (f_ffree (m_stbuf w) <=? 0); [by injection H as _ <-|].
  apply bind_Ok in H as (ino & w1 & E & H).
  apply ranged_RegisterInode in E as [Hr1 ->]; try done; [|by apply He..].
  pose proof (next_ino_fits w Hw) as Hn. clear Hw Hr.
  revert H. match goal with |- ?m e w1 = _ -> _ => cut (triple ranged m (fun _ => True)) end.
  { intros Ht H. by apply (Ht e w1 a w'). }
  ranges.
Qed.

Lemma good_reply_error n : triple good (reply_error n) (fun _ => True).
Proof. apply good_triple; [apply (stable_reply_error (keeps fs_ok))|apply ranged_reply_error]. Qed.
Lemma good_ReplyEntry p : triple good (ReplyEntry p) (fun _ => True).
Proof. apply good_triple; [apply (stable_ReplyEntry (keeps fs_ok))|apply ranged_ReplyEntry]. Qed.
Lemma good_ReplyCreate p : triple good (ReplyCreate p) (fun _ => True).
Proof. apply good_triple; [apply (stable_ReplyCreate (keeps fs_ok))|apply ranged_ReplyCreate]. Qed.
Lemma good_Child p name : triple good (ChildInodeNumberWithName p name) fits.
Proof. apply good_triple; [apply (stable_ChildInodeNumber (keeps fs_ok))|apply ranged_Child]. Qed.
#[export] Hint Resolve good_reply_error good_ReplyEntry good_ReplyCreate good_Child
  good_do_create_node : ranges.

(** The modes that the handlers complete. *)
Lemma fits32_lor a b : fits32 a -> fits32 b -> fits32 (Z.lor a b).
Proof.
  assert (Hlog : forall x, fits32 x -> Z.log2 x < 32).
  { intros x [H0 H]. destruct (decide (x = 0)) as [->|]; [done|]. apply Z.log2_lt_pow2; lia. }
  intros Ha Hb. pose proof (Hlog a Ha). pose proof (Hlog b Hb). destruct Ha, Hb.
  split; [by apply Z.lor_nonneg|]. apply Z.log2_lt_cancel. rewrite Z.log2_lor by done.
  rewrite Z.log2_pow2 by done. by apply Z.max_lub_lt.
Qed.
Lemma fits32_dir : fits32 S_IFDIR.
Proof. by vm_compute. Qed.
Lemma fits32_reg : fits32 S_IFREG.
Proof. by vm_compute. Qed.
Lemma fits32_link : fits32 (Z.lor 0x1ff S_IFLNK).
Proof. by vm_compute. Qed.
#[export] Hint Resolve fits32_lor fits32_dir fits32_reg fits32_link : ranges.

Lemma good_reply_created r : triple good (reply_created r) (fun _ => True).
Proof. unfold reply_created. ranges. Qed.
#[export] Hint Resolve good_reply_created : ranges.

Lemma good_making direntry_size sha256 h r :
  match r with op_mknod _ _ _ _ | op_mkdir _ _ _ | op_symlink _ _ _ | op_create _ _ _ => True
  | _ => False end -> request_range r ->
  triple good (FuseOps direntry_size sha256 h r) (fun _ => True).
Proof.
  intros Hm Hr. destruct r; try done; simpl in Hr |- *.
  all: match goal with |- triple _ ?f _ => let hd := head_of f in unfold hd end.
  all: repeat first
    [ ranges_leaf
    | apply triple_with_live; [typeclasses eauto|auto with ranges|intros ? ?]
    | apply triple_with_dir; [auto with ranges|]
    | triple_step ].
  all: apply good_do_create_node; auto with ranges. all: by intros s [= <-].
Qed.

(** ** [setattr] *)

Lemma special_mode_type m m' :
  Z.land m S_IFMT = Z.land m' S_IFMT -> special_mode m = special_mode m'.
Proof.
  intros E. unfold special_mode, S_ISCHR, S_ISBLK, S_ISSOCK, S_ISFIFO, mode_is. by rewrite E.
Qed.

Section stat_updates.
Context (a : stat) (Ha : stat_range a).

Lemma sr_set_mode m : fits32 m -> stat_range (set_st_mode m a).
Proof. intros. destruct Ha. by split. Qed.
Lemma sr_set_uid m : fits32 m -> stat_range (set_st_uid m a).
Proof. intros. destruct Ha. by split. Qed.
Lemma sr_set_gid m : fits32 m -> stat_range (set_st_gid m a).
Proof. intros. destruct Ha. by split. Qed.
Lemma sr_set_size n : fits_signed n -> stat_range (set_st_size n a).
Proof. intros. destruct Ha. by split. Qed.
Lemma sr_set_atim t : time_range t -> stat_range (set_st_atim t a).
Proof. intros. destruct Ha. by split. Qed.
Lemma sr_set_mtim t : time_range t -> stat_range (set_st_mtim t a).
Proof. intros. destruct Ha. by split. Qed.
Lemma sr_set_ctim t : time_range t -> stat_range (set_st_ctim t a).
Proof. intros. destruct Ha. by split. Qed.
End stat_updates.

#[export] Hint Resolve sr_set_mode sr_set_uid sr_set_gid sr_set_size sr_set_atim sr_set_mtim
  sr_set_ctim sr_mode sr_uid sr_gid sr_size sr_atim sr_mtim sr_ctim : ranges.

Lemma sr_if (b : bool) x y : stat_range x -> stat_range y -> stat_range (if b then x else y).
Proof. by destruct b. Qed.
#[export] Hint Resolve sr_if : ranges.

Lemma setattr_range t new to_set a :
  time_range t -> stat_range new -> stat_range a -> stat_range (apply_setattr t new to_set a).
Proof. intros. unfold apply_setattr, touch_mc. auto 20 with ranges. Qed.

Lemma setattr_frame t new to_set a :
  st_blksize (apply_setattr t new to_set a) = st_blksize a /\
  st_mode (apply_setattr t new to_set a)
  = if flag_set to_set FUSE_SET_ATTR_MODE then st_mode new else st_mode a.
Proof.
  unfold apply_setattr, touch_mc.
  repeat match goal with |- context [flag_set to_set ?f] => destruct (flag_set to_set f) end; done.
Qed.

(** The kernel passes the type of the inode along with new permissions. *)
Lemma object_range_setattr t new to_set ino i :
  time_range t -> stat_range new -> ino <> 0 -> object_ok ino i -> object_range i ->
  (flag_set to_set FUSE_SET_ATTR_MODE = true ->
   Z.land (st_mode new) S_IFMT = Z.land (GetMode i) S_IFMT) ->
  object_range (on_attr (apply_setattr t new to_set) i).
Proof.
  intros Ht Hn Hne Hok Hi Hk. destruct (setattr_frame t new to_set (attr i)) as [Hb Hm].
  pose proof (setattr_range t new to_set (attr i) Ht Hn (or_attr _ Hi)) as Ha.
  assert (Hty : special_mode (st_mode (apply_setattr t new to_set (attr i))) = special_mode (GetMode i)).
  { apply special_mode_type. rewrite Hm. by destruct (flag_set _ _); [apply Hk|]. }
  pose proof (or_class _ Hi) as Hc. destruct Hi. split; try done.
  - change (st_blksize (apply_setattr t new to_set (attr i)) = BufBlockSize). by rewrite Hb.
  - simpl. destruct (derived i); try done. left.
    change (special_mode (st_mode (apply_setattr t new to_set (attr i))) = true). rewrite Hty.
    destruct Hc as [?|[_ H0]]; [done|]. by rewrite (obj_entry _ _ Hok) in H0.
Qed.

Lemma ranged_FuseSetAttr ino new to_set e w a w' :
  env_range e -> good w -> kernel_ok w (op_setattr ino new to_set) ->
  request_range (op_setattr ino new to_set) ->
  FuseSetAttr ino new to_set e w = Ok a w' -> ranged w'.
Proof.
  intros He [Hw Hr] [_ Hk] [Hne Hn] H.
  assert (Hcase : forall (m : M unit), triple ranged m (fun _ => True) -> m e w = Ok a w' -> ranged w').
  { intros m Hm. by apply (Hm e w a w'). }
  unfold FuseSetAttr, with_live in H. apply bind_Ok in H as (o & w1 & [= <- <-] & H).
  destruct (get_inode w ino) as [i|] eqn:Hi; [|eapply Hcase, H; auto with ranges].
  destruct (HasNoLinks i); [eapply Hcase, H; auto with ranges|].
  destruct (flag_set to_set FUSE_SET_ATTR_SIZE); [eapply Hcase, H; ranges|].
  unfold ReplySetAttr in H. apply ask_Ok in H. apply bind_Ok in H as ([] & w1 & Hu & H).
  rewrite (update_run _ _ _ _ _ Hi) in Hu. injection Hu as <-.
  apply bind_Ok in H as (j & w1 & [_ ->]%deref_Ok & H). injection H as _ <-.
  apply ranged_put; [done|].
  apply (object_range_setattr _ _ _ ino); try done; [by apply env_now|by apply Hw| |auto].
  by eapply ranged_get.
Qed.

(** ** Runs *)

#[export] Instance state_range_any_queue : AnyQueue state_range.
Proof. intros s q Hq [Ho Hd Hs]. split; [done| |done]. simpl. by rewrite Hq. Qed.

(** The keys of the pool are [uint64_t]. *)
Definition keys_fit (w : world) : Prop := map_Forall (fun key _ => fits key) (state_pool w).

Lemma keys_FuseIoctl sha256 h files cmd arg e w a w' :
  (cmd =? VERIFS_LOAD) = false -> sys_ok files w -> keys_fit w ->
  FuseIoctl sha256 h cmd arg e w = Ok a w' -> keys_fit w'.
Proof.
  unfold keys_fit. intros Hl Hw Hk H. unfold FuseIoctl in H. rewrite Hl in H.
  apply bind_Ok in H as ([ret file] & w1 & E & H).
  assert (state_pool w' = state_pool w1) as ->.
  { apply bind_Ok in H as ([] & w2 & E2 & [= _ <-]). by destruct (ret =? 0); injection E2 as <-. }
  destruct (cmd =? VERIFS_CHECKPOINT); [|destruct (cmd =? VERIFS_RESTORE);
    [|destruct (cmd =? VERIFS_PICKLE)]].
  - apply bind_Ok in E as (r & w2 & E & [= _ _ <-]).
    destruct (checkpoint_cases _ _ _ _ _ _ Hw E) as [[_ ->]|[_ ->]]; [done|].
    apply map_Forall_insert_2; [apply fits_u64|done].
  - apply bind_Ok in E as (r & w2 & E & [= _ _ <-]).
    destruct (restore_cases _ _ _ _ _ _ Hw E) as [->|(s & _ & _ & ->)]; [done|].
    by apply map_Forall_delete.
  - assert (Respects (same state_pool) (pickle_verifs2 sha256 h)) as Hp
      by by apply respects_pickle; [typeclasses eauto|].
    by rewrite (Hp _ _ _ _ E).
  - by injection E as _ _ <-.
Qed.

(** All that a state file holds is in range. *)
Definition typed_world (w : world) : Prop := all_states state_range w /\ keys_fit w.

Section runs.
Context (direntry_size : string -> Z) (sha256 : list byte -> list byte) (h : host).

(** A request of the kernel and an environment with values of their types. *)
Definition typed_step (w : world) (r : request) (w' : world) : Prop :=
  kernel_ok w r /\ request_range r /\
  exists e a, env_range e /\ FuseOps direntry_size sha256 h r e w = Ok a w'.

Inductive typed_steps : world -> list request -> world -> Prop :=
  | typed_nil w : typed_steps w [] w
  | typed_cons w r w1 rs w2 :
      typed_step w r w1 -> typed_steps w1 rs w2 -> typed_steps w (r :: rs) w2.

Lemma typed_step_step w r w' : typed_step w r w' -> step direntry_size sha256 h w r w'.
Proof. intros (Hk & _ & e & a & _ & H). split; [done|eauto]. Qed.

Lemma typed_steps_steps w rs w' :
  typed_steps w rs w' -> steps direntry_size sha256 h w rs w'.
Proof. induction 1; econstructor; [by apply typed_step_step|done]. Qed.

Lemma typed_world_step files w r w' :
  sys_ok files w -> typed_world w -> is_load r = false -> typed_step w r w' -> typed_world w'.
Proof.
  intros Hw [Hr Hkey] Hl (Hk & Hrr & e & a & He & H). destruct (is_ioctl r) eqn:Hio.
  - destruct r; try done. simpl in H, Hl. apply bind_Ok in H as (x & w1 & E & [= _ <-]).
    split; [by eapply (all_states_FuseIoctl sha256 h state_range)|by eapply keys_FuseIoctl].
  - pose proof (stable_FuseOps (same fixed_part) _ _ _ _ _ _ _ _ Hio Hk H) as Hfix.
    injection Hfix as _ _ Hp _. destruct Hr as [Hs Hpool]. unfold typed_world, all_states, keys_fit.
    rewrite Hp. split; [split; [|done]|done].
    change (ranged w'). pose proof (sys_ok_fs _ _ Hw) as Hfs.
    destruct (is_making r) eqn:Hmk.
    + destruct r; try done; try by eapply ranged_FuseSetAttr.
      all: match type of H with FuseOps _ _ _ ?r _ _ = _ =>
        by apply (good_making direntry_size sha256 h r I Hrr e w a w') end.
    + by apply (ranged_FuseOps direntry_size sha256 h r Hmk Hrr e w a w').
Qed.

Lemma typed_world_steps files w rs w' :
  sys_ok files w -> typed_world w -> Forall (fun r => is_load r = false) rs ->
  typed_steps w rs w' -> typed_world w'.
Proof.
  intros Hw Hr Hl Hs. induction Hs as [|w r w1 rs w2 Hst Hs IH]; [done|].
  apply list.Forall_cons in Hl as [Hl1 Hl]. apply IH; [|by eapply typed_world_step|done].
  by eapply sys_ok_step, typed_step_step.
Qed.
End runs.

(** A file system mounted by a process with identities in range. *)
Definition mounted_typed (blocks inodes : Z) (w : world) : Prop :=
  exists e gid uid umask a, env_range e /\ fits32 gid /\ fits32 uid /\
    FuseInit gid uid umask e (construct blocks inodes) = Ok a w.

Lemma mounted_typed_mounted blocks inodes w : mounted_typed blocks inodes w -> mounted blocks inodes w.
Proof. intros (e & gid & uid & umask & a & _ & _ & _ & H). by exists e, gid, uid, umask, a. Qed.

Lemma construct_range blocks inodes :
  f_blocks (initial_stbuf blocks inodes) < 2 ^ 64 -> f_files (initial_stbuf blocks inodes) < 2 ^ 64 ->
  ranged (construct blocks inodes).
Proof.
  intros Hb Hf. split; simpl in *; [constructor..|].
  assert (0 <= (if blocks <=? 0 then kTotalBlocks else blocks)) by (destruct (Z.leb_spec blocks 0); [done|lia]).
  assert (0 <= (if inodes <=? 0 then kTotalInodes else inodes)) by (destruct (Z.leb_spec inodes 0); [done|lia]).
  split; simpl; unfold fits; try done; by vm_compute.
Qed.

Lemma root_mode_range umask : fits32 (Z.lor S_IFDIR (Z.land 0x1ff (Z.lnot umask))).
Proof.
  apply fits32_lor; [apply fits32_dir|]. rewrite Z.land_comm.
  change 0x1ff with (Z.ones 9). rewrite Z.land_ones by done.
  pose proof (Z.mod_pos_bound (Z.lnot umask) (2 ^ 9)). unfold fits32. lia.
Qed.

Lemma FuseInit_range gid uid umask e w a w' :
  env_range e -> fits32 gid -> fits32 uid -> fs_ok w -> ranged w -> next_ino w = 0 ->
  set_stbuf (reset_free (m_stbuf w)) w = w -> 2 <= f_ffree (m_stbuf w) ->
  FuseInit gid uid umask e w = Ok a w' -> ranged w'.
Proof.
  intros He Hg Hu Hok Hr H0 Hreset Hf H. unfold FuseInit in H. apply bind_Ok in H as ([] & w1 & E0 & H).
  unfold modify in E0. rewrite Hreset in E0. injection E0 as <-.
  assert (Hsmall : fits32 0 /\ fits 0 /\ fits 2) by (unfold fits32, fits; lia).
  destruct Hsmall as (Hz32 & Hz & H2).
  apply bind_Ok in H as (x & w1 & E1 & H).
  assert (Hok1 : fs_ok w1) by (eapply RegisterInode_ffree; [done| | |exact E1]; [lia|done]).
  apply ranged_RegisterInode in E1 as [Hr1 _]; try assumption; [|by split_and!; [| |right]].
  apply bind_Ok in H as (root & w2 & E2 & H).
  apply ranged_RegisterInode in E2 as [Hr2 ->]; try assumption; [|apply root_mode_range|by split].
  pose proof (next_ino_fits _ Hok1) as Hn.
  revert H. match goal with |- ?m e w2 = _ -> _ => cut (triple ranged m (fun _ => True)) end.
  { intros Ht H. by apply (Ht e w2 a w'). }
  ranges.
Qed.

Lemma mounted_range blocks inodes w :
  f_blocks (initial_stbuf blocks inodes) < 2 ^ 64 ->
  2 <= f_files (initial_stbuf blocks inodes) < 2 ^ 64 ->
  mounted_typed blocks inodes w -> typed_world w.
Proof.
  intros Hb Hf (e & gid & uid & umask & a & He & Hg & Hu & H).
  pose proof (FuseInit_fixed _ _ _ _ _ _ _ H) as Hs.
  unfold same, fixed_part in Hs. injection Hs as _ _ Hs _. unfold typed_world, all_states, keys_fit.
  rewrite Hs. split; [split; [|apply map_Forall_empty]|apply map_Forall_empty].
  apply (FuseInit_range gid uid umask e (construct blocks inodes) a w); try assumption.
  - apply construct_ok, Hf.
  - by apply construct_range; [|apply Hf].
  - reflexivity.
  - apply construct_reset.
  - apply Hf.
Qed.

(** C15. In every state that a mounted file system reaches by requests other than loading a
    state file, every member of every inode, the queue of deleted numbers, the counters
    and the keys of the pool hold values of their C types, and so do the inodes, queues and
    counters of every checkpoint; the arguments of the requests, the clock and the
    callers are taken to be in the ranges of theirs, and the sizes at the mount. *)
Theorem values_in_range direntry_size sha256 h blocks inodes w rs w' :
  f_blocks (initial_stbuf blocks inodes) < 2 ^ 64 ->
  2 <= f_files (initial_stbuf blocks inodes) < 2 ^ 64 ->
  mounted_typed blocks inodes w -> Forall (fun r => is_load r = false) rs ->
  typed_steps direntry_size sha256 h w rs w' ->
  (forall ino i, get_inode w' ino = Some i -> object_range i) /\
  Forall fits (DeletedInodes w') /\ statvfs_range (m_stbuf w') /\
  forall key s, state_pool w' !! key = Some s -> fits key /\ state_range s.
Proof.
  intros Hb Hf Hm Hl Hs. pose proof (mounted_ok _ _ _ Hf (mounted_typed_mounted _ _ _ Hm)) as Hok.
  destruct (typed_world_steps _ _ _ _ _ _ _ Hok (mounted_range _ _ _ Hb Hf Hm) Hl Hs) as [[Hr Hp] Hk].
  split; [intros ino i; by apply ranged_get|]. destruct Hr as [_ Hq Hst].
  split; [done|]. split; [done|]. intros key s Hks. split; [by apply (Hk key s)|by apply (Hp key s)].
Qed.
