(* ===== verification/StateFiles.v ===== *)
(** * State files of reachable states

    In a reachable state everything that goes into a state file has a
    representation there; pickling such a state writes a file, and loading that file gives
    the state back, well formed again when no slot of a table was free. *)

From S2P Require Import Prelude World Util Table InodeOps FileOps DirectoryOps Nodes.
From S2P Require Import Handlers CkptRestore Codec Pickle Requests Invariant Runs Specs.
From S2P Require Import Attributes Memory PickleSpec Returns Ranges.

(** ** Ranges and codecs *)

Lemma stat_valid a : stat_range a -> valid stat_codec a.
Proof.
  intros []. unfold time_range, fits, fits32, fits_signed in *. destruct_and!.
  repeat split; simpl; lia.
Qed.

Lemma entry_valid i : object_range i -> valid entry_codec (m_fuseEntryParam (base i)).
Proof.
  intros Hi. pose proof (stat_valid _ (or_attr _ Hi)). destruct Hi. unfold fits in *.
  split; [simpl; lia|]. split; [simpl; lia|]. split; [done|]. split; simpl; lia.
Qed.

Lemma statvfs_valid s : statvfs_range s -> valid statvfs_codec s.
Proof. intros []. unfold fits in *. repeat split; simpl; lia. Qed.

(** ** Sizes *)

Definition xattr_bytes (m : list (string * (Z * Z))) : Z :=
  foldr (fun x n => 8 + Z.of_nat (String.length x.1) + 8 + x.2.2 + n) 0 m.
Definition child_bytes (l : list (string * Z)) : Z :=
  foldr (fun c n => 8 + 8 + Z.of_nat (String.length c.1) + n) 0 l.

Lemma xattr_bytes_bound m :
  Forall (fun x : string * (Z * Z) => fits x.2.2) m ->
  zlen m <= xattr_bytes m /\
  Forall (fun x => Z.of_nat (String.length x.1) <= xattr_bytes m) m.
Proof.
  unfold fits. induction 1 as [|[k [p n]] m Hn Hm [IH1 IH2]]; simpl in *; [done|].
  split; [lia|]. constructor; simpl; [lia|].
  eapply Forall_impl; [|exact IH2]. simpl. lia.
Qed.

Lemma child_bytes_bound l :
  zlen l <= child_bytes l /\ Forall (fun c => Z.of_nat (String.length c.1) <= child_bytes l) l.
Proof.
  induction l as [|[k n] l [IH1 IH2]]; simpl in *; [done|].
  split; [lia|]. constructor; simpl; [lia|].
  eapply Forall_impl; [|exact IH2]. simpl. lia.
Qed.

(** A well-formed object in range has a representation in a state file. *)
Lemma picklable_ranged ino i :
  object_ok ino i -> object_range i -> pickled_bytes i < 2 ^ 63 -> picklable i.
Proof.
  intros Hok Hr Hsz. pose proof (obj_data _ _ Hok) as Hd. pose proof (or_class _ Hr) as Hc.
  destruct (xattr_bytes_bound _ (or_values _ Hr)) as [Hx1 Hx2].
  autounfold with pickled in Hsz. unfold Inode_GetPickledSize in Hsz. fold (xattr_bytes (m_xattr (base i))) in Hsz.
  assert (Hext : 0 <= match derived i with
    | File _ => st_size (attr i) | Directory l => 8 + child_bytes l
    | SymLink s => Z.of_nat (String.length s) | SpecialInode _ => 4 end).
  { destruct (derived i) as [b|l|ty|s]; [|pose proof (child_bytes_bound l); lia|lia..].
    destruct Hd as (c & b' & _ & -> & _). lia. }
  assert (Hx : xattr_bytes (m_xattr (base i)) < 2 ^ 63).
  { destruct (derived i); unfold child_bytes in Hext; lia. }
  split; [|split; [|apply Hok]].
  - split_and!; [by apply entry_valid|apply Hr|apply Hr| |unfold fits; lia].
    pose proof (or_values _ Hr) as Hv. apply list.Forall_forall. intros x Hin.
    rewrite list.Forall_forall in Hx2, Hv. specialize (Hx2 x Hin). split; [unfold fits; lia|by apply Hv].
  - unfold data_fits. destruct (derived i) as [b|l|ty|s] eqn:Ed.
    + destruct Hd as (c & b' & Ed' & Hs & Hlt & Hblk & Hbuf & Htk).
      assert (b' = b) as -> by congruence. pose proof (nblocks_small (zlen c) ltac:(lia)).
      assert (length c <= length b)%nat by (rewrite <- Htk, length_take; lia).
      split_and!; [unfold fits; lia|apply Hr|lia|done| |lia].
      rewrite Hbuf, Hblk. unfold BufBlockSize in *. lia.
    + destruct (child_bytes_bound l) as [Hl1 Hl2]. fold (child_bytes l) in Hsz.
      split; [unfold fits; lia|]. apply list.Forall_forall. intros x Hin.
      unfold numbers_fit in Hc. rewrite list.Forall_forall in Hc, Hl2. specialize (Hl2 x Hin).
      split; [by apply Hc|unfold fits; lia].
    + unfold special_mode in Hc. destruct Hc as [->|[-> _]]; [done|]. by rewrite orb_true_r.
    + destruct Hd as [-> _]. split; [done|]. unfold fits. lia.
Qed.

(** ** Reachable states have a representation *)

(** The queue is no longer than the table. *)
Lemma queue_bound w : fs_ok w -> zlen (DeletedInodes w) <= zlen (Inodes w).
Proof.
  intros Hw. pose proof (ok_queue _ Hw) as Hq.
  assert (Hr : forall ino, ino ∈ DeletedInodes w -> 0 <= ino < zlen (Inodes w)).
  { intros ino Hin. apply (ok_deleted _ Hw) in Hin. by eapply vec_at_range. }
  assert (Hn : NoDup (Z.to_nat <$> DeletedInodes w)).
  { apply NoDup_fmap_2_strong; [|done]. intros x y Hx%Hr Hy%Hr E. lia. }
  pose proof (NoDup_submseteq (Z.to_nat <$> DeletedInodes w) (seq 0 (length (Inodes w))) Hn) as Hs.
  assert (length (Z.to_nat <$> DeletedInodes w) <= length (seq 0 (length (Inodes w))))%nat as Hl.
  { apply submseteq_length, Hs. intros n (x & -> & Hx)%list_elem_of_fmap.
    apply Hr in Hx. apply elem_of_seq. lia. }
  rewrite length_fmap, length_seq in Hl. lia.
Qed.

(** The objects are not too large for a state file, and their values are in memory. *)
Definition storable (hp : xheap) (t : list (option inode)) : Prop :=
  slots (fun i => values_held hp i /\ pickled_bytes i < 2 ^ 63) t.

Definition storable_world (w : world) : Prop :=
  storable (heap w) (Inodes w) /\
  (forall key s, state_pool w !! key = Some s -> storable (heap w) (vs_inodes s)) /\
  Z.of_nat (size (state_pool w)) < 2 ^ 64.

(** From a property of the objects with their numbers to the slots of the table. *)
Lemma slots_of_get (P Q : inode -> Prop) w :
  (forall ino i, get_inode w ino = Some i -> P i -> Q i) -> slots P (Inodes w) -> slots Q (Inodes w).
Proof.
  intros H HP. apply Forall_lookup. intros n [i|] Hn; [|done].
  eapply Forall_lookup_1 in HP; [|exact Hn]. simpl in HP. apply (H (Z.of_nat n)); [|done].
  apply get_inode_Some, vec_at_Some. rewrite Nat2Z.id. split; [lia|done].
Qed.

Lemma state_fits_ranged hp s :
  fs_ok (world_of s) -> state_range s -> storable hp (vs_inodes s) -> state_fits s.
Proof.
  intros Hok Hr Hst. pose proof (ok_limit _ Hok) as Hl. pose proof (queue_bound _ Hok) as Hq.
  simpl in Hl, Hq. split_and!.
  - eapply (slots_of_get _ _ (world_of s)); [|exact Hst]. intros ino i Hi [_ Hsz].
    eapply picklable_ranged; [by apply (ok_objects _ Hok)| |done].
    eapply (ranged_get (world_of s)); [|exact Hi]. by destruct s.
  - unfold fits. lia.
  - apply Hr.
  - unfold fits. lia.
  - apply statvfs_valid, Hr.
Qed.

Lemma world_fits_typed files w :
  sys_ok files w -> typed_world w -> storable_world w -> world_fits w.
Proof.
  intros [[Hok _] Hpok] [[Hr Hpr] Hk] (Hst & Hpst & Hsz). split_and!.
  - by eapply (state_fits_ranged (heap w) (snapshot w)).
  - intros key s Hks. split; [by apply (Hk key s)|].
    eapply (state_fits_ranged (heap w)); [apply (Hpok key s Hks)|by apply (Hpr key s)|by eapply Hpst].
  - unfold fits. lia.
Qed.

Lemma can_pickle_storable hp s :
  fs_ok (world_of s) -> storable hp (vs_inodes s) -> slots (can_pickle hp) (vs_inodes s).
Proof.
  intros Hok. apply (slots_of_get _ _ (world_of s)). intros ino i Hi [Hv Hsz].
  split; [exists ino; by apply (ok_objects _ Hok)|]. split; [done|]. lia.
Qed.

(** ** Saving *)

(** The host opens the state file that the configuration names, and its writes are complete. *)
Definition takes (h : host) : Prop :=
  (exists cfg, cfg_file h = inr cfg /\ open_out h (config_path cfg) = None) /\
  forall pos n, write_result h pos n = n.

Lemma pickle_chunks_run e w :
  (forall n, can_alloc e n = true) -> slots (can_pickle (heap w)) (Inodes w) ->
  (forall key s, state_pool w !! key = Some s -> slots (can_pickle (heap w)) (vs_inodes s)) ->
  exists cs, pickle_chunks e w = Ok (cs, None) w.
Proof.
  intros Ha Ht Hp. destruct (pickle_chunks_returns e w Ht Hp) as [[cs err] H].
  exists cs. rewrite H. destruct err as [err|]; [|done].
  destruct (proj1 (pickle_chunks_ok _ _ _ _ H) err eq_refl) as [_ [n Hn]]. by rewrite Ha in Hn.
Qed.

Section files.
Context (sha256 : list byte -> list byte) (Hsha : forall b, zlen (sha256 b) = 32).

Lemma pickle_verifs2_saves h e w :
  takes h -> (forall n, can_alloc e n = true) ->
  slots (can_pickle (heap w)) (Inodes w) ->
  (forall key s, state_pool w !! key = Some s -> slots (can_pickle (heap w)) (vs_inodes s)) ->
  exists f w', pickle_verifs2 sha256 h e w = Ok (0, Some f) w'.
Proof.
  intros [(cfg & Hcfg & Hopen) Hw] Ha Ht Hp. destruct (pickle_chunks_run e w Ha Ht Hp) as [cs Hcs].
  pose proof (proj2 (pickle_chunks_ok _ _ _ _ Hcs)) as Hsm.
  unfold pickle_verifs2, mbind, M_bind. rewrite (fetch_run h cfg e w Hcfg (Ha _)), Hopen.
  unfold pickle_file_system, mbind, M_bind. rewrite Hcs. cbn [fst snd].
  rewrite (write_chunks_run h cs _ Hw Hsm). cbn beta iota. rewrite Hw. by eexists _, _.
Qed.
End files.

(** ** The loaded state *)

Lemma same_object_ok h h' ino i i' : same_object h h' i i' -> object_ok ino i -> object_ok ino i'.
Proof.
  intros [(_ & _ & Hent & _) Hdat] [He Hi Hc Hd].
  assert (Ha : attr i' = attr i) by (unfold attr; by rewrite Hent).
  unfold same_data in Hdat.
  assert (Hcl : class_matches i' = class_matches i).
  { unfold class_matches, GetMode. rewrite Ha. by destruct (derived i), (derived i'); simplify_eq. }
  split; [by rewrite Hent|by rewrite Ha|by rewrite Hcl|].
  destruct (derived i) as [b|l|ty|s] eqn:Ed.
  - destruct Hd as (c & buf & Eb & Hs & Hlt & Hblk & Hlen & Htk).
    assert (buf = b) as -> by congruence. destruct (derived i') as [b'| | |] eqn:Ed'; try done.
    destruct Hdat as [Htake Hl]. exists c, b'. rewrite Ha.
    split_and!; [done|done|done|done|congruence|].
    rewrite Hs in Htake. rewrite Nat2Z.id in Htake. congruence.
  - rewrite Hdat. unfold dir_inv in *. rewrite Ha, Hdat. naive_solver.
  - by rewrite Hdat, Ha.
  - by rewrite Hdat, Ha.
Qed.

Lemma full_live t : full t -> live t = zlen t.
Proof.
  intros H. apply live_full. intros n Hn. eapply Forall_lookup_1 in H; [|exact Hn]. by destruct H.
Qed.

(** A full table is loaded as a well-formed one. *)
Lemma same_state_ok h h' files s s' :
  full (vs_inodes s) -> same_state h h' s s' -> state_ok files s -> state_ok files s'.
Proof.
  intros Hfull ((objs & Ht & Hobjs) & Hq & Hst) [Hok Hfiles].
  split; [|by rewrite Hst]. pose proof (ok_limit _ Hok) as Hlim.
  assert (Hlen : length objs = length (vs_inodes s)).
  { rewrite (full_present _ Hfull) at 1. rewrite length_fmap. symmetry. by eapply Forall2_length. }
  assert (Hfull' : full (vs_inodes s')).
  { rewrite Ht. apply Forall_fmap, list.Forall_forall. intros x _. by exists x. }
  assert (Hnone : forall t ino, full t -> vec_at t ino <> Some None).
  { intros t ino Hf [_ Hn]%vec_at_Some. eapply Forall_lookup_1 in Hf; [|exact Hn]. by destruct Hf. }
  split; simpl in *.
  - intros ino i' Hi. apply get_inode_slot in Hi as [Hpos Hi]. simpl in Hi. rewrite Ht in Hi.
    rewrite list_lookup_fmap in Hi. destruct (objs !! Z.to_nat ino) as [x|] eqn:Hx; [|done].
    simpl in Hi. injection Hi as <-.
    destruct (Forall2_lookup_r _ _ _ _ _ Hobjs Hx) as (i & Hi & Hsame).
    eapply same_object_ok; [exact Hsame|]. apply (ok_objects _ Hok), get_inode_Some, vec_at_Some.
    split; [done|]. simpl. rewrite (full_present _ Hfull), list_lookup_fmap, Hi. done.
  - rewrite Hq. apply Hok.
  - intros ino. rewrite Hq. split.
    + intros Hin. apply (ok_deleted _ Hok) in Hin. by apply Hnone in Hin.
    + intros Hv. by apply Hnone in Hv.
  - rewrite Hst, (full_live _ Hfull'), Ht, length_fmap, Hlen, <- (full_live _ Hfull). apply Hok.
  - rewrite Hst. apply Hok.
  - rewrite Hst, Ht, length_fmap, Hlen. apply Hok.
Qed.

Lemma loads_ok files w0 w w' :
  sys_ok files w0 -> full (Inodes w0) ->
  (forall key s, state_pool w0 !! key = Some s -> full (vs_inodes s)) ->
  loads w0 w w' -> sys_ok files w'.
Proof.
  intros [Hok Hpok] Hf Hpf (Hst & Hq & Ht & Hp & _). split.
  - by eapply (same_state_ok _ _ files (snapshot w0)).
  - intros key s' Hs'. pose proof (Hp key) as Hk. rewrite Hs' in Hk.
    destruct (state_pool w0 !! key) as [s|] eqn:Hs; inversion Hk; subst.
    eapply same_state_ok; [by eapply Hpf|done|by apply (Hpok key s)].
Qed.

(** C6. A state that a mounted file system reaches by requests other than loading can be saved
    and loaded, provided that its objects and those of its checkpoints are smaller than
    [2 ^ 63] bytes and the attribute values of both are still in memory (a value that
    was replaced after a checkpoint may not be): when the host and the allocator serve it,
    pickling succeeds and leaves the file system as it was, the file, if smaller than [2 ^ 64]
    bytes, passes [verify_state_file], and loading it in any process gives back the
    counters, the queue, the objects in order and the checkpoints under their keys. Free
    slots are not saved: an object gets the number of the objects in front of it, which
    is its own number when no slot was free, and then the loaded state is well formed again. *)
Theorem reachable_state_saved_and_loaded direntry_size sha256 h blocks inodes w rs w' hs e :
  (forall b, zlen (sha256 b) = 32) ->
  f_blocks (initial_stbuf blocks inodes) < 2 ^ 64 ->
  2 <= f_files (initial_stbuf blocks inodes) < 2 ^ 64 ->
  mounted_typed blocks inodes w -> Forall (fun r => is_load r = false) rs ->
  typed_steps direntry_size sha256 h w rs w' ->
  storable_world w' -> takes hs -> (forall n, can_alloc e n = true) ->
  exists f, pickle_verifs2 sha256 hs e w' = Ok (0, Some f) w' /\
    (zlen f < 2 ^ 64 ->
     verify_state_file sha256 f = 0 /\
     forall hl el wl, serves hl f -> (forall n, can_alloc el n = true) -> heap_ok (heap wl) ->
       exists w2, load_verifs2 sha256 hl el wl = Ok 0 w2 /\ loads w' wl w2 /\
         (forall ino i, get_inode w' ino = Some i ->
            exists i', get_inode w2 (new_number (Inodes w') ino) = Some i' /\
              same_object (heap w') (heap w2) i i' /\
              (full (Inodes w') -> new_number (Inodes w') ino = ino)) /\
         (full (Inodes w') -> (forall key s, state_pool w' !! key = Some s -> full (vs_inodes s)) ->
          sys_ok (f_files (initial_stbuf blocks inodes)) w2)).
Proof.
  intros Hsha Hb Hf Hm Hl Hs Hst Hhs Ha.
  pose proof (mounted_ok _ _ _ Hf (mounted_typed_mounted _ _ _ Hm)) as Hok.
  pose proof (typed_world_steps _ _ _ _ _ _ _ Hok (mounted_range _ _ _ Hb Hf Hm) Hl Hs) as Hty.
  pose proof (sys_ok_steps _ _ _ _ _ _ _ Hok Hl (typed_steps_steps _ _ _ _ _ _ Hs)) as Hok'.
  pose proof (world_fits_typed _ _ Hok' Hty Hst) as Hfit. destruct Hst as (Ht & Hp & _).
  destruct (pickle_verifs2_saves sha256 hs e w') as (f & w1 & Hrun); [done|done|..].
  { by apply (can_pickle_storable _ (snapshot w')); [apply Hok'|]. }
  { intros key s Hks. apply can_pickle_storable; [by apply (proj2 Hok' key s Hks)|by eapply Hp]. }
  destruct (pickle_verifs2_run sha256 Hsha _ _ _ _ _ (proj2 Hhs) Hfit Hrun) as (-> & cs & _ & Ef).
  exists f. split; [done|]. intros Hlt. split; [rewrite Ef in *; by apply verify_state_file_ok|].
  intros hl el wl Hserve Hal Hh.
  destruct (load_pickled sha256 Hsha _ _ _ _ _ _ _ _ (proj2 Hhs) Hfit Hrun Hlt Hserve Hal Hh)
    as (_ & _ & w2 & Hload & Hloads).
  exists w2. split; [done|]. split; [done|]. split; [by eapply loads_numbers|].
  intros. by eapply loads_ok.
Qed.
