(* ===== verification/Links.v ===== *)
(** * Link counts and names

    A file system is seen here as a graph: the link count of every inode and the
    entries of every directory. In every state that requests of a kernel can
    reach, an inode has at least as many links as names, so that a name never
    refers to an inode that was reclaimed. The counts are one-sided: the code loses
    links on some paths of [rename], and never reclaims the inode then. *)

From S2P Require Import Prelude World Util Table InodeOps FileOps DirectoryOps Nodes.
From S2P Require Import Handlers CkptRestore Codec Pickle Requests Invariant Runs.

(** ** Graphs *)

Record node := Node { n_links : Z; n_kids : option (list (string * Z)) }.

Abbreviation graph := (list (option node)).

Definition g_node (g : graph) (c : Z) : option node := mjoin (vec_at g c).
Definition g_links (g : graph) (c : Z) : Z := default 0 (n_links <$> g_node g c).
Definition kids_of (o : option node) : list (string * Z) := default [] (o ≫= n_kids).
Definition g_kids (g : graph) (c : Z) : list (string * Z) := kids_of (g_node g c).
Definition is_dir_node (o : option node) : bool :=
  match o with Some (Node _ (Some _)) => true | _ => false end.
Definition g_dir (g : graph) (c : Z) : bool := is_dir_node (g_node g c).

(** The names of [c] in a directory with entries [l]; the dots are not counted. *)
Definition b2z (b : bool) : Z := if b then 1 else 0.
Fixpoint named (c : Z) (l : list (string * Z)) : Z :=
  match l with
  | [] => 0
  | (name, d) :: l' => b2z (negb (is_dot name) && (d =? c)) + named c l'
  end.

(** The names of [c] in the whole graph. *)
Fixpoint g_names (g : graph) (c : Z) : Z :=
  match g with
  | [] => 0
  | o :: g' => named c (kids_of o) + g_names g' c
  end.

(** The entries in [l] that are directories. *)
Fixpoint subdirs (dir : Z -> bool) (l : list (string * Z)) : Z :=
  match l with
  | [] => 0
  | (name, d) :: l' => b2z (negb (is_dot name) && dir d) + subdirs dir l'
  end.

Record links_ok (g : graph) : Prop := {
  lk_range c : 0 <= g_links g c < 2 ^ 64;
  lk_names c : g_names g c <= g_links g c;
  lk_dir c : g_dir g c = true -> 1 <= g_names g c ->
    g_names g c = 1 /\ 2 + subdirs (g_dir g) (g_kids g c) <= g_links g c }.

(** Changes of a graph: the links of a node, the entries of a directory, a slot. *)
Definition g_put (p : Z) (o : option node) (g : graph) : graph := <[Z.to_nat p := o]> g.
Definition g_update (p : Z) (f : node -> node) (g : graph) : graph :=
  match g_node g p with Some nd => g_put p (Some (f nd)) g | None => g end.
Definition on_links (f : Z -> Z) (p : Z) : graph -> graph :=
  g_update p (fun nd => Node (f (n_links nd)) (n_kids nd)).
Definition on_kids (f : list (string * Z) -> list (string * Z)) (p : Z) : graph -> graph :=
  g_update p (fun nd => Node (n_links nd) (f <$> n_kids nd)).

(** ** Entries *)

Lemma b2z_range b : 0 <= b2z b <= 1.
Proof. by destruct b. Qed.

Lemma named_nonneg c l : 0 <= named c l.
Proof.
  induction l as [|[n d] l IH]; simpl; [done|].
  pose proof (b2z_range (negb (is_dot n) && (d =? c))). lia.
Qed.

Lemma named_app c l l' : named c (l ++ l') = named c l + named c l'.
Proof. induction l as [|[n d] l IH]; simpl; [done|]. lia. Qed.

Lemma subdirs_app dir l l' : subdirs dir (l ++ l') = subdirs dir l + subdirs dir l'.
Proof. induction l as [|[n d] l IH]; simpl; [done|]. lia. Qed.

Lemma subdirs_nonneg dir l : 0 <= subdirs dir l.
Proof.
  induction l as [|[n d] l IH]; simpl; [done|].
  pose proof (b2z_range (negb (is_dot n) && dir d)). lia.
Qed.

Lemma subdirs_mono dir dir' l :
  (forall d, dir d = true -> dir' d = true) -> subdirs dir l <= subdirs dir' l.
Proof.
  intros H. induction l as [|[n d] l IH]; simpl; [done|].
  destruct (is_dot n); simpl; [lia|]. specialize (H d).
  destruct (dir d), (dir' d); simpl; first [lia | by specialize (H eq_refl)].
Qed.

Lemma subdirs_ext dir dir' l :
  (forall d, dir d = dir' d) -> subdirs dir l = subdirs dir' l.
Proof. intros H. induction l as [|[n d] l IH]; simpl; [done|]. by rewrite H, IH. Qed.

Lemma dir_find_In name l c : dir_find name l = Some c -> (name, c) ∈ l.
Proof.
  induction l as [|[n d] l IH]; simpl; [done|]. destruct (String.eqb n name) eqn:E.
  - intros [= ->]. zbool. subst. set_solver.
  - intros H. set_solver.
Qed.

Lemma named_pos c l name : (name, c) ∈ l -> is_dot name = false -> 1 <= named c l.
Proof.
  intros H Hd. induction l as [|[n d] l IH]; [set_solver|]. simpl.
  pose proof (named_nonneg c l). pose proof (b2z_range (negb (is_dot n) && (d =? c))).
  apply elem_of_cons in H as [[= <- <-]|H]; [|specialize (IH H); lia].
  rewrite Hd, Z.eqb_refl. simpl. lia.
Qed.

Lemma named_erase name l c x :
  dir_find name l = Some c -> is_dot name = false ->
  named x (dir_erase name l) = named x l - b2z (c =? x).
Proof.
  intros H Hd. induction l as [|[n d] l IH]; simpl in *; [done|].
  destruct (String.eqb n name) eqn:E; simpl.
  - injection H as ->. zbool. subst n. rewrite Hd. simpl. lia.
  - rewrite IH by done. lia.
Qed.

Lemma subdirs_erase dir name l c :
  dir_find name l = Some c -> is_dot name = false ->
  subdirs dir (dir_erase name l) = subdirs dir l - b2z (dir c).
Proof.
  intros H Hd. induction l as [|[n d] l IH]; simpl in *; [done|].
  destruct (String.eqb n name) eqn:E; simpl.
  - injection H as ->. zbool. subst n. rewrite Hd. simpl. lia.
  - rewrite IH by done. lia.
Qed.

Lemma named_assign name l c d x :
  dir_find name l = Some c -> is_dot name = false ->
  named x (dir_assign name d l) = named x l - b2z (c =? x) + b2z (d =? x).
Proof.
  intros H Hd. induction l as [|[n e] l IH]; simpl in *; [done|].
  destruct (String.eqb n name) eqn:E; simpl.
  - injection H as ->. zbool. subst n. rewrite Hd. simpl. lia.
  - rewrite IH by done. lia.
Qed.

Lemma subdirs_assign dir name l c d :
  dir_find name l = Some c -> is_dot name = false ->
  subdirs dir (dir_assign name d l) = subdirs dir l - b2z (dir c) + b2z (dir d).
Proof.
  intros H Hd. induction l as [|[n e] l IH]; simpl in *; [done|].
  destruct (String.eqb n name) eqn:E; simpl.
  - injection H as ->. zbool. subst n. rewrite Hd. simpl. lia.
  - rewrite IH by done. lia.
Qed.

Lemma dir_find_assign name name' d l :
  dir_find name' (dir_assign name d l)
  = if decide (name = name') then (fun _ => d) <$> dir_find name' l else dir_find name' l.
Proof.
  induction l as [|[n e] l IH]; simpl; [by case_decide|].
  destruct (String.eqb n name) eqn:E; simpl; zbool.
  - subst n. destruct (String.eqb name name') eqn:E'; zbool; by case_decide.
  - rewrite IH. destruct (String.eqb n name') eqn:E'; zbool; [|done].
    by case_decide; [congruence|].
Qed.

(** ** Observing a changed graph *)

Section observe.
Implicit Types (g : graph) (p c : Z) (o : option node).

Lemma g_node_range g p nd : g_node g p = Some nd -> 0 <= p < zlen g.
Proof.
  unfold g_node. destruct (vec_at g p) eqn:E; [|done]. intros _. by eapply vec_at_range.
Qed.

Lemma g_node_put g p o c :
  0 <= p < zlen g -> g_node (g_put p o g) c = if decide (p = c) then o else g_node g c.
Proof. intros H. unfold g_node, g_put. rewrite vec_at_insert by done. by case_decide. Qed.

Lemma g_names_app g g' c : g_names (g ++ g') c = g_names g c + g_names g' c.
Proof. induction g; simpl; [done|lia]. Qed.

Lemma g_names_put g p o c :
  0 <= p < zlen g ->
  g_names (g_put p o g) c = g_names g c - named c (g_kids g p) + named c (kids_of o).
Proof.
  intros Hp. destruct (lookup_lt_is_Some_2 g (Z.to_nat p)) as [old Hold]; [lia|].
  assert (g_kids g p = kids_of old) as ->.
  { unfold g_kids, g_node, vec_at. rewrite (proj2 (Z.leb_le 0 p)) by lia. by rewrite Hold. }
  unfold g_put. rewrite insert_take_drop by lia.
  rewrite <- (take_drop_middle g (Z.to_nat p) old Hold) at 3.
  rewrite !g_names_app. simpl. lia.
Qed.

Lemma g_names_kids g p c : named c (g_kids g p) <= g_names g c.
Proof.
  unfold g_kids, g_node, vec_at. destruct (0 <=? p); [|simpl].
  2: { induction g; simpl; [done|]. pose proof (named_nonneg c (kids_of a)). lia. }
  generalize (Z.to_nat p) as n. induction g as [|o g IH]; intros n; simpl; [done|].
  pose proof (named_nonneg c (kids_of o)). destruct n as [|n]; simpl.
  - assert (0 <= g_names g c); [|lia]. clear. induction g; simpl; [done|].
    pose proof (named_nonneg c (kids_of a)). lia.
  - specialize (IH n). lia.
Qed.

Lemma g_names_nonneg g c : 0 <= g_names g c.
Proof. induction g; simpl; [done|]. pose proof (named_nonneg c (kids_of a)). lia. Qed.
End observe.

Section changes.
Implicit Types (g : graph) (p c : Z).

Lemma g_node_update g p f c :
  g_node (g_update p f g) c = if decide (p = c) then f <$> g_node g p else g_node g c.
Proof.
  unfold g_update. destruct (g_node g p) as [nd|] eqn:E.
  - rewrite g_node_put by (by eapply g_node_range). by case_decide.
  - case_decide; [by subst|done].
Qed.

Lemma g_dir_links g f p c : g_dir (on_links f p g) c = g_dir g c.
Proof.
  unfold g_dir, on_links. rewrite g_node_update. case_decide as E; [subst c|done].
  by destruct (g_node g p) as [[n k]|].
Qed.

Lemma g_dir_kids g f p c : g_dir (on_kids f p g) c = g_dir g c.
Proof.
  unfold g_dir, on_kids. rewrite g_node_update. case_decide as E; [subst c|done].
  by destruct (g_node g p) as [[n [l|]]|].
Qed.

Lemma g_kids_links g f p c : g_kids (on_links f p g) c = g_kids g c.
Proof.
  unfold g_kids, on_links. rewrite g_node_update. case_decide as E; [subst c|done].
  by destruct (g_node g p) as [[n k]|].
Qed.

Lemma g_kids_kids g f p c :
  g_dir g p = true ->
  g_kids (on_kids f p g) c = if decide (p = c) then f (g_kids g p) else g_kids g c.
Proof.
  unfold g_kids, on_kids, g_dir. intros H. rewrite g_node_update. case_decide; [|done].
  by destruct (g_node g p) as [[n [l|]]|].
Qed.

Lemma g_links_kids g f p c : g_links (on_kids f p g) c = g_links g c.
Proof.
  unfold g_links, on_kids. rewrite g_node_update. case_decide as E; [subst c|done].
  by destruct (g_node g p) as [[n k]|].
Qed.

Lemma g_links_links g f p c :
  is_Some (g_node g p) ->
  g_links (on_links f p g) c = if decide (p = c) then f (g_links g p) else g_links g c.
Proof.
  intros [nd H]. unfold g_links, on_links. rewrite g_node_update, H. by case_decide.
Qed.

Lemma g_names_links g f p c : g_names (on_links f p g) c = g_names g c.
Proof.
  unfold on_links, g_update. destruct (g_node g p) as [nd|] eqn:E; [|done].
  rewrite g_names_put by (by eapply g_node_range). unfold g_kids. rewrite E.
  unfold kids_of at 2. simpl. unfold kids_of. simpl. lia.
Qed.

Lemma g_names_on_kids g f p c :
  g_dir g p = true ->
  g_names (on_kids f p g) c = g_names g c - named c (g_kids g p) + named c (f (g_kids g p)).
Proof.
  intros H. unfold on_kids, g_update. unfold g_dir in H.
  destruct (g_node g p) as [[n [l|]]|] eqn:E; [|done..].
  rewrite g_names_put by (by eapply g_node_range). unfold g_kids. rewrite E. done.
Qed.

Lemma g_dir_present g p : g_dir g p = true -> is_Some (g_node g p).
Proof. unfold g_dir. destruct (g_node g p); [eauto|done]. Qed.

Lemma present_kids g f p c : is_Some (g_node g c) -> is_Some (g_node (on_kids f p g) c).
Proof.
  unfold on_kids. rewrite g_node_update. case_decide; [subst|done]. by destruct (g_node g c).
Qed.

Lemma present_links g f p c : is_Some (g_node g c) -> is_Some (g_node (on_links f p g) c).
Proof.
  unfold on_links. rewrite g_node_update. case_decide; [subst|done]. by destruct (g_node g c).
Qed.

Lemma links_present g c : 0 < g_links g c -> is_Some (g_node g c).
Proof. unfold g_links. destruct (g_node g c); [eauto|simpl; lia]. Qed.
End changes.

#[export] Hint Resolve g_dir_present present_kids present_links : verifs.

(** The entries that lie in a directory are names in the graph. *)
Lemma entry_named g p name c :
  dir_find name (g_kids g p) = Some c -> is_dot name = false ->
  1 <= named c (g_kids g p) /\ 1 <= g_names g c.
Proof.
  intros H Hd. pose proof (named_pos _ _ _ (dir_find_In _ _ _ H) Hd).
  pose proof (g_names_kids g p c). lia.
Qed.

(** ** Operations that keep the counts

    Each is a composition of changes as a request makes it. *)

Definition inc (n : Z) : Z := u64 (n + 1).
Definition dec (n : Z) : Z := u64 (n - 1).

Lemma dec_pos n : 1 <= n < 2 ^ 64 -> dec n = n - 1.
Proof. intros. unfold dec. apply u64_small. lia. Qed.
Lemma inc_small n : 0 <= n < 2 ^ 64 - 1 -> inc n = n + 1.
Proof. intros. unfold inc. apply u64_small. lia. Qed.
Lemma dec_range n : 0 <= dec n < 2 ^ 64.
Proof. apply u64_range. Qed.
Lemma inc_range n : 0 <= inc n < 2 ^ 64.
Proof. apply u64_range. Qed.

(** The entry that a name adds. *)
Definition add_entry (name : string) (c : Z) (l : list (string * Z)) : list (string * Z) :=
  l ++ [(name, c)].

Lemma named_add x name c l :
  named x (add_entry name c l) = named x l + b2z (negb (is_dot name) && (c =? x)).
Proof. unfold add_entry. rewrite named_app. simpl. lia. Qed.

Lemma subdirs_add dir name c l :
  subdirs dir (add_entry name c l) = subdirs dir l + b2z (negb (is_dot name) && dir c).
Proof. unfold add_entry. rewrite subdirs_app. simpl. lia. Qed.

Lemma subdirs_on_links g f p l : subdirs (g_dir (on_links f p g)) l = subdirs (g_dir g) l.
Proof. apply subdirs_ext. intros d. apply g_dir_links. Qed.

Lemma subdirs_on_kids g f p l : subdirs (g_dir (on_kids f p g)) l = subdirs (g_dir g) l.
Proof. apply subdirs_ext. intros d. apply g_dir_kids. Qed.

Lemma dir_on_links g f p c : g_dir g c = true -> g_dir (on_links f p g) c = true.
Proof. by rewrite g_dir_links. Qed.

Lemma dir_on_kids g f p c : g_dir g c = true -> g_dir (on_kids f p g) c = true.
Proof. by rewrite g_dir_kids. Qed.

#[local] Hint Resolve dir_on_links dir_on_kids : verifs.

(** Brings the observations of a changed graph down to the first graph. *)
Ltac observe :=
  repeat first
    [ progress rewrite ?g_dir_links, ?g_dir_kids, ?g_names_links, ?g_kids_links, ?g_links_kids,
        ?subdirs_on_links, ?subdirs_on_kids
    | rewrite g_links_links by eauto 12 with verifs
    | rewrite g_names_on_kids by eauto 12 with verifs
    | rewrite g_kids_kids by eauto 12 with verifs ].

(** Case distinction on the numbers that are compared. *)
Ltac split_numbers :=
  repeat match goal with
  | |- context [decide (?a = ?b)] => destruct (decide (a = b)); [try subst|]
  | H : context [decide (?a = ?b)] |- _ => destruct (decide (a = b)); [try subst|]
  | |- context [?a =? ?b] => destruct (Z.eqb_spec a b); [try subst|]
  | H : context [?a =? ?b] |- _ => destruct (Z.eqb_spec a b); [try subst|]
  end; cbn [b2z negb andb] in *.

(** A name of something that is not a directory, with its link. *)
Lemma link_ok g p name c :
  links_ok g -> g_dir g p = true -> g_dir g c = false -> 1 <= g_links g c < 2 ^ 64 - 1 ->
  links_ok (on_links inc c (on_kids (add_entry name c) p g)).
Proof.
  intros [Hr Hn Hd] Hp Hc Hl.
  assert (is_Some (g_node g c)) as Hs by (apply links_present; lia).
  split; intros x; observe; rewrite ?named_add.
  - case_decide; [apply inc_range|apply Hr].
  - specialize (Hn x). pose proof (b2z_range (negb (is_dot name) && (c =? x))).
    rewrite inc_small by lia. case_decide; [subst; lia|].
    rewrite (proj2 (Z.eqb_neq c x)) by done. rewrite andb_false_r. simpl. lia.
  - intros Hx. assert (c <> x) as E by congruence.
    rewrite (proj2 (Z.eqb_neq c x)) by done. rewrite andb_false_r. simpl. intros H1.
    destruct (Hd x Hx ltac:(lia)) as [Hd1 Hd2]. split; [lia|].
    rewrite (decide_False (P := c = x)) by done. case_decide as Epx; [|done]. subst x.
    rewrite subdirs_add, Hc, andb_false_r. simpl. lia.
Qed.

(** A name is removed and its link with it. *)
Lemma unlink_ok g p name c :
  links_ok g -> g_dir g p = true -> is_dot name = false ->
  dir_find name (g_kids g p) = Some c ->
  links_ok (on_links dec c (on_kids (dir_erase name) p g)).
Proof.
  intros [Hr Hn Hd] Hp Hdot Hf. destruct (entry_named _ _ _ _ Hf Hdot) as [H1 H2].
  pose proof (Hn c) as Hc. pose proof (Hr c) as Hrc.
  assert (is_Some (g_node g c)) as Hs by (apply links_present; lia).
  split; intros x; observe; rewrite ?(named_erase _ _ _ _ Hf Hdot).
  - case_decide; [apply dec_range|apply Hr].
  - specialize (Hn x). rewrite dec_pos by lia. split_numbers; lia.
  - intros Hx Hx1. specialize (Hd x Hx). rewrite dec_pos by lia.
    pose proof (subdirs_erase (g_dir g) _ _ _ Hf Hdot). pose proof (b2z_range (g_dir g c)).
    split_numbers; try lia; destruct Hd as [Hd1 Hd2]; try lia.
Qed.

(** A directory loses its name and its links, its parent one link. *)
Lemma rmdir_ok f g p name c :
  (forall n, 0 <= n < 2 ^ 64 -> 0 <= f n < 2 ^ 64) ->
  links_ok g -> g_dir g p = true -> is_dot name = false ->
  dir_find name (g_kids g p) = Some c -> g_dir g c = true -> c <> p ->
  links_ok (on_links f c (on_links dec p (on_kids (dir_erase name) p g))).
Proof.
  intros Hff [Hr Hn Hd] Hp Hdot Hf Hc Hne. destruct (entry_named _ _ _ _ Hf Hdot) as [H1 H2].
  destruct (Hd c Hc H2) as [Hc1 _]. pose proof (Hr p) as Hrp. pose proof (Hr c) as Hrc.
  pose proof (subdirs_erase (g_dir g) _ _ _ Hf Hdot) as Hsub. rewrite Hc in Hsub. simpl in Hsub.
  pose proof (subdirs_nonneg (g_dir g) (dir_erase name (g_kids g p))).
  split; intros x; observe; rewrite ?(named_erase _ _ _ _ Hf Hdot).
  - split_numbers; first [done | by apply Hff | apply dec_range | apply Hr].
  - pose proof (Hn x). pose proof (Hd p Hp). pose proof (g_names_nonneg g p).
    pose proof (Hff _ Hrc). pose proof (dec_range (g_links g p)).
    split_numbers; try done; try lia.
    destruct (decide (g_names g x = 0)); [lia|]. rewrite dec_pos; lia.
  - intros Hx Hx1. specialize (Hd x Hx). split_numbers; try done; try lia.
    rewrite dec_pos; lia.
Qed.

(** The entries of [p] after the name [nname] in [q] was given to [s]. *)
Lemma find_assigned g p name q nname s x :
  dir_find name (g_kids g p) = Some s -> dir_find nname (g_kids g q) = Some x ->
  is_dot nname = false ->
  exists l, (if decide (q = p) then dir_assign nname s (g_kids g q) else g_kids g p) = l /\
    dir_find name l = Some s /\
    (forall y, named y l = named y (g_kids g p)
       + (if decide (q = p) then b2z (s =? y) - b2z (x =? y) else 0)) /\
    (forall dir, subdirs dir l = subdirs dir (g_kids g p)
       + (if decide (q = p) then b2z (dir s) - b2z (dir x) else 0)).
Proof.
  intros Hf Hf' Hdot. eexists. split; [done|]. case_decide; [subst q|].
  - split; [rewrite dir_find_assign; by case_decide; rewrite Hf|]. split.
    + intros y. rewrite (named_assign _ _ _ _ _ Hf' Hdot). lia.
    + intros dir. rewrite (subdirs_assign _ _ _ _ _ Hf' Hdot). lia.
  - split; [done|]. split; intros; lia.
Qed.

(** The entry of [x] becomes one of [s], whose old name goes; no directory is
    involved. *)
Lemma replace_file_ok g p name q nname s x :
  links_ok g -> g_dir g p = true -> g_dir g q = true ->
  is_dot name = false -> is_dot nname = false ->
  dir_find name (g_kids g p) = Some s -> dir_find nname (g_kids g q) = Some x ->
  g_dir g s = false -> g_dir g x = false ->
  links_ok (on_kids (dir_erase name) p (on_kids (dir_assign nname s) q (on_links dec x g))).
Proof.
  intros [Hr Hn Hd] Hp Hq Hdot Hdot' Hf Hf' Hs Hx.
  destruct (entry_named _ _ _ _ Hf Hdot) as [H1 H2].
  destruct (entry_named _ _ _ _ Hf' Hdot') as [H1' H2'].
  pose proof (Hn x) as Hnx. pose proof (Hr x) as Hrx.
  assert (is_Some (g_node g x)) as Hsx by (apply links_present; lia).
  destruct (find_assigned g p name q nname s x Hf Hf') as (l & Hl & Hfl & Hnl & Hsl); [done..|].
  assert (Hk : forall y, g_kids (on_kids (dir_erase name) p
      (on_kids (dir_assign nname s) q (on_links dec x g))) y
    = if decide (p = y) then dir_erase name l
      else if decide (q = y) then dir_assign nname s (g_kids g q) else g_kids g y).
  { intros y. observe. by rewrite Hl. }
  pose proof (fun y => named_assign _ _ _ s y Hf' Hdot') as Ha.
  pose proof (subdirs_assign (g_dir g) _ _ _ s Hf' Hdot') as Hsa.
  rewrite Hs, Hx in *. cbn [b2z] in *.
  split; intros y; rewrite ?Hk; observe; rewrite ?Hl, ?(named_erase _ _ _ _ Hfl Hdot).
  - destruct (decide (x = y)); [apply dec_range|apply Hr].
  - pose proof (Hn y). rewrite dec_pos by lia. rewrite Hnl, Ha. split_numbers; lia.
  - intros Hy. rewrite Hnl, Ha. assert (s <> y) by congruence. assert (x <> y) by congruence.
    rewrite !(proj2 (Z.eqb_neq _ _)) by done. cbn [b2z]. intros Hy1.
    destruct (Hd y Hy ltac:(lia)) as [Hd1 Hd2]. split; [lia|].
    rewrite (decide_False (P := x = y)) by done.
    pose proof (subdirs_erase (g_dir g) _ _ _ Hfl Hdot) as He. rewrite Hs in He. cbn [b2z] in He.
    split_numbers; lia.
Qed.

(** The same with two directories; [x] loses all its names. *)
Lemma replace_dir_ok g p name q nname s x :
  links_ok g -> g_dir g p = true -> g_dir g q = true ->
  is_dot name = false -> is_dot nname = false ->
  dir_find name (g_kids g p) = Some s -> dir_find nname (g_kids g q) = Some x ->
  g_dir g s = true -> g_dir g x = true -> x <> p ->
  links_ok (on_links dec p (on_links dec x (on_links dec x
    (on_kids (dir_erase name) p (on_kids (dir_assign nname s) q (on_links dec x g)))))).
Proof.
  intros [Hr Hn Hd] Hp Hq Hdot Hdot' Hf Hf' Hs Hx Hne.
  destruct (entry_named _ _ _ _ Hf' Hdot') as [H1' H2'].
  destruct (Hd x Hx H2') as [Hx1 _].
  destruct (find_assigned g p name q nname s x Hf Hf') as (l & Hl & Hfl & Hnl & Hsl); [done..|].
  pose proof (fun y => named_assign _ _ _ s y Hf' Hdot') as Ha.
  pose proof (subdirs_assign (g_dir g) _ _ _ s Hf' Hdot') as Hsa.
  pose proof (subdirs_erase (g_dir g) _ _ _ Hfl Hdot) as He. specialize (Hsl (g_dir g)).
  rewrite Hs, Hx in *. cbn [b2z] in *.
  pose proof (subdirs_nonneg (g_dir g) (g_kids g p)).
  split; intros y; observe; rewrite ?Hl, ?(named_erase _ _ _ _ Hfl Hdot).
  - split_numbers; first [done | apply dec_range | apply Hr].
  - pose proof (Hn y). rewrite Hnl, Ha. pose proof (Hd p Hp). pose proof (g_names_nonneg g p).
    pose proof (Hr p). pose proof (dec_range (g_links g p)).
    pose proof (dec_range (dec (dec (g_links g x)))).
    split_numbers; try done; try lia;
      destruct (decide (g_names g y = 0)); try lia; rewrite dec_pos; lia.
  - intros Hy. rewrite Hnl, Ha. intros Hy1. specialize (Hd y Hy). pose proof (Hr p).
    split_numbers; try done; try lia; rewrite ?dec_pos; lia.
Qed.

(** [s] gets a name in [q] and loses one in [p]. The first step may have failed
    ([added] false). *)
Definition moved (added : bool) (p : Z) (name : string) (q : Z) (nname : string) (s : Z)
    (g : graph) : graph :=
  on_kids (dir_erase name) p (if added then on_kids (add_entry nname s) q g else g).

Lemma find_added (added : bool) g p name q nname s :
  dir_find name (g_kids g p) = Some s -> g_dir g q = true ->
  exists l, g_kids (if added then on_kids (add_entry nname s) q g else g) p = l /\
    dir_find name l = Some s /\
    (forall y, named y l = named y (g_kids g p)
       + (if decide (q = p) then b2z (added && negb (is_dot nname) && (s =? y)) else 0)) /\
    (forall dir, subdirs dir l = subdirs dir (g_kids g p)
       + (if decide (q = p) then b2z (added && negb (is_dot nname) && dir s) else 0)).
Proof.
  intros Hf Hq. eexists. split; [done|]. destruct added.
  - rewrite g_kids_kids by done. destruct (decide (q = p)) as [->|].
    + split; [|split].
      * revert Hf. clear. unfold add_entry. generalize (g_kids g p) as l.
        induction l as [|[n d] l IH]; simpl; [done|]. by destruct (String.eqb n name).
      * intros y. by rewrite named_add.
      * intros dir. by rewrite subdirs_add.
    + split; [done|]. split; intros; lia.
  - split; [done|]. split; intros; simpl; case_decide; lia.
Qed.

Lemma g_moved (added : bool) p name q nname s g :
  dir_find name (g_kids g p) = Some s -> g_dir g p = true -> g_dir g q = true ->
  is_dot name = false -> is_dot nname = false ->
  (forall y, g_links (moved added p name q nname s g) y = g_links g y) /\
  (forall y, g_dir (moved added p name q nname s g) y = g_dir g y) /\
  (forall y, g_names (moved added p name q nname s g) y
     = g_names g y - (if added then 0 else b2z (s =? y))) /\
  (forall y, subdirs (g_dir g) (g_kids (moved added p name q nname s g) y)
     = subdirs (g_dir g) (g_kids g y) - b2z ((p =? y) && g_dir g s)
       + b2z (added && (q =? y) && g_dir g s)).
Proof.
  intros Hf Hp Hq Hdot Hdot'.
  destruct (find_added added g p name q nname s Hf Hq) as (l & Hl & Hfl & Hnl & Hsl).
  specialize (Hsl (g_dir g)). pose proof (subdirs_erase (g_dir g) _ _ _ Hfl Hdot) as He.
  unfold moved. rewrite Hdot' in *. cbn [negb] in *. rewrite ?andb_true_r in *.
  split_and!; intros y; destruct added; observe; try done.
  - rewrite g_kids_kids in Hl by done. rewrite Hl, (named_erase _ _ _ y Hfl Hdot).
    rewrite named_add, Hdot'. cbn [negb andb]. lia.
  - rewrite <- Hl in *. rewrite (named_erase _ _ _ y Hfl Hdot). lia.
  - rewrite g_kids_kids in Hl by done. cbn [andb] in *.
    rewrite Hl. clear Hl. split_numbers; rewrite ?subdirs_add, ?Hdot'; cbn [negb andb] in *;
      destruct (g_dir g s); cbn [b2z] in *; try lia; try done.
  - cbn [andb] in *. rewrite <- Hl in *. split_numbers; try lia;
      destruct (g_dir g s); cbn [b2z] in *; try lia; try done.
Qed.

Lemma move_file_ok (added : bool) p name q nname s g :
  links_ok g -> dir_find name (g_kids g p) = Some s -> g_dir g p = true -> g_dir g q = true ->
  is_dot name = false -> is_dot nname = false -> g_dir g s = false ->
  links_ok (moved added p name q nname s g).
Proof.
  intros [Hr Hn Hd] Hf Hp Hq Hdot Hdot' Hs.
  destruct (g_moved added p name q nname s g) as (H1 & H2 & H3 & H4); [done..|].
  rewrite Hs in H4. setoid_rewrite andb_false_r in H4. cbn [b2z] in H4.
  split; intros y; rewrite ?H1, ?H2, ?H3.
  - done.
  - specialize (Hn y). pose proof (b2z_range (s =? y)). destruct added; lia.
  - intros Hy Hy1. rewrite (subdirs_ext _ (g_dir g)) by done. rewrite H4.
    pose proof (b2z_range (s =? y)).
    destruct (Hd y Hy) as [Hd1 Hd2]; destruct added; lia.
Qed.

Lemma move_dir_ok (added : bool) p name q nname s g :
  links_ok g -> dir_find name (g_kids g p) = Some s -> g_dir g p = true -> g_dir g q = true ->
  is_dot name = false -> is_dot nname = false -> g_dir g s = true ->
  g_links g q < 2 ^ 64 - 1 ->
  links_ok (on_links inc q (on_links dec p (moved added p name q nname s g))).
Proof.
  intros [Hr Hn Hd] Hf Hp Hq Hdot Hdot' Hs Hl.
  destruct (g_moved added p name q nname s g) as (H1 & H2 & H3 & H4); [done..|].
  set (g1 := moved added p name q nname s g) in *. clearbody g1.
  assert (g_dir g1 p = true) by (by rewrite H2). assert (g_dir g1 q = true) by (by rewrite H2).
  assert (Hback : p = q -> inc (dec (g_links g p)) = g_links g p).
  { intros _. unfold inc, dec. rewrite u64_add_l. replace (_ - 1 + 1) with (g_links g p) by lia.
    apply u64_small, Hr. }
  rewrite Hs in H4. setoid_rewrite andb_true_r in H4.
  pose proof (subdirs_nonneg (g_dir g) (g_kids g p)). pose proof (Hr p). pose proof (Hr q).
  pose proof (dec_range (g_links g p)). pose proof (b2z_range added).
  split; intros y; observe; rewrite ?H1, ?H2, ?H3.
  - split_numbers; first [apply inc_range | apply dec_range | apply Hr].
  - pose proof (Hn y). pose proof (Hd p Hp). pose proof (g_names_nonneg g p).
    pose proof (b2z_range (s =? y)).
    assert (g_names g y - (if added then 0 else b2z (s =? y)) <= g_names g y) by (destruct added; lia).
    split_numbers; rewrite ?Hback, ?inc_small by (done || lia); try lia;
      destruct (decide (g_names g y = 0)); try lia; rewrite dec_pos; lia.
  - intros Hy Hy1. rewrite (subdirs_ext _ (g_dir g)) by done. rewrite H4.
    assert (g_names g y - (if added then 0 else b2z (s =? y)) <= g_names g y)
      by (pose proof (b2z_range (s =? y)); destruct added; lia).
    destruct (Hd y Hy ltac:(lia)) as [Hd1 Hd2]. split; [destruct added; lia|].
    split_numbers; rewrite ?andb_true_r, ?andb_false_r; cbn [b2z];
      rewrite ?Hback, ?inc_small, ?dec_pos by (done || lia); destruct added; cbn [b2z andb] in *; lia.
Qed.

(** A slot without names is emptied. *)
Lemma delete_ok g c :
  links_ok g -> 0 <= c < zlen g -> g_names g c = 0 -> links_ok (g_put c None g).
Proof.
  intros [Hr Hn Hd] Hc H0.
  assert (Hdir : forall d, g_dir (g_put c None g) d = true -> g_dir g d = true).
  { intros d. unfold g_dir. rewrite g_node_put by done. by case_decide. }
  split; intros x; unfold g_links; rewrite ?g_names_put by done; rewrite ?g_node_put by done.
  - case_decide; [simpl; lia|apply Hr].
  - pose proof (Hn x) as Hx. unfold g_links in Hx. pose proof (named_nonneg x (g_kids g c)).
    simpl. case_decide; [subst; simpl; lia|lia].
  - intros Hx Hx1. pose proof (Hdir x Hx) as Hx'. unfold g_dir, g_kids in *.
    rewrite g_node_put in * by done. case_decide; [done|]. simpl in *.
    pose proof (named_nonneg x (g_kids g c)). unfold g_kids in *.
    destruct (Hd x Hx' ltac:(lia)) as [Hd1 Hd2]. split; [lia|].
    pose proof (subdirs_mono (g_dir (g_put c None g)) (g_dir g) (kids_of (g_node g x)) Hdir).
    unfold g_links in Hd2. unfold g_dir in *. lia.
Qed.

(** A free slot, or the next one, gets a node; its entries are dots. *)
Definition g_alloc (c : Z) (nd : node) (g : graph) : graph :=
  if c =? zlen g then g ++ [Some nd] else g_put c (Some nd) g.

Definition free_slot (g : graph) (c : Z) : Prop := c = zlen g \/ vec_at g c = Some None.

Lemma g_node_alloc g c nd x :
  free_slot g c -> g_node (g_alloc c nd g) x = if decide (c = x) then Some nd else g_node g x.
Proof.
  intros Hf. unfold g_alloc. destruct (c =? zlen g) eqn:E; zbool.
  - unfold g_node. rewrite vec_at_snoc. subst c. repeat case_decide; congruence || done.
  - destruct Hf as [?|Hf]; [done|]. apply g_node_put. by eapply vec_at_range.
Qed.

Lemma g_node_free g c : free_slot g c -> g_node g c = None.
Proof.
  intros [->|H]; unfold g_node; [|by rewrite H]. unfold vec_at.
  destruct (0 <=? zlen g); [|done]. by rewrite lookup_ge_None_2 by lia.
Qed.

Lemma g_names_alloc g c nd x :
  free_slot g c -> g_names (g_alloc c nd g) x = g_names g x + named x (kids_of (Some nd)).
Proof.
  intros Hf. pose proof (g_node_free _ _ Hf) as Hn. unfold g_alloc.
  destruct (c =? zlen g) eqn:E; zbool.
  - rewrite g_names_app. simpl. lia.
  - destruct Hf as [?|Hf]; [done|]. rewrite g_names_put by (by eapply vec_at_range).
    unfold g_kids. rewrite Hn. simpl. lia.
Qed.

Lemma subdirs_unnamed dir dir' l c :
  named c l = 0 -> (forall d, d <> c -> dir d = dir' d) -> subdirs dir l = subdirs dir' l.
Proof.
  intros H Hd. induction l as [|[n d] l IH]; simpl in *; [done|].
  pose proof (named_nonneg c l). pose proof (b2z_range (negb (is_dot n) && (d =? c))).
  rewrite IH by lia. destruct (Z.eqb_spec d c) as [->|Hne]; [|by rewrite Hd].
  destruct (is_dot n); [done|]. simpl in *. lia.
Qed.

Lemma free_unnamed g c : links_ok g -> free_slot g c -> g_names g c = 0.
Proof.
  intros Hg Hf. pose proof (lk_names g Hg c) as H. pose proof (g_names_nonneg g c).
  unfold g_links in H. rewrite (g_node_free _ _ Hf) in H. simpl in H. lia.
Qed.

Lemma alloc_ok g c nd :
  links_ok g -> free_slot g c -> 0 <= n_links nd < 2 ^ 64 ->
  (forall x, named x (kids_of (Some nd)) = 0) -> links_ok (g_alloc c nd g).
Proof.
  intros Hg Hf Hl Hk. pose proof (free_unnamed g c Hg Hf) as H0. destruct Hg as [Hr Hn Hd].
  split; intros x; rewrite ?g_names_alloc, ?Hk by done; unfold g_links, g_kids;
    rewrite ?g_node_alloc by done.
  - case_decide; [done|apply Hr].
  - case_decide; [subst; simpl; lia|]. specialize (Hn x). unfold g_links in Hn. lia.
  - intros Hx Hx1. assert (c <> x) by (intros ->; lia).
    unfold g_dir in Hx. rewrite g_node_alloc in Hx by done. rewrite decide_False in * by done.
    destruct (Hd x Hx ltac:(lia)) as [Hd1 Hd2]. split; [lia|].
    rewrite (subdirs_unnamed _ (g_dir g) _ c); [done| |].
    + pose proof (g_names_kids g x c). pose proof (named_nonneg c (g_kids g x)).
      unfold g_kids in *. lia.
    + intros d Hdc. unfold g_dir. rewrite g_node_alloc by done. by rewrite decide_False.
Qed.

(** An entry under one of the dots. *)
Lemma dot_ok g p name c :
  links_ok g -> g_dir g p = true -> is_dot name = true ->
  links_ok (on_kids (add_entry name c) p g).
Proof.
  intros [Hr Hn Hd] Hp Hdot. split; intros x; observe; rewrite ?named_add, ?Hdot; simpl.
  - done.
  - specialize (Hn x). lia.
  - intros Hx Hx1. destruct (Hd x Hx ltac:(lia)). split; [lia|].
    case_decide; [|done]. subst. rewrite subdirs_add, Hdot. simpl. lia.
Qed.

(** The first name of a new inode. *)
Lemma name_file_ok g p name c :
  links_ok g -> g_dir g p = true -> g_dir g c = false -> g_names g c = 0 -> 1 <= g_links g c ->
  links_ok (on_kids (add_entry name c) p g).
Proof.
  intros [Hr Hn Hd] Hp Hc H0 Hl. split; intros x; observe; rewrite ?named_add.
  - done.
  - specialize (Hn x). pose proof (b2z_range (negb (is_dot name) && (c =? x))).
    destruct (Z.eqb_spec c x); [subst; lia|]. rewrite andb_false_r. simpl. lia.
  - intros Hx. assert (c <> x) by congruence. rewrite (proj2 (Z.eqb_neq c x)) by done.
    rewrite andb_false_r. simpl. intros Hx1. destruct (Hd x Hx ltac:(lia)). split; [lia|].
    case_decide; [|done]. subst. rewrite subdirs_add, Hc, andb_false_r. simpl. lia.
Qed.

Lemma name_dir_ok g p name c :
  links_ok g -> g_dir g p = true -> g_dir g c = true -> g_names g c = 0 -> p <> c ->
  2 + subdirs (g_dir g) (g_kids g c) <= g_links g c -> g_links g p < 2 ^ 64 - 1 ->
  links_ok (on_links inc p (on_kids (add_entry name c) p g)).
Proof.
  intros [Hr Hn Hd] Hp Hc H0 Hne Hl Hlp. pose proof (Hr p).
  pose proof (subdirs_nonneg (g_dir g) (g_kids g c)).
  split; intros x; observe; rewrite ?named_add.
  - case_decide; [apply inc_range|apply Hr].
  - specialize (Hn x). pose proof (b2z_range (negb (is_dot name) && (c =? x))).
    rewrite inc_small by lia.
    destruct (Z.eqb_spec c x); [subst; rewrite decide_False by done; lia|].
    rewrite andb_false_r. simpl. case_decide; [subst; lia|lia].
  - intros Hx Hx1. pose proof (b2z_range (negb (is_dot name) && (c =? x))).
    pose proof (b2z_range (negb (is_dot name) && g_dir g c)). rewrite inc_small by lia.
    destruct (Z.eqb_spec c x) as [<-|].
    + rewrite !decide_False by done. split; lia.
    + rewrite andb_false_r in *. simpl in *. destruct (Hd x Hx ltac:(lia)). split; [lia|].
      case_decide; [|done]. subst. rewrite subdirs_add. lia.
Qed.

(** ** The first slot

    The number 0 stands for no inode; its slot holds an object without links. *)

Definition null_slot (g : graph) : Prop := g_node g 0 = Some (Node 0 None).

Definition graph_ok (g : graph) : Prop := links_ok g /\ null_slot g.

Lemma null_links g f p : null_slot g -> p <> 0 -> null_slot (on_links f p g).
Proof. unfold null_slot, on_links. intros. rewrite g_node_update. by rewrite decide_False. Qed.

Lemma null_kids g f p : null_slot g -> null_slot (on_kids f p g).
Proof.
  unfold null_slot, on_kids. intros H. rewrite g_node_update. case_decide; [|done].
  subst. by rewrite H.
Qed.

Lemma null_put g c : null_slot g -> 0 <= c < zlen g -> c <> 0 -> null_slot (g_put c None g).
Proof. unfold null_slot. intros. rewrite g_node_put by done. by rewrite decide_False. Qed.

Lemma null_alloc g c nd : null_slot g -> free_slot g c -> null_slot (g_alloc c nd g).
Proof.
  unfold null_slot. intros H Hf. rewrite g_node_alloc by done. case_decide; [|done].
  subst. rewrite (g_node_free _ _ Hf) in H. done.
Qed.

Lemma free_nonzero g c : null_slot g -> free_slot g c -> c <> 0.
Proof. intros H Hf ->. unfold null_slot in H. by rewrite (g_node_free _ _ Hf) in H. Qed.

Lemma dir_nonzero g p : null_slot g -> g_dir g p = true -> p <> 0.
Proof. unfold null_slot, g_dir. intros H Hd ->. by rewrite H in Hd. Qed.

Lemma linked_nonzero g c : null_slot g -> 1 <= g_links g c -> c <> 0.
Proof. unfold null_slot, g_links. intros H Hl ->. rewrite H in Hl. simpl in Hl. lia. Qed.

Lemma entry_nonzero g p name c :
  graph_ok g -> dir_find name (g_kids g p) = Some c -> is_dot name = false -> c <> 0.
Proof.
  intros [Hg H0] Hf Hd. destruct (entry_named _ _ _ _ Hf Hd) as [_ H].
  pose proof (lk_names _ Hg c). apply (linked_nonzero g); [done|lia].
Qed.

#[export] Hint Resolve null_links null_kids null_put null_alloc dir_nonzero linked_nonzero
  entry_nonzero free_nonzero : verifs.

(** ** The graph of a file system *)

Definition node_of (i : inode) : node := Node (st_nlink (attr i)) (dir_children i).
Definition graph_of (t : list (option inode)) : graph :=
  fmap (M := list) (fmap (M := option) node_of) t.
Definition wgraph (w : world) : graph := graph_of (Inodes w).

Lemma wgraph_node w c : g_node (wgraph w) c = node_of <$> get_inode w c.
Proof.
  unfold g_node, get_inode, wgraph, graph_of, vec_at. destruct (0 <=? c); [|done].
  rewrite list_lookup_fmap. by destruct (Inodes w !! Z.to_nat c) as [[i|]|].
Qed.

Lemma wgraph_put w p o : wgraph (put_inode p o w) = g_put p (node_of <$> o) (wgraph w).
Proof. unfold wgraph, graph_of, g_put. simpl. by rewrite list_fmap_insert. Qed.

Lemma wgraph_length w : zlen (wgraph w) = zlen (Inodes w).
Proof. unfold wgraph, graph_of. by rewrite length_fmap. Qed.

(** An update through a pointer. *)
Lemma wgraph_update p f e w a w' h :
  update p f e w = Ok a w' -> (forall i, node_of (f i) = h (node_of i)) ->
  wgraph w' = g_update p h (wgraph w).
Proof.
  intros (i & Hi & ->)%update_Ok Hh. rewrite wgraph_put. unfold g_update.
  rewrite wgraph_node, Hi. simpl. by rewrite Hh.
Qed.

Lemma g_update_id p g : g_update p id g = g.
Proof.
  unfold g_update. destruct (g_node g p) as [nd|] eqn:E; [|done]. unfold g_put.
  apply list_insert_id. pose proof (g_node_range _ _ _ E). unfold g_node, vec_at in E.
  rewrite (proj2 (Z.leb_le 0 p)) in E by lia. destruct (g !! Z.to_nat p) as [[?|]|]; cbn in E; unfold id; congruence.
Qed.

Lemma same_update p f :
  (forall i, node_of (f i) = node_of i) -> Respects (same wgraph) (update p f).
Proof.
  intros H e w a w' Hu. unfold same. rewrite (wgraph_update _ _ _ _ _ _ id Hu H).
  apply g_update_id.
Qed.
