(* ===== verification/LinkRuns.v ===== *)
(** * Link counts along runs

    How the code changes the graph of links and names, request by request, and
    that every request keeps [links_ok]. *)

From S2P Require Import Prelude World Util Table InodeOps FileOps DirectoryOps Nodes.
From S2P Require Import Handlers CkptRestore Codec Pickle Requests Invariant Runs Links.

(** ** Code that leaves the graph as it is *)

Ltac steady :=
  intros; repeat first
    [ solve [auto with verifs typeclass_instances]
    | solve [apply same_update; intros; done]
    | solve [apply respects_modify; done]
    | respects_step ].

Lemma same_send r : Respects (same wgraph) (send r).
Proof. by apply respects_modify. Qed.
Lemma same_reply_error n : Respects (same wgraph) (reply_error n).
Proof. apply same_send. Qed.
Lemma same_UpdateUsedBlocks n : Respects (same wgraph) (UpdateUsedBlocks n).
Proof. by apply respects_modify. Qed.
Lemma same_UpdateUsedInodes n : Respects (same wgraph) (UpdateUsedInodes n).
Proof. by apply respects_modify. Qed.

#[export] Hint Resolve same_send same_reply_error same_UpdateUsedBlocks
  same_UpdateUsedInodes : verifs.

Lemma same_UpdateSize p n : Respects (same wgraph) (UpdateSize p n).
Proof. unfold UpdateSize. steady. Qed.
Lemma same_ReplyEntry p : Respects (same wgraph) (ReplyEntry p).
Proof. unfold ReplyEntry. steady. Qed.
Lemma same_ReplyCreate p : Respects (same wgraph) (ReplyCreate p).
Proof. unfold ReplyCreate. steady. Qed.
Lemma same_ReplyAttr p : Respects (same wgraph) (ReplyAttr p).
Proof. unfold ReplyAttr. steady. Qed.
Lemma same_ReplyAccess p m g u : Respects (same wgraph) (ReplyAccess p m g u).
Proof. unfold ReplyAccess. steady. Qed.
Lemma same_Forget p n : Respects (same wgraph) (Forget p n).
Proof. unfold Forget. steady. Qed.
Lemma same_ChildInodeNumber p name : Respects (same wgraph) (ChildInodeNumberWithName p name).
Proof. unfold ChildInodeNumberWithName. steady. Qed.
Lemma same_IsEmpty p : Respects (same wgraph) (IsEmpty p).
Proof. unfold IsEmpty. steady. Qed.
Lemma same_is_dir_now p : Respects (same wgraph) (is_dir_now p).
Proof. unfold is_dir_now. steady. Qed.
Lemma same_ReplySetAttr p new to_set : Respects (same wgraph) (ReplySetAttr p new to_set).
Proof.
  unfold ReplySetAttr. apply respects_bind; [typeclasses eauto|steady|]. intros e.
  apply respects_bind; [typeclasses eauto| |steady]. apply same_update. intros i.
  unfold node_of, apply_setattr. simpl. unfold dir_children. simpl.
  by repeat match goal with |- context [if ?b then _ else _] => destruct b end.
Qed.

#[export] Hint Resolve same_UpdateSize same_ReplyEntry same_ReplyCreate same_ReplyAttr
  same_ReplyAccess same_Forget same_ChildInodeNumber same_IsEmpty same_is_dir_now
  same_ReplySetAttr : verifs.

(** A file keeps its links and is no directory. *)
Lemma file_node i b f :
  file_buf i <> None -> st_nlink (f (attr i)) = st_nlink (attr i) ->
  node_of (set_file b f i) = node_of i.
Proof.
  unfold node_of, file_buf, dir_children. intros Hf Hn. simpl.
  change (attr (set_file b f i)) with (f (attr i)). rewrite Hn. by destruct (derived i).
Qed.

Lemma same_set_file p e w i b f a w' :
  get_inode w p = Some i -> file_buf i <> None ->
  (forall x, st_nlink (f x) = st_nlink x) ->
  update p (set_file b f) e w = Ok a w' -> wgraph w' = wgraph w.
Proof.
  intros Hi Hf Hn (j & Hj & ->)%update_Ok. assert (j = i) as -> by congruence.
  rewrite wgraph_put. simpl. rewrite file_node by done.
  rewrite <- (g_update_id p (wgraph w)) at 2. unfold g_update.
  by rewrite wgraph_node, Hi.
Qed.

(** Code after the object was read: it is still the object. *)
Lemma same_FileTruncate p n : Respects (same wgraph) (FileTruncate p n).
Proof.
  intros e w a w' H. unfold FileTruncate in H.
  apply bind_Ok in H as (e1 & w1 & [= <- <-] & H).
  apply bind_Ok in H as (f & w1 & [Hf ->]%deref_Ok & H).
  apply bind_Ok in H as (buf & w1 & Hb & H).
  destruct (file_buf f) eqn:Ef; [|done]. injection Hb as <- <-.
  apply bind_Ok in H as (room & w1 & [= _ <-] & H).
  destruct (negb room); [by injection H as _ <-|].
  destruct (_ && _ && _); [by injection H as _ <-|].
  apply bind_Ok in H as (buf2 & w1 & Hb & H).
  assert (w1 = w) as ->.
  { destruct (_ <? _); [|by injection Hb]. destruct (mem_set _ _ _ _); [by injection Hb|done]. }
  apply bind_Ok in H as (? & w1 & [= _ <-] & H).
  apply bind_Ok in H as (? & w2 & Hu & [= _ <-]).
  eapply same_set_file in Hu; [done|exact Hf|congruence|done].
Qed.

Lemma same_File_Write p d off : Respects (same wgraph) (File_WriteAndReply p d off).
Proof.
  intros e w a w' H. unfold File_WriteAndReply in H.
  apply bind_Ok in H as (e1 & w1 & [= <- <-] & H).
  apply bind_Ok in H as (f & w1 & [Hf ->]%deref_Ok & H).
  apply bind_Ok in H as (buf & w1 & Hb & H).
  destruct (file_buf f) eqn:Ef; [|done]. injection Hb as <- <-.
  apply bind_Ok in H as (room & w1 & Hr & H).
  assert (w1 = w) as -> by (by destruct (_ <? _); injection Hr).
  destruct (negb room); [by injection H as _ <-|].
  destruct (_ && _); [by injection H as _ <-|].
  apply bind_Ok in H as (buf2 & w1 & Hb & H).
  assert (w1 = w) as ->.
  { destruct (_ <? u64 off); [|by injection Hb]. destruct (mem_set _ _ _ _); [by injection Hb|done]. }
  apply bind_Ok in H as (buf3 & w1 & Hb3 & H).
  assert (w1 = w) as -> by (destruct (mem_write _ _ _); [by injection Hb3|done]).
  apply bind_Ok in H as (? & w1 & Hc & H).
  assert (get_inode w1 p = Some f /\ wgraph w1 = wgraph w) as [Hf1 Hg].
  { by destruct (_ <? _); injection Hc as _ <-. }
  apply bind_Ok in H as (? & w2 & Hu & [= _ <-]). unfold same. rewrite <- Hg.
  change (wgraph w2 = wgraph w1).
  eapply same_set_file in Hu; [done|exact Hf1|congruence|].
  intros y. unfold touch_mc. by destruct (Size f <? u64 (off + zlen d)).
Qed.

#[export] Hint Resolve same_FileTruncate same_File_Write : verifs.

Lemma same_WriteAndReply p d off : Respects (same wgraph) (WriteAndReply p d off).
Proof.
  unfold WriteAndReply, Directory_WriteAndReply, SpecialInode_WriteAndReply,
    SymLink_WriteAndReply. steady.
Qed.
Lemma same_ReadAndReply p size off : Respects (same wgraph) (ReadAndReply p size off).
Proof.
  unfold ReadAndReply, File_ReadAndReply, Directory_ReadAndReply,
    SpecialInode_ReadAndReply, SymLink_ReadAndReply. steady.
Qed.

Lemma same_xrealloc ptr n : Respects (same wgraph) (xrealloc ptr n).
Proof. unfold xrealloc. steady. Qed.
Lemma same_xwrite ptr off v : Respects (same wgraph) (xwrite ptr off v).
Proof. unfold xwrite. steady. Qed.
Lemma same_xread ptr off n : Respects (same wgraph) (xread ptr off n).
Proof. unfold xread. steady. Qed.
#[export] Hint Resolve same_WriteAndReply same_ReadAndReply same_xrealloc same_xwrite
  same_xread : verifs.

Lemma same_SetXAttr p name v flags pos :
  Respects (same wgraph) (SetXAttrAndReply p name v flags pos).
Proof. unfold SetXAttrAndReply. steady. Qed.
Lemma same_GetXAttr p name size pos :
  Respects (same wgraph) (GetXAttrAndReply p name size pos).
Proof. unfold GetXAttrAndReply. steady. Qed.
Lemma same_ListXAttr p size : Respects (same wgraph) (ListXAttrAndReply p size).
Proof. unfold ListXAttrAndReply. steady. Qed.
Lemma same_RemoveXAttr p name : Respects (same wgraph) (RemoveXAttrAndReply p name).
Proof. unfold RemoveXAttrAndReply. steady. Qed.
Lemma same_PrepareReaddir p c : Respects (same wgraph) (PrepareReaddir p c).
Proof. unfold PrepareReaddir. steady. Qed.
Lemma same_RecycleStates : Respects (same wgraph) RecycleStates.
Proof. by apply respects_modify. Qed.
#[export] Hint Resolve same_SetXAttr same_GetXAttr same_ListXAttr same_RemoveXAttr
  same_PrepareReaddir same_RecycleStates : verifs.

(** The requests that change no name and no link count. *)
Definition link_request (r : request) : bool :=
  match r with
  | op_mknod _ _ _ _ | op_mkdir _ _ _ | op_symlink _ _ _ | op_create _ _ _ | op_link _ _ _
  | op_unlink _ _ | op_rmdir _ _ | op_rename _ _ _ _ | op_forget _ _ | op_ioctl _ _ => true
  | _ => false
  end.

Lemma same_FuseOps dsize sha256 h r :
  link_request r = false -> Respects (same wgraph) (FuseOps dsize sha256 h r).
Proof.
  destruct r; simpl; try done; intros _;
    match goal with |- Respects _ ?f => let hd := head_of f in unfold hd end;
    unfold with_live, with_dir; steady.
Qed.

(** ** Code that changes the graph *)

Lemma inc_graph p e w a w' :
  IncrementLinkCount p e w = Ok a w' -> wgraph w' = on_links inc p (wgraph w).
Proof. intros H. by apply (wgraph_update _ _ _ _ _ _ _ H). Qed.

Lemma dec_graph p e w a w' :
  DecrementLinkCount p e w = Ok a w' -> wgraph w' = on_links dec p (wgraph w).
Proof. intros H. by apply (wgraph_update _ _ _ _ _ _ _ H). Qed.

Lemma dir_graph w p i l :
  get_inode w p = Some i -> dir_children i = Some l ->
  g_dir (wgraph w) p = true /\ g_kids (wgraph w) p = l.
Proof.
  intros Hi Hl. unfold g_dir, g_kids. rewrite wgraph_node, Hi. simpl. unfold node_of. by rewrite Hl.
Qed.

(** Setting the children of a directory. *)
Lemma set_children_graph p f e w i l a w' :
  get_inode w p = Some i -> dir_children i = Some l ->
  update p (set_children (f l)) e w = Ok a w' -> wgraph w' = on_kids f p (wgraph w).
Proof.
  intros Hi Hl (j & Hj & ->)%update_Ok. assert (j = i) as -> by congruence.
  rewrite wgraph_put. unfold on_kids, g_update. rewrite wgraph_node, Hi. simpl.
  unfold node_of. simpl. by rewrite Hl.
Qed.

(** The beginning of the methods of [Directory]. *)
Lemma dir_method {A} p (k : inode -> list (string * Z) -> M A) e w a w' :
  (d ← deref p; l ← get_or crash_null (dir_children d); k d l) e w = Ok a w' ->
  exists d l, get_inode w p = Some d /\ dir_children d = Some l /\
    g_dir (wgraph w) p = true /\ g_kids (wgraph w) p = l /\ k d l e w = Ok a w'.
Proof.
  intros H. apply bind_Ok in H as (d & w1 & [Hd ->]%deref_Ok & H).
  apply bind_Ok in H as (l & w1 & Hl & H). destruct (dir_children d) as [l'|] eqn:E; [|done].
  injection Hl as <- <-. destruct (dir_graph _ _ _ _ Hd E). eauto 10.
Qed.

Lemma child_number_graph p name e w c w' :
  ChildInodeNumberWithName p name e w = Ok c w' ->
  w' = w /\ g_dir (wgraph w) p = true /\
  c = default INO_NOTFOUND (dir_find name (g_kids (wgraph w) p)).
Proof.
  intros H. apply dir_method in H as (d & l & _ & _ & Hg & <- & [= <- <-]). done.
Qed.

Lemma AddChild_graph p name c e w r w' :
  AddChild p name c e w = Ok r w' ->
  g_dir (wgraph w) p = true /\
  (r = 0 /\ wgraph w' = on_kids (add_entry name c) p (wgraph w)
   \/ r < 0 /\ wgraph w' = wgraph w).
Proof.
  intros H. apply dir_method in H as (d & l & Hd & Hl & Hg & Hk & H). split; [done|].
  destruct (dir_find name l); [right; by injection H as <- <-|].
  apply bind_Ok in H as (room & w1 & [= _ <-] & H).
  destruct (negb room); [right; by injection H as <- <-|]. left.
  apply bind_Ok in H as (? & w1 & Hu & H).
  apply bind_Ok in H as (? & w2 & Hs & [= <- <-]). split; [done|].
  apply same_UpdateSize in Hs. rewrite Hs.
  by apply (set_children_graph _ (add_entry name c) _ _ _ _ _ _ Hd Hl Hu).
Qed.

Lemma RemoveChild_graph p name e w r w' c :
  RemoveChild p name e w = Ok r w' -> dir_find name (g_kids (wgraph w) p) = Some c ->
  wgraph w' = on_kids (dir_erase name) p (wgraph w).
Proof.
  intros H Hf. unfold RemoveChild in H. apply bind_Ok in H as (e1 & w1 & [= <- <-] & H).
  apply dir_method in H as (d & l & Hd & Hl & Hg & Hk & H). rewrite Hk in Hf.
  rewrite Hf in H. apply bind_Ok in H as (? & w1 & Hu & H).
  apply bind_Ok in H as (? & w2 & Hs & H). apply bind_Ok in H as (? & w3 & Ht & [= _ <-]).
  apply same_UpdateSize in Hs. apply same_update in Ht; [|done].
  rewrite Ht, Hs. by apply (set_children_graph _ (dir_erase name) _ _ _ _ _ _ Hd Hl Hu).
Qed.

Lemma UpdateChild_graph p name c e w r w' x :
  UpdateChild p name c e w = Ok r w' -> dir_find name (g_kids (wgraph w) p) = Some x ->
  wgraph w' = on_kids (dir_assign name c) p (wgraph w).
Proof.
  intros H Hf. unfold UpdateChild in H. apply bind_Ok in H as (e1 & w1 & [= <- <-] & H).
  apply dir_method in H as (d & l & Hd & Hl & Hg & Hk & H). rewrite Hk in Hf.
  rewrite Hf in H. apply bind_Ok in H as (? & w1 & Hu & H).
  apply bind_Ok in H as (? & w3 & Ht & [= _ <-]).
  apply same_update in Ht; [|done]. rewrite Ht.
  by apply (set_children_graph _ (dir_assign name c) _ _ _ _ _ _ Hd Hl Hu).
Qed.

Lemma g_update_update p f h g :
  g_update p f (g_update p h g) = g_update p (fun nd => f (h nd)) g.
Proof.
  unfold g_update at 1. rewrite g_node_update, decide_True by done. unfold g_update.
  destruct (g_node g p) as [nd|]; simpl; [|done]. unfold g_put. apply list_insert_insert_eq.
Qed.

Lemma on_links_id p g : on_links id p g = g.
Proof.
  rewrite <- (g_update_id p g) at 2. unfold on_links, g_update.
  by destruct (g_node g p) as [[]|].
Qed.

(** The loop of [rmdir] only lowers counts. *)
Lemma drop_links_graph fuel p e w a w' :
  drop_links fuel p e w = Ok a w' ->
  exists f, (forall n, 0 <= n < 2 ^ 64 -> 0 <= f n < 2 ^ 64) /\
    wgraph w' = on_links f p (wgraph w).
Proof.
  revert w. induction fuel as [|fuel IH]; intros w H; cbn [drop_links] in H.
  { injection H as _ <-. exists id. by rewrite on_links_id. }
  apply bind_Ok in H as (d & w1 & [_ ->]%deref_Ok & H).
  destruct (0 <? NumLinks d).
  - apply bind_Ok in H as (? & w1 & Hd & H). apply dec_graph in Hd.
    destruct (IH _ H) as (f & Hf & Hg). exists (fun n => f (dec n)). split.
    + intros n _. apply Hf, dec_range.
    + rewrite Hg, Hd. unfold on_links. by rewrite g_update_update.
  - injection H as _ <-. exists id. by rewrite on_links_id.
Qed.

(** ** Creation *)

Lemma g_update_alloc g c h nd :
  free_slot g c -> g_update c h (g_alloc c nd g) = g_alloc c (h nd) g.
Proof.
  intros Hf. unfold g_update. rewrite g_node_alloc, decide_True by done.
  unfold g_alloc. destruct (c =? zlen g) eqn:E; zbool.
  - unfold g_put. subst c. rewrite Nat2Z.id, insert_app_r_alt, Nat.sub_diag by lia. done.
  - unfold g_put. apply list_insert_insert_eq.
Qed.

Lemma take_number_graph i e w c w' :
  fs_ok w -> take_number i e w = Ok c w' ->
  free_slot (wgraph w) c /\ wgraph w' = g_alloc c (node_of i) (wgraph w).
Proof.
  intros Hw H. apply bind_Ok in H as (w1 & w2 & [= <- <-] & H).
  pose proof (wgraph_length w) as Hlen. unfold free_slot, g_alloc. rewrite Hlen.
  destruct (DeletedInodes w) as [|d q] eqn:Eq.
  - injection H as <- <-. simpl. rewrite length_app. simpl.
    pose proof (ok_limit w Hw). rewrite u64_small by lia.
    replace (Z.of_nat (length (Inodes w) + 1) - 1) with (zlen (Inodes w)) by lia.
    rewrite Z.eqb_refl. split; [by left|]. unfold wgraph, graph_of. simpl. by rewrite fmap_app.
  - apply bind_Ok in H as (ino & w1 & Hp & H). unfold PopOneDeletedInode in Hp.
    apply bind_Ok in Hp as (w2 & w3 & [= <- <-] & Hp). rewrite Eq in Hp.
    apply bind_Ok in Hp as (? & w4 & [= _ <-] & [= <- <-]).
    apply bind_Ok in H as (? & w2 & Hu & [= <- <-]).
    apply store_slot_Ok in Hu as [Hr ->]. simpl in Hr.
    assert (vec_at (Inodes w) d = Some None) as Hfree.
    { apply (ok_deleted w Hw). rewrite Eq. set_solver. }
    split.
    + right. apply vec_at_Some in Hfree as [Hd Hfree]. apply vec_at_Some. split; [done|].
      unfold wgraph, graph_of. rewrite list_lookup_fmap. by rewrite Hfree.
    + rewrite (proj2 (Z.eqb_neq d _)) by lia. by rewrite wgraph_put.
Qed.

Lemma Initialize_graph p ino mode n gid uid e w a w' :
  Initialize p ino mode n gid uid e w = Ok a w' ->
  wgraph w' = g_update p (fun nd => Node n (n_kids nd)) (wgraph w).
Proof.
  intros H. apply bind_Ok in H as (i & w1 & [Hi ->]%deref_Ok & H).
  assert (Hbase : forall a w', Inode_Initialize p ino mode n gid uid e w = Ok a w' ->
    wgraph w' = g_update p (fun nd => Node n (n_kids nd)) (wgraph w)).
  { intros b w1 H1. apply bind_Ok in H1 as (e1 & w2 & [= <- <-] & H1).
    by apply (wgraph_update _ _ _ _ _ _ _ H1). }
  destruct (derived i); [by eapply Hbase| |by eapply Hbase|].
  - apply bind_Ok in H as (? & w1 & H1 & H). apply same_UpdateSize in H. rewrite H.
    by eapply Hbase.
  - apply bind_Ok in H as (? & w1 & H1 & H). apply same_update in H.
    + rewrite H. by eapply Hbase.
    + intros j. unfold node_of. f_equal.
      change (attr (on_attr (symlink_attr m_link) j)) with (symlink_attr m_link (attr j)).
      unfold symlink_attr. by case_match.
Qed.

Lemma RegisterInode_graph i mode n gid uid e w c w' :
  fs_ok w -> RegisterInode i mode n gid uid e w = Ok c w' ->
  free_slot (wgraph w) c /\ wgraph w' = g_alloc c (Node n (dir_children i)) (wgraph w).
Proof.
  intros Hw H. apply bind_Ok in H as (c1 & w1 & Ht & H).
  destruct (take_number_graph _ _ _ _ _ Hw Ht) as [Hf Hg].
  apply bind_Ok in H as (? & w2 & [= _ <-] & H).
  apply bind_Ok in H as (? & w3 & Hi%Initialize_graph & H).
  apply bind_Ok in H as (? & w4 & [_ ->]%deref_Ok & H).
  apply bind_Ok in H as (? & w5 & [= _ <-] & [= <- <-]). split; [done|].
  transitivity (wgraph w3); [done|]. rewrite Hi.
  change (wgraph (set_stbuf _ w1)) with (wgraph w1). rewrite Hg. by rewrite g_update_alloc.
Qed.

(** A new inode that has no name yet. *)
Record unnamed (g : graph) (c links : Z) (dir : bool) : Prop := {
  un_ok : links_ok g;
  un_names : g_names g c = 0;
  un_links : g_links g c = links;
  un_dir : g_dir g c = dir;
  un_subs : subdirs (g_dir g) (g_kids g c) = 0;
  un_null : null_slot g;
  un_nonzero : c <> 0 }.

Lemma unnamed_alloc g c n k :
  graph_ok g -> free_slot g c -> 0 <= n < 2 ^ 64 -> k = None \/ k = Some [] ->
  unnamed (g_alloc c (Node n k) g) c n (is_dir_node (Some (Node n k))).
Proof.
  intros [Hg H0] Hf Hn Hk. assert (kids_of (Some (Node n k)) = []) as Hk0 by (by destruct Hk as [-> | ->]).
  split.
  - apply alloc_ok; [done..|]. intros x. by rewrite Hk0.
  - rewrite g_names_alloc, Hk0, free_unnamed by done. done.
  - unfold g_links. by rewrite g_node_alloc, decide_True.
  - unfold g_dir. by rewrite g_node_alloc, decide_True.
  - unfold g_kids. rewrite g_node_alloc, decide_True by done. by rewrite Hk0.
  - eauto with verifs.
  - eauto with verifs.
Qed.

Lemma unnamed_dot g c n name d :
  unnamed g c n true -> is_dot name = true -> unnamed (on_kids (add_entry name d) c g) c n true.
Proof.
  intros [Hok H0 Hl Hd Hs Hnull Hnz] Hdot. split.
  - by apply dot_ok.
  - rewrite g_names_on_kids, named_add, Hdot by done. simpl. lia.
  - by rewrite g_links_kids.
  - by rewrite g_dir_kids.
  - rewrite g_kids_kids, decide_True by done. rewrite (subdirs_ext _ (g_dir g)).
    + rewrite subdirs_add, Hdot. simpl. lia.
    + intros x. by rewrite g_dir_kids.
  - eauto with verifs.
  - done.
Qed.

(** The object that [make_node] gives: its links, and that it is a directory exactly
    for the mode of one. *)
Lemma make_node_shape mode dev s i n :
  make_node mode dev s = Some (i, n) ->
  1 <= n <= 2 /\ (if S_ISDIR mode then dir_children i = Some [] /\ n = 2
                  else dir_children i = None).
Proof.
  unfold make_node.
  destruct (S_ISREG mode) eqn:E0.
  { intros [= <- <-]. replace (S_ISDIR mode) with false; [split; [lia|done]|].
    unfold S_ISREG, S_ISDIR, mode_is in *. zbool. by rewrite E0. }
  destruct (S_ISDIR mode); [intros [= <- <-]; split; [lia|done]|].
  do 4 (case_match; [intros [= <- <-]; split; [lia|done]|]).
  destruct (S_ISLNK mode); [|done].
  destruct s; [|done]. intros [= <- <-]; split; [lia|done].
Qed.

(** After the registration and, for a directory, the two dots. *)
Lemma dots_graph (isdir : bool) c parent e w a w' n :
  unnamed (wgraph w) c n isdir ->
  (if isdir then
     AddChild c "." c;; par ← deref parent; AddChild c ".." (GetIno par);; mret tt
   else mret tt) e w = Ok a w' ->
  unnamed (wgraph w') c n isdir /\
  forall x, x <> c -> g_node (wgraph w') x = g_node (wgraph w) x.
Proof.
  intros Hu H. destruct isdir; [|by injection H as _ <-].
  assert (Hadd : forall name d w r w', unnamed (wgraph w) c n true -> is_dot name = true ->
    AddChild c name d e w = Ok r w' -> unnamed (wgraph w') c n true /\
    forall x, x <> c -> g_node (wgraph w') x = g_node (wgraph w) x).
  { clear. intros name d w r w' Hu Hdot H.
    apply AddChild_graph in H as [_ [[_ ->]|[_ ->]]]; [|done].
    split; [by apply unnamed_dot|]. intros x Hx. unfold on_kids. rewrite g_node_update.
    by rewrite decide_False. }
  apply bind_Ok in H as (? & w1 & H1 & H). apply Hadd in H1 as [Hu1 Hx1]; [|done..].
  apply bind_Ok in H as (par & w2 & [_ ->]%deref_Ok & H).
  apply bind_Ok in H as (? & w2 & H2 & [= _ <-]). apply Hadd in H2 as [Hu2 Hx2]; [|done..].
  split; [done|]. intros y Hy. by rewrite Hx2, Hx1.
Qed.

(** The last step of a creation. *)
Lemma name_new_ok g p name c n (isdir : bool) :
  unnamed g c n isdir -> p <> c -> g_dir g p = true -> (if isdir then n = 2 else 1 <= n) ->
  (isdir = true -> g_links g p < 2 ^ 64 - 1) ->
  graph_ok (if isdir then on_links inc p (on_kids (add_entry name c) p g)
            else on_kids (add_entry name c) p g).
Proof.
  intros [Hok H0 Hl Hd Hs Hnull Hnz] Hne Hp Hn Hb. destruct isdir.
  - split; [apply name_dir_ok; auto; lia|eauto with verifs].
  - split; [apply name_file_ok; auto; lia|eauto with verifs].
Qed.

Definition links_below (w : world) (c : Z) : Prop :=
  forall i, get_inode w c = Some i -> st_nlink (attr i) < 2 ^ 64 - 1.

Lemma links_below_graph w c : links_below w c -> g_links (wgraph w) c < 2 ^ 64 - 1.
Proof.
  intros H. unfold g_links. rewrite wgraph_node. unfold links_below in H.
  destruct (get_inode w c) as [i|]; [|done]. exact (H i eq_refl).
Qed.

Lemma DeleteInode_graph c e w a w' :
  DeleteInode c e w = Ok a w' ->
  0 <= c < zlen (wgraph w) /\ wgraph w' = g_put c None (wgraph w).
Proof.
  intros H. apply bind_Ok in H as (? & w1 & [Hr ->]%store_slot_Ok & [= _ <-]).
  rewrite wgraph_length. split; [done|]. apply wgraph_put.
Qed.

Lemma create_node_links parent name mode dev s e w r w' i l :
  fs_ok w -> graph_ok (wgraph w) ->
  get_inode w parent = Some i -> dir_children i = Some l -> links_below w parent ->
  do_create_node parent name mode dev s e w = Ok r w' -> graph_ok (wgraph w').
Proof.
  intros Hw Hg Hpi Hpl Hb H. destruct (dir_graph _ _ _ _ Hpi Hpl) as [Hp _].
  pose proof (links_below_graph _ _ Hb) as Hlp.
  apply bind_Ok in H as (e1 & w1 & [= <- <-] & H).
  destruct (make_node mode dev s) as [[nd n]|] eqn:Em; [|by injection H as _ <-].
  destruct (make_node_shape _ _ _ _ _ Em) as [Hn Hshape].
  destruct (negb (can_new e)); [by injection H as _ <-|].
  apply bind_Ok in H as (free & w1 & [= <- <-] & H).
  destruct (_ <=? 0); [by injection H as _ <-|].
  apply bind_Ok in H as (c & w1 & Hreg & H).
  apply RegisterInode_graph in Hreg as [Hf Hreg]; [|done].
  assert (Hne : parent <> c).
  { intros ->. pose proof (g_node_free _ _ Hf) as Hnone. rewrite wgraph_node, Hpi in Hnone. done. }
  assert (Hun : unnamed (wgraph w1) c n (S_ISDIR mode)).
  { rewrite Hreg. pose proof (unnamed_alloc (wgraph w) c n (dir_children nd) Hg Hf ltac:(lia)) as Hu.
    destruct (S_ISDIR mode); [destruct Hshape as [Hk _]|rename Hshape into Hk]; rewrite Hk in *; auto. }
  assert (Hpar : g_node (wgraph w1) parent = g_node (wgraph w) parent).
  { rewrite Hreg, g_node_alloc by done. by rewrite decide_False. }
  apply bind_Ok in H as (? & w2 & Hdots & H).
  apply (dots_graph _ _ _ _ _ _ _ _ Hun) in Hdots as [Hun2 Hpar2].
  specialize (Hpar2 parent Hne). rewrite Hpar in Hpar2.
  apply bind_Ok in H as (ret & w3 & Hadd%AddChild_graph & H). destruct Hadd as [Hp2 Hadd].
  assert (Hl2 : g_links (wgraph w2) parent < 2 ^ 64 - 1).
  { unfold g_links in *. by rewrite Hpar2. }
  pose proof (name_new_ok _ parent name c n _ Hun2 Hne Hp2) as Hnew.
  destruct Hadd as [[-> Hg3]|[Hret Hg3]].
  - simpl in H. apply bind_Ok in H as (? & w4 & H4 & [= _ <-]).
    destruct (S_ISDIR mode).
    + apply inc_graph in H4. rewrite H4, Hg3. apply Hnew; naive_solver.
    + injection H4 as _ <-. rewrite Hg3. apply Hnew; [lia|done].
  - rewrite (proj2 (Z.ltb_lt ret 0)) in H by done.
    apply bind_Ok in H as (? & w4 & [= _ <-] & H).
    apply bind_Ok in H as (? & w4 & [_ ->]%deref_Ok & H).
    apply bind_Ok in H as (? & w4 & [= _ <-] & H).
    apply bind_Ok in H as (? & w4 & Hdel%DeleteInode_graph & [= _ <-]).
    destruct Hdel as [Hr Hdel]. rewrite Hdel.
    change (wgraph (set_stbuf _ (set_stbuf _ w3))) with (wgraph w3) in *.
    rewrite Hg3 in *. destruct Hun2. split; [by apply delete_ok|by apply null_put].
Qed.

(** ** The requests *)

(** What the kernel's file system layer guarantees of a request: it does not
    forget the number 0, does not remove or rename the dots, makes no hard link to
    a directory, and keeps link counts below the largest one. *)
Definition vfs_ok (w : world) (r : request) : Prop :=
  match r with
  | op_forget ino _ => ino <> 0
  | op_unlink _ name | op_rmdir _ name => is_dot name = false
  | op_rename _ name newparent newname =>
      is_dot name = false /\ is_dot newname = false /\ links_below w newparent
  | op_link ino _ _ =>
      (forall i, get_inode w ino = Some i -> dir_children i = None) /\ links_below w ino
  | op_mknod parent _ _ _ | op_mkdir parent _ _ | op_symlink _ parent _
  | op_create parent _ _ => links_below w parent
  | _ => True
  end.

Lemma with_live_inv ino k e w a w' :
  with_live ino k e w = Ok a w' ->
  wgraph w' = wgraph w \/
  exists i, get_inode w ino = Some i /\ HasNoLinks i = false /\ k i e w = Ok a w'.
Proof.
  unfold with_live. intros H. apply bind_Ok in H as (o & w1 & [= <- <-] & H).
  destruct (get_inode w ino) as [i|]; [|left; by apply same_reply_error in H].
  destruct (HasNoLinks i) eqn:E; [left; by apply same_reply_error in H|].
  right. by exists i.
Qed.

Lemma with_dir_inv i k e w a w' :
  with_dir i k e w = Ok a w' ->
  wgraph w' = wgraph w \/ exists l, dir_children i = Some l /\ k e w = Ok a w'.
Proof.
  unfold with_dir. intros H. destruct (dir_children i) as [l|]; [right; by exists l|].
  left. by apply same_reply_error in H.
Qed.

(** Opens the checks at the start of a handler; a refused request is done. *)
Ltac open_live H i Hi :=
  apply with_live_inv in H as [->|(i & Hi & ? & H)]; [done|].
Ltac open_dir H l Hl := apply with_dir_inv in H as [->|(l & Hl & H)]; [done|].

Lemma live_links w c i :
  graph_ok (wgraph w) -> get_inode w c = Some i -> HasNoLinks i = false ->
  1 <= g_links (wgraph w) c.
Proof.
  intros Hg Hi Hl. pose proof (lk_range _ (proj1 Hg) c) as Hr. unfold g_links in *.
  rewrite wgraph_node, Hi in *. unfold HasNoLinks in Hl. zbool. simpl in *. lia.
Qed.

Lemma found_number c (o : option Z) : default INO_NOTFOUND o <> INO_NOTFOUND -> c = default INO_NOTFOUND o -> o = Some c.
Proof. intros H ->. by destruct o. Qed.

Lemma links_FuseUnlink parent name e w a w' :
  graph_ok (wgraph w) -> vfs_ok w (op_unlink parent name) ->
  FuseUnlink parent name e w = Ok a w' -> graph_ok (wgraph w').
Proof.
  intros Hg Hv H. simpl in Hv. unfold FuseUnlink in H. open_live H i Hi. open_dir H l Hl.
  apply bind_Ok in H as (c & w1 & (-> & Hp & Hc)%child_number_graph & H).
  destruct (c =? INO_NOTFOUND) eqn:E; [by apply same_reply_error in H; rewrite H|]. zbool.
  assert (dir_find name (g_kids (wgraph w) parent) = Some c) as Hf
    by (apply found_number; congruence).
  apply bind_Ok in H as (? & w1 & Hr & H). eapply RemoveChild_graph in Hr; [|done].
  apply bind_Ok in H as (o & w2 & [= <- <-] & H). destruct (get_inode w1 c); [|done].
  apply bind_Ok in H as (? & w2 & Hd%dec_graph & H%same_reply_error).
  rewrite H, Hd, Hr. pose proof (entry_nonzero _ _ _ _ Hg Hf Hv). destruct Hg.
  split; [by apply unlink_ok|eauto with verifs].
Qed.

Lemma links_FuseRmdir parent name e w a w' :
  graph_ok (wgraph w) -> vfs_ok w (op_rmdir parent name) ->
  FuseRmdir parent name e w = Ok a w' -> graph_ok (wgraph w').
Proof.
  intros Hg Hv H. simpl in Hv. unfold FuseRmdir in H. open_live H i Hi. open_dir H l Hl.
  apply bind_Ok in H as (c & w1 & (-> & Hp & Hc)%child_number_graph & H).
  destruct (c =? INO_NOTFOUND) eqn:E; [by apply same_reply_error in H; rewrite H|].
  destruct (c =? parent) eqn:E2; [by apply same_reply_error in H; rewrite H|]. zbool.
  assert (dir_find name (g_kids (wgraph w) parent) = Some c) as Hf
    by (apply found_number; congruence).
  open_live H d Hd. open_dir H ld Hld. destruct (dir_graph _ _ _ _ Hd Hld) as [Hdir _].
  apply bind_Ok in H as (empty & w1 & Hem & H). apply dir_method in Hem as (? & ? & _ & _ & _ & _ & Hem).
  apply bind_Ok in Hem as (? & ? & [= <- <-] & [= _ <-]).
  destruct (negb empty); [by apply same_reply_error in H; rewrite H|].
  apply bind_Ok in H as (? & w1 & Hr & H). eapply RemoveChild_graph in Hr; [|done].
  apply bind_Ok in H as (? & w2 & Hdec%dec_graph & H).
  apply bind_Ok in H as (? & w3 & [_ ->]%deref_Ok & H).
  apply bind_Ok in H as (? & w3 & Hdrop%drop_links_graph & H%same_reply_error).
  destruct Hdrop as (f & Hff & Hdrop). rewrite H, Hdrop, Hdec, Hr.
  destruct Hg. split; [by apply rmdir_ok|eauto 8 with verifs].
Qed.

Lemma links_FuseLink ino newparent newname e w a w' :
  graph_ok (wgraph w) -> vfs_ok w (op_link ino newparent newname) ->
  FuseLink ino newparent newname e w = Ok a w' -> graph_ok (wgraph w').
Proof.
  intros Hg [Hnd Hb] H. unfold FuseLink in H. open_live H i Hi. open_live H p Hp. open_dir H l Hl.
  destruct (dir_graph _ _ _ _ Hp Hl) as [Hdir _].
  apply bind_Ok in H as (c & w1 & (-> & _ & _)%child_number_graph & H).
  destruct (negb _); [by apply same_reply_error in H; rewrite H|].
  apply bind_Ok in H as (r & w1 & Hadd%AddChild_graph & H).
  destruct Hadd as [_ [[-> Hadd]|[Hr Hadd]]].
  - simpl in H. apply bind_Ok in H as (? & w2 & Hinc%inc_graph & H%same_ReplyEntry).
    rewrite H, Hinc, Hadd. pose proof (links_below_graph _ _ Hb).
    assert (1 <= g_links (wgraph w) ino) by (by eapply live_links). destruct Hg.
    split; [|eauto with verifs]. apply link_ok; [done..| |lia].
    unfold g_dir. rewrite wgraph_node, Hi. simpl. unfold node_of. by rewrite (Hnd i Hi).
  - rewrite (proj2 (Z.ltb_lt r 0)) in H by done. apply same_reply_error in H. by rewrite H, Hadd.
Qed.

Lemma links_FuseForget ino n e w a w' :
  graph_ok (wgraph w) -> ino <> 0 -> FuseForget ino n e w = Ok a w' -> graph_ok (wgraph w').
Proof.
  intros Hg Hnz H. unfold FuseForget in H. apply bind_Ok in H as (o & w1 & [= <- <-] & H).
  destruct (get_inode w ino); [|by injection H as _ <-].
  apply bind_Ok in H as (? & w1 & Hf%same_Forget & H).
  apply bind_Ok in H as (j & w2 & [Hj ->]%deref_Ok & H).
  assert (graph_ok (wgraph w1)) as Hg1 by (by rewrite Hf).
  destruct (Forgotten j); [|by injection H as _ <-].
  destruct (HasNoLinks j) eqn:El; [|by injection H as _ <-].
  apply bind_Ok in H as (? & w2 & Hdel%DeleteInode_graph & H).
  apply bind_Ok in H as (? & w3 & H3%same_UpdateUsedInodes & H%same_UpdateUsedBlocks).
  destruct Hdel as [Hr Hdel]. rewrite H, H3, Hdel. destruct Hg1 as [Hg1 H01].
  split; [|by apply null_put]. apply delete_ok; [done..|].
  pose proof (lk_names _ Hg1 ino) as Hn. pose proof (g_names_nonneg (wgraph w1) ino).
  unfold g_links in Hn. rewrite wgraph_node, Hj in Hn. unfold HasNoLinks in El. zbool.
  simpl in Hn. lia.
Qed.

(** The end of the creating requests. *)
Lemma links_created parent name mode dev s e w r w1 a w' i l (k : Z -> M unit) :
  fs_ok w -> graph_ok (wgraph w) ->
  get_inode w parent = Some i -> dir_children i = Some l -> links_below w parent ->
  do_create_node parent name mode dev s e w = Ok r w1 ->
  Respects (same wgraph) (k r) -> k r e w1 = Ok a w' -> graph_ok (wgraph w').
Proof.
  intros Hw Hg Hi Hl Hb Hc Hk H. apply Hk in H. rewrite H. by eapply create_node_links.
Qed.

Lemma same_reply_created r : Respects (same wgraph) (reply_created r).
Proof. unfold reply_created. steady. Qed.

(** The rest of [mknod], [mkdir] and [symlink] once the parent is known. *)
Lemma links_make parent name mode dev s e w a w' i l :
  fs_ok w -> graph_ok (wgraph w) ->
  get_inode w parent = Some i -> dir_children i = Some l -> links_below w parent ->
  (ino ← ChildInodeNumberWithName parent name;
   if negb (ino =? INO_NOTFOUND) then reply_error EEXIST
   else r ← do_create_node parent name mode dev s; reply_created r) e w = Ok a w' ->
  graph_ok (wgraph w').
Proof.
  intros Hw Hg Hi Hl Hb H. apply bind_Ok in H as (c & w1 & (-> & _ & _)%child_number_graph & H).
  destruct (negb _); [by apply same_reply_error in H; rewrite H|].
  apply bind_Ok in H as (r & w1 & Hc & H).
  eapply (links_created _ _ _ _ _ _ _ _ _ _ _ _ _ reply_created); eauto using same_reply_created.
Qed.

Lemma links_FuseMknod parent name mode rdev e w a w' :
  fs_ok w -> graph_ok (wgraph w) -> links_below w parent ->
  FuseMknod parent name mode rdev e w = Ok a w' -> graph_ok (wgraph w').
Proof.
  intros Hw Hg Hb H. unfold FuseMknod in H. open_live H i Hi. open_dir H l Hl.
  apply bind_Ok in H as (free & w1 & [= <- <-] & H).
  destruct (_ <=? 0); [by apply same_reply_error in H; rewrite H|]. by eapply links_make.
Qed.

Lemma links_FuseMkdir parent name mode e w a w' :
  fs_ok w -> graph_ok (wgraph w) -> links_below w parent ->
  FuseMkdir parent name mode e w = Ok a w' -> graph_ok (wgraph w').
Proof.
  intros Hw Hg Hb H. unfold FuseMkdir in H. open_live H i Hi. open_dir H l Hl.
  apply bind_Ok in H as (free & w1 & [= <- <-] & H).
  destruct (_ <=? 0); [by apply same_reply_error in H; rewrite H|]. by eapply links_make.
Qed.

(** A reply that does not end the request. *)
Lemma maybe_reply (b : bool) n e w a w' :
  (if b then reply_error n else mret tt) e w = Ok a w' ->
  Inodes w' = Inodes w /\ DeletedInodes w' = DeletedInodes w /\ m_stbuf w' = m_stbuf w.
Proof. intros H. by destruct b; injection H as _ <-. Qed.

Lemma links_FuseSymlink link parent name e w a w' :
  fs_ok w -> graph_ok (wgraph w) -> links_below w parent ->
  FuseSymlink link parent name e w = Ok a w' -> graph_ok (wgraph w').
Proof.
  intros Hw Hg Hb H. unfold FuseSymlink in H. open_live H i Hi. open_dir H l Hl.
  apply bind_Ok in H as (room & w1 & [= _ <-] & H).
  apply bind_Ok in H as (? & w1 & (A1 & A2 & A3)%maybe_reply & H).
  apply bind_Ok in H as (free & w2 & [= <- <-] & H).
  apply bind_Ok in H as (? & w2 & (B1 & B2 & B3)%maybe_reply & H).
  assert (E1 : Inodes w2 = Inodes w) by congruence.
  assert (E2 : DeletedInodes w2 = DeletedInodes w) by congruence.
  assert (E3 : m_stbuf w2 = m_stbuf w) by congruence.
  assert (Hget : forall c, get_inode w2 c = get_inode w c) by (intros; unfold get_inode; by rewrite E1).
  eapply links_make; [|..|exact H].
  - by eapply fs_ok_frame.
  - unfold wgraph. by rewrite E1.
  - by rewrite Hget.
  - done.
  - intros j. rewrite Hget. apply Hb.
Qed.

Lemma links_FuseCreate parent name mode e w a w' :
  fs_ok w -> graph_ok (wgraph w) -> links_below w parent ->
  FuseCreate parent name mode e w = Ok a w' -> graph_ok (wgraph w').
Proof.
  intros Hw Hg Hb H. unfold FuseCreate in H. open_live H i Hi. open_dir H l Hl.
  apply bind_Ok in H as (r & w1 & Hc & H).
  eapply (links_created _ _ _ _ _ _ _ _ _ _ _ _ _
    (fun r => if 0 <? r then ReplyCreate r else reply_error (- r))); eauto. steady.
Qed.

(** ** Renaming *)

(** In a well-formed file system the mode tells the class. *)
Lemma dir_mode w c i :
  fs_ok w -> get_inode w c = Some i -> S_ISDIR (GetMode i) = g_dir (wgraph w) c.
Proof.
  intros Hw Hi. pose proof (obj_class _ _ (ok_objects w Hw _ _ Hi)) as Hc.
  unfold g_dir. rewrite wgraph_node, Hi. simpl. unfold node_of, dir_children.
  unfold class_matches in Hc. destruct (derived i); simpl; [|done| |].
  - destruct (S_ISDIR (GetMode i)) eqn:E; [|done].
    unfold S_ISREG, S_ISDIR, mode_is in *. zbool. by rewrite Hc in E.
  - by zbool.
  - destruct (S_ISDIR (GetMode i)) eqn:E; [|done].
    unfold S_ISLNK, S_ISDIR, mode_is in *. zbool. by rewrite Hc in E.
Qed.

Lemma is_dir_now_graph p e w b w' :
  fs_ok w -> is_dir_now p e w = Ok b w' -> w' = w /\ b = g_dir (wgraph w) p.
Proof.
  intros Hw H. apply bind_Ok in H as (i & w1 & [Hi ->]%deref_Ok & [= <- <-]).
  split; [done|]. by apply dir_mode.
Qed.

(** The steps of a rename keep the file system well formed. *)
Lemma kept_dec p e w a w' : fs_ok w -> DecrementLinkCount p e w = Ok a w' -> fs_ok w'.
Proof. intros Hw H. by apply (stable_DecrementLinkCount (keeps fs_ok) _ _ _ _ _ H). Qed.
Lemma kept_add p name c e w a w' : fs_ok w -> AddChild p name c e w = Ok a w' -> fs_ok w'.
Proof. intros Hw H. by apply (stable_AddChild (R := keeps fs_ok) _ _ _ _ _ _ _ H). Qed.
Lemma kept_remove p name e w a w' : fs_ok w -> RemoveChild p name e w = Ok a w' -> fs_ok w'.
Proof. intros Hw H. by apply (stable_RemoveChild (R := keeps fs_ok) _ _ _ _ _ _ H). Qed.
Lemma kept_child p name c e w a w' : fs_ok w -> UpdateChild p name c e w = Ok a w' -> fs_ok w'.
Proof. intros Hw H. by apply (stable_UpdateChild (R := keeps fs_ok) _ _ _ _ _ _ _ H). Qed.

Lemma links_rename_move p name q nname s e w a w' :
  fs_ok w -> graph_ok (wgraph w) -> g_dir (wgraph w) p = true -> g_dir (wgraph w) q = true ->
  is_dot name = false -> is_dot nname = false -> g_links (wgraph w) q < 2 ^ 64 - 1 ->
  dir_find name (g_kids (wgraph w) p) = Some s ->
  rename_move p name q nname s e w = Ok a w' -> graph_ok (wgraph w').
Proof.
  intros Hw Hg Hp Hq Hdot Hdot' Hlq Hf H. unfold rename_move in H.
  apply bind_Ok in H as (r & w1 & Hadd & H). pose proof (kept_add _ _ _ _ _ _ _ Hw Hadd) as Hw1.
  apply bind_Ok in H as (? & w2 & Hrem & H). pose proof (kept_remove _ _ _ _ _ _ Hw1 Hrem) as Hw2.
  assert (exists added : bool, wgraph w1
    = if added then on_kids (add_entry nname s) q (wgraph w) else wgraph w) as [added Hg1].
  { apply AddChild_graph in Hadd as [_ [[_ ->]|[_ ->]]]; [by exists true|by exists false]. }
  destruct (find_added added (wgraph w) p name q nname s Hf Hq) as (l & Hl & Hfl & _).
  rewrite <- Hg1 in Hl.
  eapply RemoveChild_graph in Hrem; [|by rewrite Hl].
  assert (Hg2 : wgraph w2 = moved added p name q nname s (wgraph w)) by (by rewrite Hrem, Hg1).
  apply bind_Ok in H as (b & w3 & [-> ->]%is_dir_now_graph & H); [|done].
  apply bind_Ok in H as (? & w3 & H3 & H%same_reply_error). rewrite H.
  destruct (g_moved added p name q nname s (wgraph w)) as (_ & Hd & _); [done..|].
  rewrite Hg2, Hd in H3. destruct (g_dir (wgraph w) s) eqn:Hs.
  - apply bind_Ok in H3 as (? & w4 & Hdec%dec_graph & Hinc%inc_graph).
    rewrite Hinc, Hdec, Hg2. destruct Hg as [Hg H0]. split; [by apply move_dir_ok|].
    unfold moved. destruct added; eauto 8 with verifs.
  - injection H3 as _ <-. rewrite Hg2. destruct Hg. split; [by apply move_file_ok|].
    unfold moved. destruct added; eauto with verifs.
Qed.

Lemma links_rename_replace p name q nname s x e w a w' :
  fs_ok w -> graph_ok (wgraph w) -> g_dir (wgraph w) p = true -> g_dir (wgraph w) q = true ->
  is_dot name = false -> is_dot nname = false ->
  dir_find name (g_kids (wgraph w) p) = Some s -> dir_find nname (g_kids (wgraph w) q) = Some x ->
  g_dir (wgraph w) s = g_dir (wgraph w) x -> (g_dir (wgraph w) x = true -> x <> p) ->
  rename_replace p name q nname s x e w = Ok a w' -> graph_ok (wgraph w').
Proof.
  intros Hw Hg Hp Hq Hdot Hdot' Hf Hf' Hsx Hne H. unfold rename_replace in H.
  apply bind_Ok in H as (? & w1 & Hdec & H). pose proof (kept_dec _ _ _ _ _ Hw Hdec) as Hw1.
  apply dec_graph in Hdec.
  apply bind_Ok in H as (? & w2 & Hupd & H). pose proof (kept_child _ _ _ _ _ _ _ Hw1 Hupd) as Hw2.
  eapply UpdateChild_graph in Hupd; [|by rewrite Hdec, g_kids_links].
  apply bind_Ok in H as (? & w3 & Hrem & H). pose proof (kept_remove _ _ _ _ _ _ Hw2 Hrem) as Hw3.
  destruct (find_assigned (wgraph w) p name q nname s x Hf Hf' Hdot') as (l & Hl & Hfl & _).
  eapply RemoveChild_graph in Hrem.
  2: { rewrite Hupd, Hdec, g_kids_kids by (by rewrite g_dir_links).
       rewrite !g_kids_links, Hl. exact Hfl. }
  rewrite Hupd, Hdec in Hrem.
  apply bind_Ok in H as (b & w4 & [-> ->]%is_dir_now_graph & H); [|done].
  rewrite Hrem, !g_dir_kids, g_dir_links in H.
  apply bind_Ok in H as (? & w4 & H4 & H%same_reply_error). rewrite H.
  destruct (g_dir (wgraph w) x) eqn:Hx.
  - apply bind_Ok in H4 as (? & w5 & H5%dec_graph & H4).
    apply bind_Ok in H4 as (? & w6 & H6%dec_graph & H7%dec_graph).
    rewrite H7, H6, H5, Hrem. pose proof (entry_nonzero _ _ _ _ Hg Hf' Hdot'). destruct Hg.
    split; [apply replace_dir_ok; auto|eauto 10 with verifs].
  - injection H4 as _ <-. rewrite Hrem. pose proof (entry_nonzero _ _ _ _ Hg Hf' Hdot').
    destruct Hg. split; [by apply replace_file_ok|eauto 8 with verifs].
Qed.

Lemma null_not_live w i : null_slot (wgraph w) -> get_inode w 0 = Some i -> st_nlink (attr i) = 0.
Proof.
  unfold null_slot. rewrite wgraph_node. intros H Hi. rewrite Hi in H. simpl in H. by injection H.
Qed.

Lemma NumLinks_pos i : 0 < NumLinks i -> st_nlink (attr i) <> 0.
Proof. unfold NumLinks. intros H E. rewrite E in H. done. Qed.

(** A directory with a live entry under a name is not empty. *)
Lemma IsEmpty_entry p name c i e w w' :
  IsEmpty p e w = Ok true w' -> dir_find name (g_kids (wgraph w) p) = Some c ->
  is_dot name = false -> get_inode w c = Some i -> HasNoLinks i = false -> False.
Proof.
  intros H Hf Hdot Hi Hl. apply dir_method in H as (d & l & _ & _ & _ & Hk & H).
  apply bind_Ok in H as (? & w1 & [= <- <-] & H). injection H as H _. rewrite Hk in Hf.
  rewrite forallb_forall in H. apply dir_find_In in Hf.
  assert (In (name, c) l) as Hin by (by apply list_elem_of_In).
  specialize (H _ Hin). simpl in H. rewrite Hdot in H. unfold child_dead in H.
  rewrite Hi in H. simpl in H. congruence.
Qed.

Lemma links_FuseRename p name q nname e w a w' :
  fs_ok w -> graph_ok (wgraph w) -> vfs_ok w (op_rename p name q nname) ->
  FuseRename p name q nname e w = Ok a w' -> graph_ok (wgraph w').
Proof.
  intros Hw Hg (Hdot & Hdot' & Hb) H. pose proof (links_below_graph _ _ Hb) as Hlq.
  unfold FuseRename in H. open_live H ip Hip. open_live H iq Hiq. open_dir H lp Hlp.
  open_dir H lq Hlq'. destruct (dir_graph _ _ _ _ Hip Hlp) as [Hp _].
  destruct (dir_graph _ _ _ _ Hiq Hlq') as [Hq _].
  apply bind_Ok in H as (s & w1 & (-> & _ & Hs)%child_number_graph & H).
  apply with_live_inv in H as [->|(isrc & His & Hsl & H)]; [done|].
  assert (Hnz : s <> INO_NOTFOUND).
  { intros ->. unfold HasNoLinks in Hsl. by rewrite (null_not_live w isrc (proj2 Hg) His) in Hsl. }
  assert (Hf : dir_find name (g_kids (wgraph w) p) = Some s) by (apply found_number; congruence).
  apply bind_Ok in H as (x & w1 & (-> & _ & Hx)%child_number_graph & H).
  apply bind_Ok in H as (o & w1 & [= <- <-] & H).
  pose proof (links_rename_move p name q nname s e w a w' Hw Hg Hp Hq Hdot Hdot' Hlq Hf) as Hmove.
  destruct (get_inode w x) as [ix|] eqn:Hix; [|by apply Hmove].
  destruct (0 <? NumLinks ix) eqn:Hnl; [|by apply Hmove]. zbool.
  apply NumLinks_pos in Hnl.
  assert (Hxz : x <> INO_NOTFOUND).
  { intros ->. by apply Hnl, (null_not_live w ix (proj2 Hg)). }
  assert (Hf' : dir_find nname (g_kids (wgraph w) q) = Some x) by (apply found_number; congruence).
  rewrite (dir_mode w s isrc), (dir_mode w x ix) in H by done.
  destruct (g_dir (wgraph w) s && negb (g_dir (wgraph w) x)) eqn:E1;
    [by apply same_reply_error in H; rewrite H|].
  apply bind_Ok in H as (empty & w1 & Hem & H).
  assert (w1 = w /\ (empty = true -> g_dir (wgraph w) x = true -> x <> p)) as [-> Hne].
  { destruct (g_dir (wgraph w) x) eqn:Edx; [|by injection Hem as <- <-].
    destruct (dir_children ix); [|done]. pose proof Hem as Hem'.
    apply dir_method in Hem' as (? & ? & _ & _ & _ & _ & Hem').
    apply bind_Ok in Hem' as (? & ? & [= <- <-] & [= _ <-]). split; [done|].
    intros -> _ ->. by eapply (IsEmpty_entry p name s isrc). }
  destruct empty; [|by apply same_reply_error in H; rewrite H]. simpl in H.
  destruct (negb (g_dir (wgraph w) s) && g_dir (wgraph w) x) eqn:E2;
    [by apply same_reply_error in H; rewrite H|].
  eapply (links_rename_replace p name q nname s x); eauto.
  by destruct (g_dir (wgraph w) s), (g_dir (wgraph w) x).
Qed.

(** Every request but an [ioctl] keeps the graph well formed. *)
Lemma links_FuseOps dsize sha256 h r e w a w' :
  is_ioctl r = false -> fs_ok w -> graph_ok (wgraph w) -> vfs_ok w r ->
  FuseOps dsize sha256 h r e w = Ok a w' -> graph_ok (wgraph w').
Proof.
  intros Hi Hw Hg Hv H. destruct (link_request r) eqn:Hl.
  2: { apply same_FuseOps in H; [|done]. by rewrite H. }
  destruct r; try done; simpl in H, Hv.
  - by eapply links_FuseForget.
  - by eapply links_FuseMknod.
  - by eapply links_FuseMkdir.
  - by eapply links_FuseUnlink.
  - by eapply links_FuseRmdir.
  - by eapply links_FuseSymlink.
  - by eapply links_FuseRename.
  - by eapply links_FuseLink.
  - by eapply links_FuseCreate.
Qed.

(** ** Mounting *)

Lemma links_empty : links_ok [].
Proof.
  assert (Hn : forall c, g_node [] c = None).
  { intros c. unfold g_node, vec_at. by destruct (0 <=? c). }
  split; intros c; unfold g_links, g_dir; rewrite Hn; done.
Qed.

Lemma links_FuseInit gid uid umask e w a w' :
  fs_ok w -> Inodes w = [] -> set_stbuf (reset_free (m_stbuf w)) w = w ->
  2 <= f_ffree (m_stbuf w) ->
  FuseInit gid uid umask e w = Ok a w' -> graph_ok (wgraph w').
Proof.
  intros H0 Hnil Hreset Hff H. unfold FuseInit in H.
  apply bind_Ok in H as ([] & w1 & E0 & H). unfold modify in E0. rewrite Hreset in E0.
  injection E0 as <-.
  apply bind_Ok in H as (c & w1 & E1 & H).
  destruct (RegisterInode_graph _ _ _ _ _ _ _ _ _ H0 E1) as [Hc Hg1].
  apply RegisterInode_ffree in E1 as [H1 Hfree]; [|done|lia|done].
  assert (graph_ok (wgraph w1)) as Hok1.
  { unfold wgraph in Hc, Hg1. rewrite Hnil in Hc, Hg1. simpl in Hc, Hg1.
    destruct Hc as [->|Hc]; [|by apply vec_at_range in Hc; simpl in Hc; lia].
    unfold wgraph. rewrite Hg1. split; [|done]. apply alloc_ok; [|by left|done|done]. apply links_empty. }
  apply bind_Ok in H as (root & w2 & E2 & H).
  destruct (RegisterInode_graph _ _ _ _ _ _ _ _ _ H1 E2) as [Hr Hg2].
  pose proof (unnamed_alloc _ _ 2 (Some []) Hok1 Hr ltac:(done) ltac:(by right)) as Hu.
  change (dir_children (new_inode (Directory []))) with (Some (@nil (string * Z))) in Hg2.
  rewrite <- Hg2 in Hu.
  apply bind_Ok in H as (r1 & w3 & E3 & H). apply bind_Ok in H as (r2 & w4 & E4 & [= _ <-]).
  apply AddChild_graph in E3 as [_ E3]. apply AddChild_graph in E4 as [_ E4].
  assert (unnamed (wgraph w3) root 2 true) as Hu3.
  { destruct E3 as [[_ ->]|[_ ->]]; [by apply unnamed_dot|done]. }
  assert (unnamed (wgraph w4) root 2 true) as [? _ _ _ _ ? _]; [|by split].
  destruct E4 as [[_ ->]|[_ ->]]; [by apply unnamed_dot|done].
Qed.

(** ** The invariant along runs *)

Definition links_state (s : verifs2_state) : Prop := graph_ok (graph_of (vs_inodes s)).

#[export] Instance links_any_queue : AnyQueue links_state.
Proof. intros s q _ H. exact H. Qed.

(** The file system and every checkpoint are well formed and so are their links. *)
Definition tree_ok (files : Z) (w : world) : Prop :=
  sys_ok files w /\ all_states links_state w.

Lemma tree_graph files w : tree_ok files w -> graph_ok (wgraph w).
Proof. by intros [_ [H _]]. Qed.

(** The inode behind a name. *)
Lemma named_inode w d i l name c :
  links_ok (wgraph w) -> get_inode w d = Some i -> dir_children i = Some l ->
  (name, c) ∈ l -> is_dot name = false ->
  exists j, get_inode w c = Some j /\ HasNoLinks j = false /\
    1 <= g_names (wgraph w) c <= st_nlink (attr j) /\
    forall k, dir_children j = Some k ->
      g_names (wgraph w) c = 1 /\ 2 + subdirs (g_dir (wgraph w)) k <= st_nlink (attr j).
Proof.
  intros [Hr Hn Hd] Hi Hl Hin Hdot. destruct (dir_graph _ _ _ _ Hi Hl) as [_ Hk].
  pose proof (named_pos _ _ _ Hin Hdot) as Hp. pose proof (g_names_kids (wgraph w) d c) as Hnk.
  rewrite Hk in Hnk. specialize (Hn c). specialize (Hd c). specialize (Hr c).
  unfold g_links, g_dir, g_kids in *. rewrite wgraph_node in *.
  destruct (get_inode w c) as [j|]; simpl in *; [|lia]. exists j.
  split; [done|]. split; [unfold HasNoLinks; apply Z.eqb_neq; lia|]. split; [lia|].
  intros k Ek. unfold kids_of in Hd. simpl in Hd. rewrite Ek in Hd. apply Hd; [done|lia].
Qed.

Section runs.
Context (direntry_size : string -> Z) (sha256 : list byte -> list byte) (h : host).

(** Requests as the kernel sends them. *)
Inductive vfs_steps : world -> list request -> world -> Prop :=
  | vfs_nil w : vfs_steps w [] w
  | vfs_cons w r w1 rs w2 :
      vfs_ok w r -> step direntry_size sha256 h w r w1 -> vfs_steps w1 rs w2 ->
      vfs_steps w (r :: rs) w2.

Lemma tree_ok_step files w r w' :
  tree_ok files w -> is_load r = false -> vfs_ok w r ->
  step direntry_size sha256 h w r w' -> tree_ok files w'.
Proof.
  intros [Hw Hg] Hl Hv Hs. split; [by eapply sys_ok_step|].
  destruct Hs as (Hk & e & a & H). destruct (is_ioctl r) eqn:Hi.
  - destruct r; try done. simpl in H, Hl. apply bind_Ok in H as (x & w1 & E & [= _ <-]).
    by eapply (all_states_FuseIoctl _ _ links_state).
  - pose proof (stable_FuseOps (same fixed_part) _ _ _ _ _ _ _ _ Hi Hk H) as Hfix.
    injection Hfix as _ _ Hp _. destruct Hg as [Hg Hpool]. split; [|by rewrite Hp].
    eapply links_FuseOps; [done|by eapply sys_ok_fs|exact Hg|done|exact H].
Qed.

Lemma tree_ok_steps files w rs w' :
  tree_ok files w -> Forall (fun r => is_load r = false) rs -> vfs_steps w rs w' ->
  tree_ok files w'.
Proof.
  intros Hw Hl Hs. induction Hs as [|w r w1 rs w2 Hv Hr Hs IH]; [done|].
  apply list.Forall_cons in Hl as [Hl1 Hl]. apply IH; [|done]. by eapply tree_ok_step.
Qed.

Lemma mounted_tree blocks inodes w :
  2 <= f_files (initial_stbuf blocks inodes) < 2 ^ 64 -> mounted blocks inodes w ->
  tree_ok (f_files (initial_stbuf blocks inodes)) w.
Proof.
  intros Hf Hm. split; [by apply mounted_ok|]. destruct Hm as (e & gid & uid & umask & a & H).
  split.
  { eapply links_FuseInit with (w := construct blocks inodes); [|done|apply construct_reset| |exact H].
    - apply construct_ok. lia.
    - apply Hf. }
  pose proof (FuseInit_fixed _ _ _ _ _ _ _ H) as Hs. injection Hs as _ _ -> _.
  apply map_Forall_empty.
Qed.

(** C4. In every state that a mounted file system reaches by the requests of the kernel,
    loading a state file apart, no name dangles: each name in a directory other than
    its dots belongs to an inode of the table, whose link count is at least the
    number of its names. A directory that is named has exactly one name, and a link
    for it, for its dot and for the double dot of each directory in it. *)
Theorem names_have_links blocks inodes w rs w' d i l name c :
  2 <= f_files (initial_stbuf blocks inodes) < 2 ^ 64 -> mounted blocks inodes w ->
  Forall (fun r => is_load r = false) rs -> vfs_steps w rs w' ->
  get_inode w' d = Some i -> dir_children i = Some l ->
  (name, c) ∈ l -> is_dot name = false ->
  exists j, get_inode w' c = Some j /\ HasNoLinks j = false /\
    1 <= g_names (wgraph w') c <= st_nlink (attr j) /\
    forall k, dir_children j = Some k ->
      g_names (wgraph w') c = 1 /\ 2 + subdirs (g_dir (wgraph w')) k <= st_nlink (attr j).
Proof.
  intros Hf Hm Hl Hs Hd Hi Hin Hdot.
  pose proof (tree_ok_steps _ _ _ _ (mounted_tree _ _ _ Hf Hm) Hl Hs) as [_ [[Hg _] _]].
  change (graph_of (vs_inodes (snapshot w'))) with (wgraph w') in Hg.
  by apply (named_inode _ _ _ _ _ _ Hg Hd Hi Hin Hdot).
Qed.
End runs.
