(* ===== verification/Safety.v ===== *)
(** * Requests return

    In a well-formed file system whose names refer to inodes that are there, no
    request fails an assertion, follows a null or dangling pointer or leaves a
    buffer: every handler runs to its reply. *)

From S2P Require Import Prelude World Util Table InodeOps FileOps DirectoryOps Nodes.
From S2P Require Import Handlers CkptRestore Codec Pickle Requests Invariant Runs.
From S2P Require Import Attributes Memory PickleSpec Returns Links LinkRuns.

(** ** Pointers to inodes *)

Definition here (w : world) (p : Z) : Prop := is_Some (get_inode w p).

Lemma here_graph w p : here w p <-> is_Some (g_node (wgraph w) p).
Proof. unfold here. rewrite wgraph_node. by rewrite fmap_is_Some. Qed.

Lemma dir_here w p : g_dir (wgraph w) p = true -> here w p.
Proof. intros H. by apply here_graph, g_dir_present. Qed.

Lemma found_here w p i : get_inode w p = Some i -> here w p.
Proof. by exists i. Qed.

#[export] Hint Resolve dir_here found_here : verifs.

Lemma returns_deref {A} p (k : inode -> M A) e w :
  here w p -> (forall i, get_inode w p = Some i -> returns (k i) e w) ->
  returns (i ← deref p; k i) e w.
Proof.
  intros [i Hi] Hk. apply returns_bind.
  - exists i, w. by apply deref_run.
  - intros j w' [Hj ->]%deref_Ok. by apply Hk.
Qed.

Lemma returns_update p f e w : here w p -> returns (update p f) e w.
Proof. intros [i Hi]. eexists _, _. by apply update_run. Qed.

Lemma here_update p f e w a w' q : update p f e w = Ok a w' -> here w q -> here w' q.
Proof.
  intros (i & Hi & ->)%update_Ok Hq. unfold here.
  rewrite get_put_inode by (by eapply get_inode_range). case_decide; [done|exact Hq].
Qed.

#[export] Hint Resolve returns_update here_update : verifs.

Lemma returns_method {A} p (k : inode -> list (string * Z) -> M A) e w :
  g_dir (wgraph w) p = true ->
  (forall d l, get_inode w p = Some d -> dir_children d = Some l -> returns (k d l) e w) ->
  returns (d ← deref p; l ← get_or crash_null (dir_children d); k d l) e w.
Proof.
  intros Hd Hk. apply returns_deref; [by apply dir_here|]. intros d Hi.
  unfold g_dir in Hd. rewrite wgraph_node, Hi in Hd. cbn in Hd.
  destruct (dir_children d) as [l|] eqn:El; [by apply Hk|done].
Qed.

(** ** The checks at the start of the handlers *)

Lemma returns_with_live ino k e w :
  (forall i, get_inode w ino = Some i -> HasNoLinks i = false -> returns (k i) e w) ->
  returns (with_live ino k) e w.
Proof.
  intros H. apply returns_GetInode. destruct (get_inode w ino) as [i|]; [|auto with verifs].
  destruct (HasNoLinks i) eqn:E; auto with verifs.
Qed.

Lemma returns_with_dir i k e w :
  (forall l, dir_children i = Some l -> returns k e w) -> returns (with_dir i k) e w.
Proof. unfold with_dir. destruct (dir_children i); eauto with verifs. Qed.

(** Goes through the checks, reads and conditions of a handler. *)
Ltac returns_step :=
  first
    [ solve [eauto with verifs]
    | lazymatch goal with
      | |- returns (with_live _ _) _ _ => apply returns_with_live; intros ? ? ?
      | |- returns (with_dir _ _) _ _ => apply returns_with_dir; intros ? ?
      | |- returns (get ≫= _) _ _ => apply returns_get
      | |- returns (ask ≫= _) _ _ => apply returns_ask
      | |- returns (GetInode _ ≫= _) _ _ => apply returns_GetInode
      | |- returns (GetFreeInodes ≫= _) _ _ => apply returns_free; intros ?
      | |- returns (CheckHasSpaceFor _ _ ≫= _) _ _ => apply returns_space; intros ?
      | |- returns (deref _ ≫= _) _ _ =>
          apply returns_deref; [solve [eauto with verifs]|intros ? ?]
      | |- returns (_ ≫= _) _ _ =>
          apply returns_bind; [solve [eauto with verifs]|intros ? ? ?]
      | |- returns (match ?x with _ => _ end) _ _ => destruct x
      end ].
Ltac goes := repeat returns_step.

Lemma same_here {A} (m : M A) e w a w' p :
  Respects (same wgraph) m -> m e w = Ok a w' -> here w p -> here w' p.
Proof. intros Hm H. rewrite !here_graph. apply Hm in H. by rewrite H. Qed.

(** ** Inodes and files *)

Lemma returns_ReplyEntry p e w : here w p -> returns (ReplyEntry p) e w.
Proof. intros H. unfold ReplyEntry. goes. Qed.
Lemma returns_ReplyCreate p e w : here w p -> returns (ReplyCreate p) e w.
Proof. intros H. unfold ReplyCreate. goes. Qed.
Lemma returns_ReplyAttr p e w : here w p -> returns (ReplyAttr p) e w.
Proof. intros H. unfold ReplyAttr. goes. Qed.
Lemma returns_ReplySetAttr p new to_set e w : here w p -> returns (ReplySetAttr p new to_set) e w.
Proof. intros H. unfold ReplySetAttr. goes. Qed.
Lemma returns_ReplyAccess p m g u e w : here w p -> returns (ReplyAccess p m g u) e w.
Proof. intros H. unfold ReplyAccess. goes. Qed.

#[export] Hint Resolve returns_ReplyEntry returns_ReplyCreate returns_ReplyAttr
  returns_ReplySetAttr returns_ReplyAccess : verifs.

Lemma returns_truncate w p i n e :
  fs_ok w -> get_inode w p = Some i -> file_buf i <> None -> 0 <= n < 2 ^ 63 ->
  returns (FileTruncate p n) e w.
Proof.
  intros Hw Hi Hb Hn. destruct (file_buf i) as [b|] eqn:Eb; [|done].
  destruct (file_of_ok _ _ _ _ Hw Hi Eb) as [c Hc].
  pose proof (FileTruncate_spec e w p i c n Hi Hc Hn) as H. cbv zeta in H.
  repeat case_match; try (eexists _, _; exact H).
  destruct H as (buf & H & _). eexists _, _. exact H.
Qed.

Lemma returns_WriteAndReply w p i data off e :
  fs_ok w -> get_inode w p = Some i -> 0 <= off -> off + zlen data < 2 ^ 63 ->
  returns (WriteAndReply p data off) e w.
Proof.
  intros Hw Hi Hoff Hlim. unfold WriteAndReply.
  apply returns_deref; [by exists i|]. intros j Hj. assert (j = i) as -> by congruence.
  pose proof (obj_data _ _ (ok_objects _ Hw _ _ Hi)) as Hd.
  destruct (derived i); [|apply returns_reply_error..]. destruct Hd as [c Hc].
  pose proof (WriteAndReply_spec e w p i c data off Hi Hc Hoff Hlim) as H. cbv zeta in H.
  repeat case_match; try (eexists _, _; exact H).
  all: destruct H as (buf & H & _); eexists _, _; exact H.
Qed.

Lemma returns_ReadAndReply w p i size off e :
  fs_ok w -> get_inode w p = Some i -> 0 <= off -> 0 <= size -> off + size < 2 ^ 64 ->
  returns (ReadAndReply p size off) e w.
Proof.
  intros Hw Hi Hoff Hsize Hlim. unfold ReadAndReply.
  apply returns_deref; [by exists i|]. intros j Hj. assert (j = i) as -> by congruence.
  pose proof (obj_data _ _ (ok_objects _ Hw _ _ Hi)) as Hd.
  destruct (derived i); [|apply returns_reply_error..]. destruct Hd as [c Hc].
  eexists _, _. by apply (ReadAndReply_spec e w p i c size off).
Qed.

(** ** Directories *)

(** The entries of the directory with that number take less than [2 ^ 63] bytes. *)
Definition dir_small (w : world) (p : Z) : Prop := dir_bytes (g_kids (wgraph w) p) < 2 ^ 63.

Lemma returns_UpdateSize p delta d e w :
  get_inode w p = Some d -> 0 <= delta \/ - delta <= st_size (attr d) ->
  returns (UpdateSize p delta) e w.
Proof.
  intros Hd Hs. unfold UpdateSize. apply returns_deref; [by exists d|]. intros j Hj.
  assert (j = d) as -> by congruence.
  replace ((delta <? 0) && (st_size (attr d) <? - delta)) with false
    by (symmetry; apply andb_false_iff; rewrite !Z.ltb_ge; lia).
  apply returns_bind; [by apply returns_update; exists d|]. intros [] w1 Hu.
  destruct (negb _); [|apply returns_ret].
  apply returns_bind; [|intros ? ? ?; apply returns_modify].
  apply returns_update. eapply here_update; [exact Hu|by exists d].
Qed.

Lemma returns_ChildInodeNumber p name e w :
  g_dir (wgraph w) p = true -> returns (ChildInodeNumberWithName p name) e w.
Proof. intros H. apply returns_method; [done|]. intros d l _ _. apply returns_ret. Qed.

Lemma returns_IsEmpty p e w : g_dir (wgraph w) p = true -> returns (IsEmpty p) e w.
Proof. intros H. apply returns_method; [done|]. intros d l _ _. by eexists _, _. Qed.

Lemma returns_AddChild p name c e w :
  g_dir (wgraph w) p = true -> returns (AddChild p name c) e w.
Proof.
  intros H. apply returns_method; [done|]. intros d l Hd Hl.
  destruct (dir_find name l); [apply returns_ret|]. apply returns_space. intros room.
  destruct (negb room); [apply returns_ret|].
  apply returns_bind; [apply returns_update; by exists d|]. intros [] w1 Hu.
  apply returns_bind; [|intros ? ? ?; apply returns_ret].
  apply update_Ok in Hu as (j & Hj & ->).
  eapply returns_UpdateSize; [by eapply get_put_eq|]. left. pose proof (elem_size_bounds name). lia.
Qed.

Lemma returns_UpdateChild p name c e w :
  g_dir (wgraph w) p = true -> returns (UpdateChild p name c) e w.
Proof.
  intros H. apply returns_ask, returns_method; [done|]. intros d l Hd Hl.
  destruct (dir_find name l); goes.
Qed.

Lemma elem_size_le name l c : dir_find name l = Some c -> elem_size name <= dir_bytes l.
Proof.
  intros H. pose proof (dir_bytes_nonneg (dir_erase name l)).
  rewrite dir_bytes_erase in * by (apply dir_find_is_Some; eauto).
  unfold sizeof_std_vector in *. lia.
Qed.

Lemma returns_RemoveChild p name e w :
  fs_ok w -> g_dir (wgraph w) p = true -> dir_small w p -> returns (RemoveChild p name) e w.
Proof.
  intros Hw H Hs. apply returns_ask, returns_method; [done|]. intros d l Hd Hl.
  unfold dir_small in Hs. destruct (dir_graph _ _ _ _ Hd Hl) as [_ Hk]. rewrite Hk in Hs.
  destruct (dir_of_ok _ _ _ _ Hw Hd Hl) as (_ & _ & Hsize & _).
  destruct (dir_find name l) as [c|] eqn:Hf; [|apply returns_ret].
  pose proof (elem_size_le _ _ _ Hf). pose proof (elem_size_bounds name).
  rewrite (s64_small (dir_bytes l)) in Hsize by lia.
  apply returns_bind; [apply returns_update; by exists d|]. intros [] w1 Hu.
  apply update_Ok in Hu as (j & Hj & ->). assert (j = d) as -> by congruence.
  assert (Hr : returns (UpdateSize p (s64 (- elem_size name))) e
    (put_inode p (Some (set_children (dir_erase name l) d)) w)).
  { eapply returns_UpdateSize; [by eapply get_put_eq|]. right.
    rewrite s64_small by lia. change (attr (set_children _ d)) with (attr d). lia. }
  apply returns_bind; [done|]. intros [] w2 Hu. apply same_here with (p := p) in Hu.
  - goes.
  - apply same_UpdateSize.
  - unfold here. by rewrite (get_put_eq _ _ _ _ Hd).
Qed.

#[export] Hint Resolve returns_ChildInodeNumber returns_IsEmpty returns_AddChild
  returns_UpdateChild returns_RemoveChild : verifs.

(** No inode goes away or changes its class. *)
Definition stays (w w' : world) : Prop :=
  forall p, (here w p -> here w' p) /\ g_dir (wgraph w') p = g_dir (wgraph w) p.

#[export] Instance stays_preorder : PreOrder stays.
Proof.
  split; [done|]. intros w1 w2 w3 H1 H2 p. destruct (H1 p) as [Ha Hb], (H2 p) as [Hc Hd].
  split; [auto|congruence].
Qed.

Lemma stays_graph w w' : wgraph w' = wgraph w -> stays w w'.
Proof. intros H p. by rewrite !here_graph, H. Qed.
Lemma stays_kids w w' f p : wgraph w' = on_kids f p (wgraph w) -> stays w w'.
Proof. intros H q. rewrite !here_graph, H, g_dir_kids. split; [apply present_kids|done]. Qed.
Lemma stays_links w w' f p : wgraph w' = on_links f p (wgraph w) -> stays w w'.
Proof. intros H q. rewrite !here_graph, H, g_dir_links. split; [apply present_links|done]. Qed.

Lemma stays_same {A} (m : M A) : Respects (same wgraph) m -> Respects stays m.
Proof. intros Hm e w a w' H. apply stays_graph. by eapply Hm. Qed.

Lemma stays_IncrementLinkCount p : Respects stays (IncrementLinkCount p).
Proof. intros e w a w' H%inc_graph. by eapply stays_links. Qed.
Lemma stays_DecrementLinkCount p : Respects stays (DecrementLinkCount p).
Proof. intros e w a w' H%dec_graph. by eapply stays_links. Qed.
Lemma stays_AddChild p name c : Respects stays (AddChild p name c).
Proof.
  intros e w a w' [_ [[_ H]|[_ H]]]%AddChild_graph; [by eapply stays_kids|by apply stays_graph].
Qed.

Lemma stays_UpdateChild p name c : Respects stays (UpdateChild p name c).
Proof.
  intros e w a w' H. destruct (dir_find name (g_kids (wgraph w) p)) as [x|] eqn:Hf.
  - eapply stays_kids. by eapply UpdateChild_graph.
  - apply bind_Ok in H as (e1 & w1 & [= <- <-] & H).
    apply dir_method in H as (d & l & _ & _ & _ & <- & H). rewrite Hf in H.
    by injection H as _ <-.
Qed.
Lemma stays_RemoveChild p name : Respects stays (RemoveChild p name).
Proof.
  intros e w a w' H. destruct (dir_find name (g_kids (wgraph w) p)) as [x|] eqn:Hf.
  - eapply stays_kids. by eapply RemoveChild_graph.
  - apply bind_Ok in H as (e1 & w1 & [= <- <-] & H).
    apply dir_method in H as (d & l & _ & _ & _ & <- & H). rewrite Hf in H.
    by injection H as _ <-.
Qed.

Lemma stays_here {A} (m : M A) e w a w' p :
  Respects stays m -> m e w = Ok a w' -> here w p -> here w' p.
Proof. intros Hm H. by apply (Hm _ _ _ _ H p). Qed.
Lemma stays_dir {A} (m : M A) e w a w' p :
  Respects stays m -> m e w = Ok a w' -> g_dir (wgraph w') p = g_dir (wgraph w) p.
Proof. intros Hm H. by apply (Hm _ _ _ _ H p). Qed.

Lemma returns_IncrementLinkCount p e w : here w p -> returns (IncrementLinkCount p) e w.
Proof. apply returns_update. Qed.
Lemma returns_DecrementLinkCount p e w : here w p -> returns (DecrementLinkCount p) e w.
Proof. apply returns_update. Qed.

#[export] Hint Resolve returns_IncrementLinkCount returns_DecrementLinkCount
  stays_IncrementLinkCount stays_DecrementLinkCount stays_AddChild stays_UpdateChild
  stays_RemoveChild stays_same : verifs.

Lemma stays_run {A} (m : M A) e w a w' : Respects stays m -> m e w = Ok a w' -> stays w w'.
Proof. intros Hm. apply Hm. Qed.
Lemma stays_keeps_here w w' p : stays w w' -> here w p -> here w' p.
Proof. intros H. apply (H p). Qed.
Lemma stays_keeps_dir w w' p :
  stays w w' -> g_dir (wgraph w) p = true -> g_dir (wgraph w') p = true.
Proof. intros H. by rewrite (proj2 (H p)). Qed.

#[export] Hint Resolve stays_keeps_here stays_keeps_dir : verifs.

(** One statement after which every inode stays; the worlds passed are chained. *)
Ltac pass H :=
  apply returns_bind; [solve [eauto with verifs]|]; intros ? ? H;
  match type of H with
  | ?m ?e ?w = Ok _ ?w' =>
      let Hs := fresh "Hs" in
      assert (Hs : stays w w') by (by eapply (stays_run m); [auto with verifs|exact H]);
      try match goal with
      | H0 : stays ?w0 w |- _ =>
          pose proof (transitivity (R := stays) H0 Hs); clear H0 Hs
      end
  end.

(** ** Creation *)

Lemma s64_positive c : 0 <= c < 2 ^ 64 -> 0 < s64 c -> s64 c = c.
Proof.
  intros Hc Hs. destruct (decide (c < 2 ^ 63)); [apply s64_small; lia|].
  assert (s64 c = c - 2 ^ 64); [|lia]. unfold s64.
  replace (c + 2 ^ 63) with (c - 2 ^ 63 + 1 * 2 ^ 64) by lia.
  rewrite Z_mod_plus_full, Z.mod_small by lia. lia.
Qed.

(** Returns, with a result. *)
Definition yields {A} (m : M A) (e : env) (w : world) (Q : A -> world -> Prop) : Prop :=
  exists a w', m e w = Ok a w' /\ Q a w'.

Lemma yields_bind {A B} (m : M A) (k : A -> M B) e w Q :
  returns m e w -> (forall a w', m e w = Ok a w' -> yields (k a) e w' Q) ->
  yields (m ≫= k) e w Q.
Proof.
  intros (a & w' & H) Hk. destruct (Hk a w' H) as (b & w2 & H2 & HQ). exists b, w2.
  unfold mbind, M_bind. by rewrite H.
Qed.

Lemma yields_ret {A} (a : A) e w (Q : A -> world -> Prop) : Q a w -> yields (mret a) e w Q.
Proof. intros H. by exists a, w. Qed.

(** Naming a new inode [c], or taking it back. *)
Lemma name_new_returns parent name mode c e w :
  g_dir (wgraph w) parent = true -> here w c -> 0 <= c < 2 ^ 64 ->
  yields (ret ← AddChild parent name c;
          if ret <? 0 then
            UpdateUsedInodes (-1);; n ← deref c; UpdateUsedBlocks (s64 (UsedBlocks n));;
            DeleteInode c;; mret ret
          else (if S_ISDIR mode then IncrementLinkCount parent else mret tt);; mret (s64 c))
    e w (fun r w' => 0 < r -> here w' r).
Proof.
  intros Hp Hc Hr. apply yields_bind; [by apply returns_AddChild|]. intros ret w1 H1.
  assert (Hc1 : here w1 c) by (by eapply stays_here; [apply stays_AddChild|..]).
  assert (Hp1 : here w1 parent)
    by (by eapply stays_here; [apply stays_AddChild|exact H1|apply dir_here]).
  destruct (ret <? 0) eqn:E; zbool.
  - destruct Hc1 as [i Hi].
    assert (returns (UpdateUsedInodes (-1);; n ← deref c; UpdateUsedBlocks (s64 (UsedBlocks n));;
      DeleteInode c) e w1) as (a & w' & H).
    { apply returns_bind; [apply returns_modify|]. intros ? w2 [= _ <-].
      apply returns_deref; [by exists i|]. intros j _.
      apply returns_bind; [apply returns_modify|]. intros ? w2 [= _ <-].
      apply returns_bind; [|intros; apply returns_modify].
      eexists _, _. apply store_slot_run. by apply (get_inode_range w1 c i). }
    exists ret, w'. split; [|lia].
    unfold mbind, M_bind in *. simpl in *. repeat case_match; by simplify_eq.
  - apply yields_bind.
    { destruct (S_ISDIR mode); [by apply returns_IncrementLinkCount|apply returns_ret]. }
    intros ? w2 H2. apply yields_ret. intros Hs. rewrite s64_positive by done.
    destruct (S_ISDIR mode); [|by injection H2 as _ <-].
    by eapply stays_here; [apply stays_IncrementLinkCount|..].
Qed.

Lemma create_returns parent name mode dev s e w :
  fs_ok w -> g_dir (wgraph w) parent = true ->
  yields (do_create_node parent name mode dev s) e w (fun r w' => 0 < r -> here w' r).
Proof.
  intros Hw Hp. apply yields_bind; [by exists e, w|]. intros e1 w1 [= <- <-].
  assert (Hneg : forall n, 0 < n -> yields (mret (- n)) e w (fun r w' => 0 < r -> here w' r)).
  { intros n Hn. apply yields_ret. lia. }
  destruct (make_node mode dev s) as [[nd n]|] eqn:Em; [|by apply Hneg].
  destruct (make_node_shape _ _ _ _ _ Em) as [_ Hshape].
  destruct (negb (can_new e)); [by apply Hneg|].
  apply yields_bind; [by eexists _, _|]. intros free w1 [= <- <-].
  destruct (_ <=? 0); [by apply Hneg|].
  apply yields_bind; [eexists _, _; by apply RegisterInode_run|]. intros c w1 Hreg.
  apply RegisterInode_graph in Hreg as [Hf Hreg]; [|done].
  assert (Hp1 : g_dir (wgraph w1) parent = true).
  { unfold g_dir in *. rewrite Hreg, g_node_alloc by done. case_decide; [subst c|done].
    by rewrite (g_node_free _ _ Hf) in Hp. }
  assert (Hc1 : g_node (wgraph w1) c = Some (Node n (dir_children nd))).
  { rewrite Hreg, g_node_alloc by done. by rewrite decide_True. }
  assert (Hr : 0 <= c < 2 ^ 64).
  { pose proof (ok_limit _ Hw). pose proof (wgraph_length w).
    destruct Hf as [->|Hf%vec_at_range]; lia. }
  assert (Hh1 : here w1 c) by (apply here_graph; by rewrite Hc1).
  destruct (S_ISDIR mode) eqn:Edir.
  2: { apply yields_bind; [apply returns_ret|]. intros ? w2 [= _ <-].
       pose proof (name_new_returns parent name mode c e w1 Hp1 Hh1 Hr) as H.
       by rewrite Edir in H. }
  assert (Hd1 : g_dir (wgraph w1) c = true).
  { unfold g_dir. rewrite Hc1. destruct Hshape as [-> _]. done. }
  assert (Hdots : Respects stays (AddChild c "." c;; par ← deref parent;
    AddChild c ".." (GetIno par);; mret tt)) by respects.
  apply yields_bind.
  { pass H2. apply returns_deref; [eauto with verifs|]. intros par _. pass H3.
    apply returns_ret. }
  intros ? w2 H2. destruct (Hdots _ _ _ _ H2 parent) as [_ Hp2].
  destruct (Hdots _ _ _ _ H2 c) as [Hh2 _].
  pose proof (name_new_returns parent name mode c e w2) as H. rewrite Edir in H.
  apply H; [congruence|auto|done].
Qed.

Lemma returns_created parent name mode dev s e w (k : Z -> M unit) :
  fs_ok w -> g_dir (wgraph w) parent = true ->
  (forall r w', (0 < r -> here w' r) -> returns (k r) e w') ->
  returns (r ← do_create_node parent name mode dev s; k r) e w.
Proof.
  intros Hw Hp Hk. destruct (create_returns parent name mode dev s e w Hw Hp)
    as (r & w' & H & Hr).
  apply returns_bind; [by exists r, w'|]. intros r' w2 H'. assert (r' = r /\ w2 = w') as [-> ->]
    by (by rewrite H in H'; simplify_eq). by apply Hk.
Qed.

Lemma returns_reply_created r e w : (0 < r -> here w r) -> returns (reply_created r) e w.
Proof.
  intros H. unfold reply_created. destruct (0 <? r) eqn:E; zbool; auto with verifs.
Qed.

#[export] Hint Resolve returns_reply_created : verifs.

(** A handler that checks its directory and creates a node in it. *)
Ltac creates :=
  apply returns_with_live; intros ip Hip _; apply returns_with_dir; intros lp Hlp;
  destruct (dir_graph _ _ _ _ Hip Hlp) as [Hp _].

Lemma returns_FuseMknod parent name mode rdev e w :
  fs_ok w -> returns (FuseMknod parent name mode rdev) e w.
Proof.
  intros Hw. creates. apply returns_free. intros n. destruct (n <=? 0); [auto with verifs|].
  apply returns_bind; [auto with verifs|]. intros c w1 (-> & _ & _)%child_number_graph.
  destruct (negb _); [auto with verifs|]. apply returns_created; auto with verifs.
Qed.

Lemma returns_FuseMkdir parent name mode e w :
  fs_ok w -> returns (FuseMkdir parent name mode) e w.
Proof.
  intros Hw. creates. apply returns_free. intros n. destruct (n <=? 0); [auto with verifs|].
  apply returns_bind; [auto with verifs|]. intros c w1 (-> & _ & _)%child_number_graph.
  destruct (negb _); [auto with verifs|]. apply returns_created; auto with verifs.
Qed.

Lemma returns_FuseCreate parent name mode e w :
  fs_ok w -> returns (FuseCreate parent name mode) e w.
Proof.
  intros Hw. creates. apply returns_created; [done..|]. intros r w' Hr.
  destruct (0 <? r) eqn:E; zbool; auto with verifs.
Qed.

Lemma maybe_reply_returns (b : bool) n e w :
  yields (if b then reply_error n else mret tt) e w
    (fun _ w' => wgraph w' = wgraph w /\ (fs_ok w -> fs_ok w')).
Proof.
  destruct b; [|by apply yields_ret].
  eexists _, _. split; [done|]. split; [done|]. intros H. by eapply fs_ok_frame.
Qed.

Lemma returns_FuseSymlink link parent name e w :
  fs_ok w -> returns (FuseSymlink link parent name) e w.
Proof.
  intros Hw. creates. apply returns_space. intros room.
  destruct (maybe_reply_returns (negb room) ENOSPC e w) as ([] & w1 & E1 & Hg1 & Hw1).
  apply returns_bind; [by eexists _, _|]. intros [] w1' E1'. rewrite E1 in E1'.
  injection E1' as <-. apply returns_free. intros n.
  destruct (maybe_reply_returns (n <=? 0) ENOSPC e w1) as ([] & w2 & E2 & Hg2 & Hw2).
  apply returns_bind; [by eexists _, _|]. intros [] w2' E2'. rewrite E2 in E2'.
  injection E2' as <-. rewrite <- Hg1, <- Hg2 in Hp.
  apply returns_bind; [auto with verifs|]. intros c w3 (-> & _ & _)%child_number_graph.
  destruct (negb (c =? _)); [auto with verifs|]. apply returns_created; auto with verifs.
Qed.

(** ** Links and names *)

Lemma returns_FuseLink ino newparent newname e w : returns (FuseLink ino newparent newname) e w.
Proof.
  apply returns_with_live. intros i Hi _. creates.
  apply returns_bind; [auto with verifs|]. intros c w1 (-> & _ & _)%child_number_graph.
  destruct (negb _); [auto with verifs|]. pass H. destruct (_ <? 0); [auto with verifs|].
  pass H2. eauto with verifs.
Qed.

Lemma returns_FuseUnlink parent name e w :
  fs_ok w -> links_ok (wgraph w) -> is_dot name = false -> (forall p, dir_small w p) ->
  returns (FuseUnlink parent name) e w.
Proof.
  intros Hw Hg Hdot Hs. creates.
  apply returns_bind; [auto with verifs|]. intros c w1 (-> & _ & Hc)%child_number_graph.
  destruct (c =? INO_NOTFOUND) eqn:E; [auto with verifs|]. zbool.
  assert (Hf : dir_find name (g_kids (wgraph w) parent) = Some c)
    by (apply found_number; congruence).
  pass H. apply returns_GetInode. assert (here w' c) as [i Hi].
  { eapply stays_keeps_here; [done|]. destruct (entry_named _ _ _ _ Hf Hdot) as [_ Hn].
    apply here_graph, links_present. pose proof (lk_names _ Hg c). lia. }
  rewrite Hi. pass H2. auto with verifs.
Qed.

Lemma returns_drop_links fuel p e w : here w p -> returns (drop_links fuel p) e w.
Proof.
  revert w. induction fuel as [|n IH]; intros w H; simpl; [auto with verifs|].
  apply returns_deref; [done|]. intros i _. destruct (0 <? NumLinks i); [|auto with verifs].
  pass Hd. eauto with verifs.
Qed.
#[export] Hint Resolve returns_drop_links : verifs.

Lemma returns_FuseRmdir parent name e w :
  fs_ok w -> (forall p, dir_small w p) -> returns (FuseRmdir parent name) e w.
Proof.
  intros Hw Hs. creates.
  apply returns_bind; [auto with verifs|]. intros c w1 (-> & _ & Hc)%child_number_graph.
  destruct (c =? INO_NOTFOUND); [auto with verifs|].
  destruct (c =? parent); [auto with verifs|].
  apply returns_with_live. intros i Hi _. apply returns_with_dir. intros l Hl.
  destruct (dir_graph _ _ _ _ Hi Hl) as [Hd _].
  apply returns_bind; [auto with verifs|]. intros b w1 Hb.
  apply dir_method in Hb as (? & ? & _ & _ & _ & _ & Hb).
  apply bind_Ok in Hb as (? & ? & [= <- <-] & [= _ <-]).
  destruct (negb b); [auto with verifs|]. pass H1. pass H2.
  apply returns_deref; [eauto with verifs|]. intros d _.
  apply returns_bind; [eauto with verifs|auto with verifs].
Qed.

Lemma returns_is_dir_now p e w : here w p -> returns (is_dir_now p) e w.
Proof. intros H. unfold is_dir_now. goes. Qed.

Lemma is_dir_now_pure p e w b w' : is_dir_now p e w = Ok b w' -> w' = w.
Proof. intros H. by apply bind_Ok in H as (i & w1 & [_ ->]%deref_Ok & [= _ <-]). Qed.

Lemma returns_rename_move p name q nname s e w :
  fs_ok w -> g_dir (wgraph w) p = true -> g_dir (wgraph w) q = true -> here w s ->
  dir_small w p -> dir_bytes (g_kids (wgraph w) q) + elem_size nname < 2 ^ 63 ->
  returns (rename_move p name q nname s) e w.
Proof.
  intros Hw Hp Hq Hs Hsp Hsq. unfold rename_move. pass H1.
  pose proof (kept_add _ _ _ _ _ _ _ Hw H1) as Hw1.
  assert (dir_small w' p).
  { unfold dir_small in *. apply AddChild_graph in H1 as [_ [[_ ->]|[_ ->]]]; [|done].
    rewrite g_kids_kids by done. case_decide; [subst q|done].
    unfold add_entry. by rewrite dir_bytes_snoc. }
  pass H2. apply returns_bind; [apply returns_is_dir_now; eauto with verifs|].
  intros b w3 ->%is_dir_now_pure.
  destruct b; [|apply returns_bind; auto with verifs].
  apply returns_bind; [|auto with verifs]. pass H4.
  eauto with verifs.
Qed.

Lemma returns_rename_replace p name q nname s x e w :
  fs_ok w -> g_dir (wgraph w) p = true -> g_dir (wgraph w) q = true -> here w x ->
  dir_small w p -> dir_find nname (g_kids (wgraph w) q) = Some x ->
  returns (rename_replace p name q nname s x) e w.
Proof.
  intros Hw Hp Hq Hx Hsp Hf. unfold rename_replace. pass H1.
  pose proof (kept_dec _ _ _ _ _ Hw H1) as Hw1. pass H2.
  pose proof (kept_child _ _ _ _ _ _ _ Hw1 H2) as Hw2.
  assert (dir_small w'0 p).
  { unfold dir_small in *. apply dec_graph in H1.
    eapply UpdateChild_graph in H2; [|by rewrite H1, g_kids_links].
    rewrite H2, g_kids_kids by (by rewrite H1, g_dir_links). rewrite H1, !g_kids_links.
    case_decide; [subst q|done]. by rewrite dir_bytes_assign. }
  pass H3. apply returns_bind; [apply returns_is_dir_now; eauto with verifs|].
  intros b w4 ->%is_dir_now_pure. apply returns_bind; [|auto with verifs].
  destruct b; [|auto with verifs]. pass H5. pass H6.
  eauto with verifs.
Qed.

Lemma returns_FuseRename p name q nname e w :
  fs_ok w -> null_slot (wgraph w) -> (forall p, dir_small w p) ->
  dir_bytes (g_kids (wgraph w) q) + elem_size nname < 2 ^ 63 ->
  returns (FuseRename p name q nname) e w.
Proof.
  intros Hw H0 Hs Hsq.
  apply returns_with_live. intros ip Hip _. apply returns_with_live. intros iq Hiq _.
  apply returns_with_dir. intros lp Hlp. apply returns_with_dir. intros lq Hlq.
  destruct (dir_graph _ _ _ _ Hip Hlp) as [Hp _]. destruct (dir_graph _ _ _ _ Hiq Hlq) as [Hq _].
  apply returns_bind; [auto with verifs|]. intros s w1 (-> & _ & _)%child_number_graph.
  apply returns_with_live. intros is_ His _.
  apply returns_bind; [auto with verifs|]. intros x w1 (-> & _ & Hx)%child_number_graph.
  apply returns_GetInode.
  assert (returns (rename_move p name q nname s) e w) as Hmove
    by (apply returns_rename_move; eauto with verifs).
  destruct (get_inode w x) as [ix|] eqn:Hix; [|done].
  destruct (0 <? NumLinks ix) eqn:Hnl; [|done]. zbool. apply NumLinks_pos in Hnl.
  destruct (_ && _); [auto with verifs|].
  assert (Hxz : x <> INO_NOTFOUND) by (intros ->; by apply Hnl, (null_not_live w ix)).
  assert (Hf : dir_find nname (g_kids (wgraph w) q) = Some x) by (apply found_number; congruence).
  assert (Hrep : returns (rename_replace p name q nname s x) e w)
    by (apply returns_rename_replace; eauto with verifs).
  rewrite (dir_mode w x ix) by done. destruct (g_dir (wgraph w) x) eqn:Hdx.
  - unfold g_dir in Hdx. rewrite wgraph_node, Hix in Hdx. cbn in Hdx.
    destruct (dir_children ix) as [l|] eqn:El; [|done].
    apply returns_bind; [apply returns_IsEmpty, (dir_graph _ _ _ _ Hix El)|].
    intros b w1 Hb. apply dir_method in Hb as (? & ? & _ & _ & _ & _ & Hb).
    apply bind_Ok in Hb as (? & ? & [= <- <-] & [= _ <-]).
    destruct (negb b); [auto with verifs|]. destruct (_ && _); auto with verifs.
  - apply returns_bind; [auto with verifs|]. intros b w1 [= <- <-]. simpl.
    destruct (_ && _); auto with verifs.
Qed.

Lemma returns_FuseForget ino n e w : returns (FuseForget ino n) e w.
Proof.
  apply returns_GetInode. destruct (get_inode w ino) as [i|] eqn:Hi; [|auto with verifs].
  apply returns_bind.
  { unfold Forget. goes. }
  intros ? w1 H1. assert (here w1 ino) as [j Hj].
  { eapply same_here; [apply same_Forget|exact H1|by exists i]. }
  apply returns_deref; [by exists j|]. intros k Hk.
  destruct (Forgotten k); [|auto with verifs]. destruct (HasNoLinks k); [|auto with verifs].
  apply returns_bind; [|intros; by eexists _, _].
  apply returns_bind; [|auto with verifs]. eexists _, _. apply store_slot_run.
  by apply (get_inode_range w1 ino j).
Qed.

(** ** Extended attributes *)

(** The value of the name is in memory. *)
Lemma value_there w ino i name :
  values_ok w -> get_inode w ino = Some i -> exists old, old_value (heap w) i name old.
Proof.
  intros Hw Hi. unfold old_value.
  destruct (smap_find name (m_xattr (base i))) as [v|] eqn:Hf; [|by exists []].
  apply (vo_holds w Hw ino name). exists (m_xattr (base i)). unfold xattrs_at. by rewrite Hi.
Qed.

Lemma setxattr_no_flags ino name value flags e w i :
  get_inode w ino = Some i ->
  SetXAttrAndReply ino name value flags 0 e w = SetXAttrAndReply ino name value 0 0 e w \/
  returns (SetXAttrAndReply ino name value flags 0) e w.
Proof.
  intros Hi. unfold returns, SetXAttrAndReply, mbind, M_bind. rewrite (deref_run _ _ _ _ Hi).
  rewrite !andb_false_r. destruct (_ && _); [right; by eexists _, _|].
  destruct (_ && _); [right; by eexists _, _|]. by left.
Qed.

Lemma returns_setxattr ino name value flags e w i old :
  get_inode w ino = Some i -> heap_ok (heap w) -> old_value (heap w) i name old ->
  zlen value < 2 ^ 64 -> returns (SetXAttrAndReply ino name value flags 0) e w.
Proof.
  intros Hi Hh Hold Hlt.
  destruct (setxattr_no_flags ino name value flags e w i Hi) as [H|H]; [|done].
  unfold returns. rewrite H.
  destruct (decide (zlen old < zlen value /\ can_alloc e (zlen value) = false)) as [[Hg Ha]|Hn].
  - unfold SetXAttrAndReply, mbind, M_bind. rewrite (deref_run _ _ _ _ Hi), !andb_false_r.
    assert (zlen old = (default (0, 0) (smap_find name (m_xattr (base i)))).2) as Hx.
    { unfold old_value in Hold. destruct (smap_find _ _) as [v|]; [by symmetry; apply Hold|].
      by subst old. }
    destruct (default _ _) as [ptr extent]. simpl in Hx. subst extent.
    rewrite (update_run _ _ _ _ i) by done. rewrite Z.add_0_r, u64_small by lia.
    rewrite (proj2 (Z.ltb_lt _ _)) by done. unfold xrealloc, mbind, M_bind. simpl. rewrite Ha.
    by eexists _, _.
  - destruct (SetXAttr_run e w ino i name value old Hi Hh Hold Hlt) as (i' & hp & v & Hr & _).
    + intros Hg. destruct (can_alloc e (zlen value)) eqn:Ea; [done|]. by destruct Hn.
    + by eexists _, _.
Qed.

Lemma returns_getxattr ino name size e w i old :
  get_inode w ino = Some i -> old_value (heap w) i name old -> 0 <= size < 2 ^ 64 ->
  returns (GetXAttrAndReply ino name size 0) e w.
Proof.
  intros Hi Hold Hs. unfold old_value in Hold.
  destruct (smap_find name (m_xattr (base i))) as [v|] eqn:Hv.
  - destruct (decide (size = 0)) as [->|Hnz].
    + unfold GetXAttrAndReply. apply returns_deref; [by exists i|]. intros j Hj.
      assert (j = i) as -> by congruence. rewrite Hv. destruct v. apply returns_send.
    + eexists _, _. apply (GetXAttr_run e w ino i name size v old); [done..|lia].
  - unfold GetXAttrAndReply. apply returns_deref; [by exists i|]. intros j Hj.
    assert (j = i) as -> by congruence. rewrite Hv. auto with verifs.
Qed.

(** ** Reading a directory *)

Section readdir.
Context (direntry_size : string -> Z).

(** The entries that a request with this offset goes on with. *)
Definition listed (w : world) (ino off : Z) : list (string * Z) :=
  if off =? 0 then g_kids (wgraph w) ino
  else match readdirStates w !! cookie_key off with Some ctx => children ctx | None => [] end.

(** The allocator serves the buffer, a key can be drawn for a new listing, and the
    first entry fits. *)
Definition readdir_served (e : env) (w : world) (ino size off : Z) : Prop :=
  can_alloc e (Z.min kReadDirBufSize size) = true /\
  (off = 0 -> is_Some (draw_key (rands e) (readdirStates w))) /\
  forall name c, head (listed w ino off) = Some (name, c) ->
    direntry_size name <= Z.min kReadDirBufSize size.

Lemma fill_returns w size rest i c bytes entries acc :
  0 < i -> exists r, fill_dirents direntry_size w true size rest i c bytes entries acc = inl r.
Proof.
  revert i c bytes entries acc. induction rest as [|[n d] rest IH]; intros i c bytes entries acc Hi;
    simpl; [eauto|].
  destruct (entries <? _); [|eauto]. destruct (get_inode w d) as [ch|]; [|apply IH; lia].
  destruct (HasNoLinks ch); [apply IH; lia|]. destruct (size <? _); [|apply IH; lia].
  rewrite (proj2 (Z.eqb_neq i 0)) by lia. eauto.
Qed.

Lemma fill_first_returns w size l i c :
  0 <= i -> (forall n d, head l = Some (n, d) -> direntry_size n <= size) ->
  exists r, fill_dirents direntry_size w true size (drop (Z.to_nat i) l) i c 0 0 [] = inl r.
Proof.
  intros Hi Hfit. destruct (decide (i = 0)) as [->|Hnz]; [|apply fill_returns; lia].
  rewrite drop_0. destruct l as [|[n d] l]; simpl; [eauto|]. specialize (Hfit n d eq_refl).
  destruct (get_inode w d) as [ch|]; [|apply fill_returns; lia].
  destruct (HasNoLinks ch); [apply fill_returns; lia|].
  destruct (size <? _) eqn:E; zbool; [lia|apply fill_returns; lia].
Qed.

Lemma returns_FuseReadDir ino size off e w :
  iterators_ok w -> readdir_served e w ino size off ->
  returns (FuseReadDir direntry_size ino size off) e w.
Proof.
  intros Hiter (Ha & Hkey & Hfit). pose proof (Hiter (cookie_key off)) as Hit. creates.
  assert (exists o w1, PrepareReaddir ino off e w = Ok o w1 /\
    forall key, o = Some key -> exists ctx, readdirStates w1 !! key = Some ctx /\
      0 <= it ctx /\ children ctx = listed w ino off) as (o & w1 & Hprep & Hctx).
  { unfold PrepareReaddir, listed in *. unfold mbind, M_bind. simpl.
    destruct (off =? 0) eqn:E; simpl; zbool.
    - rewrite (deref_run _ _ _ _ Hip), Hlp. simpl. destruct (Hkey E) as [key ->]. simpl.
      eexists _, _. split; [done|]. intros ? [= <-]. eexists. simpl.
      split; [apply lookup_insert_eq|]. split; [done|]. by destruct (dir_graph _ _ _ _ Hip Hlp).
    - destruct (readdirStates w !! cookie_key off) as [ctx|] eqn:Ek.
      + eexists _, _. split; [done|]. intros ? [= <-]. exists ctx. auto.
      + by eexists _, _. }
  apply returns_bind; [by eexists _, _|]. intros o' w1' H'. rewrite Hprep in H'.
  injection H' as <- <-. destruct o as [key|]; [|auto with verifs].
  destruct (Hctx key eq_refl) as (ctx & Hk & Hpos & Hch). apply returns_ask. rewrite Ha.
  apply returns_bind; [auto with verifs|]. intros ? w2 [= _ <-]. apply returns_get. rewrite Hk.
  rewrite <- Hch in Hfit.
  destruct (fill_first_returns w1 _ _ (it ctx) (cookie ctx) Hpos Hfit) as [[[i c] ents] Hr].
  apply returns_bind; [by eexists _, _|]. intros ? w2 [= <- <-]. rewrite Hr.
  by eexists _, _.
Qed.
End readdir.

(** ** Every request *)

(** What the request needs of the kernel and of the allocator: offsets of reads that are
    not negative, room to count the bytes of a directory, sizes of attribute values, for
    a listing what [readdir_served] says, memory for the copies of a checkpoint or
    a restore, and for pickling objects that are not too large and values of the stored
    objects that are in memory. *)
Definition servable (direntry_size : string -> Z) (e : env) (w : world) (r : request) : Prop :=
  match r with
  | op_read _ size off => 0 <= off /\ 0 <= size /\ off + size < 2 ^ 64
  | op_rename _ _ newparent newname =>
      dir_bytes (g_kids (wgraph w) newparent) + elem_size newname < 2 ^ 63
  | op_readdir ino size off => readdir_served direntry_size e w ino size off
  | op_setxattr ino name value _ => zlen value < 2 ^ 64
  | op_getxattr ino name size => 0 <= size < 2 ^ 64
  | op_ioctl cmd arg =>
      if cmd =? VERIFS_CHECKPOINT then memory_for e (Inodes w)
      else if cmd =? VERIFS_RESTORE then
        forall s, state_pool w !! u64 arg = Some s -> memory_for e (vs_inodes s)
      else if cmd =? VERIFS_PICKLE then
        slots (fun i => pickled_bytes i < 2 ^ 64) (Inodes w) /\
        forall key s, state_pool w !! key = Some s ->
          slots (fun i => values_held (heap w) i /\ pickled_bytes i < 2 ^ 64) (vs_inodes s)
      else cmd <> VERIFS_LOAD
  | _ => True
  end.

(** Requests that follow the pointers of values. *)
Definition is_value (r : request) : bool :=
  match r with
  | op_setxattr _ _ _ _ | op_getxattr _ _ _ => true
  | op_ioctl cmd _ => cmd =? VERIFS_PICKLE
  | _ => false
  end.

Lemma returns_checkpoint key e w : fs_ok w -> memory_for e (Inodes w) -> returns (checkpoint key) e w.
Proof.
  intros Hw Hm. unfold returns. rewrite checkpoint_run; [|by apply fs_ok_copyable|done].
  destruct (state_pool w !! key); by eexists _, _.
Qed.

Lemma returns_restore files key e w :
  sys_ok files w -> (forall s, state_pool w !! key = Some s -> memory_for e (vs_inodes s)) ->
  returns (restore key) e w.
Proof.
  intros Hw Hm. destruct (state_pool w !! key) as [s|] eqn:Hk.
  - destruct (decide (vs_inodes s = [])) as [Hnil|Hne].
    + (* without inodes there are no deleted numbers either *)
      pose proof (proj1 (proj2 Hw key s Hk)) as Hs.
      assert (vs_deleted s = []) as Hd.
      { destruct (vs_deleted s) as [|q l] eqn:E; [done|].
        assert (q ∈ DeletedInodes (world_of s)) as Hin by (simpl; rewrite E; by left).
        apply (ok_deleted _ Hs) in Hin. simpl in Hin. rewrite Hnil in Hin.
        apply vec_at_range in Hin. simpl in Hin. lia. }
      unfold returns, restore, find_state, mbind, M_bind. simpl. rewrite Hk. simpl.
      rewrite Hnil, Hd. by eexists _, _.
    + eexists _, _. apply (restore_run _ _ _ _ Hk Hne); [|by apply Hm|].
      * apply (fs_ok_copyable (world_of s)), (proj2 Hw key s Hk).
      * by apply fs_ok_classed, (sys_ok_fs files).
  - unfold returns, restore, find_state, mbind, M_bind. simpl. rewrite Hk. by eexists _, _.
Qed.

(** The objects of a stored state are well formed. *)
Lemma stored_picklable files w key s :
  sys_ok files w -> state_pool w !! key = Some s ->
  slots (fun i => values_held (heap w) i /\ pickled_bytes i < 2 ^ 64) (vs_inodes s) ->
  slots (can_pickle (heap w)) (vs_inodes s).
Proof.
  intros Hw Hk Hs. pose proof (proj1 (proj2 Hw key s Hk)) as Hok.
  apply Forall_lookup. intros n [i|] Hn; [|done].
  eapply Forall_lookup_1 in Hs; [|exact Hn]. split; [|done]. exists (Z.of_nat n).
  apply (ok_objects _ Hok), get_inode_Some, vec_at_Some. rewrite Nat2Z.id. split; [lia|done].
Qed.

Lemma returns_FuseIoctl direntry_size sha256 h files cmd arg e w :
  sys_ok files w -> (is_value (op_ioctl cmd arg) = true -> values_ok w) ->
  servable direntry_size e w (op_ioctl cmd arg) ->
  returns (FuseIoctl sha256 h cmd arg) e w.
Proof.
  intros Hw Hval Hm. pose proof (sys_ok_fs _ _ Hw) as Hok. simpl in Hm, Hval. unfold FuseIoctl.
  apply returns_bind.
  - destruct (cmd =? VERIFS_CHECKPOINT).
    { apply returns_bind; [by apply returns_checkpoint|]. intros. apply returns_ret. }
    destruct (cmd =? VERIFS_RESTORE).
    { apply returns_bind; [by eapply returns_restore|]. intros. apply returns_ret. }
    destruct (cmd =? VERIFS_PICKLE).
    { destruct Hm as [Ht Hp]. apply returns_pickle.
      - by apply values_picklable; [|apply Hval|].
      - intros key s Hk. eapply stored_picklable; [done|done|by eapply Hp]. }
    rewrite (proj2 (Z.eqb_neq _ _) Hm). apply returns_ret.
  - intros [ret file] w1 _. apply returns_bind; [|intros; apply returns_ret].
    destruct (ret =? 0); [apply returns_send|apply returns_reply_error].
Qed.

Lemma returns_FuseOps direntry_size sha256 h files r e w :
  sys_ok files w -> graph_ok (wgraph w) -> (forall p, dir_small w p) ->
  iterators_ok w -> (is_value r = true -> values_ok w) ->
  kernel_ok w r -> vfs_ok w r -> servable direntry_size e w r ->
  returns (FuseOps direntry_size sha256 h r) e w.
Proof.
  intros Hsys [Hg H0] Hs Hiter Hval Hk Hv Hm. pose proof (sys_ok_fs _ _ Hsys) as Hw.
  destruct r; try done; simpl in Hk, Hv, Hm |- *.
  - creates. goes.
  - apply returns_FuseForget.
  - unfold FuseGetAttr. goes.
  - apply returns_with_live. intros i Hg' _. destruct (flag_set to_set FUSE_SET_ATTR_SIZE);
      [|eauto with verifs].
    destruct (file_buf i) as [b|] eqn:Hb; [|goes].
    rewrite u64_small by lia. apply returns_bind.
    { eapply returns_truncate; [done|done|by rewrite Hb|lia]. }
    intros ret w1 Ht. assert (here w1 ino) by
      (eapply same_here; [apply same_FileTruncate|exact Ht|by exists i]). goes.
  - unfold FuseReadLink. goes.
  - by apply returns_FuseMknod.
  - by apply returns_FuseMkdir.
  - by apply returns_FuseUnlink.
  - by apply returns_FuseRmdir.
  - by apply returns_FuseSymlink.
  - by apply returns_FuseRename.
  - by apply returns_FuseLink.
  - unfold FuseOpen. goes.
  - apply returns_with_live. intros i Hi' _. destruct Hm as (? & ? & ?).
    by eapply returns_ReadAndReply.
  - destruct buf as [data|]; [|apply returns_reply_error].
    apply returns_with_live. intros i Hi' _. destruct Hk.
    by eapply returns_WriteAndReply.
  - apply returns_reply_error.
  - unfold FuseRelease. goes.
  - unfold FuseFsync. goes.
  - unfold FuseOpenDir. goes.
  - by apply returns_FuseReadDir.
  - unfold FuseReleaseDir. goes.
  - unfold FuseFsyncDir. goes.
  - by eexists _, _.
  - apply returns_with_live. intros i Hi' _. specialize (Hval eq_refl).
    destruct (value_there _ _ _ name Hval Hi') as [old Ho].
    eapply returns_setxattr; [done|apply Hval|done|done].
  - apply returns_with_live. intros i Hi' _. specialize (Hval eq_refl).
    destruct (value_there _ _ _ name Hval Hi') as [old Ho]. by eapply returns_getxattr.
  - unfold FuseListXAttr, ListXAttrAndReply. goes.
  - unfold FuseRemoveXAttr, RemoveXAttrAndReply. goes.
  - unfold FuseAccess. goes.
  - by apply returns_FuseCreate.
  - apply returns_ret.
  - apply returns_bind; [by eapply (returns_FuseIoctl direntry_size)|]. intros. apply returns_ret.
Qed.

Lemma vfs_steps_steps direntry_size sha256 h w rs w' :
  vfs_steps direntry_size sha256 h w rs w' -> steps direntry_size sha256 h w rs w'.
Proof. induction 1; by econstructor. Qed.

(** C3. In every state that a mounted file system reaches by the requests of the kernel,
    loading a state file apart, a further request other than loading runs to its end under
    these conditions: no assertion fails, no null or dangling pointer is followed, no
    buffer is left. The kernel names no dot in an unlink and no directory in a link
    ([kernel_ok], [vfs_ok]); directories take less than [2 ^ 63] bytes, with the new name
    of a rename too; a read has an offset and a size that are not negative; sizes of
    attribute values fit their type; a listing has memory for its buffer, a key that can be
    drawn and room for its first entry ([readdir_served]); a checkpoint or a restore has
    memory for its copies; the objects of a pickle take less than [2 ^ 64] bytes and the
    attribute values of the stored ones are in memory, which code that replaces a value
    after a checkpoint does not ensure; and the values of the live objects are only asked
    for in runs without a restore. *)
Theorem requests_return direntry_size sha256 h blocks inodes w rs w' r e :
  2 <= f_files (initial_stbuf blocks inodes) < 2 ^ 64 -> mounted blocks inodes w ->
  Forall (fun r => is_load r = false) rs ->
  vfs_steps direntry_size sha256 h w rs w' ->
  (is_value r = true -> Forall (fun r => is_restore r = false) rs) ->
  kernel_ok w' r -> vfs_ok w' r ->
  (forall p, dir_small w' p) -> servable direntry_size e w' r ->
  exists a w2, FuseOps direntry_size sha256 h r e w' = Ok a w2.
Proof.
  intros Hf Hm Hl Hs Hval Hk Hv Hd Hserv.
  pose proof (tree_ok_steps _ _ _ _ _ _ _ (mounted_tree _ _ _ Hf Hm) Hl Hs) as Ht.
  destruct (mounted_memory _ _ _ Hm) as [Hi0 Hv0].
  destruct (memory_steps _ _ _ _ _ _ _ (mounted_ok _ _ _ Hf Hm) Hl (vfs_steps_steps _ _ _ _ _ _ Hs))
    as [Hi1 Hv1].
  eapply returns_FuseOps; [apply Ht|by eapply tree_graph|done|auto|auto|done..].
Qed.
