(* ===== verification/Listing.v ===== *)
(** * Listing a whole directory

    The kernel reads a directory by a sequence of [readdir] requests, each with the
    offset of the last entry of the response before, until a response has none. The
    sequence ends, and every live entry is sent, when two entries always fit one
    response. *)

From S2P Require Import Prelude World Util Table InodeOps FileOps DirectoryOps Nodes.
From S2P Require Import Handlers Requests Specs Attributes.

Section listing.
Context (direntry_size : string -> Z) (Hsize : forall name, 0 <= direntry_size name).

(** ** One response *)

(** The fields of the result of the loop: the index and the cookie to go on with and the
    entries in the buffer. [k] entries of the rest were passed; the loop stops at
    the end, at the limit of entries, or at an entry that does not fit, where the
    index is that of the entry before. *)
Inductive filled (w : world) (bufSize : Z) (rest : list (string * Z)) (i c bytes entries : Z)
    (k : nat) : Z -> Z -> Prop :=
  | filled_end :
      k = length rest ->
      filled w bufSize rest i c bytes entries k (i + Z.of_nat k) (c + zlen (listing w (take k rest)))
  | filled_limit :
      entries + zlen (listing w (take k rest)) = kReadDirEntriesPerResponse ->
      filled w bufSize rest i c bytes entries k (i + Z.of_nat k) (c + zlen (listing w (take k rest)))
  | filled_space name x :
      rest !! k = Some (name, x) ->
      bufSize < bytes + listing_bytes direntry_size (listing w (take k rest)) + direntry_size name ->
      filled w bufSize rest i c bytes entries k (i + Z.of_nat k - 1)
        (c + zlen (listing w (take k rest)) + 1).

Lemma filled_step w bufSize ch rest i c bytes entries k i' c' :
  filled w bufSize rest (i + 1) (c + zlen (listing w [ch]))
    (bytes + listing_bytes direntry_size (listing w [ch])) (entries + zlen (listing w [ch])) k i' c' ->
  filled w bufSize (ch :: rest) i c bytes entries (S k) i' c'.
Proof.
  assert (Hl : forall r, listing w (ch :: r) = listing w [ch] ++ listing w r).
  { intros r. unfold listing. by rewrite <- omap_app. }
  assert (Hb : forall a b, listing_bytes direntry_size (a ++ b)
    = listing_bytes direntry_size a + listing_bytes direntry_size b).
  { intros a b. unfold listing_bytes. induction a; simpl; [done|lia]. }
  intros [E|E|name x E1 E2].
  - replace (i + 1 + Z.of_nat k) with (i + Z.of_nat (S k)) by lia.
    replace (c + zlen (listing w [ch]) + zlen (listing w (take k rest)))
      with (c + zlen (listing w (take (S k) (ch :: rest)))).
    + apply filled_end. by rewrite E.
    + simpl take. rewrite Hl, length_app. lia.
  - replace (i + 1 + Z.of_nat k) with (i + Z.of_nat (S k)) by lia.
    replace (c + zlen (listing w [ch]) + zlen (listing w (take k rest)))
      with (c + zlen (listing w (take (S k) (ch :: rest)))).
    + apply filled_limit. simpl take. rewrite Hl, length_app. lia.
    + simpl take. rewrite Hl, length_app. lia.
  - replace (i + 1 + Z.of_nat k - 1) with (i + Z.of_nat (S k) - 1) by lia.
    replace (c + zlen (listing w [ch]) + zlen (listing w (take k rest)) + 1)
      with (c + zlen (listing w (take (S k) (ch :: rest))) + 1).
    + apply filled_space with name x; [done|]. simpl take. rewrite Hl, Hb. lia.
    + simpl take. rewrite Hl, length_app. lia.
Qed.

Lemma with_cookies_app c a b :
  with_cookies c (a ++ b) = with_cookies c a ++ with_cookies (c + zlen a) b.
Proof.
  revert c. induction a as [|[n s] a IH]; intros c; simpl; [by rewrite Z.add_0_r|].
  rewrite IH. do 3 f_equal. lia.
Qed.

Lemma fill_filled w bufSize rest i c bytes entries acc :
  0 <= i -> entries <= kReadDirEntriesPerResponse ->
  (i = 0 -> forall name x, head rest = Some (name, x) -> bytes + direntry_size name <= bufSize) ->
  exists k i' c', (k <= length rest)%nat /\
    fill_dirents direntry_size w true bufSize rest i c bytes entries acc
    = inl (i', c', acc ++ with_cookies c (listing w (take k rest))) /\
    filled w bufSize rest i c bytes entries k i' c'.
Proof.
  revert i c bytes entries acc.
  induction rest as [|[name x] rest IH]; intros i c bytes entries acc Hi He Hfit.
  { exists 0%nat. eexists _, _. split; [done|]. split; [|by apply filled_end].
    simpl. by rewrite app_nil_r, !Z.add_0_r. }
  simpl fill_dirents. destruct (entries <? kReadDirEntriesPerResponse) eqn:El; zbool.
  2: { exists 0%nat. eexists _, _. split; [lia|]. split; [|apply filled_limit; simpl; lia].
       simpl. by rewrite app_nil_r, !Z.add_0_r. }
  assert (Hskip : entry_of_child w (name, x) = None ->
    exists k i' c', (k <= length ((name, x) :: rest))%nat /\
      fill_dirents direntry_size w true bufSize rest (i + 1) c bytes entries acc
      = inl (i', c', acc ++ with_cookies c (listing w (take k ((name, x) :: rest)))) /\
      filled w bufSize ((name, x) :: rest) i c bytes entries k i' c').
  { intros Hn. assert (Hl : listing w [(name, x)] = []) by (unfold listing; simpl; by rewrite Hn).
    destruct (IH (i + 1) c bytes entries acc) as (k & i' & c' & Hk & Hr & Hf); [lia|lia|lia|].
    exists (S k), i', c'. split; [simpl; lia|]. split.
    - simpl take. rewrite listing_cons, Hn. done.
    - apply filled_step. rewrite Hl. simpl. by rewrite !Z.add_0_r. }
  destruct (get_inode w x) as [child|] eqn:Hg;
    [|by apply Hskip; unfold entry_of_child; simpl; rewrite Hg].
  destruct (HasNoLinks child) eqn:Hnl;
    [by apply Hskip; unfold entry_of_child; simpl; rewrite Hg, Hnl|].
  assert (Hc : entry_of_child w (name, x) = Some (name, set_st_ino x (GetAttr child)))
    by (unfold entry_of_child; simpl; by rewrite Hg, Hnl).
  destruct (bufSize <? bytes + direntry_size name) eqn:Eb; zbool.
  - destruct (i =? 0) eqn:Ei; zbool; [specialize (Hfit Ei name x eq_refl); lia|].
    exists 0%nat. eexists _, _. split; [lia|]. split; cycle 1.
    + apply filled_space with name x; [done|]. simpl. lia.
    + simpl. rewrite app_nil_r. do 4 f_equal; lia.
  - assert (Hl : listing w [(name, x)] = [(name, set_st_ino x (GetAttr child))])
      by (unfold listing; simpl; by rewrite Hc).
    destruct (IH (i + 1) (c + 1) (bytes + direntry_size name) (entries + 1)
      (acc ++ [mkDirent name (set_st_ino x (GetAttr child)) (c + 1)]))
      as (k & i' & c' & Hk & Hr & Hf); [lia|lia|lia|].
    exists (S k), i', c'. split; [simpl; lia|]. split.
    + rewrite Hr. simpl take. rewrite listing_cons, Hc. simpl. by rewrite <- app_assoc.
    + apply filled_step. rewrite Hl. simpl. by rewrite Z.add_0_r.
Qed.

(** ** The requests of one listing *)

(** Any two entries of the directory fit the buffer. *)
Definition pairs_fit (size : Z) (l : list (string * Z)) : Prop :=
  forall a b, a ∈ l.*1 -> b ∈ l.*1 ->
    direntry_size a + direntry_size b <= Z.min kReadDirBufSize size.

Lemma listing_names w l x : x ∈ (listing w l).*1 -> x ∈ l.*1.
Proof.
  rewrite !list_elem_of_fmap. intros ([n s] & -> & H). unfold listing in H.
  apply list_elem_of_omap in H as ([m y] & Hin & E). exists (m, y). split; [|done].
  unfold entry_of_child in E. simpl in E. by repeat case_match; simplify_eq.
Qed.

Lemma listing_length w l : zlen (listing w l) <= zlen l.
Proof.
  induction l as [|ch l IH]; [done|]. rewrite listing_cons. destruct (entry_of_child w ch); simpl; lia.
Qed.

(** Where a response leaves the listing: [k] entries from [i] on were passed, the next
    response starts at [i'] with cookie [c']. *)
Record advances (w : world) (l : list (string * Z)) (i c : Z) (k : nat) (i' c' : Z) : Prop := {
  adv_in : 0 <= i' <= i + Z.of_nat k /\ i + Z.of_nat k <= zlen l;
  adv_cookie : c <= c' /\ c + zlen (listing w (take k (drop (Z.to_nat i) l))) <= c';
  adv_step : i' < zlen l -> i < i' /\ c' <= c + 3 * (i' - i) /\
    listing w (take k (drop (Z.to_nat i) l)) <> [];
  adv_end : i' = zlen l -> i + Z.of_nat k = zlen l }.

Lemma filled_advances w size l i c k i' c' :
  0 <= i < zlen l -> pairs_fit size l ->
  (k <= length (drop (Z.to_nat i) l))%nat ->
  filled w (Z.min kReadDirBufSize size) (drop (Z.to_nat i) l) i c 0 0 k i' c' ->
  advances w l i c k i' c'.
Proof.
  intros Hi Hfit Hk Hf. rewrite length_drop in Hk.
  pose proof (listing_length w (take k (drop (Z.to_nat i) l))) as Hn.
  rewrite length_take, length_drop in Hn.
  destruct Hf as [E|E|name x E1 E2].
  - rewrite length_drop in E. split; intros; lia.
  - unfold kReadDirEntriesPerResponse in E. split; try lia. intros _. split; [lia|]. split; [lia|].
    intros H0. rewrite H0 in E. simpl in E. lia.
  - set (es := listing w (take k (drop (Z.to_nat i) l))) in *.
    assert (Hname : name ∈ l.*1).
    { apply list_elem_of_fmap. exists (name, x). split; [done|].
      rewrite lookup_drop in E1. by eapply list_elem_of_lookup_2. }
    assert (Hes : forall y, y ∈ es.*1 -> y ∈ l.*1).
    { intros y Hy. apply listing_names in Hy. apply list_elem_of_fmap in Hy as (z & -> & Hz).
      apply list_elem_of_fmap. exists z. split; [done|].
      apply list_elem_of_lookup_1 in Hz as [j Hz]. apply lookup_take_Some in Hz as [Hz _].
      rewrite lookup_drop in Hz.
      by eapply list_elem_of_lookup_2. }
    pose proof (Hfit name name Hname Hname). pose proof (Hsize name).
    destruct es as [|[n1 s1] [|[n2 s2] es2]] eqn:Ees; simpl in E2, Hn.
    + lia.
    + pose proof (Hfit n1 name ltac:(apply Hes; simpl; set_solver) Hname). lia.
    + pose proof (lookup_lt_Some _ _ _ E1) as Hlt. rewrite length_drop in Hlt.
      split; fold es; rewrite ?Ees; simpl; try lia. intros _.
      split; [lia|]. split; [lia|done].
Qed.

(** What a request sends when the context of its key is at [i] with cookie [c]. *)
Record response (w : world) (key : Z) (l : list (string * Z)) (i c : Z) (k : nat) (i' c' : Z)
    (w' : world) : Prop := {
  resp_moves : advances w l i c k i' c';
  resp_table : Inodes w' = Inodes w;
  resp_sent : replies w' = replies w
    ++ [reply_dirents (with_cookies c (listing w (take k (drop (Z.to_nat i) l))))];
  resp_done : i' = zlen l -> readdirStates w' !! key = None;
  resp_more : i' < zlen l -> readdirStates w' !! key = Some (mkReadDirCtx c' i' l) }.

Lemma listing_frame w w' l : Inodes w' = Inodes w -> listing w' l = listing w l.
Proof.
  intros H. unfold listing, entry_of_child, get_inode. by rewrite H.
Qed.

(** The part of [FuseReadDir] behind [PrepareReaddir]. *)
Lemma readdir_responds e w w1 ino d l size off key i c :
  linked w ino d -> derived d = Directory l ->
  PrepareReaddir ino off e w = Ok (Some key) w1 ->
  Inodes w1 = Inodes w -> replies w1 = replies w ->
  readdirStates w1 !! key = Some (mkReadDirCtx c i l) ->
  can_alloc e (Z.min kReadDirBufSize size) = true -> pairs_fit size l -> 0 <= i < zlen l ->
  exists k i' c' w', FuseReadDir direntry_size ino size off e w = Ok tt w' /\
    response w key l i c k i' c' w'.
Proof.
  intros Hd Hder Hprep Ht Hrep Hctx Ha Hfit Hi.
  assert (Hl : dir_children d = Some l) by (unfold dir_children; by rewrite Hder).
  unfold FuseReadDir. rewrite (with_live_run _ _ _ _ _ Hd), (with_dir_run _ _ _ Hl).
  unfold mbind, M_bind. rewrite Hprep. simpl. rewrite Ha. simpl. rewrite Hctx. simpl.
  destruct (fill_filled w1 (Z.min kReadDirBufSize size) (drop (Z.to_nat i) l) i c 0 0 [])
    as (k & i' & c' & Hk & Hr & Hf); [lia|done| |].
  { intros -> name x Hh. change (drop (Z.to_nat 0) l) with l in Hh.
    assert (name ∈ l.*1) as Hn.
    { destruct l as [|[m y] l']; [done|]. injection Hh as -> ->. simpl. set_solver. }
    pose proof (Hfit name name Hn Hn). pose proof (Hsize name). lia. }
  pose proof (filled_advances w1 size l i c k i' c' Hi Hfit Hk Hf) as Hadv.
  rewrite Hr. simpl. exists k, i', c'. eexists. split; [done|].
  destruct Hadv as [Hin Hco Hst Hen]. rewrite !(listing_frame _ _ _ Ht) in *.
  split; simpl; [by split|done|by rewrite Hrep| |].
  - intros ->. apply map_lookup_filter_None. right. intros ctx. simpl.
    rewrite lookup_insert_eq. intros [= <-]. unfold at_end. simpl. by rewrite Z.eqb_refl.
  - intros Hlt. apply map_lookup_filter_Some. rewrite lookup_insert_eq. split; [done|].
    unfold at_end. simpl. apply Z.eqb_neq. lia.
Qed.

(** ** The whole listing *)

(** Requests until a response has no entry; each goes on from the offset of the last
    entry of the one before. [envs] gives the environment of each. [None] when a
    request does not return or the requests are used up. *)
Fixpoint list_directory (envs : nat -> env) (fuel : nat) (ino size off : Z) (w : world)
  : option (list dirent * world) :=
  match fuel with
  | O => None
  | S n =>
      match FuseReadDir direntry_size ino size off (envs n) w with
      | Crash _ => None
      | Ok _ w' =>
          match list.last (replies w') with
          | Some (reply_dirents es) =>
              match list.last es with
              | None => Some ([], w')
              | Some d =>
                  '(rest, w2) ← list_directory envs n ino size (d_off d) w';
                  Some (es ++ rest, w2)
              end
          | _ => Some ([], w')
          end
      end
  end.

(** A directory entry as [listing] has it. *)
Definition shown (d : dirent) : string * stat := (d_name d, d_stat d).

Lemma shown_cookies c es : shown <$> with_cookies c es = es.
Proof. revert c. induction es as [|[n s] es IH]; intros c; simpl; [done|]. by rewrite IH. Qed.

Lemma last_cookie c es :
  es <> [] -> exists d, list.last (with_cookies c es) = Some d /\ d_off d = c + zlen es.
Proof.
  revert c. induction es as [|[n s] es IH]; intros c Hne; [done|].
  destruct es as [|[n2 s2] es]; [by eexists|].
  destruct (IH (c + 1)) as (d & Hd & Ho); [done|]. exists d. split; [exact Hd|].
  rewrite Ho. simpl. lia.
Qed.

Section sequence.
Context (envs : nat -> env) (ino size key : Z) (d : inode) (l : list (string * Z)).
Context (Hder : derived d = Directory l) (Hfit : pairs_fit size l).
Context (Halloc : forall n, can_alloc (envs n) (Z.min kReadDirBufSize size) = true).
Context (Hkey : 0 <= key < 2 ^ 16).

(** The entries [sent] are those of the directory from index [i] on, some of them
    twice, and the context is dropped. *)
Record completed (w : world) (i : Z) (sent : list dirent) (w' : world) : Prop := {
  comp_table : Inodes w' = Inodes w;
  comp_ctx : readdirStates w' !! key = None;
  comp_all x : x ∈ listing w (drop (Z.to_nat i) l) -> x ∈ shown <$> sent;
  comp_only x : x ∈ shown <$> sent -> x ∈ listing w l }.

(** The cookie [c] has the key of the listing and room for the entries from [i] on. *)
Definition room (i c : Z) : Prop :=
  Z.shiftl key 16 <= c /\ c + 3 * (zlen l - i) < Z.shiftl key 16 + 2 ^ 16.

Lemma off_key c n : Z.shiftl key 16 <= c -> 0 < n -> c + n < Z.shiftl key 16 + 2 ^ 16 ->
  c + n <> 0 /\ cookie_key (c + n) = key.
Proof.
  intros H1 H2 H3. pose proof (proj2 (Z.shiftl_nonneg key 16) ltac:(lia)). split; [lia|].
  replace (c + n) with (Z.shiftl key 16 + (c + n - Z.shiftl key 16)) by lia.
  apply cookie_key_of; lia.
Qed.

Lemma prepare_old w off e :
  off <> 0 -> cookie_key off = key ->
  PrepareReaddir ino off e w
  = Ok (match readdirStates w !! key with Some _ => Some key | None => None end) w.
Proof.
  intros Ho Hk. unfold PrepareReaddir, mbind, M_bind. simpl.
  rewrite (proj2 (Z.eqb_neq off 0)) by done. simpl. rewrite Hk.
  by destruct (readdirStates w !! key).
Qed.

Lemma list_done n w off :
  linked w ino d -> off <> 0 -> cookie_key off = key -> readdirStates w !! key = None ->
  exists w', list_directory envs (S n) ino size off w = Some ([], w') /\
    Inodes w' = Inodes w /\ readdirStates w' !! key = None.
Proof.
  intros Hd Ho Hk Hn. assert (Hl : dir_children d = Some l) by (unfold dir_children; by rewrite Hder).
  eexists. cbn [list_directory]. unfold FuseReadDir.
  rewrite (with_live_run _ _ _ _ _ Hd), (with_dir_run _ _ _ Hl). unfold mbind, M_bind.
  rewrite prepare_old, Hn by done. simpl. rewrite last_snoc. split; [done|]. by split.
Qed.

(** From a context at [i] on, the fuel [n] is enough. *)
Definition finishes (n : nat) : Prop := forall w off i c,
  linked w ino d -> off <> 0 -> cookie_key off = key ->
  readdirStates w !! key = Some (mkReadDirCtx c i l) -> 0 <= i < zlen l -> room i c ->
  zlen l - i < Z.of_nat n ->
  exists sent w', list_directory envs n ino size off w = Some (sent, w') /\ completed w i sent w'.

Lemma passed_listing w i k x :
  x ∈ listing w (take k (drop (Z.to_nat i) l)) -> x ∈ listing w l.
Proof.
  unfold listing. intros H. rewrite <- (take_drop (Z.to_nat i) l), omap_app.
  rewrite <- (take_drop k (drop (Z.to_nat i) l)), omap_app. rewrite !elem_of_app. auto.
Qed.

Lemma remaining_listing w i i' k x :
  0 <= i -> 0 <= i' <= i + Z.of_nat k ->
  x ∈ listing w (drop (Z.to_nat i) l) ->
  x ∈ listing w (take k (drop (Z.to_nat i) l)) \/ x ∈ listing w (drop (Z.to_nat i') l).
Proof.
  intros Hi Hi' H. unfold listing in *.
  rewrite <- (take_drop k (drop (Z.to_nat i) l)), omap_app, elem_of_app in H.
  destruct H as [H|H]; [by left|right]. rewrite drop_drop in H.
  rewrite <- (take_drop (Z.to_nat i + k - Z.to_nat i') (drop (Z.to_nat i') l)), omap_app, elem_of_app.
  right. rewrite drop_drop. by replace (Z.to_nat i' + (Z.to_nat i + k - Z.to_nat i'))%nat
    with (Z.to_nat i + k)%nat by lia.
Qed.

Lemma list_continues n w off i c k i' c' w' :
  finishes n -> linked w ino d -> 0 <= i < zlen l -> room i c -> zlen l - i < Z.of_nat (S n) ->
  FuseReadDir direntry_size ino size off (envs n) w = Ok tt w' ->
  response w key l i c k i' c' w' ->
  exists sent w2, list_directory envs (S n) ino size off w = Some (sent, w2) /\
    completed w i sent w2.
Proof.
  intros IH Hd Hi [Hr1 Hr2] Hn Hrun [[Hin Hco Hst Hen] Ht Hsent Hdone Hmore].
  cbn [list_directory]. rewrite Hrun, Hsent, last_snoc.
  set (es := listing w (take k (drop (Z.to_nat i) l))) in *.
  assert (Hd' : linked w' ino d) by (unfold linked, get_inode; by rewrite Ht).
  assert (Hlen : zlen es <= Z.of_nat k).
  { pose proof (listing_length w (take k (drop (Z.to_nat i) l))) as H.
    rewrite length_take in H. fold es in H. lia. }
  assert (Hshown : forall sent x, x ∈ shown <$> (with_cookies c es ++ sent) <->
    x ∈ es \/ x ∈ shown <$> sent).
  { intros sent x. by rewrite fmap_app, elem_of_app, shown_cookies. }
  assert (Hnext : es <> [] -> exists sent w2,
    list_directory envs n ino size (c + zlen es) w' = Some (sent, w2) /\ completed w' i' sent w2).
  { intros Hne. assert (0 < zlen es) by (destruct es; [done|simpl; lia]).
    destruct (decide (i' < zlen l)) as [Hlt|Hge].
    - destruct (Hst Hlt) as (Hs1 & Hs2 & _).
      destruct (off_key c (zlen es)) as [Ho Hk]; [lia..|].
      destruct (IH w' (c + zlen es) i' c') as (sent & w2 & Hrest & Hc); try done.
      + by apply Hmore.
      + lia.
      + split; lia.
      + lia.
      + by exists sent, w2.
    - assert (i' = zlen l) as Heq by lia. specialize (Hen Heq).
      destruct (off_key c (zlen es)) as [Ho Hk]; [lia..|].
      destruct n as [|n]; [lia|].
      destruct (list_done n w' (c + zlen es)) as (w2 & Hrest & Ht2 & Hctx2); auto.
      exists [], w2. split; [done|]. split; [done|done| |by intros x ?%elem_of_nil].
      intros x. rewrite drop_ge by lia. by intros ?%elem_of_nil. }
  destruct (decide (es = [])) as [He|Hne].
  - rewrite He. simpl. exists [], w'. split; [done|].
    assert (i' = zlen l) as Heq.
    { destruct (decide (i' < zlen l)) as [Hlt|]; [|lia]. by destruct (Hst Hlt) as (_ & _ & ?). }
    specialize (Hen Heq). split; [done|by apply Hdone| |by intros x ?%elem_of_nil].
    intros x Hx. apply (remaining_listing w i i' k) in Hx as [Hx|Hx]; [..|lia|lia].
    + fold es in Hx. by rewrite He in Hx.
    + rewrite drop_ge in Hx by lia. done.
  - destruct (last_cookie c es Hne) as (dd & -> & ->).
    destruct (Hnext Hne) as (sent & w2 & -> & [Hc1 Hc2 Hc3 Hc4]).
    exists (with_cookies c es ++ sent), w2. split; [done|].
    rewrite (listing_frame _ _ l Ht) in Hc4. rewrite (listing_frame _ _ _ Ht) in Hc3.
    split; [congruence|done| |]; intros x; rewrite Hshown.
    + intros Hx. apply (remaining_listing w i i' k) in Hx as [Hx|Hx]; [by left|right|lia|lia].
      by apply Hc3.
    + intros [Hx|Hx]; [by apply (passed_listing w i k)|by apply Hc4].
Qed.

Lemma list_finishes n : finishes n.
Proof.
  induction n as [|n IH]; intros w off i c Hd Ho Hk Hctx Hi Hr Hn; [lia|].
  pose proof (prepare_old w off (envs n) Ho Hk) as Hprep. rewrite Hctx in Hprep.
  destruct (readdir_responds (envs n) w w ino d l size off key i c)
    as (k & i' & c' & w' & Hrun & Hresp); try done.
  by eapply list_continues.
Qed.
End sequence.

Lemma draw_key_range rs states key : draw_key rs states = Some key -> 0 <= key < 2 ^ 16.
Proof.
  induction rs as [|r rs IH]; simpl; [done|]. destruct (states !! _); [done|]. intros [= <-].
  change 65535 with (Z.ones 16). rewrite Z.land_ones by lia. by apply Z.mod_pos_bound.
Qed.

(** C31. A listing ends and is complete: reading a directory from offset 0, each request
    from the offset of the last entry before, reaches a response without entries after
    at most as many requests as the directory has entries, and two; each live entry is
    sent, with the attributes of its inode, and nothing else is; the table is
    unchanged and the context dropped. Any two entries fit the buffer of a response,
    the allocator serves the buffer, a key can be drawn, and the directory has less than
    21845 entries, so that the cookies do not run into the next key. *)
Theorem readdir_sequence_complete envs ino size d l w key :
  linked w ino d -> derived d = Directory l -> l <> [] -> pairs_fit size l ->
  (forall n, can_alloc (envs n) (Z.min kReadDirBufSize size) = true) ->
  draw_key (rands (envs (S (length l)))) (readdirStates w) = Some key ->
  zlen l < 21845 ->
  exists sent w', list_directory envs (S (S (length l))) ino size 0 w = Some (sent, w') /\
    Inodes w' = Inodes w /\ readdirStates w' !! key = None /\
    forall x, x ∈ shown <$> sent <-> x ∈ listing w l.
Proof.
  intros Hd Hder Hne Hfit Ha Hdraw Hlen. pose proof (draw_key_range _ _ _ Hdraw) as Hkey.
  assert (Hl : dir_children d = Some l) by (unfold dir_children; by rewrite Hder).
  assert (0 < zlen l) by (destruct l; [done|simpl; lia]).
  set (n := S (length l)) in *.
  assert (exists w1, PrepareReaddir ino 0 (envs n) w = Ok (Some key) w1 /\
    Inodes w1 = Inodes w /\ replies w1 = replies w /\
    readdirStates w1 !! key = Some (mkReadDirCtx (Z.shiftl key 16) 0 l))
    as (w1 & Hprep & Ht & Hrep & Hctx).
  { unfold PrepareReaddir, mbind, M_bind. simpl. rewrite (deref_run _ _ _ _ (proj1 Hd)), Hl.
    simpl. rewrite Hdraw. simpl. eexists. split; [done|]. split; [done|]. split; [done|].
    apply lookup_insert_eq. }
  destruct (readdir_responds (envs n) w w1 ino d l size 0 key 0 (Z.shiftl key 16))
    as (k & i' & c' & w' & Hrun & Hresp); try done.
  destruct (list_continues envs ino size key d l Hder Hkey n w 0 0 (Z.shiftl key 16) k i' c' w')
    as (sent & w2 & Hrun2 & [Hc1 Hc2 Hc3 Hc4]); try done.
  - by apply list_finishes.
  - split; lia.
  - lia.
  - exists sent, w2. split; [done|]. split; [done|]. split; [done|]. intros x. split; [apply Hc4|].
    apply Hc3.
Qed.

(** Two neighbours that do not fit one response stop a listing: a request that
    starts at the first of them sends it and leaves the context where it was. *)
Lemma readdir_stalls e w ino d pre a x b y post size off key c ix iy :
  linked w ino d -> derived d = Directory (pre ++ (a, x) :: (b, y) :: post) ->
  linked w x ix -> linked w y iy ->
  off <> 0 -> cookie_key off = key ->
  readdirStates w !! key
    = Some (mkReadDirCtx c (zlen pre) (pre ++ (a, x) :: (b, y) :: post)) ->
  can_alloc e (Z.min kReadDirBufSize size) = true ->
  direntry_size a <= Z.min kReadDirBufSize size < direntry_size a + direntry_size b ->
  exists w', FuseReadDir direntry_size ino size off e w = Ok tt w' /\
    replies w' = replies w ++ [reply_dirents [mkDirent a (set_st_ino x (GetAttr ix)) (c + 1)]] /\
    readdirStates w' !! key
    = Some (mkReadDirCtx (c + 2) (zlen pre) (pre ++ (a, x) :: (b, y) :: post)).
Proof.
  intros Hd Hder [Hx Hxl] [Hy Hyl] Ho Hk Hctx Ha Hfit.
  assert (Hl : dir_children d = Some (pre ++ (a, x) :: (b, y) :: post))
    by (unfold dir_children; by rewrite Hder).
  unfold FuseReadDir. rewrite (with_live_run _ _ _ _ _ Hd), (with_dir_run _ _ _ Hl).
  unfold mbind, M_bind. rewrite (prepare_old ino key w off e Ho Hk), Hctx. simpl. rewrite Ha.
  simpl. rewrite Hctx. simpl. rewrite Nat2Z.id, drop_app_length. simpl.
  rewrite Hx, Hxl, (proj2 (Z.ltb_ge _ _)) by lia. rewrite Hy, Hyl, (proj2 (Z.ltb_lt _ _)) by lia.
  rewrite (proj2 (Z.eqb_neq (zlen pre + 1) 0)) by lia. simpl. eexists. split; [done|]. split; [done|].
  apply map_lookup_filter_Some. simpl. rewrite lookup_insert_eq.
  split; [do 2 f_equal; lia|]. unfold at_end. simpl. rewrite length_app. simpl.
  apply Z.eqb_neq. lia.
Qed.
End listing.
