(* ===== verification/Locks.v ===== *)
(** * Threads and locks

    The locks of the program, methods as the locks they take and the shared fields
    they access, and threads that run such programs side by side. A branch of the code
    is a choice, so that a program has every order of events that the code can have.

    The main program serves requests in one thread ([fuse_session_loop]); the locks are
    there for a server with several. *)

From S2P Require Import Prelude.

(** ** Locks and shared fields *)

(** [std::mutex] and [std::shared_mutex] members: three of the file system and the one
    for renames, and those of each inode object. *)
Inductive lock :=
  | crMutex
  | renameMutex
  | childrenRwSem (ino : Z)
  | xattrRwSem (ino : Z)
  | entryRwSem (ino : Z)
  | inodesRwSem
  | deletedInodesMutex
  | stbufMutex.

Inductive mode := Shared | Unique.

(** The fields that methods read and write. [nlookup] is atomic and left out. *)
Inductive field :=
  | f_Inodes
  | f_DeletedInodes
  | f_stbuf
  | f_readdirStates
  | f_state_pool
  | f_children (ino : Z)
  | f_entry (ino : Z)
  | f_xattr (ino : Z)
  | f_buf (ino : Z).

(** How a field is accessed; a destructor destroys the fields of its object. *)
Inductive access := Reads | Writes | Destroys.

#[export] Instance access_eq : EqDecision access.
Proof. solve_decision. Defined.
#[export] Instance lock_eq : EqDecision lock.
Proof. solve_decision. Defined.
#[export] Instance mode_eq : EqDecision mode.
Proof. solve_decision. Defined.
#[export] Instance field_eq : EqDecision field.
Proof. solve_decision. Defined.

(** ** Programs *)

(** [With ls p] is the scope of lock objects that took [ls] together: one lock, or
    several by [std::lock], which waits without holding any of them. [Or] is a
    condition, [Loop] a loop, [Pick] a number that the code reads. *)
Inductive prog :=
  | Skip
  | Access (a : access) (f : field)
  | Seq (p q : prog)
  | Or (p q : prog)
  | Loop (p : prog)
  | Pick (p : Z -> prog)
  | With (ls : list (mode * lock)) (p : prog).

Definition rd (f : field) : prog := Access Reads f.
Definition wr (f : field) : prog := Access Writes f.
Definition destroy (f : field) : prog := Access Destroys f.
Definition block : list prog -> prog := foldr Seq Skip.
(** A condition with an early return. *)
Definition unless_return (p : prog) : prog := Or Skip p.
(** A condition without else. *)
Definition maybe (p : prog) : prog := Or p Skip.
Definition shared (l : lock) (p : prog) : prog := With [(Shared, l)] p.
Definition unique (l : lock) (p : prog) : prog := With [(Unique, l)] p.

(** ** Threads *)

Inductive item := Run (p : prog) | Release (n : nat).

(** The locks held, the last one first, and what is left to do. *)
Record thread := mkThread { held : list (mode * lock); todo : list item }.

Definition start (p : prog) : thread := mkThread [] [Run p].

(** The locks a thread is about to take. *)
Definition wants (t : thread) : list (mode * lock) :=
  match todo t with Run (With ls _) :: _ => ls | _ => [] end.

(** The locks [ls] can be given to the thread [i]: nobody holds one of them (the thread
    itself neither), or only shared ones meet. A shared lock is refused, too,
    where [fair] holds and another thread waits for it alone. *)
Definition granted (fair : bool) (ts : list thread) (i : nat) (ls : list (mode * lock)) : Prop :=
  forall m l, (m, l) ∈ ls ->
    (forall j t m', ts !! j = Some t -> (m', l) ∈ held t -> j <> i /\ m = Shared /\ m' = Shared) /\
    (fair = true -> m = Shared ->
     forall j t, ts !! j = Some t -> wants t = [(Unique, l)] -> j = i).

(** The same, evaluated. *)
Definition meets (i j : nat) (m m' : mode) : bool :=
  negb (j =? i)%nat && bool_decide (m = Shared) && bool_decide (m' = Shared).
Definition grantedb (fair : bool) (ts : list thread) (i : nat) (ls : list (mode * lock)) : bool :=
  forallb (fun '(m, l) => forallb id (imap (fun j t =>
    forallb (fun '(m', l') => negb (bool_decide (l' = l)) || meets i j m m') (held t) &&
    (negb fair || bool_decide (m = Unique) || (j =? i)%nat ||
     negb (bool_decide (wants t = [(Unique, l)])))) ts)) ls.

Inductive tstep (grant : list (mode * lock) -> Prop) : thread -> thread -> Prop :=
  | step_skip h k : tstep grant (mkThread h (Run Skip :: k)) (mkThread h k)
  | step_access h a f k : tstep grant (mkThread h (Run (Access a f) :: k)) (mkThread h k)
  | step_seq h p q k :
      tstep grant (mkThread h (Run (Seq p q) :: k)) (mkThread h (Run p :: Run q :: k))
  | step_left h p q k : tstep grant (mkThread h (Run (Or p q) :: k)) (mkThread h (Run p :: k))
  | step_right h p q k : tstep grant (mkThread h (Run (Or p q) :: k)) (mkThread h (Run q :: k))
  | step_leave h p k : tstep grant (mkThread h (Run (Loop p) :: k)) (mkThread h k)
  | step_again h p k :
      tstep grant (mkThread h (Run (Loop p) :: k)) (mkThread h (Run p :: Run (Loop p) :: k))
  | step_pick h p x k : tstep grant (mkThread h (Run (Pick p) :: k)) (mkThread h (Run (p x) :: k))
  | step_lock h ls p k :
      grant ls ->
      tstep grant (mkThread h (Run (With ls p) :: k))
        (mkThread (ls ++ h) (Run p :: Release (length ls) :: k))
  | step_release h n k : tstep grant (mkThread h (Release n :: k)) (mkThread (drop n h) k).

Inductive pstep (fair : bool) : list thread -> list thread -> Prop :=
  | pool_step ts i t t' :
      ts !! i = Some t -> tstep (granted fair ts i) t t' -> pstep fair ts (<[i := t']> ts).

Definition psteps (fair : bool) : list thread -> list thread -> Prop := rtc (pstep fair).

Lemma forallb_false {A} (f : A -> bool) l :
  forallb f l = false -> exists x, In x l /\ f x = false.
Proof.
  induction l as [|a l IH]; simpl; [done|]. destruct (f a) eqn:E; [|by exists a; auto].
  intros H. destruct (IH H) as (x & Hx & Hf). by exists x; auto.
Qed.

(** A thread that [granted] stops: somebody holds a lock that it wants, or somebody
    else waits for one alone. *)
Lemma not_granted fair ts i ls :
  grantedb fair ts i ls = false ->
  exists m l j t, (m, l) ∈ ls /\ ts !! j = Some t /\
    ((exists m', (m', l) ∈ held t) \/ (m = Shared /\ j <> i /\ wants t = [(Unique, l)])).
Proof.
  unfold grantedb. intros H. apply forallb_false in H as ([m l] & Hin & H). exists m, l.
  apply forallb_false in H as (b & Hb & H). simpl in H. subst b.
  apply list_elem_of_In, list_elem_of_lookup_1 in Hb as [j Hb].
  apply list_lookup_imap_Some in Hb as (t & Ht & Hb). exists j, t.
  split; [by apply list_elem_of_In|]. split; [done|]. symmetry in Hb.
  apply andb_false_iff in Hb as [Hb|Hb].
  - apply forallb_false in Hb as ([m' l'] & Hin' & Hb). left. exists m'.
    apply orb_false_iff in Hb as [Hl _]. apply negb_false_iff, bool_decide_eq_true in Hl. subst l'.
    by apply list_elem_of_In.
  - right. rewrite !orb_false_iff in Hb.
    destruct Hb as [[[_ Hm] Hj] Hw]. apply negb_false_iff, bool_decide_eq_true in Hw.
    apply bool_decide_eq_false in Hm.
    split; [by destruct m|]. split; [|done]. by apply Nat.eqb_neq.
Qed.

Lemma granted_spec fair ts i ls : grantedb fair ts i ls = true -> granted fair ts i ls.
Proof.
  unfold grantedb. intros H m l Hin. rewrite forallb_forall in H.
  specialize (H (m, l) (proj1 (list_elem_of_In _ _) Hin)). simpl in H.
  assert (Ht : forall j t, ts !! j = Some t ->
    forallb (fun '(m', l') => negb (bool_decide (l' = l)) || meets i j m m') (held t) &&
    (negb fair || bool_decide (m = Unique) || (j =? i)%nat ||
     negb (bool_decide (wants t = [(Unique, l)]))) = true).
  { intros j t Hj. rewrite forallb_forall in H. apply H, list_elem_of_In.
    apply (list_elem_of_lookup_2 _ j). by rewrite list_lookup_imap, Hj. }
  split.
  - intros j t m' Hj Hm'. apply Ht, andb_true_iff, proj1 in Hj. rewrite forallb_forall in Hj.
    specialize (Hj (m', l) (proj1 (list_elem_of_In _ _) Hm')). simpl in Hj.
    rewrite bool_decide_true in Hj by done. simpl in Hj. unfold meets in Hj.
    rewrite !andb_true_iff, !bool_decide_eq_true, negb_true_iff, Nat.eqb_neq in Hj. tauto.
  - intros -> -> j t Hj Hw. apply Ht, andb_true_iff, proj2 in Hj.
    rewrite (bool_decide_true (wants t = _)), orb_false_r in Hj by done.
    by apply Nat.eqb_eq.
Qed.

Lemma granted_complete fair ts i ls : granted fair ts i ls -> grantedb fair ts i ls = true.
Proof.
  intros H. apply forallb_forall. intros [m l] Hin%list_elem_of_In.
  destruct (H m l Hin) as [Hheld Hfair]. apply forallb_forall. intros b Hb%list_elem_of_In.
  apply list_elem_of_lookup_1 in Hb as [j Hb]. apply list_lookup_imap_Some in Hb as (t & Ht & ->).
  apply andb_true_iff. split.
  - apply forallb_forall. intros [m' l'] Hin'%list_elem_of_In.
    destruct (decide (l' = l)) as [->|Hne]; [|by rewrite bool_decide_false].
    destruct (Hheld j t m' Ht Hin') as (Hj & -> & ->).
    unfold meets. rewrite (proj2 (Nat.eqb_neq j i) Hj). by rewrite bool_decide_true.
  - destruct fair, m; try done. simpl. destruct (decide (wants t = [(Unique, l)])) as [Hw|Hw].
    + by rewrite (Hfair eq_refl eq_refl j t Ht Hw), Nat.eqb_refl.
    + by rewrite (bool_decide_false (wants t = _)), orb_true_r.
Qed.

(** ** Discipline *)

(** The order in which locks are taken. *)
Definition rank (l : lock) : Z :=
  match l with
  | crMutex => 0
  | renameMutex => 1
  | childrenRwSem _ => 2
  | xattrRwSem _ => 3
  | entryRwSem _ => 4
  | inodesRwSem => 5
  | deletedInodesMutex => 6
  | stbufMutex => 7
  end.

(** Locks are taken in that order, or it is one more directory lock, shared, in a rename
    that has the mutex of renames. *)
Definition in_order (h ls : list (mode * lock)) : Prop :=
  forall m l m' l', (m, l) ∈ ls -> (m', l') ∈ h -> rank l' < rank l.
Definition inner_directory (h ls : list (mode * lock)) : Prop :=
  exists x, ls = [(Shared, childrenRwSem x)] /\ childrenRwSem x ∉ h.*2 /\
    (Unique, renameMutex) ∈ h /\ forall m' l', (m', l') ∈ h -> rank l' <= rank (childrenRwSem x).
Definition may_lock (h ls : list (mode * lock)) : Prop :=
  NoDup ls.*2 /\ (in_order h ls \/ inner_directory h ls).

Section discipline.
Context (ok : list (mode * lock) -> access -> field -> Prop).

(** Every run of the program from the locks [h] keeps the order and accesses fields as
    [ok] allows. *)
Fixpoint disciplined (h : list (mode * lock)) (p : prog) : Prop :=
  match p with
  | Skip => True
  | Access a f => ok h a f
  | Seq p q | Or p q => disciplined h p /\ disciplined h q
  | Loop p => disciplined h p
  | Pick p => forall x, disciplined h (p x)
  | With ls p => may_lock h ls /\ disciplined (ls ++ h) p
  end.

Fixpoint disciplined_todo (h : list (mode * lock)) (k : list item) : Prop :=
  match k with
  | [] => h = []
  | Run p :: k => disciplined h p /\ disciplined_todo h k
  | Release n :: k => (n <= length h)%nat /\ disciplined_todo (drop n h) k
  end.

Definition thread_ok (t : thread) : Prop := disciplined_todo (held t) (todo t).

(** Two threads hold one lock only shared. *)
Definition compatible (ts : list thread) : Prop :=
  forall i j t u m m' l, i <> j -> ts !! i = Some t -> ts !! j = Some u ->
    (m, l) ∈ held t -> (m', l) ∈ held u -> m = Shared /\ m' = Shared.

Definition pool_ok (ts : list thread) : Prop := Forall thread_ok ts /\ compatible ts.

Lemma start_ok p : disciplined [] p -> thread_ok (start p).
Proof. by intros H. Qed.

Lemma pool_start ps : Forall (disciplined []) ps -> pool_ok (start <$> ps).
Proof.
  intros H. split.
  - apply Forall_fmap. eapply Forall_impl; [|exact H]. intros p. apply start_ok.
  - intros i j t u m m' l _ Ht _ Hm _. apply list_lookup_fmap_Some in Ht as (p & -> & _).
    by apply elem_of_nil in Hm.
Qed.

Lemma thread_ok_step grant t t' : tstep grant t t' -> thread_ok t -> thread_ok t'.
Proof.
  unfold thread_ok. intros H. destruct H; simpl in *; try tauto.
  - intros [H Hk]. split; [apply H|done].
  - intros [[_ H1] H2]. rewrite length_app. split; [done|]. split; [lia|].
    by rewrite drop_app_length.
Qed.

Lemma held_step grant t t' m l :
  tstep grant t t' -> (m, l) ∈ held t' ->
  (m, l) ∈ held t \/ exists ls, grant ls /\ (m, l) ∈ ls.
Proof.
  intros H. destruct H; simpl; auto.
  - rewrite elem_of_app. intros [?|?]; eauto.
  - intros Hin. left. apply list_elem_of_lookup_1 in Hin as [x Hin].
    rewrite lookup_drop in Hin. by eapply list_elem_of_lookup_2.
Qed.

Lemma compatible_step fair ts ts' : pstep fair ts ts' -> compatible ts -> compatible ts'.
Proof.
  intros [ts0 i t t' Hi Ht] Hc.
  (* the thread that moved against another one *)
  assert (Hmoved : forall j u m m' l, i <> j -> ts0 !! j = Some u ->
    (m, l) ∈ held t' -> (m', l) ∈ held u -> m = Shared /\ m' = Shared).
  { intros j u m m' l Hne Hu Hm Hm'.
    destruct (held_step _ _ _ _ _ Ht Hm) as [Hold|(ls & Hg & Hin)].
    - by eapply (Hc i j).
    - destruct (proj1 (Hg m l Hin) j u m' Hu Hm') as (_ & -> & ->). done. }
  intros a b ta tb m m' l Hne Ha Hb Hm Hm'.
  apply list_lookup_insert_Some in Ha as [(<- & <- & _)|[Hia Ha]];
    apply list_lookup_insert_Some in Hb as [(<- & <- & _)|[Hib Hb]].
  - done.
  - by eapply Hmoved.
  - destruct (Hmoved a ta m' m l) as [-> ->]; done.
  - by eapply (Hc a b).
Qed.

Lemma pool_ok_step fair ts ts' : pstep fair ts ts' -> pool_ok ts -> pool_ok ts'.
Proof.
  intros Hs [Hf Hc]. split; [|by eapply compatible_step].
  destruct Hs as [ts i t t' Hi Ht]. apply Forall_insert; [done|].
  eapply thread_ok_step; [done|]. by eapply Forall_lookup_1.
Qed.

Lemma pool_ok_steps fair ts ts' : psteps fair ts ts' -> pool_ok ts -> pool_ok ts'.
Proof. induction 1 as [|ts1 ts2 ts3 H _ IH]; [done|]. intros H1. by eapply IH, pool_ok_step. Qed.
End discipline.

(** ** Progress *)

(** The thread can go on. *)
Definition runnable (fair : bool) (ts : list thread) (i : nat) (t : thread) : bool :=
  match todo t with
  | [] => false
  | Run (With ls _) :: _ => grantedb fair ts i ls
  | _ => true
  end.

(** The steps to the end of a program that leaves its loops at once. *)
Fixpoint quick (p : prog) : nat :=
  match p with
  | Skip | Access _ _ | Loop _ => 1
  | Seq p q => 1 + quick p + quick q
  | Or p _ => 1 + quick p
  | Pick p => 1 + quick (p 0)
  | With _ p => 2 + quick p
  end.
Definition quick_item (x : item) : nat := match x with Run p => quick p | Release _ => 1 end.
Definition quick_thread (t : thread) : nat := sum_list (quick_item <$> todo t).
Definition quick_pool (ts : list thread) : nat := sum_list (quick_thread <$> ts).

Lemma quick_pool_insert ts i t t' :
  ts !! i = Some t -> (quick_thread t' < quick_thread t)%nat ->
  (quick_pool (<[i := t']> ts) < quick_pool ts)%nat.
Proof.
  unfold quick_pool. revert i. induction ts as [|u ts IH]; intros [|i] Hi Hq; simplify_eq/=; [lia|].
  specialize (IH i Hi Hq). lia.
Qed.

Lemma runnable_step fair ts i t :
  ts !! i = Some t -> runnable fair ts i t = true ->
  exists ts', pstep fair ts ts' /\ (quick_pool ts' < quick_pool ts)%nat.
Proof.
  intros Hi Hr.
  assert (exists t', tstep (granted fair ts i) t t' /\ (quick_thread t' < quick_thread t)%nat)
    as (t' & Ht & Hq).
  { destruct t as [h [|[p|n] k]]; [done| |eexists; split; [apply step_release|cbn; lia]].
    destruct p as [|w f|p q|p q|p|p|ls p]; eexists; split;
      lazymatch goal with
      | |- tstep _ _ _ =>
          first [apply step_skip | apply step_access | apply step_seq | apply step_left
                | apply step_leave | apply (step_pick _ _ _ 0) | by apply step_lock, granted_spec]
      | |- _ => unfold quick_thread; cbn; lia
      end. }
  eexists. split; [by econstructor|]. by eapply quick_pool_insert.
Qed.

Lemma step_runnable fair ts i t t' : tstep (granted fair ts i) t t' -> runnable fair ts i t = true.
Proof. intros H. destruct H; try done. by apply granted_complete. Qed.

(** Nobody can go on, and somebody has not ended. *)
Definition ended (t : thread) : bool := match todo t with [] => true | _ :: _ => false end.
Definition deadlocked (fair : bool) (ts : list thread) : bool :=
  forallb negb (imap (runnable fair ts) ts) && negb (forallb ended ts).

Lemma deadlocked_spec fair ts :
  deadlocked fair ts = true ->
  (forall ts', ~ pstep fair ts ts') /\ ~ Forall (fun t => todo t = []) ts.
Proof.
  intros [Hr He]%andb_true_iff. split.
  - intros ts' Hs. inversion_clear Hs as [? i t t' Hi Ht]. apply step_runnable in Ht. rewrite forallb_forall in Hr.
    specialize (Hr true). simpl in Hr. assert (false = true); [|done]. apply Hr, list_elem_of_In.
    apply (list_elem_of_lookup_2 _ i). by rewrite list_lookup_imap, Hi, <- Ht.
  - intros Hf. apply negb_true_iff, forallb_false in He as (t & Hin & He).
    rewrite Forall_forall in Hf. unfold ended in He.
    by rewrite (Hf t Hin) in He.
Qed.

Lemma runnable_or_not fair ts :
  (exists i t, ts !! i = Some t /\ runnable fair ts i t = true) \/
  (forall i t, ts !! i = Some t -> runnable fair ts i t = false).
Proof.
  destruct (existsb id (imap (runnable fair ts) ts)) eqn:E; [left|right].
  - apply existsb_exists in E as (b & Hb & E). unfold id in E. subst b.
    apply list_elem_of_In, list_elem_of_lookup_1 in Hb as [i Hb].
    apply list_lookup_imap_Some in Hb as (t & Ht & Hb). eauto.
  - intros i t Hi. destruct (runnable fair ts i t) eqn:Er; [|done].
    assert (existsb id (imap (runnable fair ts) ts) = true); [|congruence].
    apply existsb_exists. exists true. split; [|done]. apply list_elem_of_In.
    apply (list_elem_of_lookup_2 _ i). by rewrite list_lookup_imap, Hi, <- Er.
Qed.

Section blocked.
Context (ok : list (mode * lock) -> access -> field -> Prop).
Context (fair : bool) (ts : list thread).
Context (Hok : pool_ok ok ts).
Context (Hblocked : forall i t, ts !! i = Some t -> runnable fair ts i t = false).

(** Every thread has ended or waits. *)
Lemma ended_or_waits i t :
  ts !! i = Some t ->
  todo t = [] /\ held t = [] \/
  wants t <> [] /\ may_lock (held t) (wants t) /\ grantedb fair ts i (wants t) = false.
Proof.
  intros Hi. destruct Hok as [Hf _]. rewrite Forall_lookup in Hf. specialize (Hf i t Hi).
  specialize (Hblocked i t Hi). destruct t as [h [|[p|n] k]]; [by left| |done].
  right. destruct p as [| | | | | |ls p]; try done. unfold wants. simpl in *.
  split; [by intros ->|]. split; [apply Hf|done].
Qed.

(** The thread [i] wants the lock, and another one has it. *)
Definition stuck_at (i : nat) (l : lock) : Prop :=
  exists t j u, ts !! i = Some t /\ ts !! j = Some u /\ j <> i /\
    l ∈ (wants t).*2 /\ l ∈ (held u).*2.

Lemma may_lock_new h ls m l : may_lock h ls -> (m, l) ∈ ls -> l ∉ h.*2.
Proof.
  intros [_ [Ho|(x & -> & Hx & _)]] Hin Hh.
  - apply list_elem_of_fmap in Hh as ([m' l'] & -> & Hh). specialize (Ho _ _ _ _ Hin Hh).
    simpl in Ho. lia.
  - apply list_elem_of_singleton in Hin as [= _ ->]. done.
Qed.

Lemma waiting_stuck i t : ts !! i = Some t -> wants t <> [] -> exists l, stuck_at i l.
Proof.
  intros Hi Hw. destruct (ended_or_waits i t Hi) as [[Ht _]|(_ & Hm & Hg)];
    [unfold wants in Hw; by rewrite Ht in Hw|].
  destruct (not_granted _ _ _ _ Hg) as (m & l & j & u & Hin & Hj & H).
  pose proof (may_lock_new _ _ _ _ Hm Hin) as Hnew.
  assert (Hl : l ∈ (wants t).*2) by (apply list_elem_of_fmap; by exists (m, l)).
  assert (Hself : forall j u m', ts !! j = Some u -> (m', l) ∈ held u -> j <> i).
  { intros j' u' m' Hj' Hm' ->. assert (u' = t) as -> by congruence. apply Hnew.
    apply list_elem_of_fmap. by exists (m', l). }
  destruct H as [[m' Hm']|(_ & _ & Hu)].
  - exists l, t, j, u. split_and!; try done; [by eapply Hself|].
    apply list_elem_of_fmap. by exists (m', l).
  - destruct (ended_or_waits j u Hj) as [[Ht _]|(_ & _ & Hgu)];
      [unfold wants in Hu; by rewrite Ht in Hu|].
    destruct (not_granted _ _ _ _ Hgu) as (m2 & l2 & j2 & u2 & Hin2 & Hj2 & H2).
    rewrite Hu in Hin2. apply list_elem_of_singleton in Hin2 as [= -> ->].
    destruct H2 as [[m' Hm']|[? _]]; [|done].
    exists l, t, j2, u2. split_and!; try done; [by eapply Hself|].
    apply list_elem_of_fmap. by exists (m', l).
Qed.

(** What the thread waits for that has the lock another one is stuck at. *)
Lemma stuck_holder i l :
  stuck_at i l ->
  exists j u l', ts !! j = Some u /\ j <> i /\ l ∈ (held u).*2 /\ stuck_at j l' /\
    l' ∈ (wants u).*2 /\ may_lock (held u) (wants u).
Proof.
  intros (t & j & u & _ & Hj & Hne & _ & Hl).
  destruct (ended_or_waits j u Hj) as [[_ Hh]|(Hw & Hm & _)]; [by rewrite Hh in Hl; apply elem_of_nil in Hl|].
  destruct (waiting_stuck j u Hj Hw) as [l' Hs]. exists j, u, l'. split_and!; try done.
  destruct Hs as (u' & ? & ? & Hj' & _ & _ & Hl' & _). assert (u' = u) as -> by congruence. done.
Qed.

(** That lock is of a higher rank, or the thread is an inner step of a rename. *)
Lemma stuck_climbs i l :
  stuck_at i l ->
  exists j u l', ts !! j = Some u /\ j <> i /\ stuck_at j l' /\
    (rank l < rank l' \/
     rank l <= 2 /\ rank l' = 2 /\ (Unique, renameMutex) ∈ held u).
Proof.
  intros Hs. destruct (stuck_holder i l Hs) as (j & u & l' & Hj & Hne & Hl & Hs' & Hl' & Hm).
  exists j, u, l'. split_and!; try done.
  apply list_elem_of_fmap in Hl as ([m l0] & -> & Hl). apply list_elem_of_fmap in Hl' as ([m' l1] & -> & Hl').
  destruct Hm as [_ [Ho|(x & Hx & _ & Hr & Hle)]].
  - left. by eapply Ho.
  - right. rewrite Hx in Hl'. apply list_elem_of_singleton in Hl' as [= _ ->].
    split_and!; [by apply (Hle m)|done|done].
Qed.

Lemma rank_bounds l : 0 <= rank l <= 7.
Proof. destruct l; simpl; lia. Qed.

Lemma not_stuck_high n i l : 3 <= rank l -> 8 - Z.of_nat n <= rank l -> ~ stuck_at i l.
Proof.
  revert i l. induction n as [|n IH]; intros i l H3 Hn Hs; [pose proof (rank_bounds l); lia|].
  destruct (stuck_climbs i l Hs) as (j & u & l' & _ & _ & Hs' & [Hr|[Hr _]]); [|lia].
  apply (IH j l'); [lia|lia|done].
Qed.

Lemma not_stuck_directory i l : rank l = 2 -> ~ stuck_at i l.
Proof.
  intros Hr Hs. destruct (stuck_climbs i l Hs) as (j & u & l' & Hj & _ & Hs' & [Hr'|(_ & Hr' & Hu)]).
  { apply (not_stuck_high 8 j l'); [lia|lia|done]. }
  destruct (stuck_climbs j l' Hs') as (j2 & u2 & l2 & Hj2 & Hne & Hs2 & [Hr2|(_ & _ & Hu2)]).
  { apply (not_stuck_high 8 j2 l2); [lia|lia|done]. }
  destruct (proj2 Hok j2 j u2 u Unique Unique renameMutex) as [? _]; try done.
Qed.

Lemma not_stuck n i l : 2 - Z.of_nat n <= rank l -> ~ stuck_at i l.
Proof.
  revert i l. induction n as [|n IH]; intros i l Hn Hs.
  - destruct (decide (rank l = 2)); [by apply (not_stuck_directory i l)|].
    apply (not_stuck_high 8 i l); [lia|lia|done].
  - destruct (stuck_climbs i l Hs) as (j & u & l' & _ & _ & Hs' & [Hr|(_ & Hr & _)]);
      apply (IH j l'); (lia || done).
Qed.
End blocked.

(** Threads that keep the discipline do not wait for each other in a circle. *)
Lemma progress ok fair ts :
  pool_ok ok ts ->
  Forall (fun t => todo t = []) ts \/
  exists ts', pstep fair ts ts' /\ (quick_pool ts' < quick_pool ts)%nat.
Proof.
  intros Hok. destruct (runnable_or_not fair ts) as [(i & t & Hi & Hr)|Hb].
  - right. by eapply runnable_step.
  - left. apply Forall_lookup. intros i t Hi.
    destruct (ended_or_waits ok fair ts Hok Hb i t Hi) as [[Ht _]|(Hw & _ & _)]; [done|].
    destruct (waiting_stuck ok fair ts Hok Hb i t Hi Hw) as [l Hs].
    destruct (not_stuck ok fair ts Hok Hb 2 i l); [|done]. pose proof (rank_bounds l). lia.
Qed.

(** All of them can still end, wherever they are. *)
Lemma can_finish ok fair ts :
  pool_ok ok ts -> exists ts', psteps fair ts ts' /\ Forall (fun t => todo t = []) ts'.
Proof.
  induction ts as [ts IH] using (induction_ltof1 _ quick_pool). intros Hok.
  destruct (progress ok fair ts Hok) as [Hdone|(ts1 & Hs & Hq)]; [exists ts; by split; [apply rtc_refl|]|].
  destruct (IH ts1 Hq) as (ts2 & Hs2 & Hd); [by eapply pool_ok_step|].
  exists ts2. split; [by eapply rtc_l|done].
Qed.

(** ** Races *)

(** The thread is about to access the field. *)
Definition accesses (t : thread) (a : access) (f : field) : Prop :=
  exists k, todo t = Run (Access a f) :: k.

(** Two accesses by two threads are a data race unless both read. *)
Definition conflicting (a a' : access) : bool :=
  match a, a' with Reads, Reads => false | _, _ => true end.

(** Two threads are about to access one field, and not both to read it. *)
Definition race (ts : list thread) (f : field) : Prop :=
  exists i j t u a a', i <> j /\ ts !! i = Some t /\ ts !! j = Some u /\
    accesses t a f /\ accesses u a' f /\ conflicting a a' = true.

(** The lock that belongs to a field, where it has one. *)
Definition guard (f : field) : option lock :=
  match f with
  | f_Inodes => Some inodesRwSem
  | f_stbuf => Some stbufMutex
  | f_children ino => Some (childrenRwSem ino)
  | f_state_pool => Some crMutex
  | _ => None
  end.

(** The fields of an inode object, which go with it. *)
Definition of_object (f : field) : bool :=
  match f with f_children _ | f_entry _ | f_xattr _ | f_buf _ => true | _ => false end.

Definition covers (h : list (mode * lock)) (a : access) (f : field) (g : lock) : Prop :=
  (Unique, crMutex) ∈ h \/
  match a with
  | Reads => exists m, (m, g) ∈ h
  | Writes => (Unique, g) ∈ h
  | Destroys => of_object f = true
  end.

(** Fields are accessed under [crMutex], unique or together with their lock; a destructor
    takes no other lock. *)
Definition guarded (h : list (mode * lock)) (a : access) (f : field) : Prop :=
  (exists m, (m, crMutex) ∈ h) /\ match guard f with Some g => covers h a f g | None => True end.

Lemma access_ok ok ts i t a f :
  pool_ok ok ts -> ts !! i = Some t -> accesses t a f -> ok (held t) a f.
Proof.
  intros [Hf _] Hi [k Hk]. rewrite Forall_lookup in Hf. specialize (Hf i t Hi).
  unfold thread_ok in Hf. rewrite Hk in Hf. apply Hf.
Qed.

Lemma unique_alone ts i j t u m l :
  compatible ts -> i <> j -> ts !! i = Some t -> ts !! j = Some u ->
  (Unique, l) ∈ held t -> (m, l) ∈ held u -> False.
Proof. intros Hc Hne Hi Hj Ht Hu. by destruct (Hc i j t u Unique m l) as [? _]. Qed.

(** Two threads at a field that has a lock: both read, or one of them destroys it. *)
Lemma no_race ts f i j t u a a' :
  pool_ok guarded ts -> is_Some (guard f) -> i <> j -> ts !! i = Some t -> ts !! j = Some u ->
  accesses t a f -> accesses u a' f -> conflicting a a' = true ->
  of_object f = true /\ (a = Destroys \/ a' = Destroys).
Proof.
  intros Hok [g Hg] Hne Hi Hj Ht Hu Hw.
  pose proof (access_ok _ _ _ _ _ _ Hok Hi Ht) as [[m Hm] Hgt].
  pose proof (access_ok _ _ _ _ _ _ Hok Hj Hu) as [[m' Hm'] Hgu].
  rewrite Hg in Hgt, Hgu. destruct Hok as [_ Hc].
  destruct Hgt as [Hgt|Hgt]; [by destruct (unique_alone ts i j t u m' crMutex)|].
  destruct Hgu as [Hgu|Hgu]; [by destruct (unique_alone ts j i u t m crMutex)|].
  destruct a, a'; try done; try (by split; [|auto]); exfalso.
  - destruct Hgt as [m2 Hm2]. by apply (unique_alone ts j i u t m2 g).
  - destruct Hgu as [m2 Hm2]. by apply (unique_alone ts i j t u m2 g).
  - by apply (unique_alone ts i j t u Unique g).
Qed.

Lemma unique_cr_alone ts i j t u a f :
  pool_ok guarded ts -> i <> j -> ts !! i = Some t -> ts !! j = Some u ->
  (Unique, crMutex) ∈ held t -> ~ accesses u a f.
Proof.
  intros Hok Hne Hi Hj Ht Hu. destruct (access_ok _ _ _ _ _ _ Hok Hj Hu) as [[m Hm] _].
  by apply (unique_alone ts i j t u m crMutex); [apply Hok|..].
Qed.

(** ** Schedules *)

(** A thread and what it chooses at its next step, to run threads in a given order. *)
Inductive choice := go | left_ | right_ | pick (x : Z).

Definition run_thread (grant : list (mode * lock) -> bool) (c : choice) (t : thread)
  : option thread :=
  let 'mkThread h k := t in
  match k with
  | [] => None
  | Release n :: k => Some (mkThread (drop n h) k)
  | Run p :: k =>
      match p, c with
      | Skip, _ | Access _ _, _ => Some (mkThread h k)
      | Seq p q, _ => Some (mkThread h (Run p :: Run q :: k))
      | Or p _, left_ => Some (mkThread h (Run p :: k))
      | Or _ q, right_ => Some (mkThread h (Run q :: k))
      | Loop p, left_ => Some (mkThread h (Run p :: Run (Loop p) :: k))
      | Loop p, right_ => Some (mkThread h k)
      | Pick p, pick x => Some (mkThread h (Run (p x) :: k))
      | With ls p, _ =>
          if grant ls then Some (mkThread (ls ++ h) (Run p :: Release (length ls) :: k)) else None
      | _, _ => None
      end
  end.

Fixpoint schedule (s : list (nat * choice)) (ts : list thread) : option (list thread) :=
  match s with
  | [] => Some ts
  | (i, c) :: s =>
      t ← ts !! i; t' ← run_thread (grantedb false ts i) c t; schedule s (<[i := t']> ts)
  end.

Lemma run_thread_step ts i c t t' :
  run_thread (grantedb false ts i) c t = Some t' -> tstep (granted false ts i) t t'.
Proof.
  destruct t as [h [|[p|n] k]]; simpl; [done| |intros [= <-]; apply step_release].
  destruct p as [| | | | | |ls p], c; try done; try (intros [= <-]; by constructor).
  all: destruct (grantedb false ts i ls) eqn:E; [|done]; intros [= <-]; constructor;
    by apply granted_spec.
Qed.

Lemma schedule_steps s ts ts' : schedule s ts = Some ts' -> psteps false ts ts'.
Proof.
  revert ts. induction s as [|[i c] s IH]; intros ts H; simpl in H.
  - injection H as ->. apply rtc_refl.
  - destruct (ts !! i) as [t|] eqn:Hi; [|done]. simpl in H.
    destruct (run_thread _ c t) as [t'|] eqn:Ht; [|done]. simpl in H.
    eapply rtc_l; [econstructor; [done|by eapply run_thread_step]|]. by apply IH.
Qed.
