(* ===== verification/LockOps.v ===== *)
(** * The locks that the code takes

    Each method and handler as the locks it takes and the fields it accesses, in the
    order of the code. The names are those of the functions with [_locks] behind. A number
    names an object: an inode of the table, or a copy in the pool. *)

From S2P Require Import Prelude World Requests CkptRestore Locks.

Create HintDb locks.

(** ** [fuse_cpp_ramfs.hpp]: the table and the counters *)

Definition DeleteInode_locks : prog :=
  With [(Unique, inodesRwSem); (Unique, deletedInodesMutex)]
    (block [wr f_Inodes; wr f_DeletedInodes]).
Definition AddInode_locks : prog := unique inodesRwSem (wr f_Inodes).
Definition UpdateInode_locks : prog := unique inodesRwSem (wr f_Inodes).
Definition PopOneDeletedInode_locks : prog := unique deletedInodesMutex (wr f_DeletedInodes).
Definition UpdateUsedBlocks_locks : prog := unique stbufMutex (wr f_stbuf).
Definition UpdateUsedInodes_locks : prog := unique stbufMutex (wr f_stbuf).
Definition FsStat_locks : prog := shared stbufMutex (rd f_stbuf).
Definition GetInode_locks : prog := shared inodesRwSem (rd f_Inodes).
Definition GetFreeInodes_locks : prog := shared stbufMutex (rd f_stbuf).

(** ** [inode.hpp], [inode.cpp] *)

Definition IncrementLinkCount_locks (p : Z) : prog := unique (entryRwSem p) (wr (f_entry p)).
Definition DecrementLinkCount_locks (p : Z) : prog := unique (entryRwSem p) (wr (f_entry p)).
Definition NumLinks_locks (p : Z) : prog := shared (entryRwSem p) (rd (f_entry p)).
Definition HasNoLinks_locks (p : Z) : prog := shared (entryRwSem p) (rd (f_entry p)).
Definition UsedBlocks_locks (p : Z) : prog := shared (entryRwSem p) (rd (f_entry p)).
Definition Size_locks (p : Z) : prog := shared (entryRwSem p) (rd (f_entry p)).
Definition GetAttr_locks (p : Z) : prog := shared (entryRwSem p) (rd (f_entry p)).
Definition GetMode_locks (p : Z) : prog := shared (entryRwSem p) (rd (f_entry p)).
Definition GetIno_locks (p : Z) : prog := rd (f_entry p).
(** [delete]: the destructors of the class, with the buffer of a file or the entries of a
    directory, and of [Inode], with the extended attributes. They take no lock. *)
Definition delete_locks (p : Z) : prog :=
  block [Or (destroy (f_buf p)) (Or (destroy (f_children p)) Skip);
    destroy (f_xattr p); destroy (f_entry p)].

Definition ReplyEntry_locks (p : Z) : prog := shared (entryRwSem p) (rd (f_entry p)).
Definition ReplyCreate_locks (p : Z) : prog := shared (entryRwSem p) (rd (f_entry p)).
Definition ReplyAttr_locks (p : Z) : prog := shared (entryRwSem p) (rd (f_entry p)).
Definition ReplySetAttr_locks (p : Z) : prog :=
  unique (entryRwSem p) (block [wr (f_entry p); rd (f_entry p)]).
Definition SetXAttrAndReply_locks (p : Z) : prog :=
  unique (xattrRwSem p) (block [rd (f_xattr p); unless_return (wr (f_xattr p))]).
Definition GetXAttrAndReply_locks (p : Z) : prog := shared (xattrRwSem p) (rd (f_xattr p)).
Definition ListXAttrAndReply_locks (p : Z) : prog := shared (xattrRwSem p) (rd (f_xattr p)).
Definition RemoveXAttrAndReply_locks (p : Z) : prog :=
  unique (entryRwSem p) (block [rd (f_xattr p); unless_return (wr (f_xattr p))]).
Definition ReplyAccess_locks (p : Z) : prog :=
  unless_return (shared (entryRwSem p) (rd (f_entry p))).
Definition Inode_Initialize_locks (p : Z) : prog := wr (f_entry p).

(** The object is optional, as the pointer is. *)
Definition CheckHasSpaceFor_locks (o : option Z) : prog :=
  unless_return (block [
    match o with Some p => block [UsedBlocks_locks p; Size_locks p] | None => Skip end;
    unless_return (shared stbufMutex (rd f_stbuf))]).

(** ** [file.cpp] *)

Definition FileTruncate_locks (p : Z) : prog :=
  block [UsedBlocks_locks p; Size_locks p; CheckHasSpaceFor_locks (Some p);
    unless_return (block [
      (* realloc, and a return when it fails *)
      maybe (rd (f_buf p));
      unless_return (block [
        maybe (wr (f_buf p));
        maybe (wr (f_buf p));
        UpdateUsedBlocks_locks;
        unique (entryRwSem p) (wr (f_entry p))])])].

Definition File_WriteAndReply_locks (p : Z) : prog :=
  let rest := block [
    maybe (wr (f_buf p));
    wr (f_buf p);
    maybe (block [rd (f_entry p); UpdateUsedBlocks_locks]);
    unique (entryRwSem p) (wr (f_entry p))] in
  block [Size_locks p; UsedBlocks_locks p;
    Or rest
       (block [Size_locks p; CheckHasSpaceFor_locks (Some p);
          unless_return (block [rd (f_buf p); unless_return (block [wr (f_buf p); rest])])])].

Definition File_ReadAndReply_locks (p : Z) : prog :=
  block [rd (f_entry p);
    Or (rd (f_buf p))
       (unique (entryRwSem p) (block [wr (f_entry p); rd (f_entry p); rd (f_buf p)]))].

(** The virtual methods: directories, links and special inodes only reply an error. *)
Definition WriteAndReply_locks (p : Z) : prog := Or (File_WriteAndReply_locks p) Skip.
Definition ReadAndReply_locks (p : Z) : prog := Or (File_ReadAndReply_locks p) Skip.

(** ** [directory.cpp], [symlink.cpp] *)

Definition UpdateSize_locks (p : Z) : prog :=
  unique (entryRwSem p) (block [rd (f_entry p); wr (f_entry p); maybe UpdateUsedBlocks_locks]).
Definition Directory_Initialize_locks (p : Z) : prog :=
  block [Inode_Initialize_locks p; UpdateSize_locks p].
Definition SymLink_Initialize_locks (p : Z) : prog :=
  block [Inode_Initialize_locks p; wr (f_entry p)].
Definition Initialize_locks (p : Z) : prog :=
  Or (Inode_Initialize_locks p) (Or (Directory_Initialize_locks p) (SymLink_Initialize_locks p)).

(** The methods with an underscore are called with the lock of the directory held. *)
Definition _ChildInodeNumberWithName_locks (p : Z) : prog := rd (f_children p).
Definition ChildInodeNumberWithName_locks (p : Z) : prog :=
  shared (childrenRwSem p) (_ChildInodeNumberWithName_locks p).
Definition _AddChild_locks (p : Z) : prog :=
  block [rd (f_children p); unless_return (block [CheckHasSpaceFor_locks (Some p);
    unless_return (block [wr (f_children p); UpdateSize_locks p])])].
Definition AddChild_locks (p : Z) : prog := unique (childrenRwSem p) (_AddChild_locks p).
Definition _UpdateChild_locks (p : Z) : prog :=
  block [rd (f_children p); unless_return (block [wr (f_children p); wr (f_entry p)])].
Definition UpdateChild_locks (p : Z) : prog := unique (childrenRwSem p) (_UpdateChild_locks p).
Definition _RemoveChild_locks (p : Z) : prog :=
  block [rd (f_children p);
    unless_return (block [wr (f_children p); UpdateSize_locks p; wr (f_entry p)])].
Definition RemoveChild_locks (p : Z) : prog := unique (childrenRwSem p) (_RemoveChild_locks p).

Definition PrepareReaddir_locks (p : Z) : prog :=
  Or (rd f_readdirStates)
     (block [shared (childrenRwSem p) (rd (f_children p)); Loop (rd f_readdirStates);
        wr f_readdirStates]).
Definition RecycleStates_locks : prog :=
  Loop (block [rd f_readdirStates; maybe (wr f_readdirStates)]).
Definition IsEmpty_locks (p : Z) : prog :=
  shared (childrenRwSem p) (Loop (block [rd (f_children p);
    unless_return (Pick (fun c => block [GetInode_locks; maybe (HasNoLinks_locks c)]))])).

(** ** Creation of nodes *)

Definition RegisterInode_locks (ino : Z) : prog :=
  block [rd f_DeletedInodes;
    Or AddInode_locks (block [PopOneDeletedInode_locks; UpdateInode_locks]);
    UpdateUsedInodes_locks; Initialize_locks ino; UsedBlocks_locks ino; UpdateUsedBlocks_locks].

Definition do_create_node_locks (parent : Z) : prog :=
  unless_return (block [GetFreeInodes_locks; unless_return (Pick (fun ino => block [
    RegisterInode_locks ino;
    maybe (block [AddChild_locks ino; GetIno_locks parent; AddChild_locks ino]);
    AddChild_locks parent;
    Or (block [UpdateUsedInodes_locks; UsedBlocks_locks ino; UpdateUsedBlocks_locks;
          delete_locks ino; DeleteInode_locks])
       (maybe (IncrementLinkCount_locks parent))]))]).

(** ** The handlers *)

Definition locked (p : prog) : prog := shared crMutex p.
(** [GetInode] and [HasNoLinks], with a return. *)
Definition live_locks (ino : Z) (p : prog) : prog :=
  block [GetInode_locks; unless_return (block [HasNoLinks_locks ino; unless_return p])].
Definition found_locks (reply : Z -> prog) : prog :=
  unless_return (Pick (fun ino => block [GetInode_locks; reply ino])).

Definition FuseLookup_locks (parent : Z) : prog :=
  locked (live_locks parent (unless_return (block [ChildInodeNumberWithName_locks parent;
    unless_return (Pick (fun ino => live_locks ino (ReplyEntry_locks ino)))]))).
Definition FuseGetAttr_locks (ino : Z) : prog := locked (live_locks ino (ReplyAttr_locks ino)).
Definition FuseSetAttr_locks (ino : Z) : prog :=
  locked (live_locks ino
    (Or (Or (GetMode_locks ino) (block [FileTruncate_locks ino; maybe (ReplyAttr_locks ino)]))
        (ReplySetAttr_locks ino))).
(** Also release, readlink, and opening, closing and syncing a directory. *)
Definition FuseOpen_locks (ino : Z) : prog := locked (live_locks ino Skip).
Definition FuseFsync_locks : prog := locked GetInode_locks.
Definition FuseReadDir_locks (ino : Z) : prog :=
  locked (live_locks ino (unless_return (block [PrepareReaddir_locks ino;
    unless_return (block [
      Loop (block [rd f_readdirStates; Pick (fun c => block [GetInode_locks;
        unless_return (block [HasNoLinks_locks c; unless_return (GetAttr_locks c)])]);
        wr f_readdirStates]);
      RecycleStates_locks])]))).
Definition FuseMknod_locks (parent : Z) : prog :=
  locked (live_locks parent (unless_return (block [GetFreeInodes_locks;
    unless_return (block [ChildInodeNumberWithName_locks parent;
      unless_return (block [do_create_node_locks parent; found_locks ReplyEntry_locks])])]))).
Definition FuseMkdir_locks (parent : Z) : prog :=
  locked (live_locks parent (unless_return (block [GetFreeInodes_locks;
    unless_return (block [ChildInodeNumberWithName_locks parent;
      unless_return (block [do_create_node_locks parent; found_locks ReplyEntry_locks])])]))).
Definition FuseUnlink_locks (parent : Z) : prog :=
  locked (live_locks parent (unless_return (block [ChildInodeNumberWithName_locks parent;
    unless_return (Pick (fun ino => block [RemoveChild_locks parent; GetInode_locks;
      DecrementLinkCount_locks ino]))]))).
Definition FuseRmdir_locks (parent : Z) : prog :=
  locked (live_locks parent (unless_return (block [ChildInodeNumberWithName_locks parent;
    unless_return (Pick (fun ino => live_locks ino (unless_return (block [IsEmpty_locks ino;
      unless_return (block [RemoveChild_locks parent; DecrementLinkCount_locks parent;
        Loop (block [NumLinks_locks ino; DecrementLinkCount_locks ino]);
        NumLinks_locks ino])]))))]))).
Definition FuseForget_locks (ino : Z) : prog :=
  locked (block [GetInode_locks; unless_return (maybe (block [HasNoLinks_locks ino;
    maybe (block [UsedBlocks_locks ino; delete_locks ino; DeleteInode_locks;
      UpdateUsedInodes_locks; UpdateUsedBlocks_locks])]))]).
Definition FuseWrite_locks (ino : Z) : prog :=
  locked (unless_return (live_locks ino (WriteAndReply_locks ino))).
Definition FuseRead_locks (ino : Z) : prog := locked (live_locks ino (ReadAndReply_locks ino)).
Definition FuseLink_locks (ino newparent : Z) : prog :=
  locked (block [GetInode_locks; GetInode_locks; unless_return (block [HasNoLinks_locks ino;
    unless_return (block [HasNoLinks_locks newparent;
      unless_return (block [ChildInodeNumberWithName_locks newparent;
        unless_return (block [AddChild_locks newparent;
          unless_return (block [IncrementLinkCount_locks ino; ReplyEntry_locks ino])])])])])]).
Definition FuseSymlink_locks (parent : Z) : prog :=
  locked (live_locks parent (unless_return (block [CheckHasSpaceFor_locks None;
    GetFreeInodes_locks; ChildInodeNumberWithName_locks parent;
    unless_return (block [do_create_node_locks parent; found_locks ReplyEntry_locks])]))).
Definition FuseStatfs_locks : prog := locked FsStat_locks.
Definition FuseSetXAttr_locks (ino : Z) : prog :=
  locked (live_locks ino (SetXAttrAndReply_locks ino)).
Definition FuseGetXAttr_locks (ino : Z) : prog :=
  locked (live_locks ino (GetXAttrAndReply_locks ino)).
Definition FuseListXAttr_locks (ino : Z) : prog :=
  locked (live_locks ino (ListXAttrAndReply_locks ino)).
Definition FuseRemoveXAttr_locks (ino : Z) : prog :=
  locked (live_locks ino (RemoveXAttrAndReply_locks ino)).
Definition FuseAccess_locks (ino : Z) : prog := locked (live_locks ino (ReplyAccess_locks ino)).
Definition FuseCreate_locks (parent : Z) : prog :=
  locked (live_locks parent (unless_return
    (block [do_create_node_locks parent; found_locks ReplyCreate_locks]))).

(** *** Rename *)

(** [isdir] tells which inodes are directories; [src] and [existing] are the numbers
    that the two names have. *)
Definition rename_takes (isdir : Z -> bool) (parent newparent src : Z) : list (mode * lock) :=
  (if isdir src then [(Unique, renameMutex)] else []) ++
  (if parent =? newparent then [(Unique, childrenRwSem parent)]
   else [(Unique, childrenRwSem parent); (Unique, childrenRwSem newparent)]).

Definition rename_body_locks (isdir : Z -> bool) (parent newparent src existing : Z) : prog :=
  let replace := block [DecrementLinkCount_locks existing; _UpdateChild_locks newparent;
    _RemoveChild_locks parent; GetMode_locks existing;
    if isdir existing then block [DecrementLinkCount_locks existing;
      DecrementLinkCount_locks existing; DecrementLinkCount_locks parent] else Skip] in
  let move := block [_AddChild_locks newparent; _RemoveChild_locks parent; GetMode_locks src;
    if isdir src then block [DecrementLinkCount_locks parent; IncrementLinkCount_locks newparent]
    else Skip] in
  block [_ChildInodeNumberWithName_locks newparent; GetInode_locks;
    Or (block [maybe (NumLinks_locks existing); move])
       (block [NumLinks_locks existing; GetMode_locks src; maybe (GetMode_locks existing);
          unless_return (block [GetMode_locks existing;
            if isdir existing then IsEmpty_locks existing else Skip;
            unless_return (block [GetMode_locks src; maybe (GetMode_locks existing);
              unless_return replace])])])].

Definition FuseRename_locks (isdir : Z -> bool) (parent newparent src existing : Z) : prog :=
  locked (block [GetInode_locks; GetInode_locks; unless_return (block [HasNoLinks_locks parent;
    unless_return (block [HasNoLinks_locks newparent;
      unless_return (block [ChildInodeNumberWithName_locks parent; GetInode_locks;
        unless_return (block [HasNoLinks_locks src; unless_return (block [GetMode_locks src;
          With (rename_takes isdir parent newparent src)
            (rename_body_locks isdir parent newparent src existing)])])])])])]).

(** *** [ioctl] *)

(** The copy of one object, and the fields that its constructors read. *)
Definition copy_locks (p : Z) : prog :=
  block [GetMode_locks p; unless_return (block [rd (f_entry p); rd (f_xattr p);
    Or (rd (f_buf p)) (Or (rd (f_children p)) Skip)])].

Definition free_inodes_locks : prog := Loop (Pick delete_locks).

Definition checkpoint_locks : prog :=
  unique crMutex (block [
    Loop (block [rd f_Inodes; unless_return (Pick copy_locks)]);
    Or free_inodes_locks
       (block [rd f_DeletedInodes; rd f_stbuf; rd f_state_pool;
          Or free_inodes_locks (wr f_state_pool)])]).

Definition invalidate_kernel_states_locks : prog :=
  Loop (block [rd f_Inodes; unless_return (Pick (fun p => block [maybe (GetIno_locks p);
    GetMode_locks p; maybe (Loop (block [rd (f_children p); maybe (GetIno_locks p)]))]))]).

Definition restore_locks : prog :=
  unique crMutex (block [rd f_state_pool; unless_return (block [
    invalidate_kernel_states_locks;
    rd f_DeletedInodes; wr f_DeletedInodes; rd f_stbuf; wr f_stbuf;
    Loop (unless_return (Pick copy_locks));
    Or (block [free_inodes_locks; wr f_Inodes; free_inodes_locks; wr f_state_pool])
       (block [free_inodes_locks; wr f_DeletedInodes; wr f_stbuf])])]).

(** Pickling and loading take no lock but those of [GetMode]. *)
Definition pickle_object_locks (p : Z) : prog :=
  block [rd (f_entry p); rd (f_xattr p); Or (rd (f_buf p)) (Or (rd (f_children p)) Skip);
    GetMode_locks p].
Definition pickle_verifs2_locks : prog :=
  unless_return (block [rd f_stbuf;
    Loop (block [rd f_Inodes; unless_return (Pick pickle_object_locks)]);
    unless_return (block [Loop (wr f_DeletedInodes); rd f_state_pool;
      Loop (Pick pickle_object_locks)])]).
Definition load_verifs2_locks : prog :=
  unless_return (block [wr f_state_pool; wr f_Inodes; Loop (wr f_DeletedInodes);
    wr f_stbuf; Loop (wr f_Inodes);
    unless_return (block [Loop (wr f_DeletedInodes); rd f_state_pool; Loop (wr f_state_pool)])]).

Definition FuseIoctl_locks (cmd : Z) : prog :=
  if cmd =? VERIFS_CHECKPOINT then checkpoint_locks
  else if cmd =? VERIFS_RESTORE then restore_locks
  else if cmd =? VERIFS_PICKLE then pickle_verifs2_locks
  else if cmd =? VERIFS_LOAD then load_verifs2_locks
  else Skip.

(** *** The operation table *)

Definition locks_of (isdir : Z -> bool) (r : request) : prog :=
  match r with
  | op_lookup parent _ => FuseLookup_locks parent
  | op_forget ino _ => FuseForget_locks ino
  | op_getattr ino => FuseGetAttr_locks ino
  | op_setattr ino _ _ => FuseSetAttr_locks ino
  | op_readlink ino => FuseOpen_locks ino
  | op_mknod parent _ _ _ => FuseMknod_locks parent
  | op_mkdir parent _ _ => FuseMkdir_locks parent
  | op_unlink parent _ => FuseUnlink_locks parent
  | op_rmdir parent _ => FuseRmdir_locks parent
  | op_symlink _ parent _ => FuseSymlink_locks parent
  | op_rename parent _ newparent _ =>
      Pick (fun src => Pick (fun existing =>
        FuseRename_locks isdir parent newparent src existing))
  | op_link ino newparent _ => FuseLink_locks ino newparent
  | op_open ino | op_release ino | op_opendir ino | op_releasedir ino | op_fsyncdir ino =>
      FuseOpen_locks ino
  | op_read ino _ _ => FuseRead_locks ino
  | op_write ino _ _ => FuseWrite_locks ino
  | op_flush | op_getlk => Skip
  | op_fsync _ => FuseFsync_locks
  | op_readdir ino _ _ => FuseReadDir_locks ino
  | op_statfs => FuseStatfs_locks
  | op_setxattr ino _ _ _ => FuseSetXAttr_locks ino
  | op_getxattr ino _ _ => FuseGetXAttr_locks ino
  | op_listxattr ino _ => FuseListXAttr_locks ino
  | op_removexattr ino _ => FuseRemoveXAttr_locks ino
  | op_access ino _ => FuseAccess_locks ino
  | op_create parent _ _ => FuseCreate_locks parent
  | op_ioctl cmd _ => FuseIoctl_locks cmd
  end.

(** For proofs that go through the code of a handler. *)
#[export] Hint Unfold DeleteInode_locks AddInode_locks UpdateInode_locks
  PopOneDeletedInode_locks UpdateUsedBlocks_locks UpdateUsedInodes_locks FsStat_locks
  GetInode_locks GetFreeInodes_locks IncrementLinkCount_locks DecrementLinkCount_locks
  NumLinks_locks HasNoLinks_locks UsedBlocks_locks Size_locks GetAttr_locks
  GetMode_locks GetIno_locks delete_locks ReplyEntry_locks ReplyCreate_locks
  ReplyAttr_locks ReplySetAttr_locks SetXAttrAndReply_locks GetXAttrAndReply_locks
  ListXAttrAndReply_locks RemoveXAttrAndReply_locks ReplyAccess_locks
  Inode_Initialize_locks CheckHasSpaceFor_locks FileTruncate_locks
  File_WriteAndReply_locks File_ReadAndReply_locks WriteAndReply_locks
  ReadAndReply_locks UpdateSize_locks Directory_Initialize_locks
  SymLink_Initialize_locks Initialize_locks _ChildInodeNumberWithName_locks
  ChildInodeNumberWithName_locks _AddChild_locks AddChild_locks _UpdateChild_locks UpdateChild_locks
  _RemoveChild_locks RemoveChild_locks PrepareReaddir_locks RecycleStates_locks
  IsEmpty_locks RegisterInode_locks do_create_node_locks locked live_locks found_locks
  FuseLookup_locks FuseGetAttr_locks FuseSetAttr_locks FuseOpen_locks FuseFsync_locks
  FuseReadDir_locks FuseMknod_locks FuseMkdir_locks FuseUnlink_locks FuseRmdir_locks
  FuseForget_locks FuseWrite_locks FuseRead_locks FuseLink_locks FuseSymlink_locks
  FuseStatfs_locks FuseSetXAttr_locks FuseGetXAttr_locks FuseListXAttr_locks
  FuseRemoveXAttr_locks FuseAccess_locks FuseCreate_locks copy_locks free_inodes_locks checkpoint_locks
  invalidate_kernel_states_locks restore_locks pickle_object_locks pickle_verifs2_locks
  load_verifs2_locks : locks.
