(* ===== verification/LockSpec.v ===== *)
(** * Threads that serve requests

    The locks of the handlers keep one order, so that threads never wait for each other
    in a circle; the table, the counters and the pool are never accessed by two threads at
    once unless both read, nor the entries of a directory that is not being destroyed;
    and a checkpoint or restore is alone. What the locks do not protect is shown by runs. *)

From S2P Require Import Prelude World Requests CkptRestore Locks LockOps.

(** ** The order of locks *)

(** [h] holds nothing that may not be held when a lock of this rank is taken. *)
Definition below (r : Z) (h : list (mode * lock)) : Prop := forall m l, (m, l) ∈ h -> rank l < r.

Lemma below_nil r : below r [].
Proof. intros m l H. by apply elem_of_nil in H. Qed.
Lemma below_cons r m l h : rank l < r -> below r h -> below r ((m, l) :: h).
Proof. intros Hl Hh m' l' [[= -> ->]|H]%elem_of_cons; [done|by eapply Hh]. Qed.
Lemma below_le r r' h : below r h -> r <= r' -> below r' h.
Proof. intros H Hr m l Hin. specialize (H m l Hin). lia. Qed.

Lemma may_lock_one h m l : below (rank l) h -> may_lock h [(m, l)].
Proof.
  intros H. split; [apply NoDup_singleton|]. left. intros m1 l1 m2 l2 H1 H2.
  apply list_elem_of_singleton in H1 as [= -> ->]. by eapply H.
Qed.

Lemma may_lock_two h l l' :
  l <> l' -> below (Z.min (rank l) (rank l')) h -> may_lock h [(Unique, l); (Unique, l')].
Proof.
  intros Hne H. split.
  - apply NoDup_cons_2; [|apply NoDup_singleton]. simpl. by intros H'%list_elem_of_singleton.
  - left. intros m1 l1 m2 l2 H1 H2. specialize (H _ _ H2).
    apply elem_of_cons in H1 as [[= -> ->]|[= -> ->]%list_elem_of_singleton]; lia.
Qed.

(** ** Going through a handler *)

(** Facts on locks that are held when a part of a handler starts go in the database. *)
Create HintDb held.
Ltac inside :=
  first [apply list_elem_of_here | solve [auto with held] | apply list_elem_of_further; inside].
#[export] Hint Resolve below_nil : held.
#[export] Hint Extern 1 (_ <= _) => cbn; lia : held.
Ltac all_below := repeat (apply below_cons; [cbn; lia|]); auto with held; fail.
Ltac may_take := first [apply may_lock_one; all_below | apply may_lock_two; [done|all_below]].
Ltac guarded_here :=
  split; [eexists; inside|];
  cbn; first [exact I | left; inside | right; first [reflexivity | inside | eexists; inside]].
Ltac walk :=
  repeat first
    [ progress cbn [disciplined block foldr app unless_return maybe shared unique rd wr destroy]
    | exact I | may_take | guarded_here
    | match goal with
      | |- _ /\ _ => split
      | |- forall _ : Z, _ => intros ?
      end ].
Ltac handler := autounfold with locks; walk.

(** ** What the kernel sends *)

(** A rename that the kernel passes on: it refuses to put a file on a directory, and
    to put anything on a directory that it is in. *)
Definition vfs_rename (isdir : Z -> bool) (parent newparent src existing : Z) : Prop :=
  (isdir src = false -> isdir existing = false) /\
  (isdir existing = true -> existing <> parent /\ existing <> newparent).

(** The programs of requests, with a rename as the kernel sends it; [only] selects
    requests. Which inodes are directories may differ from one program to another. *)
Inductive served (only : request -> bool) : prog -> Prop :=
  | served_rename isdir parent newparent src existing :
      vfs_rename isdir parent newparent src existing ->
      served only (FuseRename_locks isdir parent newparent src existing)
  | served_request isdir r :
      only r = true -> (forall a b c d, r <> op_rename a b c d) ->
      served only (locks_of isdir r).

Definition any_request (r : request) : bool := true.
(** All but [VERIFS_PICKLE] and [VERIFS_LOAD], which do not take [crMutex]. *)
Definition no_state_file (r : request) : bool :=
  match r with
  | op_ioctl cmd _ => negb (cmd =? VERIFS_PICKLE) && negb (cmd =? VERIFS_LOAD)
  | _ => true
  end.

Lemma guarded_request isdir r :
  no_state_file r = true -> (forall a b c d, r <> op_rename a b c d) ->
  disciplined guarded [] (locks_of isdir r).
Proof.
  intros Hn Hr. destruct r; try (by destruct (Hr _ _ _ _ eq_refl)); cbn [locks_of];
    try (handler; fail).
  simpl in Hn. apply andb_true_iff in Hn as [Hp Hl]. unfold FuseIoctl_locks.
  rewrite (proj1 (negb_true_iff _) Hp), (proj1 (negb_true_iff _) Hl). repeat case_match; handler.
Qed.

(** The locks of a rename. *)
Lemma rename_may_lock isdir parent newparent src :
  may_lock [(Shared, crMutex)] (rename_takes isdir parent newparent src).
Proof.
  unfold rename_takes. split.
  - destruct (isdir src), (Z.eqb_spec parent newparent); simpl; repeat apply NoDup_cons_2;
      try apply NoDup_nil_2; rewrite ?not_elem_of_cons; split_and?; try apply not_elem_of_nil;
      congruence.
  - left. intros m l m' l' Hin [= -> ->]%list_elem_of_singleton. simpl.
    assert (l = renameMutex \/ exists x, l = childrenRwSem x) as [->|[x ->]]; [|simpl; lia..].
    destruct (isdir src), (parent =? newparent); simpl in Hin; rewrite ?elem_of_cons in Hin;
      destruct_or?; simplify_eq; eauto; by apply elem_of_nil in Hin.
Qed.

Section renaming.
Context (isdir : Z -> bool) (parent newparent src existing : Z).
Context (Hvfs : vfs_rename isdir parent newparent src existing).

Let held_in := rename_takes isdir parent newparent src ++ [(Shared, crMutex)].

Lemma rename_holds_cr : (Shared, crMutex) ∈ held_in.
Proof. apply elem_of_app. right. inside. Qed.
Lemma rename_holds_directory p :
  p = parent \/ p = newparent -> (Unique, childrenRwSem p) ∈ held_in.
Proof.
  intros Hp. unfold held_in, rename_takes.
  destruct (Z.eqb_spec parent newparent); destruct (isdir src), Hp; simplify_eq/=; inside.
Qed.

Lemma rename_below r : 3 <= r -> below r held_in.
Proof.
  intros Hr. unfold held_in, rename_takes.
  destruct (isdir src), (parent =? newparent); simpl;
    all_below.
Qed.

(** The directory that is replaced is not one of those that are locked. *)
Lemma rename_may_look : isdir existing = true ->
  may_lock held_in [(Shared, childrenRwSem existing)].
Proof.
  intros He. destruct Hvfs as [Hfile Hin]. destruct (Hin He) as [Hp Hq].
  destruct (isdir src) eqn:Hs; [|by rewrite Hfile in He].
  split; [apply NoDup_singleton|]. right. exists existing. unfold held_in, rename_takes. rewrite Hs.
  split_and!; [done| | |].
  - destruct (parent =? newparent); simpl; rewrite !not_elem_of_cons;
      split_and!; try apply not_elem_of_nil; congruence.
  - inside.
  - destruct (parent =? newparent); simpl; intros m l Hl; rewrite !elem_of_cons in Hl;
      destruct_or!; simplify_eq; simpl; try lia; by apply elem_of_nil in Hl.
Qed.

Hint Resolve rename_holds_cr rename_holds_directory rename_below rename_may_look : held.

Lemma guarded_rename_body :
  disciplined guarded held_in (rename_body_locks isdir parent newparent src existing).
Proof.
  unfold rename_body_locks. destruct (isdir existing) eqn:He, (isdir src); handler.
  all: auto with held.
Qed.
End renaming.

Lemma guarded_rename isdir parent newparent src existing :
  vfs_rename isdir parent newparent src existing ->
  disciplined guarded [] (FuseRename_locks isdir parent newparent src existing).
Proof.
  intros Hvfs. unfold FuseRename_locks. handler.
  - apply rename_may_lock.
  - by apply guarded_rename_body.
Qed.

Lemma served_guarded p : served no_state_file p -> disciplined guarded [] p.
Proof. intros [isdir p' q s x H|isdir r H Hr]; [by apply guarded_rename|by apply guarded_request]. Qed.

(** The order alone, for state files too. *)
Definition anything (h : list (mode * lock)) (a : access) (f : field) : Prop := True.

Lemma disciplined_anything ok h p : disciplined ok h p -> disciplined anything h p.
Proof.
  revert h. induction p; intros h; simpl; unfold anything; try done; try naive_solver.
Qed.

Lemma served_ordered p : served any_request p -> disciplined anything [] p.
Proof.
  intros [isdir p' q s x H|isdir r _ Hr].
  { by eapply disciplined_anything, guarded_rename. }
  destruct (no_state_file r) eqn:Hn; [by eapply disciplined_anything, guarded_request|].
  destruct r; try done. simpl in Hn |- *. unfold FuseIoctl_locks.
  repeat case_match; try done; [apply disciplined_anything with guarded..| |];
    autounfold with locks; walk; unfold anything; try done.
Qed.

(** ** Threads *)

(** C12. However the threads that serve requests have come to wait for each other, they can
    all go on to the end: no set of them is deadlocked. *)
Theorem requests_never_deadlock fair ps ts :
  Forall (served any_request) ps -> psteps fair (start <$> ps) ts ->
  exists ts', psteps fair ts ts' /\ Forall (fun t => todo t = []) ts'.
Proof.
  intros Hps Hs. apply (can_finish anything). apply (pool_ok_steps _ _ _ _ Hs), pool_start.
  eapply Forall_impl; [|exact Hps]. apply served_ordered.
Qed.

Lemma served_pool fair ps ts :
  Forall (served no_state_file) ps -> psteps fair (start <$> ps) ts -> pool_ok guarded ts.
Proof.
  intros Hps Hs. apply (pool_ok_steps _ _ _ _ Hs), pool_start.
  eapply Forall_impl; [|exact Hps]. apply served_guarded.
Qed.

(** C13. Whatever requests but pickling and loading are served, with renames as the kernel
    sends them: the inode table, the counters and the pool of checkpoints are never
    accessed by two threads at once unless both read; where that happens to the entries
    of a directory, one of the two is the destructor of the directory, which takes no lock;
    and while a checkpoint or a restore holds [crMutex] no other thread is at an access to
    any field. *)
Theorem locks_protect_state fair ps ts :
  Forall (served no_state_file) ps -> psteps fair (start <$> ps) ts ->
  ~ race ts f_Inodes /\ ~ race ts f_stbuf /\ ~ race ts f_state_pool /\
  (forall ino i j t u a a', i <> j -> ts !! i = Some t -> ts !! j = Some u ->
     accesses t a (f_children ino) -> accesses u a' (f_children ino) ->
     conflicting a a' = true -> a = Destroys \/ a' = Destroys) /\
  (forall i j t u a f, ts !! i = Some t -> (Unique, crMutex) ∈ held t -> ts !! j = Some u -> j <> i ->
     ~ accesses u a f).
Proof.
  intros Hps Hs. pose proof (served_pool _ _ _ Hps Hs) as Hok.
  assert (Hnone : forall f, is_Some (guard f) -> of_object f = false -> ~ race ts f).
  { intros f Hg Hf (i & j & t & u & a & a' & Hne & Hi & Hj & Ht & Hu & Hc).
    destruct (no_race ts f i j t u a a') as [Ho _]; congruence. }
  split_and!; [apply Hnone; by eauto..| |].
  - intros ino i j t u a a' Hne Hi Hj Ht Hu Hc.
    by apply (no_race ts (f_children ino) i j t u a a' Hok (ex_intro _ _ eq_refl)).
  - intros i j t u a f Hi Ht Hj Hne. by apply (unique_cr_alone ts i j t u).
Qed.
