(* ===== verification/Options.v ===== *)
(** * The command line: [util.cpp] from [ramfs_parse_options] on, and [main.cpp]

    The program takes its own options (size, inodes, subtype) out of the [-o]
    words of its command line and leaves the rest to libfuse. The code works
    on C strings with [strtok_r] and [getopt]; a computation can finish, call
    [exit], make an access that is not allowed, or run forever. *)

From S2P Require Import Prelude World Util Table Handlers.
From Stdlib Require Import Ascii.

(** ** How the start of the program can end *)

Inductive fault :=
  | fault_bounds
  | fault_freed
  | fault_unterminated.

Inductive out (A : Type) :=
  | Done (a : A)
  | Exits (code : Z)
  | Fails (f : fault)
  | Spins.
Arguments Done {A} a.
Arguments Exits {A} code.
Arguments Fails {A} f.
Arguments Spins {A}.

#[global] Instance out_ret : MRet out := fun A a => Done a.
#[global] Instance out_bind : MBind out := fun A B f m =>
  match m with
  | Done a => f a
  | Exits c => Exits c
  | Fails x => Fails x
  | Spins => Spins
  end.

Definition or_fails {A} (f : fault) (o : option A) : out A :=
  match o with Some a => Done a | None => Fails f end.

(** ** C strings

    A [word] is the content of a string without its terminator. *)

Abbreviation word := (list ascii).
Definition chars (s : string) : word := String.list_ascii_of_string s.
Definition word_string (l : word) : string := String.string_of_list_ascii l.

Definition NUL : ascii := Ascii.zero.
Definition OPTION_MAX : Z := 131072.

#[global] Instance ascii_eq_dec : EqDecision ascii := Ascii.ascii_dec.


(** The string that starts at the beginning of a buffer: none when no
    terminator is in it. *)
Fixpoint c_string (buf : list ascii) : option word :=
  match buf with
  | [] => None
  | c :: buf' => if decide (c = NUL) then Some [] else cons c <$> c_string buf'
  end.

(** [strtok_r] with one delimiter. The token and what is left in the context
    are apart in memory: the delimiter between them becomes a terminator. *)
Fixpoint skip_delim (d : ascii) (s : word) : word :=
  match s with
  | [] => []
  | c :: s' => if decide (c = d) then skip_delim d s' else s
  end.

Fixpoint cut_token (d : ascii) (s : word) : word * word :=
  match s with
  | [] => ([], [])
  | c :: s' =>
      if decide (c = d) then ([], s')
      else let '(t, r) := cut_token d s' in (c :: t, r)
  end.

Definition strtok_r (d : ascii) (s : word) : option word * word :=
  match skip_delim d s with
  | [] => (None, [])
  | s' => let '(t, r) := cut_token d s' in (Some t, r)
  end.

(** [basename] of [string.h]: what follows the last slash. *)
Fixpoint basename (s : word) : word :=
  match s with
  | [] => []
  | c :: s' =>
      if decide ("/"%char ∈ s') then basename s'
      else if decide (c = "/"%char) then s' else s
  end.

(** ** Options *)

(** A [char *] member: null, a string that stays, a string inside the buffer
    that [ramfs_parse_options] works on, a freed string. *)
Inductive char_ptr :=
  | Null
  | Live (s : word)
  | InBuffer (s : word)
  | Freed.

Record fuse_ramfs_options := mkOptions {
  opt_capacity : Z;
  opt_inodes : Z;
  opt_deamonize : bool;
  opt_subtype : char_ptr;
  opt_mountpoint : char_ptr }.

Definition no_options : fuse_ramfs_options := mkOptions 0 0 false Null Null.

Definition set_capacity (v : Z) (o : fuse_ramfs_options) : fuse_ramfs_options :=
  mkOptions v (opt_inodes o) (opt_deamonize o) (opt_subtype o) (opt_mountpoint o).
Definition set_inodes (v : Z) (o : fuse_ramfs_options) : fuse_ramfs_options :=
  mkOptions (opt_capacity o) v (opt_deamonize o) (opt_subtype o) (opt_mountpoint o).
Definition set_deamonize (o : fuse_ramfs_options) : fuse_ramfs_options :=
  mkOptions (opt_capacity o) (opt_inodes o) true (opt_subtype o) (opt_mountpoint o).
Definition set_subtype (p : char_ptr) (o : fuse_ramfs_options) : fuse_ramfs_options :=
  mkOptions (opt_capacity o) (opt_inodes o) (opt_deamonize o) p (opt_mountpoint o).
Definition set_mountpoint (p : char_ptr) (o : fuse_ramfs_options) : fuse_ramfs_options :=
  mkOptions (opt_capacity o) (opt_inodes o) (opt_deamonize o) (opt_subtype o) p.

(** *** [ramfs_parse_options] *)

(** The options so far, the output buffer [newopt] and the cursor [ptr]. *)
Record parser := mkParser {
  ps_opt : fuse_ramfs_options; newopt : list ascii; ptr : Z }.

(** [*(ptr++) = c;] *)
Definition put (c : ascii) (p : parser) : out parser :=
  buf ← or_fails fault_bounds (vec_set (newopt p) (ptr p) c);
  Done (mkParser (ps_opt p) buf (ptr p + 1)).

(** [strncpy(ptr, s, strlen(s)); ptr += strlen(s);] *)
Fixpoint put_all (s : word) (p : parser) : out parser :=
  match s with
  | [] => Done p
  | c :: s' => p' ← put c p; put_all s' p'
  end.

(** The switches in front of the options, up to the first [o]. *)
Fixpoint copy_switches (optstr : word) (p : parser) : out (word * parser) :=
  match optstr with
  | [] => Fails fault_bounds
  | c :: optstr' =>
      p' ← put c p;
      if decide (c = "o"%char) then Done (optstr', p') else copy_switches optstr' p'
  end.

Definition bypass_prefix (optstr : word) (p : parser) : out (word * parser) :=
  match optstr with
  | c :: _ => if decide (c = "-"%char) then copy_switches optstr p else Done (optstr, p)
  | [] => Done (optstr, p)
  end.

Definition on_opt (f : fuse_ramfs_options -> fuse_ramfs_options) (p : parser) : parser :=
  mkParser (f (ps_opt p)) (newopt p) (ptr p).

(** [opt.capacity = SizeStr2Number(value)] when there is a value. The scan of a blank value
    goes on to the byte before it, which is the equals sign in front of the value or the
    zero that [strtok_r] put there: no unit, so that the result is 0. *)
Definition set_number (set : Z -> fuse_ramfs_options -> fuse_ramfs_options)
    (value : option word) (p : parser) : out parser :=
  match value with
  | None => Done p
  | Some v => Done (on_opt (set (default 0 (SizeStr2Number (word_string v)))) p)
  end.

(** An option that is not recognised goes to the output buffer. *)
Definition keep_option (key : word) (value : option word) (p : parser) : out parser :=
  p ← (if 0 <? ptr p then put ","%char p else Done p);
  p ← put_all key p;
  match value with
  | None => Done p
  | Some v => p ← put "="%char p; put_all v p
  end.

Definition parse_option (key : word) (value : option word) (p : parser) : out parser :=
  if decide (key = chars "size") then set_number set_capacity value p
  else if decide (key = chars "inodes") then set_number set_inodes value p
  else if decide (key = chars "subtype") then
    match value with
    | None => Done p
    | Some v => Done (on_opt (set_subtype (InBuffer v)) p)
    end
  else keep_option key value p.

(** The loop over the tokens: [kvtoken] and [ctx1] are its variables. Without a
    key the loop continues with the same token. *)
Fixpoint parse_tokens (fuel : nat) (kvtoken : option word) (ctx1 : word) (p : parser)
  : out parser :=
  match fuel with
  | O => Spins
  | S fuel =>
      match kvtoken with
      | None => Done p
      | Some kv =>
          let '(key, ctx2) := strtok_r "="%char kv in
          let '(value, _) := strtok_r "="%char ctx2 in
          match key with
          | None => parse_tokens fuel kvtoken ctx1 p
          | Some key =>
              p ← parse_option key value p;
              let '(kvtoken, ctx1) := strtok_r ","%char ctx1 in
              parse_tokens fuel kvtoken ctx1 p
          end
      end
  end.

(** The loop, started on a string. *)
Definition option_loop (fuel : nat) (optstr : word) (p : parser) : out parser :=
  let '(kvtoken, ctx1) := strtok_r ","%char optstr in parse_tokens fuel kvtoken ctx1 p.

(** The capacity is at least 1 KB, the inodes at least 2, when they are given. *)
Definition verify_options (o : fuse_ramfs_options) : out unit :=
  if (0 <? opt_capacity o) && (opt_capacity o <? 1024) then Exits 1
  else if (0 <? opt_inodes o) && (opt_inodes o <? 2) then Exits 1
  else Done tt.

(** [if ( *(--ptr) == 'o') { *ptr = 0; if ( *(--ptr) == '-') *ptr = 0; }] *)
Definition erase_switch (p : parser) : out (list ascii) :=
  c ← or_fails fault_bounds (vec_at (newopt p) (ptr p - 1));
  if decide (c = "o"%char) then
    buf ← or_fails fault_bounds (vec_set (newopt p) (ptr p - 1) NUL);
    d ← or_fails fault_bounds (vec_at buf (ptr p - 2));
    if decide (d = "-"%char) then or_fails fault_bounds (vec_set buf (ptr p - 2) NUL)
    else Done buf
  else Done (newopt p).

(** [fresh] is the content of the memory that [new char[]] gives. The result is
    the output buffer and the options. *)
Definition ramfs_parse_options (fresh : nat -> ascii) (optstr : word)
    (opt : fuse_ramfs_options) : out (list ascii * fuse_ramfs_options) :=
  let buf := fresh <$> seq 0 (S (length optstr)) in
  '(optstr, p) ← bypass_prefix optstr (mkParser opt buf 0);
  p ← option_loop (S (length optstr)) optstr p;
  verify_options (ps_opt p);;
  buf ← erase_switch p;
  Done (buf, ps_opt p).

(** ** [getopt] of the C library

    The state between calls. [nextchar] is the position inside the word that is
    being read, with the index of that word; the caller may free the word. *)

Inductive cursor :=
  | NoCursor
  | CursorAt (index : Z) (rest : word)
  | CursorFreed.

Record getopt_data := mkGetopt {
  optind : Z; nextchar : cursor; first_nonopt : Z; last_nonopt : Z;
  initialized : bool }.

Definition getopt_start : getopt_data := mkGetopt 1 NoCursor 0 0 false.

Definition set_optind (v : Z) (d : getopt_data) : getopt_data :=
  mkGetopt v (nextchar d) (first_nonopt d) (last_nonopt d) (initialized d).
Definition set_nextchar (c : cursor) (d : getopt_data) : getopt_data :=
  mkGetopt (optind d) c (first_nonopt d) (last_nonopt d) (initialized d).
Definition set_nonopts (a b : Z) (d : getopt_data) : getopt_data :=
  mkGetopt (optind d) (nextchar d) a b (initialized d).

Definition nonoption (s : word) : bool :=
  match s with
  | c :: _ :: _ => negb (bool_decide (c = "-"%char))
  | _ => true
  end.

(** The words that are not options move behind the options after them. *)
Definition exchange (argv : list word) (d : getopt_data) : list word * getopt_data :=
  let a := Z.to_nat (first_nonopt d) in
  let b := Z.to_nat (last_nonopt d) in
  let c := Z.to_nat (optind d) in
  (take a argv ++ take (c - b) (drop b argv) ++ take (b - a) (drop a argv) ++ drop c argv,
   set_nonopts (first_nonopt d + (optind d - last_nonopt d)) (optind d) d).

Definition getopt_initialize (d : getopt_data) : getopt_data :=
  if (optind d =? 0) || negb (initialized d) then
    let i := if optind d =? 0 then 1 else optind d in
    mkGetopt i NoCursor i i true
  else d.

(** The number of words that are not options from the given index on. *)
Fixpoint count_nonoptions (argv : list word) : Z :=
  match argv with
  | s :: argv' => if nonoption s then 1 + count_nonoptions argv' else 0
  | [] => 0
  end.

Inductive getopt_result :=
  | OptEnd
  | OptChar (c : ascii).

(** Move to the next word with options; [OptEnd] when there is none. *)
Definition getopt_advance (argv : list word) (d : getopt_data)
  : out (bool * list word * getopt_data) :=
  let d := set_nonopts (Z.min (first_nonopt d) (optind d))
                       (Z.min (last_nonopt d) (optind d)) d in
  let '(argv, d) :=
    if negb (first_nonopt d =? last_nonopt d) && negb (last_nonopt d =? optind d)
    then exchange argv d
    else if negb (last_nonopt d =? optind d)
    then (argv, set_nonopts (optind d) (last_nonopt d) d)
    else (argv, d) in
  let d := set_optind (optind d + count_nonoptions (drop (Z.to_nat (optind d)) argv)) d in
  let d := set_nonopts (first_nonopt d) (optind d) d in
  if (optind d <? zlen argv) && bool_decide (vec_at argv (optind d) = Some (chars "--"))
  then
    let d := set_optind (optind d + 1) d in
    let '(argv, d) :=
      if negb (first_nonopt d =? last_nonopt d) && negb (last_nonopt d =? optind d)
      then exchange argv d
      else if first_nonopt d =? last_nonopt d
      then (argv, set_nonopts (optind d) (last_nonopt d) d)
      else (argv, d) in
    let d := set_nonopts (first_nonopt d) (zlen argv) (set_optind (zlen argv) d) in
    Done (true, argv,
          if first_nonopt d =? last_nonopt d then d else set_optind (first_nonopt d) d)
  else if optind d =? zlen argv then
    Done (true, argv,
          if first_nonopt d =? last_nonopt d then d else set_optind (first_nonopt d) d)
  else
    s ← or_fails fault_bounds (vec_at argv (optind d));
    Done (false, argv, set_nextchar (CursorAt (optind d) (drop 1 s)) d).

(** One character: [o] takes an argument (the rest of the word or the next
    word), [b] does not, any other is reported as a question mark. *)
Definition getopt_char (argv : list word) (d : getopt_data)
  : out (getopt_result * getopt_data) :=
  match nextchar d with
  | CursorAt i (c :: rest) =>
      let d := set_nextchar (CursorAt i rest) d in
      let d := if decide (rest = []) then set_optind (optind d + 1) d else d in
      if decide (c = "b"%char) then Done (OptChar "b"%char, d)
      else if decide (c = "o"%char) then
        if decide (rest = []) then
          if optind d =? zlen argv then Done (OptChar "?"%char, set_nextchar NoCursor d)
          else Done (OptChar "o"%char, set_nextchar NoCursor (set_optind (optind d + 1) d))
        else Done (OptChar "o"%char, set_nextchar NoCursor (set_optind (optind d + 1) d))
      else Done (OptChar "?"%char, d)
  | CursorAt _ [] | NoCursor => Fails fault_bounds
  | CursorFreed => Fails fault_freed
  end.

Definition getopt (argv : list word) (d : getopt_data)
  : out (getopt_result * list word * getopt_data) :=
  if zlen argv <? 1 then Done (OptEnd, argv, d)
  else
    let d := getopt_initialize d in
    match nextchar d with
    | CursorFreed => Fails fault_freed
    | CursorAt _ (_ :: _) => '(r, d) ← getopt_char argv d; Done (r, argv, d)
    | CursorAt _ [] | NoCursor =>
        '(last, argv, d) ← getopt_advance argv d;
        if (last : bool) then Done (OptEnd, argv, d)
        else '(r, d) ← getopt_char argv d; Done (r, argv, d)
    end.

(** ** [ramfs_parse_cmdline]

    [args] is the vector of [struct fuse_args]; its strings were allocated by
    [copy_args], so a word that is erased is freed. [fuse_opt_add_arg] is
    libfuse's. *)

Section cmdline.
Variable fuse_opt_add_arg : list word -> word -> list word.
Variable fresh : nat -> ascii.

Definition ramfs_set_subtype (args : list word) (subtype : word) : list word :=
  fuse_opt_add_arg args (chars "-osubtype=" ++ subtype).

Definition erase_arg (args : list word) (index : Z) : list word :=
  if zlen args <=? index then args
  else take (Z.to_nat index) args ++ drop (S (Z.to_nat index)) args.

(** The word at [index] is freed and the words behind it move. *)
Definition after_erase (index : Z) (c : cursor) : cursor :=
  match c with
  | CursorAt i rest =>
      if i =? index then CursorFreed
      else if index <? i then CursorAt (i - 1) rest else c
  | _ => c
  end.

(** [strncpy(buf, s, strnlen(s, OPTION_MAX) + 1)]: without a terminator when the
    string is too long. *)
Definition copy_word (s : word) : out word :=
  if zlen s <=? OPTION_MAX then Done s else Fails fault_unterminated.

(** [delete[] optstr_buf]: a pointer into it dangles. *)
Definition drop_buffer (o : fuse_ramfs_options) : fuse_ramfs_options :=
  match opt_subtype o with
  | InBuffer _ => set_subtype Freed o
  | _ => o
  end.

(** The variables of the loop. *)
Record cmdline := mkCmdline {
  cl_args : list word; cl_getopt : getopt_data; cl_opt : fuse_ramfs_options;
  o_idx1 : Z; argo_idx : Z }.

(** [case 'o'] *)
Definition case_o (s : cmdline) : out cmdline :=
  let i := optind (cl_getopt s) - 1 in
  arg ← or_fails fault_bounds (vec_at (cl_args s) i);
  optstr ← copy_word arg;
  '(buf, o) ← ramfs_parse_options fresh optstr (cl_opt s);
  let o := drop_buffer o in
  left ← or_fails fault_unterminated (c_string buf);
  if decide (left = []) then
    prev ← or_fails fault_bounds (vec_at (cl_args s) (i - 1));
    Done (mkCmdline (cl_args s) (cl_getopt s) o
            (if decide (prev = chars "-o") then i - 1 else o_idx1 s) i)
  else
    args ← or_fails fault_bounds (vec_set (cl_args s) i left);
    Done (mkCmdline args (cl_getopt s) o (o_idx1 s) (argo_idx s)).

(** [case 'b'] *)
Definition case_b (s : cmdline) : out cmdline :=
  let d := cl_getopt s in
  let i := optind d - 1 in
  Done (mkCmdline (erase_arg (cl_args s) i)
          (set_nextchar (if zlen (cl_args s) <=? i then nextchar d
                         else after_erase i (nextchar d)) (set_optind i d))
          (set_deamonize (cl_opt s)) (o_idx1 s) (argo_idx s)).

Fixpoint getopt_loop (fuel : nat) (s : cmdline) : out cmdline :=
  match fuel with
  | O => Spins
  | S fuel =>
      '(r, argv, d) ← getopt (cl_args s) (cl_getopt s);
      let s := mkCmdline argv d (cl_opt s) (o_idx1 s) (argo_idx s) in
      match r with
      | OptEnd => Done s
      | OptChar c =>
          if decide (c = "o"%char) then s ← case_o s; getopt_loop fuel s
          else if decide (c = "b"%char) then s ← case_b s; getopt_loop fuel s
          else getopt_loop fuel s
      end
  end.

(** What [printf] needs of a string it prints. *)
Definition readable (p : char_ptr) : out unit :=
  match p with Freed => Fails fault_freed | _ => Done tt end.

(** The last word that is left is the mount point. *)
Definition take_mountpoint (s : cmdline) : out cmdline :=
  let i := optind (cl_getopt s) in
  if zlen (cl_args s) <=? i then Exits 1
  else if i =? zlen (cl_args s) - 1 then
    w ← or_fails fault_bounds (vec_at (cl_args s) i);
    mp ← copy_word w;
    let args := erase_arg (cl_args s) i in
    let o := set_mountpoint (Live mp) (cl_opt s) in
    match opt_subtype o with
    | Null =>
        prog ← or_fails fault_bounds (vec_at args 0);
        Done (mkCmdline (ramfs_set_subtype args (basename prog)) (cl_getopt s)
                (set_subtype (Live (basename prog)) o) (o_idx1 s) (argo_idx s))
    | _ => Done (mkCmdline args (cl_getopt s) o (o_idx1 s) (argo_idx s))
    end
  else Exits 1.

Definition ramfs_parse_cmdline (fuel : nat) (args : list word)
    (options : fuse_ramfs_options) : out (list word * fuse_ramfs_options) :=
  s ← getopt_loop fuel (mkCmdline args getopt_start options 0 0);
  s ← take_mountpoint s;
  let args := if argo_idx s =? 0 then cl_args s else erase_arg (cl_args s) (argo_idx s) in
  let args := if o_idx1 s =? 0 then args else erase_arg args (o_idx1 s) in
  let args := fuse_opt_add_arg args (chars "-odefault_permissions") in
  let args := fuse_opt_add_arg args (chars "-oallow_other") in
  readable (opt_subtype (cl_opt s));;
  readable (opt_mountpoint (cl_opt s));;
  Done (args, cl_opt s).

End cmdline.

(** ** [main]

    libfuse as far as [main] uses it: what its calls give. *)

Record libfuse := mkLibfuse {
  fuse_opt_add_arg : list word -> word -> list word;
  fuse_mount : word -> list word -> option (list word);
  fuse_lowlevel_new : list word -> bool;
  fuse_set_signal_handlers : bool;
  fuse_session_loop : Z }.

Inductive fuse_call :=
  | call_mount (mountpoint : word) (args : list word)
  | call_lowlevel_new (args : list word)
  | call_daemonize (foreground : bool)
  | call_set_signal_handlers
  | call_session_add_chan
  | call_session_loop
  | call_remove_signal_handlers
  | call_session_remove_chan
  | call_session_destroy
  | call_unmount (mountpoint : word).

Definition copy_args (argv : list word) : list word :=
  (fun s => take (S (length s)) s) <$> argv.

Definition c_word (p : char_ptr) : out (option word) :=
  match p with
  | Null => Done None
  | Live s | InBuffer s => Done (Some s)
  | Freed => Fails fault_freed
  end.

(** The session, once the process has a [struct fuse_session]. *)
Definition run_session (lib : libfuse) (deamonize : bool) : list fuse_call * Z :=
  let '(calls, err) :=
    if fuse_set_signal_handlers lib
    then ([call_session_add_chan; call_session_loop; call_remove_signal_handlers;
           call_session_remove_chan], fuse_session_loop lib)
    else ([], -1) in
  ([call_daemonize (negb deamonize); call_set_signal_handlers] ++ calls
     ++ [call_session_destroy], err).

(** The calls to libfuse and the value of [err] at the end. *)
Definition serve_mount (lib : libfuse) (mountpoint : word) (args : list word)
    (deamonize : bool) : list fuse_call * Z :=
  match fuse_mount lib mountpoint args with
  | None => ([call_mount mountpoint args], -1)
  | Some args' =>
      let '(calls, err) :=
        if fuse_lowlevel_new lib args' then run_session lib deamonize else ([], -1) in
      ([call_mount mountpoint args; call_lowlevel_new args'] ++ calls
         ++ [call_unmount mountpoint], err)
  end.

(** The file system that is made, the calls to libfuse, the exit code. *)
Definition main (lib : libfuse) (fresh : nat -> ascii) (fuel : nat) (argv : list word)
  : out (world * list fuse_call * Z) :=
  '(args, options) ← ramfs_parse_cmdline (fuse_opt_add_arg lib) fresh fuel
                       (copy_args argv) no_options;
  let nblocks := opt_capacity options / BufBlockSize in
  let core := construct nblocks (opt_inodes options) in
  subtype ← c_word (opt_subtype options);
  mountpoint ← c_word (opt_mountpoint options);
  let '(calls, err) :=
    match subtype, mountpoint with
    | Some _, Some mp => serve_mount lib mp args (opt_deamonize options)
    | _, _ => ([], -1)
    end in
  Done (core, calls, if err =? 0 then 0 else 1).
