(* ===== verification/OptionsSpec.v ===== *)
(** * What the command line parser does

    The tokens that [strtok_r] gives one after the other are the non-empty
    fields between delimiters; the loop over the options is a fold over them;
    from there, what a command line configures. *)

From S2P Require Import Prelude World Util Table Handlers Options.
From Stdlib Require Import Ascii.

(** ** Reference definitions *)

(** The fields of a string between delimiters, empty ones included. *)
Fixpoint fields (d : ascii) (s : word) : list word :=
  match s with
  | [] => [[]]
  | c :: s' =>
      if decide (c = d) then [] :: fields d s'
      else match fields d s' with
           | f :: fs => (c :: f) :: fs
           | [] => [[c]]
           end
  end.

Definition tokens (d : ascii) (s : word) : list word := filter (fun f => f <> []) (fields d s).

(** The key and the value of an option; none for a token made of [=] only. *)
Definition key_value (kv : word) : option (word * option word) :=
  match tokens "="%char kv with
  | [] => None
  | k :: vs => Some (k, head vs)
  end.

Definition has_key (kv : word) : Prop := is_Some (key_value kv).

(** The number in an option value, 0 for one that is blank or not a number. *)
Definition number (v : word) : Z := default 0 (SizeStr2Number (word_string v)).

Definition recognised (k : word) : bool :=
  bool_decide (k ∈ [chars "size"; chars "inodes"; chars "subtype"]).

Definition sizes (k : word) : bool := bool_decide (k ∈ [chars "size"; chars "inodes"]).

(** What one option changes in the configuration. *)
Definition apply_option (o : fuse_ramfs_options) (kv : word * option word)
  : fuse_ramfs_options :=
  match kv with
  | (k, Some v) =>
      if decide (k = chars "size") then set_capacity (number v) o
      else if decide (k = chars "inodes") then set_inodes (number v) o
      else if decide (k = chars "subtype") then set_subtype (InBuffer v) o
      else o
  | (_, None) => o
  end.

(** What one option adds to the text of the options that are left. *)
Definition render (kv : word * option word) : word :=
  kv.1 ++ match kv.2 with Some v => "="%char :: v | None => [] end.

Definition leave_option (t : word) (kv : word * option word) : word :=
  if recognised kv.1 then t
  else (if decide (t = []) then [] else t ++ [","%char]) ++ render kv.

(** The options of a string, in order. *)
Definition options_of (s : word) : list (word * option word) := omap key_value (tokens ","%char s).

(** The loop over a list of tokens. *)
Fixpoint parse_all (kvs : list word) (p : parser) : out parser :=
  match kvs with
  | [] => Done p
  | kv :: kvs =>
      match key_value kv with
      | None => Spins
      | Some (k, v) => p ← parse_option k v p; parse_all kvs p
      end
  end.

(** ** Running the code of the parser *)

Lemma Done_bind {A B} (a : A) (f : A -> out B) : (Done a ≫= f) = f a.
Proof. done. Qed.

Lemma or_fails_Some {A} f (a : A) : or_fails f (Some a) = Done a.
Proof. done. Qed.

Create Rewrite HintDb out.
#[export] Hint Rewrite @Done_bind @or_fails_Some : out.

(** ** [strtok_r] and fields *)

Lemma fields_cons d s : exists f fs, fields d s = f :: fs.
Proof.
  destruct s as [|c s]; simpl; [eauto|]. case_decide; [eauto|].
  destruct (fields d s); eauto.
Qed.

Lemma tokens_skip d s : tokens d (skip_delim d s) = tokens d s.
Proof.
  induction s as [|c s IH]; [done|]. simpl. case_decide as E; [|done].
  rewrite IH. unfold tokens at 2. simpl. rewrite decide_True by done.
  by rewrite filter_cons_False by (by intros []).
Qed.

Lemma cut_token_fields d s :
  fields d s = (cut_token d s).1 :: (if decide (d ∈ s) then fields d (cut_token d s).2 else []).
Proof.
  induction s as [|c s IH]; [done|]. cbn [fields cut_token].
  destruct (decide (c = d)) as [->|E].
  - rewrite (decide_True (P := d ∈ d :: s)) by set_solver. done.
  - rewrite IH. destruct (cut_token d s) as [t r]. cbn [fst snd]. f_equal.
    apply decide_ext. set_solver.
Qed.

Lemma cut_token_rest d s : d ∉ s -> (cut_token d s).2 = [].
Proof.
  induction s as [|c s IH]; [done|]. intros H. simpl.
  rewrite decide_False by set_solver. destruct (cut_token d s) eqn:E. simpl in *.
  apply IH. set_solver.
Qed.

Lemma skip_delim_head d s c s' : skip_delim d s = c :: s' -> c <> d.
Proof. induction s as [|a s IH]; simpl; [done|]. case_decide; [done|congruence]. Qed.

(** One call gives the first token and leaves the others. *)
Lemma strtok_r_tokens d s :
  match strtok_r d s with
  | (None, r) => tokens d s = [] /\ r = []
  | (Some t, r) => tokens d s = t :: tokens d r
  end.
Proof.
  unfold strtok_r. rewrite <- (tokens_skip d s).
  destruct (skip_delim d s) as [|c s'] eqn:E; [done|].
  apply skip_delim_head in E.
  pose proof (cut_token_fields d (c :: s')) as Hf.
  pose proof (cut_token_rest d (c :: s')) as Hr.
  destruct (cut_token d (c :: s')) as [t r] eqn:Ec. cbn [fst snd] in *.
  assert (t <> []) as Ht.
  { simpl in Ec. rewrite decide_False in Ec by done.
    destruct (cut_token d s'). by injection Ec as <- _. }
  unfold tokens. rewrite Hf, filter_cons_True by done. f_equal.
  case_decide; [done|]. by rewrite Hr.
Qed.

(** The length that the tokens need, each with a delimiter after it. *)
Definition spread (ts : list word) : Z := foldr (fun t n => zlen t + 1 + n) 0 ts.

Lemma spread_cons t ts : spread (t :: ts) = zlen t + 1 + spread ts.
Proof. done. Qed.

Lemma zlen_cons {A} (x : A) l : zlen (x :: l) = 1 + zlen l.
Proof. cbn [length]. lia. Qed.

#[local] Hint Rewrite spread_cons @zlen_cons : len.

Lemma spread_fields d s : spread (fields d s) = zlen s + 1.
Proof.
  induction s as [|c s IH]; [done|]. cbn [fields]. case_decide.
  - rewrite spread_cons, IH, zlen_cons. simpl. lia.
  - destruct (fields_cons d s) as (f & fs & E). rewrite E in *. len.
Qed.

Lemma spread_filter (ts : list word) : spread (filter (fun f => f <> []) ts) <= spread ts.
Proof.
  induction ts as [|t ts IH]; [done|]. rewrite spread_cons.
  destruct (decide (t <> [])).
  - rewrite filter_cons_True by done. len.
  - rewrite filter_cons_False by done. lia.
Qed.

Lemma spread_tokens d s : spread (tokens d s) <= zlen s + 1.
Proof. rewrite <- (spread_fields d s). apply spread_filter. Qed.

Lemma spread_nonneg ts : 0 <= spread ts.
Proof. induction ts; [done|]. len. Qed.

Lemma tokens_count d s : (length (tokens d s) <= length s)%nat.
Proof.
  pose proof (spread_tokens d s) as H.
  assert (Forall (fun t => t <> []) (tokens d s)) as Hne.
  { apply list.Forall_forall. intros t [? _]%list_elem_of_filter. done. }
  assert (forall ts, Forall (fun t : word => t <> []) ts -> 2 * zlen ts <= spread ts) as Hl.
  { induction 1 as [|t ts Ht _ IH]; [done|]. destruct t; [done|]. len. }
  specialize (Hl _ Hne). destruct s; [done|]. cbn [length] in *. lia.
Qed.

Lemma key_value_length kv k v :
  key_value kv = Some (k, v) -> zlen (render (k, v)) <= zlen kv.
Proof.
  unfold key_value, render. pose proof (spread_tokens "="%char kv) as H.
  destruct (tokens _ kv) as [|k' vs]; [done|]. intros [= <- <-]. cbn [fst snd].
  destruct vs as [|v vs]; cbn [head].
  - rewrite app_nil_r. len. pose proof (spread_nonneg []). lia.
  - pose proof (spread_nonneg vs). len. rewrite Nat2Z.inj_add. len.
Qed.

(** The second call of the loop body gives the value. *)
Lemma key_value_strtok kv :
  (let '(key, ctx2) := strtok_r "="%char kv in
   let '(value, _) := strtok_r "="%char ctx2 in
   (fun k => (k, value)) <$> key) = key_value kv.
Proof.
  unfold key_value. pose proof (strtok_r_tokens "="%char kv) as H.
  destruct (strtok_r _ kv) as [[k|] r].
  - rewrite H. pose proof (strtok_r_tokens "="%char r) as H'.
    destruct (strtok_r _ r) as [[v|] r']; simpl.
    + by rewrite H'.
    + destruct H' as [-> _]. done.
  - destruct H as [-> ->]. done.
Qed.

(** ** The loop over the options *)

Lemma parse_tokens_stuck fuel kv ctx p :
  key_value kv = None -> parse_tokens fuel (Some kv) ctx p = Spins.
Proof.
  intros H. induction fuel as [|fuel IH]; [done|]. cbn [parse_tokens].
  rewrite <- key_value_strtok in H.
  destruct (strtok_r "="%char kv) as [[k|] r]; destruct (strtok_r _ r); done.
Qed.

Lemma parse_tokens_step fuel kv ctx p k v :
  key_value kv = Some (k, v) ->
  parse_tokens (S fuel) (Some kv) ctx p
  = (p ← parse_option k v p;
     let '(kvtoken, ctx1) := strtok_r ","%char ctx in parse_tokens fuel kvtoken ctx1 p).
Proof.
  intros H. cbn [parse_tokens]. rewrite <- key_value_strtok in H.
  destruct (strtok_r "="%char kv) as [[k'|] r]; destruct (strtok_r _ r); [|done].
  by injection H as -> ->.
Qed.

(** With more fuel than tokens the loop is the fold over the tokens, with less it
    may only be unfinished. *)
Lemma option_loop_all fuel s p :
  option_loop fuel s p = parse_all (tokens ","%char s) p
  \/ (fuel <= length (tokens ","%char s))%nat /\ option_loop fuel s p = Spins.
Proof.
  revert s p. induction fuel as [|fuel IH]; intros s p.
  { right. split; [lia|]. unfold option_loop. by destruct (strtok_r _ s). }
  unfold option_loop. pose proof (strtok_r_tokens ","%char s) as Ht.
  destruct (strtok_r _ s) as [[kv|] ctx]; [|by left; destruct Ht as [-> _]].
  rewrite Ht. cbn [parse_all length]. destruct (key_value kv) as [[k v]|] eqn:E.
  - rewrite (parse_tokens_step _ _ _ _ _ _ E).
    destruct (parse_option k v p) as [p'| | |]; simpl; auto.
    destruct (IH ctx p') as [H|[Hl H]]; [by left|]. right. split; [lia|done].
  - left. by apply parse_tokens_stuck.
Qed.

Lemma option_loop_enough fuel s p :
  (length s < fuel)%nat -> option_loop fuel s p = parse_all (tokens ","%char s) p.
Proof.
  intros H. destruct (option_loop_all fuel s p) as [|[Hl _]]; [done|].
  pose proof (tokens_count ","%char s). lia.
Qed.

(** C36. The loop over the mount options, which cuts the string in place with one cursor
    for the options and one for the parts of an option, computes what a fold over the
    non-empty fields between commas computes, each split into its key and its first
    value, errors and endless runs included. One round per character is enough. *)
Theorem option_loop_is_fold fuel s p :
  (length s < fuel)%nat -> option_loop fuel s p = parse_all (tokens ","%char s) p.
Proof. apply option_loop_enough. Qed.

Lemma option_loop_is_fold_witness :
  option_loop 16 (chars "size=4m,,x=1,,") (mkParser no_options (replicate 16 NUL) 0)
  = parse_all [chars "size=4m"; chars "x=1"] (mkParser no_options (replicate 16 NUL) 0).
Proof.
  apply (option_loop_is_fold 16 (chars "size=4m,,x=1,,")). simpl. lia.
Defined.

(** ** The output buffer *)

(** The parser after the text [t] was written into the buffer [b]. *)
Definition wrote (o : fuse_ramfs_options) (b : list ascii) (t : word) : parser :=
  mkParser o (t ++ drop (length t) b) (zlen t).

Lemma put_wrote o b t c :
  zlen t < zlen b -> put c (wrote o b t) = Done (wrote o b (t ++ [c])).
Proof.
  intros H. unfold put, wrote, vec_set. cbn [newopt ptr].
  rewrite (proj2 (andb_true_iff _ _)).
  2: { rewrite Z.leb_le, Z.ltb_lt. split; [lia|]. rewrite length_app, length_drop. lia. }
  simpl. rewrite Nat2Z.id, insert_app_r_alt, Nat.sub_diag by lia.
  destruct (drop (length t) b) as [|x r] eqn:E.
  { apply (f_equal length) in E. rewrite length_drop in E. simpl in E. lia. }
  unfold mbind, out_bind. f_equal. rewrite length_app. f_equal.
  - simpl. rewrite <- app_assoc. do 2 f_equal. cbn [app]. f_equal.
    rewrite Nat.add_1_r, <- (Nat.add_1_l (length t)), Nat.add_comm, <- drop_drop, E. done.
  - simpl. lia.
Qed.

Lemma put_all_wrote o b t s :
  zlen t + zlen s <= zlen b -> put_all s (wrote o b t) = Done (wrote o b (t ++ s)).
Proof.
  revert t. induction s as [|c s IH]; intros t H; [by rewrite app_nil_r|].
  rewrite zlen_cons in H. cbn [put_all]. rewrite put_wrote by lia. cbn.
  rewrite IH, <- app_assoc; [done|]. rewrite length_app. simpl. lia.
Qed.

Lemma keep_option_wrote o b t kv :
  recognised kv.1 = false ->
  zlen t + 1 + zlen (render kv) <= zlen b ->
  keep_option kv.1 kv.2 (wrote o b t) = Done (wrote o b (leave_option t kv)).
Proof.
  intros Hr H. unfold keep_option, leave_option. rewrite Hr. cbn [ptr wrote].
  destruct kv as [k v]. unfold render in *. cbn [fst snd] in *. rewrite length_app in H.
  assert ((if 0 <? zlen t then put ","%char (wrote o b t) else Done (wrote o b t))
          = Done (wrote o b (if decide (t = []) then [] else t ++ [","%char]))) as ->.
  { destruct t as [|c t]; [done|]. rewrite (proj2 (Z.ltb_lt 0 _)) by (simpl; lia).
    rewrite put_wrote by lia. done. }
  set (t' := if decide _ then _ else _).
  assert (zlen t' <= zlen t + 1) as Ht.
  { subst t'. case_decide; [simpl; lia|]. rewrite length_app. simpl. lia. }
  unfold mbind at 1, out_bind at 1. rewrite put_all_wrote by lia.
  unfold mbind at 1, out_bind at 1. destruct v as [v|]; [|by rewrite app_nil_r].
  rewrite zlen_cons in H || (cbn [length] in H).
  rewrite put_wrote by (rewrite length_app; lia). unfold mbind, out_bind.
  rewrite put_all_wrote by (rewrite !length_app; simpl; lia).
  by rewrite <- !app_assoc.
Qed.

(** One option, whatever it is. *)
Lemma parse_option_wrote o b t kv :
  zlen t + 1 + zlen (render kv) <= zlen b ->
  parse_option kv.1 kv.2 (wrote o b t)
  = Done (wrote (apply_option o kv) b (leave_option t kv)).
Proof.
  destruct kv as [k v]. intros Hl. cbn [fst snd]. unfold parse_option.
  destruct (decide (k = chars "size")) as [->|N1];
    [|destruct (decide (k = chars "inodes")) as [->|N2];
      [|destruct (decide (k = chars "subtype")) as [->|N3]]].
  1-2: by destruct v as [v|].
  { by destruct v. }
  pose proof (keep_option_wrote o b t (k, v)) as Hk. cbn [fst snd] in Hk.
  rewrite Hk; [| |done].
  2: { unfold recognised. apply bool_decide_eq_false. set_solver. }
  unfold apply_option. by destruct v; rewrite ?decide_False by done.
Qed.

Lemma leave_option_length t kv : zlen (leave_option t kv) <= zlen t + 1 + zlen (render kv).
Proof.
  unfold leave_option. destruct (recognised _); [lia|].
  rewrite length_app. case_decide; [simpl; lia|]. rewrite length_app. simpl. lia.
Qed.

(** The whole list of tokens: the configuration and the text that is left. *)
Lemma parse_all_wrote o b t kvs :
  Forall has_key kvs ->
  zlen t + spread kvs <= zlen b ->
  parse_all kvs (wrote o b t)
  = Done (wrote (foldl apply_option o (omap key_value kvs)) b
                (foldl leave_option t (omap key_value kvs))).
Proof.
  intros Hk. revert o t. induction Hk as [|kv kvs [[k v] E] _ IH]; intros o t Hl; [done|].
  cbn [parse_all omap list_omap] in *. rewrite E in *.
  pose proof (key_value_length _ _ _ E) as Hr. rewrite spread_cons in Hl.
  pose proof (spread_nonneg kvs).
  pose proof (parse_option_wrote o b t (k, v)) as Hp. cbn [fst snd] in Hp.
  rewrite Hp by (done || lia). unfold mbind, out_bind. rewrite IH; [done|].
  pose proof (leave_option_length t (k, v)). lia.
Qed.

(** ** Properties of the options *)

(** What the last step makes of the text: a final switch is overwritten. *)
Definition trim_switch (t : word) : word :=
  match rev t with
  | c :: d :: r =>
      if decide (c = "o"%char)
      then if decide (d = "-"%char) then rev r ++ [NUL; NUL] else rev r ++ [d; NUL]
      else t
  | _ => t
  end.

(** The text is empty or is one letter [o]: the step reads before the buffer. *)
Definition too_short (t : word) : bool := bool_decide (t = [] \/ t = ["o"%char]).

Definition too_small (o : fuse_ramfs_options) : bool :=
  (0 <? opt_capacity o) && (opt_capacity o <? 1024)
  || (0 <? opt_inodes o) && (opt_inodes o <? 2).

Lemma verify_options_eq o :
  verify_options o = if too_small o then Exits 1 else Done tt.
Proof.
  unfold verify_options, too_small. destruct (_ && _); [done|]. by destruct (_ && _).
Qed.

Lemma vec_at_app_last {A} (l : list A) x r i :
  i = zlen l -> vec_at (l ++ x :: r) i = Some x.
Proof. intros ->. apply vec_at_Some. split; [lia|]. rewrite Nat2Z.id. by apply list_lookup_middle. Qed.

Lemma vec_set_app_last {A} (l : list A) x y r i :
  i = zlen l -> vec_set (l ++ x :: r) i y = Some (l ++ y :: r).
Proof.
  intros ->. apply vec_set_Some. rewrite length_app. cbn [length]. split; [lia|].
  by rewrite Nat2Z.id, insert_app_r_alt, Nat.sub_diag by lia.
Qed.

Lemma erase_switch_wrote o b t :
  erase_switch (wrote o b t)
  = if too_short t then Fails fault_bounds
    else Done (trim_switch t ++ drop (length t) b).
Proof.
  unfold erase_switch, wrote, too_short, trim_switch. cbn [newopt ptr].
  generalize (drop (length t) b) as r. intros r.
  destruct t as [|c t _] using rev_ind; [done|].
  rewrite rev_app_distr, <- app_assoc. cbn [rev app].
  rewrite (vec_at_app_last t) by (rewrite length_app; simpl; lia). simpl.
  destruct (decide (c = "o"%char)) as [->|Nc].
  - rewrite (vec_set_app_last t) by (rewrite length_app; simpl; lia). simpl.
    destruct t as [|d t _] using rev_ind; [done|].
    rewrite bool_decide_eq_false_2.
    2: { intros [H|H]; apply (f_equal length) in H; rewrite !length_app in H; simpl in H; lia. }
    rewrite rev_app_distr, <- app_assoc. cbn [rev app].
    rewrite (vec_at_app_last t) by (rewrite !length_app; simpl; lia). simpl.
    rewrite rev_involutive. destruct (decide (d = "-"%char)).
    + rewrite (vec_set_app_last t) by (rewrite !length_app; simpl; lia). simpl.
      by rewrite <- app_assoc.
    + by rewrite <- !app_assoc.
  - rewrite bool_decide_eq_false_2.
    2: { intros [H|H]; [by destruct t|].
         destruct t as [|? []]; simpl in H; congruence. }
    destruct (rev t) as [|d r']; by rewrite <- app_assoc.
Qed.

(** The switches in front of the options of a word: none, or from a dash up to
    the first letter [o]. *)
Definition switches (pre s : word) : Prop :=
  pre = [] /\ head s <> Some "-"%char
  \/ exists sw, pre = "-"%char :: sw ++ ["o"%char] /\ "o"%char ∉ sw.

Lemma copy_switches_wrote o b t sw s :
  "o"%char ∉ sw -> zlen t + zlen sw + 1 <= zlen b ->
  copy_switches (sw ++ "o"%char :: s) (wrote o b t)
  = Done (s, wrote o b (t ++ sw ++ ["o"%char])).
Proof.
  revert t. induction sw as [|c sw IH]; intros t Ho Hl; cbn [copy_switches app].
  - simpl in Hl. rewrite put_wrote by lia. simpl. done.
  - rewrite zlen_cons in Hl. rewrite put_wrote by lia. unfold mbind, out_bind.
    rewrite decide_False by set_solver.
    rewrite IH; [|set_solver|rewrite length_app; simpl; lia]. by rewrite <- app_assoc.
Qed.

Lemma bypass_prefix_wrote o b pre s :
  switches pre s -> zlen pre <= zlen b ->
  bypass_prefix (pre ++ s) (wrote o b []) = Done (s, wrote o b pre).
Proof.
  intros [[-> Hh]|(sw & -> & Ho)] Hl.
  - destruct s as [|c s]; [done|]. cbn [app bypass_prefix].
    rewrite decide_False; [done|]. intros ->. by apply Hh.
  - cbn [app bypass_prefix]. rewrite decide_True by done.
    rewrite <- app_assoc. cbn [app]. rewrite app_comm_cons.
    rewrite zlen_cons, length_app in Hl. cbn [length] in Hl.
    rewrite copy_switches_wrote; [done|set_solver|]. cbn [length]. lia.
Qed.

Lemma option_loop_wrote o b t s :
  Forall has_key (tokens ","%char s) ->
  zlen t + zlen s + 1 <= zlen b ->
  option_loop (S (length s)) s (wrote o b t)
  = Done (wrote (foldl apply_option o (options_of s)) b
                (foldl leave_option t (options_of s))).
Proof.
  intros Hk Hl. rewrite option_loop_enough by lia. apply parse_all_wrote; [done..|].
  pose proof (spread_tokens ","%char s). lia.
Qed.

Lemma parse_all_has_key kvs p p' : parse_all kvs p = Done p' -> Forall has_key kvs.
Proof.
  revert p. induction kvs as [|kv kvs IH]; intros p H; [done|]. cbn [parse_all] in H.
  destruct (key_value kv) as [[k v]|] eqn:E; [|done].
  destruct (parse_option k v p) as [p1| | |]; [|done..].
  constructor; [by unfold has_key; rewrite E|by eapply IH].
Qed.

(** C35. The loop over the options of a mount option string returns exactly when
    every token between commas has a character other than an equals sign (and then
    within as many rounds as the string has characters): a token made of equals signs
    only makes it run forever. The output buffer has room for the string. *)
Theorem option_loop_termination o b t s :
  zlen t + zlen s + 1 <= zlen b ->
  ((exists fuel p, option_loop fuel s (wrote o b t) = Done p)
   <-> Forall has_key (tokens ","%char s))
  /\ (Forall has_key (tokens ","%char s) ->
      exists p, option_loop (S (length s)) s (wrote o b t) = Done p).
Proof.
  intros Hl.
  assert (Forall has_key (tokens ","%char s) ->
      exists p, option_loop (S (length s)) s (wrote o b t) = Done p) as Hr.
  { intros Hk. eexists. by apply option_loop_wrote. }
  split; [|done]. split; [|by intros Hk; destruct (Hr Hk) as [p Hp]; eauto].
  intros (fuel & p & H). destruct (option_loop_all fuel s (wrote o b t)) as [E|[_ E]];
    rewrite E in H; [|done]. by eapply parse_all_has_key.
Qed.

Lemma option_loop_termination_witness :
  (exists p, option_loop 12 (chars "size=4m,a=b") (wrote no_options (replicate 12 NUL) [])
             = Done p)
  /\ ~ (exists fuel p, option_loop fuel (chars "size=4m,=") (wrote no_options (replicate 12 NUL) [])
             = Done p).
Proof.
  split.
  - apply (option_loop_termination no_options (replicate 12 NUL) [] (chars "size=4m,a=b")).
    + by vm_compute.
    + repeat constructor; by vm_compute; eauto.
  - intros H.
    apply (proj1 (option_loop_termination no_options (replicate 12 NUL) [] (chars "size=4m,=")
             ltac:(by vm_compute))) in H.
    inversion H as [|? ? _ H']; subst. inversion H' as [|? ? [x Hx] _]; subst. by vm_compute in Hx.
Defined.

Lemma parse_options_eq fresh pre s o :
  switches pre s ->
  Forall has_key (tokens ","%char s) ->
  let o' := foldl apply_option o (options_of s) in
  let left := foldl leave_option pre (options_of s) in
  ramfs_parse_options fresh (pre ++ s) o
  = if too_small o' then Exits 1
    else if too_short left then Fails fault_bounds
    else Done (trim_switch left
                 ++ drop (length left) (fresh <$> seq 0 (S (length (pre ++ s)))), o').
Proof.
  intros Hs Hk o' left. unfold ramfs_parse_options.
  set (b := fresh <$> seq 0 (S (length (pre ++ s)))).
  assert (zlen b = zlen pre + zlen s + 1) as Hb.
  { subst b. rewrite length_fmap, length_seq, length_app. lia. }
  change (mkParser o b 0) with (wrote o b []).
  rewrite bypass_prefix_wrote by (done || lia). unfold mbind at 1, out_bind at 1.
  rewrite option_loop_wrote by (done || lia). unfold mbind at 1, out_bind at 1.
  cbn [ps_opt wrote]. rewrite verify_options_eq. fold o' left.
  destruct (too_small o'); [done|]. simpl.
  rewrite erase_switch_wrote. by destruct (too_short left).
Qed.

(** C37. [ramfs_parse_options] on any string whose tokens have keys: the
    configuration is that of its options applied in order, a capacity below 1 KB or
    fewer than two inodes ends the program, and the result starts with the switches and the
    options that were not recognised, in order, a final switch erased; with
    nothing left and no switch in front, the code reads before its buffer. No write leaves the
    buffer, and what follows the text is the content of fresh memory. *)
Theorem ramfs_parse_options_spec fresh pre s o :
  switches pre s ->
  Forall has_key (tokens ","%char s) ->
  let o' := foldl apply_option o (options_of s) in
  let left := foldl leave_option pre (options_of s) in
  ramfs_parse_options fresh (pre ++ s) o
  = if too_small o' then Exits 1
    else if too_short left then Fails fault_bounds
    else Done (trim_switch left
                 ++ drop (length left) (fresh <$> seq 0 (S (length (pre ++ s)))), o').
Proof. apply parse_options_eq. Qed.

Lemma ramfs_parse_options_spec_witness :
  ramfs_parse_options (fun _ => "#"%char) (chars "-o" ++ chars "rw,size=1m,uid=0") no_options
  = Done (chars "-o,rw,uid=0########", set_capacity 1048576 no_options).
Proof.
  rewrite (ramfs_parse_options_spec (fun _ => "#"%char) (chars "-o")
             (chars "rw,size=1m,uid=0") no_options).
  - by vm_compute.
  - right. exists []. split; [done|]. set_solver.
  - repeat constructor; by vm_compute; eauto.
Defined.

(** ** The command line *)

Lemma leave_sizes t kvs :
  Forall (fun kv => sizes kv.1 = true) kvs -> foldl leave_option t kvs = t.
Proof.
  intros H. revert t. induction H as [|kv kvs Hs _ IH]; intros t; [done|]. simpl.
  unfold leave_option at 2. rewrite IH.
  unfold sizes, recognised in *. rewrite bool_decide_eq_true in Hs.
  rewrite bool_decide_eq_true_2 by set_solver. done.
Qed.

Lemma apply_sizes_subtype o kvs :
  Forall (fun kv => sizes kv.1 = true) kvs ->
  opt_subtype (foldl apply_option o kvs) = opt_subtype o.
Proof.
  intros H. revert o. induction H as [|[k v] kvs Hs _ IH]; intros o; [done|].
  cbn [foldl]. rewrite IH. unfold sizes in Hs. rewrite bool_decide_eq_true in Hs.
  cbn [fst] in Hs. unfold apply_option. destruct v; [|done].
  case_decide as E1; [done|]. case_decide as E2; [done|]. set_solver.
Qed.

Section command_lines.
Variable add_arg : list word -> word -> list word.
Hypothesis add_arg_appends : forall args a, add_arg args a = args ++ [a].
Variable fresh : nat -> ascii.

(** The words of libfuse after a command line with nothing left for it. *)
Definition default_args (prog : word) : list word :=
  [prog; chars "-osubtype=" ++ basename prog; chars "-odefault_permissions";
   chars "-oallow_other"].

Definition started (prog mp : word) (o : fuse_ramfs_options) : fuse_ramfs_options :=
  set_subtype (Live (basename prog)) (set_mountpoint (Live mp) o).

(** The first call of [getopt] finds the [-o] word, the second the end. *)
Lemma getopt_attached prog s mp :
  s <> [] ->
  getopt [prog; chars "-o" ++ s; mp] getopt_start
  = Done (OptChar "o"%char, [prog; chars "-o" ++ s; mp], mkGetopt 2 NoCursor 1 1 true).
Proof.
  intros Hs. destruct s as [|c s]; [done|]. by vm_compute.
Qed.

Lemma getopt_mountpoint prog a mp :
  nonoption mp = true ->
  getopt [prog; a; mp] (mkGetopt 2 NoCursor 1 1 true)
  = Done (OptEnd, [prog; a; mp], mkGetopt 2 NoCursor 2 3 true).
Proof. intros Hm. lazy -[nonoption]. by rewrite Hm. Qed.

Lemma getopt_single prog mp :
  nonoption mp = true ->
  getopt [prog; mp] getopt_start = Done (OptEnd, [prog; mp], mkGetopt 1 NoCursor 1 2 true).
Proof. intros Hm. lazy -[nonoption]. by rewrite Hm. Qed.

Lemma copy_word_ok s : zlen s <= OPTION_MAX -> copy_word s = Done s.
Proof. intros. unfold copy_word. by rewrite (proj2 (Z.leb_le _ _)). Qed.

Lemma parse_options_sizes s o :
  Forall has_key (tokens ","%char s) ->
  Forall (fun kv => sizes kv.1 = true) (options_of s) ->
  too_small (foldl apply_option o (options_of s)) = false ->
  exists r, ramfs_parse_options fresh (chars "-o" ++ s) o
            = Done (NUL :: r, foldl apply_option o (options_of s)).
Proof.
  intros Hk Hs Hsmall. eexists.
  rewrite parse_options_eq; [|right; exists []; by split; [|set_solver]|done..].
  rewrite Hsmall, leave_sizes by done.
  rewrite (eq_refl : too_short (chars "-o") = false).
  rewrite (eq_refl : trim_switch (chars "-o") = [NUL; NUL]). done.
Qed.

(** [-o] with sizes: they are taken, and the word is marked for removal. *)
Lemma case_o_sizes prog s mp d o i1 :
  zlen s + 2 <= OPTION_MAX ->
  Forall has_key (tokens ","%char s) ->
  Forall (fun kv => sizes kv.1 = true) (options_of s) ->
  too_small (foldl apply_option o (options_of s)) = false ->
  opt_subtype o = Null -> optind d = 2 ->
  case_o fresh (mkCmdline [prog; chars "-o" ++ s; mp] d o 0 i1)
  = Done (mkCmdline [prog; chars "-o" ++ s; mp] d (foldl apply_option o (options_of s)) 0 1).
Proof.
  intros Hl Hk Hs Hsmall Ho Hd. unfold case_o. cbn [cl_args cl_getopt cl_opt o_idx1].
  rewrite Hd. change (vec_at _ (2 - 1)) with (Some (chars "-o" ++ s)).
  unfold mbind at 1, out_bind at 1, or_fails at 1.
  rewrite copy_word_ok by (rewrite length_app; simpl (length (chars "-o")); lia).
  unfold mbind at 1, out_bind at 1.
  destruct (parse_options_sizes s o) as [r ->]; [done..|].
  unfold mbind at 1, out_bind at 1, drop_buffer. rewrite apply_sizes_subtype, Ho by done.
  change (c_string (NUL :: r)) with (Some ([] : word)).
  change (vec_at _ (2 - 1 - 1)) with (Some prog). cbn -[decide].
  rewrite decide_True by done. by case_decide.
Qed.

(** The mount point is the last word; without a subtype, the default is added. *)
Lemma take_last_word prog l mp d o i1 i2 :
  optind d = zlen (prog :: l) -> zlen mp <= OPTION_MAX ->
  take_mountpoint add_arg (mkCmdline ((prog :: l) ++ [mp]) d o i1 i2)
  = Done (match opt_subtype o with
          | Null => mkCmdline ((prog :: l) ++ [chars "-osubtype=" ++ basename prog]) d
                      (started prog mp o) i1 i2
          | _ => mkCmdline (prog :: l) d (set_mountpoint (Live mp) o) i1 i2
          end).
Proof.
  intros Hd Hm. unfold take_mountpoint. cbn [cl_args cl_getopt cl_opt o_idx1 argo_idx].
  rewrite Hd. rewrite length_app. cbn [length].
  rewrite (proj2 (Z.leb_gt _ _)) by lia. rewrite (proj2 (Z.eqb_eq _ _)) by lia.
  rewrite (vec_at_app_last (prog :: l)) by done. autorewrite with out.
  rewrite copy_word_ok by done. autorewrite with out.
  change (opt_subtype (set_mountpoint (Live mp) o)) with (opt_subtype o).
  unfold erase_arg. rewrite length_app. cbn [length]. rewrite (proj2 (Z.leb_gt _ _)) by lia.
  rewrite Nat2Z.id, take_app_length', drop_ge, app_nil_r by (rewrite ?length_app; simpl; lia).
  destruct (opt_subtype o); [|done..].
  change (vec_at (prog :: l) 0) with (Some prog). autorewrite with out.
  unfold ramfs_set_subtype. by rewrite add_arg_appends.
Qed.

(** The end of the parser when one word with [-o] is removed. *)
Lemma cmdline_sizes fuel prog s mp o :
  s <> [] -> zlen s + 2 <= OPTION_MAX -> zlen mp <= OPTION_MAX ->
  nonoption mp = true ->
  Forall has_key (tokens ","%char s) ->
  Forall (fun kv => sizes kv.1 = true) (options_of s) ->
  too_small (foldl apply_option o (options_of s)) = false ->
  opt_subtype o = Null ->
  ramfs_parse_cmdline add_arg fresh (S (S fuel)) [prog; chars "-o" ++ s; mp] o
  = Done (default_args prog, started prog mp (foldl apply_option o (options_of s))).
Proof.
  intros Hs Hl Hm Hn Hk Hsz Hsmall Ho. unfold ramfs_parse_cmdline.
  set (o' := foldl apply_option o (options_of s)).
  assert (getopt_loop fresh (S (S fuel)) (mkCmdline [prog; chars "-o" ++ s; mp] getopt_start o 0 0)
          = Done (mkCmdline [prog; chars "-o" ++ s; mp] (mkGetopt 2 NoCursor 2 3 true) o' 0 1))
    as ->.
  { cbn [getopt_loop cl_args cl_getopt]. rewrite getopt_attached by done.
    unfold mbind at 1, out_bind at 1. rewrite decide_True by done. cbn [cl_opt o_idx1 argo_idx].
    rewrite case_o_sizes by done. unfold mbind at 1, out_bind at 1.
    cbn [getopt_loop cl_args cl_getopt cl_opt o_idx1 argo_idx].
    by rewrite getopt_mountpoint by done. }
  unfold mbind at 1, out_bind at 1.
  change [prog; chars "-o" ++ s; mp] with ([prog; chars "-o" ++ s] ++ [mp]).
  rewrite take_last_word by done. subst o'. rewrite apply_sizes_subtype, Ho by done.
  cbn -[decide chars foldl]. by rewrite !add_arg_appends.
Qed.

Lemma cmdline_plain fuel prog mp o :
  zlen mp <= OPTION_MAX -> nonoption mp = true -> opt_subtype o = Null ->
  ramfs_parse_cmdline add_arg fresh (S fuel) [prog; mp] o
  = Done (default_args prog, started prog mp o).
Proof.
  intros Hm Hn Ho. unfold ramfs_parse_cmdline.
  cbn [getopt_loop cl_args cl_getopt]. rewrite getopt_single by done.
  unfold mbind at 1, out_bind at 1, mbind at 1, out_bind at 1.
  change [prog; mp] with ([prog] ++ [mp]). rewrite take_last_word by done.
  cbn [cl_opt]. rewrite Ho.
  cbn -[decide chars foldl]. by rewrite !add_arg_appends.
Qed.
End command_lines.

(** ** The program *)

Definition exit_code (err : Z) : Z := if err =? 0 then 0 else 1.

Lemma copy_args_eq argv : copy_args argv = argv.
Proof.
  induction argv as [|s argv IH]; [done|]. cbn. rewrite take_ge by lia. by f_equal.
Qed.

(** [main] once the command line is parsed to a configuration without faults. *)
Lemma main_started lib fresh fuel argv prog mp o :
  ramfs_parse_cmdline (fuse_opt_add_arg lib) fresh fuel argv no_options
  = Done (default_args prog, started prog mp o) ->
  main lib fresh fuel argv
  = Done (construct (opt_capacity o / BufBlockSize) (opt_inodes o),
          (serve_mount lib mp (default_args prog) (opt_deamonize o)).1,
          exit_code (serve_mount lib mp (default_args prog) (opt_deamonize o)).2).
Proof.
  intros H. unfold main. rewrite copy_args_eq, H. autorewrite with out. cbn [c_word started
    opt_subtype opt_mountpoint set_subtype set_mountpoint opt_deamonize opt_capacity opt_inodes].
  autorewrite with out. by destruct (serve_mount _ _ _ _).
Qed.

Lemma serve_mount_calls lib mp args d args' :
  fuse_mount lib mp args = Some args' -> fuse_lowlevel_new lib args' = true ->
  fuse_set_signal_handlers lib = true ->
  (serve_mount lib mp args d).1 = [call_mount mp args; call_lowlevel_new args';
    call_daemonize (negb d); call_set_signal_handlers; call_session_add_chan;
    call_session_loop; call_remove_signal_handlers; call_session_remove_chan;
    call_session_destroy; call_unmount mp].
Proof. intros H1 H2 H3. unfold serve_mount, run_session. by rewrite H1, H2, H3. Qed.

Lemma serve_mount_exit lib mp args d :
  exit_code (serve_mount lib mp args d).2 = 0 <->
  exists args', fuse_mount lib mp args = Some args' /\ fuse_lowlevel_new lib args' = true /\
    fuse_set_signal_handlers lib = true /\ fuse_session_loop lib = 0.
Proof.
  unfold serve_mount, run_session, exit_code.
  destruct (fuse_mount lib mp args) as [args1|]; [|split; [done|by intros (? & ? & _)]].
  destruct (fuse_lowlevel_new lib args1) eqn:H1.
  2: { split; [done|]. intros (? & [= <-] & ? & _). congruence. }
  destruct (fuse_set_signal_handlers lib); simpl; [|split; [done|by intros (? & _ & _ & ? & _)]].
  destruct (Z.eqb_spec (fuse_session_loop lib) 0) as [E|E]; split; try done; [by eauto|].
  by intros (_ & _ & _ & _ & ?).
Qed.

(** C38. The command lines [prog mountpoint] and [prog -oSIZES mountpoint], where
    SIZES is any list of size and inode options that are not too small:
    the program makes a file system with the given number of bytes (in blocks) and inodes, zero
    standing for the default, takes the options it knows out of the command line,
    adds its name as the subtype, and mounts at the mount point. When libfuse mounts and makes a
    session and sets its signal handlers, the calls to it are those of a session that is set up,
    served and taken down in order; the program exits with 0 exactly when, besides, the
    loop of the session does. *)
Theorem main_mounts lib fresh fuel prog mp s :
  (forall args a, fuse_opt_add_arg lib args a = args ++ [a]) ->
  zlen s + 2 <= OPTION_MAX -> zlen mp <= OPTION_MAX -> nonoption mp = true ->
  Forall has_key (tokens ","%char s) ->
  Forall (fun kv => sizes kv.1 = true) (options_of s) ->
  let o := foldl apply_option no_options (options_of s) in
  too_small o = false ->
  let served := serve_mount lib mp (default_args prog) (opt_deamonize o) in
  main lib fresh (S (S fuel))
    (if decide (s = []) then [prog; mp] else [prog; chars "-o" ++ s; mp])
  = Done (construct (opt_capacity o / BufBlockSize) (opt_inodes o), served.1,
          exit_code served.2) /\
  (forall args, fuse_mount lib mp (default_args prog) = Some args ->
     fuse_lowlevel_new lib args = true -> fuse_set_signal_handlers lib = true ->
     served.1 = [call_mount mp (default_args prog); call_lowlevel_new args;
       call_daemonize (negb (opt_deamonize o)); call_set_signal_handlers; call_session_add_chan;
       call_session_loop; call_remove_signal_handlers; call_session_remove_chan;
       call_session_destroy; call_unmount mp]) /\
  (exit_code served.2 = 0 <->
   exists args, fuse_mount lib mp (default_args prog) = Some args /\
     fuse_lowlevel_new lib args = true /\ fuse_set_signal_handlers lib = true /\
     fuse_session_loop lib = 0).
Proof.
  intros Ha Hl Hm Hn Hk Hs o Hsmall served. split_and!.
  - apply main_started. case_decide as E.
    + subst s. by apply cmdline_plain.
    + by apply cmdline_sizes.
  - apply serve_mount_calls.
  - apply serve_mount_exit.
Qed.

Lemma main_mounts_witness :
  main (mkLibfuse (fun args a => args ++ [a]) (fun _ args => Some args) (fun _ => true) true 0)
    (fun _ => "#"%char) 2 [chars "bin/fs"; chars "-osize=1m,inodes=20"; chars "/mnt"]
  = Done (construct 2048 20,
      let args := [chars "bin/fs"; chars "-osubtype=fs"; chars "-odefault_permissions";
                   chars "-oallow_other"] in
      [call_mount (chars "/mnt") args; call_lowlevel_new args; call_daemonize true;
       call_set_signal_handlers; call_session_add_chan; call_session_loop;
       call_remove_signal_handlers; call_session_remove_chan; call_session_destroy;
       call_unmount (chars "/mnt")], 0).
Proof.
  refine (proj1 (main_mounts
    (mkLibfuse (fun args a => args ++ [a]) (fun _ args => Some args) (fun _ => true) true 0)
    (fun _ => "#"%char) 0 (chars "bin/fs") (chars "/mnt") (chars "size=1m,inodes=20")
    _ _ _ _ _ _ _)).
  - done.
  - by vm_compute.
  - by vm_compute.
  - by vm_compute.
  - repeat constructor; by vm_compute; eauto.
  - repeat constructor; by vm_compute; eauto.
  - by vm_compute.
Defined.

(** ** Command lines that fail *)

Lemma leave_recognised t kvs :
  Forall (fun kv => recognised kv.1 = true) kvs -> foldl leave_option t kvs = t.
Proof.
  intros H. revert t. induction H as [|kv kvs Hs _ IH]; intros t; [done|]. cbn [foldl].
  rewrite IH. unfold leave_option. by rewrite Hs.
Qed.

Lemma getopt_separate prog s mp :
  getopt [prog; chars "-o"; s; mp] getopt_start
  = Done (OptChar "o"%char, [prog; chars "-o"; s; mp], mkGetopt 3 NoCursor 1 1 true).
Proof. by vm_compute. Qed.

(** The second round reads the word that the first one freed. *)
Lemma daemonize_loop fresh fuel prog mp o :
  getopt_loop fresh (S (S fuel)) (mkCmdline [prog; chars "-b"; mp] getopt_start o 0 0)
  = Fails fault_freed.
Proof. cbn [getopt_loop]. by vm_compute. Qed.

Lemma separate_loop fresh fuel prog s mp o :
  zlen s <= OPTION_MAX ->
  head s <> Some "-"%char ->
  Forall has_key (tokens ","%char s) ->
  Forall (fun kv => recognised kv.1 = true) (options_of s) ->
  too_small (foldl apply_option o (options_of s)) = false ->
  getopt_loop fresh (S fuel) (mkCmdline [prog; chars "-o"; s; mp] getopt_start o 0 0)
  = Fails fault_bounds.
Proof.
  intros Hl Hh Hk Hr Hsmall. cbn [getopt_loop cl_args cl_getopt].
  rewrite getopt_separate. autorewrite with out. rewrite decide_True by done.
  unfold case_o. cbn [cl_args cl_getopt cl_opt optind o_idx1 argo_idx].
  change (vec_at _ (3 - 1)) with (Some s). autorewrite with out.
  rewrite copy_word_ok by done. autorewrite with out.
  change (ramfs_parse_options fresh s) with (ramfs_parse_options fresh ([] ++ s)).
  rewrite parse_options_eq by (done || by left).
  by rewrite Hsmall, leave_recognised by done.
Qed.

(** A subtype that was given is a pointer into a buffer that was freed. *)
Lemma subtype_cmdline add_arg fresh fuel prog s mp v :
  (forall args a, add_arg args a = args ++ [a]) ->
  s <> [] -> zlen s + 2 <= OPTION_MAX -> zlen mp <= OPTION_MAX -> nonoption mp = true ->
  Forall has_key (tokens ","%char s) ->
  Forall (fun kv => recognised kv.1 = true) (options_of s) ->
  too_small (foldl apply_option no_options (options_of s)) = false ->
  opt_subtype (foldl apply_option no_options (options_of s)) = InBuffer v ->
  ramfs_parse_cmdline add_arg fresh (S (S fuel)) [prog; chars "-o" ++ s; mp] no_options
  = Fails fault_freed.
Proof.
  intros Ha Hs Hl Hm Hn Hk Hr Hsmall Hsub. unfold ramfs_parse_cmdline.
  cbn [getopt_loop cl_args cl_getopt]. rewrite getopt_attached by done.
  autorewrite with out. rewrite decide_True by done.
  unfold case_o. cbn [cl_args cl_getopt cl_opt optind o_idx1 argo_idx].
  change (vec_at _ (2 - 1)) with (Some (chars "-o" ++ s)). autorewrite with out.
  rewrite copy_word_ok by (rewrite length_app; simpl (length (chars "-o")); lia).
  autorewrite with out.
  rewrite parse_options_eq; [|right; exists []; by split; [|set_solver]|done..].
  rewrite Hsmall, leave_recognised by done.
  rewrite (eq_refl : too_short (chars "-o") = false).
  rewrite (eq_refl : trim_switch (chars "-o") = [NUL; NUL]). autorewrite with out.
  change (c_string ([NUL; NUL] ++ _)) with (Some ([] : word)). autorewrite with out.
  rewrite decide_True by done. change (vec_at _ (2 - 1 - 1)) with (Some prog).
  autorewrite with out. unfold drop_buffer. rewrite Hsub.
  cbn [getopt_loop cl_args cl_getopt cl_opt o_idx1 argo_idx]. rewrite getopt_mountpoint by done.
  autorewrite with out.
  change [prog; chars "-o" ++ s; mp] with ([prog; chars "-o" ++ s] ++ [mp]).
  rewrite take_last_word by done. done.
Qed.

(** C39. Three kinds of command line that are meant to be served make the program use
    memory it must not: [-o] and its options as two words, when nothing is left for
    libfuse (a read before the buffer), [-b] (the word that [getopt] is reading is freed), and a
    subtype (its name is printed after it was freed). *)
Theorem main_faults lib fresh fuel prog mp s v :
  (forall args a, fuse_opt_add_arg lib args a = args ++ [a]) ->
  s <> [] -> zlen s + 2 <= OPTION_MAX -> zlen mp <= OPTION_MAX -> nonoption mp = true ->
  head s <> Some "-"%char ->
  Forall has_key (tokens ","%char s) ->
  Forall (fun kv => recognised kv.1 = true) (options_of s) ->
  let o := foldl apply_option no_options (options_of s) in
  too_small o = false ->
  main lib fresh (S (S fuel)) [prog; chars "-o"; s; mp] = Fails fault_bounds
  /\ main lib fresh (S (S fuel)) [prog; chars "-b"; mp] = Fails fault_freed
  /\ (opt_subtype o = InBuffer v ->
      main lib fresh (S (S fuel)) [prog; chars "-o" ++ s; mp] = Fails fault_freed).
Proof.
  intros Ha Hs Hl Hm Hn Hh Hk Hr o Hsmall. unfold main. rewrite !copy_args_eq. split_and!.
  - unfold ramfs_parse_cmdline. by rewrite separate_loop by (done || lia).
  - unfold ramfs_parse_cmdline. by rewrite daemonize_loop.
  - intros Hsub. by rewrite (subtype_cmdline _ _ _ _ _ _ v) by done.
Qed.

Lemma main_faults_witness :
  let lib := mkLibfuse (fun args a => args ++ [a]) (fun _ args => Some args) (fun _ => true) true 0 in
  main lib (fun _ => "#"%char) 2 [chars "fs"; chars "-o"; chars "size=1m,subtype=x"; chars "/mnt"]
  = Fails fault_bounds
  /\ main lib (fun _ => "#"%char) 2 [chars "fs"; chars "-b"; chars "/mnt"] = Fails fault_freed
  /\ main lib (fun _ => "#"%char) 2 [chars "fs"; chars "-osize=1m,subtype=x"; chars "/mnt"]
     = Fails fault_freed.
Proof.
  destruct (main_faults
    (mkLibfuse (fun args a => args ++ [a]) (fun _ args => Some args) (fun _ => true) true 0)
    (fun _ => "#"%char) 0 (chars "fs") (chars "/mnt") (chars "size=1m,subtype=x") (chars "x"))
    as (H1 & H2 & H3); [done|done|by vm_compute..|done| | | |].
  - repeat constructor; by vm_compute; eauto.
  - repeat constructor; by vm_compute; eauto.
  - by vm_compute.
  - split; [exact H1|]. split; [exact H2|]. exact (H3 ltac:(by vm_compute)).
Defined.
