(* ===== verification/Clients.v ===== *)
(** * The client programs: [ckpt.cpp], [restore.cpp], [pkl.cpp], [load.cpp]

    Each program opens the mount point and sends one [ioctl]; [pkl] and [load]
    first leave a path in the configuration file. Here they run against the file
    system itself: the state is the mounted file system together with the files
    of the host. *)

From S2P Require Import Prelude World Util Table InodeOps FileOps DirectoryOps Nodes.
From S2P Require Import Handlers CkptRestore Codec Pickle Requests Invariant Runs Attributes PickleSpec.

(** ** Definitions *)

(** *** [strtoul] with base 10 *)

(** [isspace] *)
Definition is_space (c : Ascii.ascii) : bool :=
  (ascii_code c =? 32) || ((9 <=? ascii_code c) && (ascii_code c <=? 13)).

Fixpoint skip_white (l : list Ascii.ascii) : list Ascii.ascii :=
  match l with
  | c :: l' => if is_space c then skip_white l' else l
  | [] => []
  end.

Fixpoint leading_digits (l : list Ascii.ascii) : list Ascii.ascii :=
  match l with
  | c :: l' => if is_digit c then c :: leading_digits l' else []
  | [] => []
  end.

Definition ULONG_MAX := 2 ^ 64 - 1.

(** An optional sign, then digits; out of range, the largest value. *)
Definition strtoul (s : string) : Z :=
  let l := skip_white (String.list_ascii_of_string s) in
  let '(neg, l) :=
    match l with
    | c :: l' =>
        if ascii_code c =? 45 then (true, l')
        else if ascii_code c =? 43 then (false, l') else (false, l)
    | [] => (false, l)
    end in
  let v := decimal (leading_digits l) in
  if ULONG_MAX <? v then ULONG_MAX else if (neg : bool) then u64 (- v) else v.

(** *** The machine *)

(** The mounted file system, the content of the configuration file and the other
    files of the host. *)
Record machine := mkMachine {
  fs : world; cfg : option (list byte); files : gmap string (list byte) }.

(** What the system calls answer: [open] of a directory, [open] of the
    configuration file for writing, [write] of [n] bytes to it, and the calls
    that the file system makes itself. *)
Record syscalls := mkSyscalls {
  open_dir : string -> bool;
  open_cfg : bool;
  write_cfg : Z -> Z;
  server_open_out : string -> option Z;
  server_write : Z -> Z -> Z;
  server_errno : Z;
  server_mmap : option Z }.

(** The host as the file system sees it. *)
Definition host_of (sys : syscalls) (m : machine) : host :=
  mkHost (match cfg m with Some c => inr c | None => inl ENOENT end)
    (server_open_out sys)
    (fun path => match files m !! path with Some f => inr f | None => inl ENOENT end)
    (server_write sys) (server_errno sys) (server_mmap sys).

(** What the system call returns for the reply of the file system. *)
Definition ioctl_result (r : option reply) : Z :=
  match r with
  | Some (reply_ioctl n) => n
  | Some (reply_err err) => if err =? 0 then 0 else -1
  | _ => -1
  end.

Section clients.
Context (sha256 : list byte -> list byte) (sys : syscalls) (e : env).

(** [None] when the file system crashes. *)
Definition ioctl (cmd arg : Z) (m : machine) : option (Z * machine) :=
  match FuseIoctl sha256 (host_of sys m) cmd arg e (fs m) with
  | Ok file w =>
      let files' :=
        match file, cfg m with
        | Some f, Some c => <[config_path c := f]> (files m)
        | _, _ => files m
        end in
      Some (ioctl_result (list.last (replies w)), mkMachine w (cfg m) files')
  | Crash _ => None
  end.

(** The exit code of the program and the machine after it. *)
Definition key_client (cmd : Z) (argv : list string) (m : machine) : option (Z * machine) :=
  match argv with
  | _ :: mp :: key :: _ =>
      let key := strtoul key in
      if negb (open_dir sys mp) then Some (1, m)
      else
        '(ret, m) ← ioctl cmd key m;
        Some (if ret =? 0 then 0 else 1, m)
  | _ => Some (1, m)
  end.

Definition ckpt_main : list string -> machine -> option (Z * machine) :=
  key_client VERIFS_CHECKPOINT.
Definition restore_main : list string -> machine -> option (Z * machine) :=
  key_client VERIFS_RESTORE.

Definition PATH_MAX := 4096.

(** The configuration file is made or emptied, then the path is written. *)
Definition path_client (cmd : Z) (argv : list string) (m : machine) : option (Z * machine) :=
  match argv with
  | _ :: mp :: path :: _ =>
      if negb (open_dir sys mp) then Some (1, m)
      else if negb (open_cfg sys) then Some (2, m)
      else
        let m := mkMachine (fs m) (Some []) (files m) in
        let pathlen := Z.min (Z.of_nat (String.length path)) PATH_MAX in
        let res := write_cfg sys pathlen in
        if res <? 0 then Some (3, m)
        else
          let m := mkMachine (fs m) (Some (take (Z.to_nat res) (string_bytes path))) (files m) in
          '(ret, m) ← ioctl cmd 0 m;
          Some (if ret =? 0 then 0 else 1, m)
  | _ => Some (1, m)
  end.

Definition pkl_main : list string -> machine -> option (Z * machine) :=
  path_client VERIFS_PICKLE.
Definition load_main : list string -> machine -> option (Z * machine) :=
  path_client VERIFS_LOAD.
End clients.

(** ** [strtoul] *)

Lemma leading_digits_all l : digits l -> leading_digits l = l.
Proof. induction 1 as [|c l Hc _ IH]; [done|]. simpl. by rewrite Hc, IH. Qed.

Lemma digit_plain c :
  is_digit c = true ->
  is_space c = false /\ (ascii_code c =? 45) = false /\ (ascii_code c =? 43) = false.
Proof.
  unfold is_digit, is_space. intros H. zbool.
  rewrite !orb_false_iff, andb_false_iff, !Z.eqb_neq, !Z.leb_gt. lia.
Qed.

(** A key in decimal is read back. *)
Lemma strtoul_decimal s :
  digits (String.list_ascii_of_string s) ->
  decimal (String.list_ascii_of_string s) <= ULONG_MAX ->
  strtoul s = decimal (String.list_ascii_of_string s).
Proof.
  unfold strtoul. generalize (String.list_ascii_of_string s) as l. intros l Hd Hm.
  destruct l as [|c l]; [done|]. inversion Hd as [|? ? Hc _]; subst.
  destruct (digit_plain c Hc) as (H1 & H2 & H3). cbn [skip_white]. rewrite H1, H2, H3.
  rewrite leading_digits_all by done. by rewrite (proj2 (Z.ltb_ge _ _)).
Qed.

Lemma strtoul_range s : 0 <= strtoul s < 2 ^ 64.
Proof.
  unfold strtoul. destruct (match skip_white _ with [] => _ | _ => _ end) as [neg l].
  assert (0 <= decimal (leading_digits l)) as Hp.
  { unfold decimal.
    assert (forall l z, 0 <= z -> 0 <= foldl (fun acc c => acc * 10 + (ascii_code c - 48)) z
              (leading_digits l)) as H.
    { clear l. induction l as [|c l IH]; intros z Hz; [done|]. simpl.
      destruct (is_digit c) eqn:E; [|done]. simpl. apply IH.
      unfold is_digit in E. zbool. lia. }
    by apply H. }
  destruct (ULONG_MAX <? _) eqn:E; zbool; unfold ULONG_MAX in *; [lia|].
  destruct neg; [apply u64_range|lia].
Qed.

(** ** Requests of the clients *)

(** The reply to an [ioctl] whose code gave [ret]. *)
Definition ioctl_reply (ret : Z) : reply :=
  if ret =? 0 then reply_ioctl 0 else reply_err (- ret).

Lemma ioctl_result_reply w ret :
  ioctl_result (list.last (replies (add_reply (ioctl_reply ret) w)))
  = if ret =? 0 then 0 else -1.
Proof.
  simpl. rewrite list.last_snoc. unfold ioctl_reply. simpl.
  destruct (ret =? 0) eqn:E; [done|]. simpl. zbool.
  by rewrite (proj2 (Z.eqb_neq (- ret) 0)) by lia.
Qed.

Section ioctls.
Context (sha256 : list byte -> list byte) (sys : syscalls) (e : env).

(** The four commands, before the reply. *)
Definition command (cmd arg : Z) (m : machine) : M (Z * option (list byte)) :=
  if cmd =? VERIFS_CHECKPOINT then r ← checkpoint (u64 arg); mret (r, None)
  else if cmd =? VERIFS_RESTORE then r ← restore (u64 arg); mret (r, None)
  else if cmd =? VERIFS_PICKLE then pickle_verifs2 sha256 (host_of sys m)
  else if cmd =? VERIFS_LOAD then r ← load_verifs2 sha256 (host_of sys m); mret (r, None)
  else mret (ENOSYS, None).

(** What the client sees of a command. *)
Lemma ioctl_command cmd arg m :
  ioctl sha256 sys e cmd arg m
  = match command cmd arg m e (fs m) with
    | Ok (ret, file) w =>
        Some (if ret =? 0 then 0 else -1,
              mkMachine (add_reply (ioctl_reply ret) w) (cfg m)
                match file, cfg m with
                | Some f, Some c => <[config_path c := f]> (files m)
                | _, _ => files m
                end)
    | Crash _ => None
    end.
Proof.
  unfold ioctl, FuseIoctl. fold (command cmd arg m). unfold mbind at 1, M_bind at 1.
  destruct (command cmd arg m e (fs m)) as [[ret file] w|c]; [|done].
  rewrite <- (ioctl_result_reply w ret). unfold ioctl_reply. by destruct (ret =? 0).
Qed.

Lemma exit_code_zero n (ret : Z) :
  n = (if ret =? 0 then 0 else -1) -> (if n =? 0 then 0 else 1) = 0 -> ret = 0.
Proof. intros ->. by destruct (ret =? 0) eqn:E; zbool. Qed.
End ioctls.

Section sessions.
Context (sha256 : list byte -> list byte).
Implicit Types (sys : syscalls) (m : machine) (e : env).

(** [ckpt] and [restore] as functions of the request they make. *)
Definition key_run (ckpt : bool) : list string -> machine -> syscalls -> env -> option (Z * machine) :=
  fun argv m sys e => (if ckpt then ckpt_main else restore_main) sha256 sys e argv m.

Lemma key_client_run (ckpt : bool) sys e prog mp key m :
  open_dir sys mp = true ->
  key_run ckpt [prog; mp; key] m sys e
  = match (if ckpt then checkpoint else restore) (strtoul key) e (fs m) with
    | Ok ret w =>
        Some (if ret =? 0 then 0 else 1,
              mkMachine (add_reply (ioctl_reply ret) w) (cfg m) (files m))
    | Crash _ => None
    end.
Proof.
  intros Ho. pose proof (strtoul_range key) as Hr. unfold key_run.
  destruct ckpt; unfold ckpt_main, restore_main, key_client; rewrite Ho, ioctl_command;
    unfold command; rewrite u64_small by done; unfold mbind, M_bind; simpl.
  - destruct (checkpoint _ e (fs m)) as [ret w|]; [|done]. simpl. by destruct (ret =? 0).
  - destruct (restore _ e (fs m)) as [ret w|]; [|done]. simpl. by destruct (ret =? 0).
Qed.

Lemma path_client_run sys e cmd prog mp path m :
  open_dir sys mp = true -> open_cfg sys = true -> (forall n, write_cfg sys n = n) ->
  Z.of_nat (String.length path) <= PATH_MAX ->
  let m0 := mkMachine (fs m) (Some (string_bytes path)) (files m) in
  path_client sha256 sys e cmd [prog; mp; path] m
  = match command sha256 sys cmd 0 m0 e (fs m) with
    | Ok (ret, file) w =>
        Some (if ret =? 0 then 0 else 1,
              mkMachine (add_reply (ioctl_reply ret) w) (Some (string_bytes path))
                match file with
                | Some f => <[config_path (string_bytes path) := f]> (files m)
                | None => files m
                end)
    | Crash _ => None
    end.
Proof.
  intros Hd Hc Hw Hl m0. unfold path_client. rewrite Hd, Hc, Hw. simpl negb. cbv iota zeta.
  rewrite Z.min_l by done. rewrite (proj2 (Z.ltb_ge _ _)) by lia.
  cbn [fs files]. rewrite Nat2Z.id.
  rewrite take_ge by (unfold string_bytes; rewrite list_byte_length; lia).
  fold m0. rewrite ioctl_command. change (fs m0) with (fs m).
  destruct (command _ _ _ _ _ _ _) as [[ret file] w|]; [|done]. simpl.
  by destruct (ret =? 0), file.
Qed.

(** C33. The programs [ckpt] and [restore] with the same key bracket arbitrary
    work: when [ckpt] exits with 0 and the file system then serves any requests other
    than [ioctl], [restore] exits with 0 and the inode table, the queue, the counters
    and the pool are those of before [ckpt]. *)
Theorem ckpt_restore_clients dsize h n sys e prog mp key m m1 rs w2 sys' e' prog' mp' key' c fl :
  sys_ok n (fs m) -> Inodes (fs m) <> [] ->
  open_dir sys mp = true ->
  ckpt_main sha256 sys e [prog; mp; key] m = Some (0, m1) ->
  Forall (fun r => is_ioctl r = false) rs -> steps dsize sha256 h (fs m1) rs w2 ->
  open_dir sys' mp' = true -> strtoul key' = strtoul key -> memory_for e' (Inodes (fs m)) ->
  exists m3, restore_main sha256 sys' e' [prog'; mp'; key'] (mkMachine w2 c fl) = Some (0, m3)
    /\ snapshot (fs m3) = snapshot (fs m) /\ state_pool (fs m3) = state_pool (fs m).
Proof.
  intros Hok Hne Hd Hck Hio Hs Hd' Hkey Hm.
  change (key_run true [prog; mp; key] m sys e = Some (0, m1)) in Hck.
  rewrite key_client_run in Hck by done.
  destruct (checkpoint (strtoul key) e (fs m)) as [ret w1|] eqn:E; [|done].
  simpl in Hck. destruct (ret =? 0) eqn:Er; [|done]. injection Hck as <-. zbool. subst ret.
  destruct (checkpoint_inv _ _ _ _ _ Hok E) as [Hnone ->]. cbn [fs] in Hs.
  set (w1 := set_state_pool _ _) in *.
  destruct (restore_after dsize sha256 h n (fs m) (strtoul key) (add_reply (ioctl_reply 0) w1)
    rs w2 e') as (w3 & Hres & Hsnap & Hpool); try done.
  { by eapply all_states_frame; [by eapply all_states_checkpoint|..]. }
  exists (mkMachine (add_reply (ioctl_reply 0) w3) c fl).
  split; [|split; [exact Hsnap|exact Hpool]].
  change (key_run false [prog'; mp'; key'] (mkMachine w2 c fl) sys' e' = Some (0,
    mkMachine (add_reply (ioctl_reply 0) w3) c fl)).
  rewrite key_client_run by done. cbn [fs cfg files]. rewrite Hkey. by rewrite Hres.
Qed.

(** The path in the configuration file is the one that the client wrote. *)
Lemma config_path_bytes path :
  Z.of_nat (String.length path) <= PATH_MAX -> Forall (fun b => b <> x00) (string_bytes path) ->
  config_path (string_bytes path) = path.
Proof.
  intros Hl Hn. unfold config_path.
  rewrite take_ge by (unfold string_bytes; rewrite list_byte_length; unfold PATH_MAX in Hl; lia).
  replace (until_null (string_bytes path)) with (string_bytes path).
  - apply bytes_string_bytes.
  - induction Hn as [|b l Hb _ IH]; [done|]. simpl. destruct b; done || by f_equal.
Qed.

(** A pickle to a file that can be opened leaves a file. *)
Lemma pickle_verifs2_file h e w ret file w' c :
  cfg_file h = inr c -> open_out h (config_path c) = None ->
  can_alloc e 4096 = true ->
  pickle_verifs2 sha256 h e w = Ok (ret, file) w' -> is_Some file.
Proof.
  intros Hc Ho Ha H. unfold pickle_verifs2, mbind at 1, M_bind at 1 in H.
  rewrite (fetch_run h c e w Hc Ha), Ho in H.
  apply bind_Ok in H as ([[res o] len] & w1 & _ & H).
  destruct (res <? 0); apply ret_Ok in H as [H _]; injection H as _ <-; eauto.
Qed.

(** C34. The programs [pkl] and [load] with the same path carry the file system
    from one machine to another, provided that its numbers and objects fit a state file
    ([world_fits]) and the file is smaller than [2 ^ 64] bytes: when [pkl] exits with 0 and
    all its writes were complete, it left the file system as it was, and [load] on a machine
    that has the file exits with 0 with the counters, the queue, the objects in order
    and the checkpoints of the first machine. Free slots are not saved: an object gets the
    number of the objects in front of it, which is its own number when no slot was free. *)
Theorem pkl_load_clients sys e prog mp path m m1 sys' e' prog' mp' m' :
  (forall b, zlen (sha256 b) = 32) ->
  Z.of_nat (String.length path) <= PATH_MAX -> Forall (fun b => b <> x00) (string_bytes path) ->
  open_dir sys mp = true -> open_cfg sys = true -> (forall n, write_cfg sys n = n) ->
  server_open_out sys path = None -> (forall pos n, server_write sys pos n = n) ->
  can_alloc e 4096 = true -> world_fits (fs m) ->
  pkl_main sha256 sys e [prog; mp; path] m = Some (0, m1) ->
  (forall f, files m1 !! path = Some f -> zlen f < 2 ^ 64) ->
  open_dir sys' mp' = true -> open_cfg sys' = true -> (forall n, write_cfg sys' n = n) ->
  server_mmap sys' = None -> (forall n, can_alloc e' n = true) ->
  heap_ok (heap (fs m')) -> files m' !! path = files m1 !! path ->
  fs m1 = add_reply (reply_ioctl 0) (fs m) /\
  exists w', load_main sha256 sys' e' [prog'; mp'; path] m'
    = Some (0, mkMachine (add_reply (reply_ioctl 0) w') (Some (string_bytes path)) (files m'))
    /\ loads (fs m) (fs m') w' /\
    (forall ino i, get_inode (fs m) ino = Some i ->
       exists i', get_inode w' (new_number (Inodes (fs m)) ino) = Some i' /\
         same_object (heap (fs m)) (heap w') i i' /\
         (full (Inodes (fs m)) -> new_number (Inodes (fs m)) ino = ino)).
Proof.
  intros Hsha Hl Hn Hd Hc Hw Ho Hsw Ha Hf Hp Hlt Hd' Hc' Hw' Hmm Ha' Hh Hfile.
  pose proof (config_path_bytes path Hl Hn) as Hcfg.
  unfold pkl_main in Hp. rewrite path_client_run in Hp by done.
  set (m0 := mkMachine (fs m) _ _) in Hp.
  change (command sha256 sys VERIFS_PICKLE 0 m0) with (pickle_verifs2 sha256 (host_of sys m0)) in Hp.
  destruct (pickle_verifs2 _ _ e (fs m)) as [[ret file] w1|] eqn:E; [|done].
  destruct (pickle_verifs2_file (host_of sys m0) e (fs m) ret file w1 (string_bytes path))
    as [f ->]; [done|by simpl; rewrite Hcfg|done|done|].
  destruct (ret =? 0) eqn:Er; [|done]. zbool. subst ret. injection Hp as <-.
  cbn [files] in *. rewrite Hcfg, lookup_insert_eq in *.
  set (m2 := mkMachine (fs m') (Some (string_bytes path)) (files m')).
  assert (serves (host_of sys' m2) f) as Hserve.
  { exists (string_bytes path). split; [done|]. split; [|done]. simpl. by rewrite Hcfg, Hfile. }
  destruct (load_pickled sha256 Hsha (host_of sys m0) e (fs m) f w1 (host_of sys' m2) e' (fs m'))
    as (-> & _ & w' & Hload & Hloads); [first [done | by apply Hlt]..|].
  split; [done|]. exists w'. split; [|split; [done|by eapply loads_numbers]]. unfold load_main.
  rewrite path_client_run by done. fold m2.
  change (command sha256 sys' VERIFS_LOAD 0 m2)
    with (r ← load_verifs2 sha256 (host_of sys' m2); mret (r, None) : M (Z * option (list byte))).
  unfold mbind at 1, M_bind at 1. by rewrite Hload.
Qed.

(** What the programs answer when they cannot do their work: without two
    arguments or a mount point they exit with 1, without the configuration file with 2 or 3, and
    nothing but that file has changed; a key that is in use for [ckpt], or not in
    the pool for [restore], makes them exit with 1 with the state unchanged. *)
Theorem clients_refuse sys e prog mp key m :
  (forall cmd argv, (length argv < 3)%nat ->
     key_client sha256 sys e cmd argv m = Some (1, m) /\
     path_client sha256 sys e cmd argv m = Some (1, m)) /\
  (open_dir sys mp = false -> forall cmd,
     key_client sha256 sys e cmd [prog; mp; key] m = Some (1, m) /\
     path_client sha256 sys e cmd [prog; mp; key] m = Some (1, m)) /\
  (open_dir sys mp = true -> open_cfg sys = false -> forall cmd,
     path_client sha256 sys e cmd [prog; mp; key] m = Some (2, m)) /\
  (forall (ckpt : bool) r m1,
     (if ckpt then ckpt_main else restore_main) sha256 sys e [prog; mp; key] m = Some (r, m1) ->
     r <> 0 ->
     snapshot (fs m1) = snapshot (fs m) /\ state_pool (fs m1) = state_pool (fs m) /\
     cfg m1 = cfg m /\ files m1 = files m).
Proof.
  split_and!.
  - intros cmd argv Hl. by destruct argv as [|? [|? [|? ?]]]; simpl in Hl; try lia.
  - intros Ho cmd. unfold key_client, path_client. by rewrite Ho.
  - intros Ho Hc cmd. unfold path_client. by rewrite Ho, Hc.
  - intros ckpt r m1 H Hr. destruct (open_dir sys mp) eqn:Ho.
    2: { assert (Some (r, m1) = Some (1, m)) as [= -> ->]; [|done].
         rewrite <- H. by destruct ckpt; unfold ckpt_main, restore_main, key_client; rewrite Ho. }
    change (key_run ckpt [prog; mp; key] m sys e = Some (r, m1)) in H.
    rewrite key_client_run in H by done.
    destruct ((if ckpt then checkpoint else restore) _ e (fs m)) as [ret w1|] eqn:E; [|done].
    destruct (ret =? 0) eqn:Er; [congruence|]. zbool. injection H as _ <-.
    destruct (fail_atomic e (fs m) (strtoul key) ret w1) as (H1 & H2 & _);
      [by destruct ckpt; auto|done|by split_and!].
Qed.
End sessions.
