(* ===== verification/Dumps.v ===== *)
(** * The dumps for testing: [cr_util.cpp] under [DUMP_TESTING]

    Functions that print the inode table and the checkpoint pool. They follow
    pointers without a test, so the question is whether they return. *)

From S2P Require Import Prelude World Util Table InodeOps FileOps DirectoryOps Nodes.
From S2P Require Import Handlers CkptRestore Codec Pickle Requests Invariant Runs.

(** ** Definitions *)

(** What is printed; [line_text None] is the null pointer of an empty file. *)
Inductive line :=
  | line_title (s : string)
  | line_number (s : string) (n : Z)
  | line_text (s : option (list byte))
  | line_child (name : string) (ino : Z)
  | line_type (t : SpecialInodeTypes)
  | line_link (s : string)
  | line_deleted (ino : Z)
  | line_queue (q : list Z).

(** A result with what was printed, or a crash. *)
Definition printed (A : Type) : Type := crash + (A * list line).

#[global] Instance printed_ret : MRet printed := fun A a => inr (a, []).
#[global] Instance printed_bind : MBind printed := fun A B f m =>
  match m with
  | inl c => inl c
  | inr (a, out) =>
      match f a with
      | inl c => inl c
      | inr (b, out') => inr (b, out ++ out')
      end
  end.

Definition print (l : line) : printed unit := inr (tt, [l]).
Definition or_crash {A} (c : crash) (o : option A) : printed A :=
  match o with Some a => inr (a, []) | None => inl c end.

(** The characters that [operator<<] takes from a [char *] into a block. *)
Definition block_string (b : list byte) : option (list byte) :=
  if bool_decide (x00 ∈ b) then Some (until_null b) else None.

(** Each takes the result of a [dynamic_cast], which may be null. *)
Definition dump_File (i : inode) : printed unit :=
  match derived i with
  | File [] => print (line_text None)
  | File m_buf => s ← or_crash crash_bounds (block_string m_buf); print (line_text (Some s))
  | _ => inl crash_null
  end.

Fixpoint dump_children (l : list (string * Z)) : printed unit :=
  match l with
  | [] => mret tt
  | (name, ino) :: l' => print (line_child name ino);; dump_children l'
  end.

Definition dump_Directory (i : inode) : printed unit :=
  match derived i with
  | Directory m_children => dump_children m_children
  | _ => inl crash_null
  end.

Definition dump_SpecialInode (i : inode) : printed unit :=
  match derived i with
  | SpecialInode m_type => print (line_type m_type)
  | _ => inl crash_null
  end.

Definition dump_SymLink (i : inode) : printed unit :=
  match derived i with
  | SymLink m_link => print (line_link m_link)
  | _ => inl crash_null
  end.

Definition dump_each_inode_type (it : option inode) : printed Z :=
  i ← or_crash crash_null it;
  let mode := GetMode i in
  if S_ISREG mode then print (line_title "---Dump File");; dump_File i;; mret 0
  else if S_ISDIR mode then print (line_title "---Dump Directory");; dump_Directory i;; mret 0
  else if S_ISCHR mode || S_ISBLK mode || S_ISFIFO mode || S_ISSOCK mode then
    print (line_title "---Dump SpecialInode");; dump_SpecialInode i;; mret 0
  else if S_ISLNK mode then print (line_title "---Dump SymLink");; dump_SymLink i;; mret 0
  else if mode =? 0 then mret 0
  else mret (- EINVAL).

(** The copy of the queue is emptied up to the number. *)
Fixpoint isExistInDeleted (curr_ino : Z) (DeletedInodes : list Z) : bool :=
  match DeletedInodes with
  | [] => false
  | n :: q => if n =? curr_ino then true else isExistInDeleted curr_ino q
  end.

(** The loop pops the front of its copy; the numbers are printed on one line. *)
Fixpoint queue_numbers (DeletedInodes printed_before : list Z) : list Z :=
  match DeletedInodes with
  | [] => printed_before
  | front :: q => queue_numbers q (printed_before ++ [front])
  end.
Definition print_ino_queue (DeletedInodes : list Z) : printed unit :=
  print (line_queue (queue_numbers DeletedInodes [])).

(** The loop from the slot [dist] on; [ret] has no value before the first inode
    that is dumped. *)
Fixpoint _dump_inodes_verifs2 (t : list (option inode)) (DeletedInodes : list Z) (dist : Z)
    (ret : option Z) : printed (option Z) :=
  match t with
  | [] => mret ret
  | it :: t' =>
      if negb (isExistInDeleted dist DeletedInodes) then
        r ← dump_each_inode_type it;
        if negb (r =? 0) then mret (Some r)
        else _dump_inodes_verifs2 t' DeletedInodes (dist + 1) (Some r)
      else
        print (line_deleted dist);;
        _dump_inodes_verifs2 t' DeletedInodes (dist + 1) ret
  end.

Definition dump_inodes_verifs2 (Inodes : list (option inode)) (DeletedInodes : list Z)
    (info : string) : printed (option Z) :=
  print (line_title info);;
  print (line_number "Size of Inodes: " (zlen Inodes));;
  ret ← _dump_inodes_verifs2 Inodes DeletedInodes 0 None;
  print (line_title "dump_inodes_verifs2 Finished!");;
  mret ret.

Fixpoint dump_table (t : list (option inode)) : printed Z :=
  match t with
  | [] => mret 0
  | it :: t' =>
      r ← dump_each_inode_type it;
      if negb (r =? 0) then mret r else dump_table t'
  end.

(** The states in the order of the pool. *)
Fixpoint dump_states (pool : list (Z * verifs2_state)) (state_cnt : Z) : printed Z :=
  match pool with
  | [] => mret 0
  | (key, s) :: pool' =>
      print (line_number "Dump the n-th state" state_cnt);;
      print (line_number "Key: " key);;
      print (line_number "value_inode.size(): " (zlen (vs_inodes s)));;
      r ← dump_table (vs_inodes s);
      if negb (r =? 0) then mret r else dump_states pool' (state_cnt + 1)
  end.

Definition dump_state_pool (w : world) : printed Z :=
  dump_states (map_to_list (state_pool w)) 0.

(** [FuseRamFs::check_restored_inode_size], from the slot [order] on. *)
Fixpoint check_restored_inode_size (t : list (option inode)) (order : Z) : printed unit :=
  match t with
  | [] => mret tt
  | it :: t' =>
      i ← or_crash crash_null it;
      print (line_number "Order" order);;
      print (line_number "Inode Size" (st_size (attr i)));;
      check_restored_inode_size t' (order + 1)
  end.

(** ** Dumps that return *)

(** A file that is not empty has a zero byte in its block. *)
Definition file_terminated (i : inode) : Prop :=
  match derived i with
  | File b => b = [] \/ x00 ∈ b
  | _ => True
  end.

(** The whole queue is printed, in order. *)
Lemma print_ino_queue_prints q : print_ino_queue q = inr (tt, [line_queue q]).
Proof.
  assert (H : forall acc, queue_numbers q acc = acc ++ q).
  { induction q as [|n q IH]; intros acc; simpl; [by rewrite app_nil_r|].
    by rewrite IH, <- app_assoc. }
  unfold print_ino_queue, print. by rewrite H.
Qed.

Definition ends {A} (P : A -> Prop) (m : printed A) : Prop :=
  exists a out, m = inr (a, out) /\ P a.

Lemma ends_bind {A B} (P : A -> Prop) (Q : B -> Prop) (m : printed A) (f : A -> printed B) :
  ends P m -> (forall a, P a -> ends Q (f a)) -> ends Q (m ≫= f).
Proof.
  intros (a & out & -> & Ha) Hf. destruct (Hf a Ha) as (b & out' & Hb & HQ).
  exists b, (out ++ out'). unfold mbind, printed_bind. by rewrite Hb.
Qed.

Lemma ends_ret {A} (P : A -> Prop) a : P a -> ends P (mret a).
Proof. intros H. by exists a, []. Qed.

Lemma ends_print l : ends (fun _ => True) (print l).
Proof. by exists tt, [l]. Qed.

#[local] Hint Resolve ends_print : verifs.

(** Sequences of steps that return. *)
Ltac printing :=
  repeat first
    [ apply ends_ret; by eauto
    | solve [eauto with verifs]
    | eapply ends_bind; [solve [eauto with verifs]|intros ? _] ].

Lemma dump_children_returns l : ends (fun _ => True) (dump_children l).
Proof. induction l as [|[name ino] l IH]; cbn [dump_children]; printing. Qed.

Lemma dump_File_returns i b :
  derived i = File b -> file_terminated i -> ends (fun _ => True) (dump_File i).
Proof.
  unfold file_terminated, dump_File. intros -> Ht. destruct b as [|c b]; [printing|].
  destruct Ht as [?|Ht]; [done|]. unfold block_string. rewrite bool_decide_eq_true_2 by done.
  eapply (ends_bind (fun _ => True)); [by eexists _, _|]. intros s _. printing.
Qed.

(** An object whose class matches its mode is dumped, or refused for its mode. *)
Lemma dump_object_returns i :
  class_matches i = true -> file_terminated i ->
  ends (fun r => r = 0 \/ r = - EINVAL) (dump_each_inode_type (Some i)).
Proof.
  intros Hc Ht. eapply (ends_bind (fun j => j = i)); [by exists i, []|]. intros ? ->.
  cbv beta zeta. unfold class_matches in Hc. pose proof (dump_File_returns i) as HF.
  destruct (derived i) as [b|l|t|s] eqn:E.
  - rewrite Hc. specialize (HF b eq_refl Ht). printing.
  - destruct (S_ISREG (GetMode i)) eqn:Er.
    { exfalso. unfold S_ISREG, S_ISDIR, mode_is in *. zbool. by rewrite Hc in Er. }
    rewrite Hc. unfold dump_Directory. rewrite E. pose proof (dump_children_returns l). printing.
  - zbool. repeat match goal with H : _ = false |- _ => rewrite H end.
    unfold dump_SpecialInode. rewrite E.
    destruct (_ || _ || _ || _); [printing|]. destruct (GetMode i =? 0); printing.
  - assert (S_ISREG (GetMode i) = false /\ S_ISDIR (GetMode i) = false /\
            (S_ISCHR (GetMode i) || S_ISBLK (GetMode i) || S_ISFIFO (GetMode i)
             || S_ISSOCK (GetMode i)) = false) as (-> & -> & ->).
    { unfold S_ISREG, S_ISDIR, S_ISCHR, S_ISBLK, S_ISFIFO, S_ISSOCK, S_ISLNK, mode_is in *.
      zbool. rewrite Hc. done. }
    rewrite Hc. unfold dump_SymLink. rewrite E. printing.
Qed.

Lemma isExistInDeleted_spec n q : isExistInDeleted n q = true <-> n ∈ q.
Proof.
  induction q as [|m q IH]; simpl; [set_solver|]. rewrite elem_of_cons.
  destruct (m =? n) eqn:E; zbool; [naive_solver|]. rewrite IH. naive_solver.
Qed.

(** An object that can be dumped. *)
Definition dumpable (i : inode) : Prop := class_matches i = true /\ file_terminated i.

Definition dump_result (ret : option Z) : Prop := ret = Some 0 \/ ret = Some (- EINVAL).

(** The loop over a table whose free slots are in the queue. *)
Lemma dump_inodes_returns t q dist ret :
  slots dumpable t ->
  (forall n, dist + Z.of_nat n ∈ q <-> t !! n = Some None) ->
  ret = None \/ ret = Some 0 ->
  ends (fun r => ret = Some 0 \/ (exists i, Some i ∈ t) -> dump_result r)
    (_dump_inodes_verifs2 t q dist ret).
Proof.
  intros Hs. revert dist ret. induction Hs as [|it t Hit _ IH]; intros dist ret Hq Hr.
  { apply ends_ret. intros [->|[i Hi]]; [by left|set_solver]. }
  assert (forall ret', ret' = None \/ ret' = Some 0 ->
    ends (fun r => ret' = Some 0 \/ (exists i, Some i ∈ t) -> dump_result r)
      (_dump_inodes_verifs2 t q (dist + 1) ret')) as Hnext.
  { intros ret' Hr'. apply IH; [|done]. intros n. rewrite <- (Hq (S n)).
    by replace (dist + Z.of_nat (S n)) with (dist + 1 + Z.of_nat n) by lia. }
  cbn [_dump_inodes_verifs2]. pose proof (Hq 0%nat) as H0. simpl in H0. rewrite Z.add_0_r in H0.
  pose proof (isExistInDeleted_spec dist q) as Hin.
  destruct (isExistInDeleted dist q) eqn:E; cbn [negb].
  - destruct it as [i|]; [by pose proof (proj1 H0 (proj1 Hin eq_refl))|].
    eapply ends_bind; [apply ends_print|]. intros _ _.
    destruct (Hnext ret Hr) as (r & out & -> & Hp). exists r, out. split; [done|].
    intros [H|[i Hi]]; apply Hp; [by left|]. right. exists i. set_solver.
  - destruct it as [i|]; [|by pose proof (proj2 Hin (proj2 H0 eq_refl))].
    eapply ends_bind; [by apply dump_object_returns; apply Hit|]. intros r Hr1.
    destruct Hr1 as [->| ->]; cbn [negb Z.eqb].
    + destruct (Hnext (Some 0)) as (r & out & -> & Hp); [by right|].
      exists r, out. split; [done|]. intros _. apply Hp. by left.
    + apply ends_ret. by right.
Qed.

(** The dump of the inode table of a well-formed file system follows no null
    pointer: the slots without an inode are all in the queue, which it asks first, and
    the class of every object is the one its mode tells. It returns 0, or
    [-EINVAL] for a mode of no known type, provided that each file's block has a zero byte
    in it. *)
Theorem dump_inodes_safe w info :
  fs_ok w -> slots file_terminated (Inodes w) -> 0 < live (Inodes w) ->
  ends dump_result (dump_inodes_verifs2 (Inodes w) (DeletedInodes w) info).
Proof.
  intros Hw Ht Hl. unfold dump_inodes_verifs2.
  eapply ends_bind; [apply ends_print|]. intros _ _.
  eapply ends_bind; [apply ends_print|]. intros _ _.
  eapply ends_bind; [apply (dump_inodes_returns _ _ 0 None)|].
  - apply Forall_lookup_2. intros n [i|] Hi; [|done]. split.
    + eapply (obj_class (Z.of_nat n)), (ok_objects w Hw). apply get_inode_Some, vec_at_Some.
      by rewrite Nat2Z.id; split; [lia|].
    + by apply (Forall_lookup_1 _ _ _ _ Ht Hi).
  - intros n. rewrite Z.add_0_l, (ok_deleted w Hw). rewrite vec_at_Some, Nat2Z.id.
    split; [by intros [_ ?]|by split; [lia|]].
  - by left.
  - intros r Hr. eapply ends_bind; [apply ends_print|]. intros _ _.
    apply ends_ret, Hr. right. clear -Hl.
    induction (Inodes w) as [|[i|] t IH]; simpl in Hl; [done|exists i; set_solver|].
    destruct (IH Hl) as [i Hi]. exists i. set_solver.
Qed.

(** The mode is of a type that the dump knows. *)
Definition known_mode (i : inode) : Prop :=
  forall out, dump_each_inode_type (Some i) <> inr (- EINVAL, out).

Lemma dump_known_returns i :
  dumpable i -> known_mode i -> ends (fun r => r = 0) (dump_each_inode_type (Some i)).
Proof.
  intros [Hc Ht] Hk. destruct (dump_object_returns i Hc Ht) as (r & out & Hr & [->| ->]).
  - by exists 0, out.
  - by destruct (Hk out).
Qed.

Lemma dump_table_returns t :
  slots (fun i => dumpable i /\ known_mode i) t ->
  (None ∉ t -> ends (fun r => r = 0) (dump_table t)) /\
  (None ∈ t -> dump_table t = inl crash_null).
Proof.
  induction 1 as [|it t Hit _ [IH1 IH2]]; cbn [dump_table].
  { split; [|set_solver]. intros _. by apply ends_ret. }
  destruct it as [i|]; [|split; [set_solver|done]].
  destruct (dump_known_returns i (proj1 Hit) (proj2 Hit)) as (r & out & -> & ->).
  unfold mbind, printed_bind. cbn [negb Z.eqb]. split; intros Hn.
  - destruct IH1 as (r & out' & -> & ->); [set_solver|]. by exists 0, (out ++ out').
  - rewrite IH2; [done|]. set_solver.
Qed.

Lemma free_slot_or_not (t : list (option inode)) : None ∈ t \/ None ∉ t.
Proof. induction t as [|[i|] t [IH|IH]]; set_solver. Qed.

Lemma dump_states_returns pool n :
  Forall (fun ks => slots (fun i => dumpable i /\ known_mode i) (vs_inodes ks.2)) pool ->
  (Forall (fun ks => None ∉ vs_inodes ks.2) pool -> ends (fun r => r = 0) (dump_states pool n)) /\
  (Exists (fun ks => None ∈ vs_inodes ks.2) pool -> dump_states pool n = inl crash_null).
Proof.
  intros H. revert n. induction H as [|[key s] pool Hs _ IH]; intros n; cbn [dump_states].
  { split; [|by inversion 1]. intros _. by apply ends_ret. }
  destruct (dump_table_returns _ Hs) as [H1 H2]. cbn [snd] in *.
  destruct (IH (n + 1)) as [IH1 IH2]. unfold print, mbind, printed_bind. split.
  - intros [Hn Hp]%list.Forall_cons. destruct (H1 Hn) as (r & out & -> & ->). cbn [negb Z.eqb].
    destruct (IH1 Hp) as (r & out' & -> & ->). eexists 0, _. done.
  - intros Hn. destruct (free_slot_or_not (vs_inodes s)) as [Hin|Hin].
    { by rewrite H2. }
    destruct (H1 Hin) as (r & out & -> & ->). cbn [negb Z.eqb].
    inversion Hn as [? ? Hh|? ? Hh]; subst; [done|]. by rewrite (IH2 Hh).
Qed.

(** The dump of the checkpoint pool does not ask the queues: on a pool of
    well-formed states it returns 0 when no stored table has a free slot, and follows a null
    pointer when one has. *)
Theorem dump_state_pool_holes w :
  (forall key s, state_pool w !! key = Some s ->
     slots (fun i => dumpable i /\ known_mode i) (vs_inodes s)) ->
  ((forall key s, state_pool w !! key = Some s -> None ∉ vs_inodes s) ->
     ends (fun r => r = 0) (dump_state_pool w)) /\
  (forall key s, state_pool w !! key = Some s -> None ∈ vs_inodes s ->
     dump_state_pool w = inl crash_null).
Proof.
  intros H. destruct (dump_states_returns (map_to_list (state_pool w)) 0) as [H1 H2].
  { apply list.Forall_forall. intros [k s] Hk%elem_of_map_to_list. by eapply H. }
  split.
  - intros Hn. apply H1, list.Forall_forall. intros [k s] Hk%elem_of_map_to_list. by eapply Hn.
  - intros key s Hs Hn. apply H2, list.Exists_exists. exists (key, s).
    split; [by apply elem_of_map_to_list|done].
Qed.
