(* ===== verification/Testops.v ===== *)
(** * The test helpers: [testops.cpp]

    Functions that make, write and remove files for the client programs. The kernel is a
    parameter: an answer to each system call. What the helpers rely on of it is a class,
    so that their theorems hold for every system that keeps it. *)

From S2P Require Import Prelude World FileOps.

(** ** Definitions *)

(** The system calls over a state [S], with an error number or a value that is not
    negative. *)
Record os (S : Type) := mkOs {
  sys_creat : string -> Z -> S -> (Z + Z) * S;
  sys_open : string -> S -> (Z + Z) * S;
  sys_lseek : Z -> Z -> S -> (Z + Z) * S;
  sys_write : Z -> list byte -> Z -> S -> (Z + Z) * S;
  sys_close : Z -> S -> (Z + Z) * S;
  sys_unlink : string -> S -> (Z + Z) * S;
  sys_mkdir : string -> Z -> S -> (Z + Z) * S;
  sys_rmdir : string -> S -> (Z + Z) * S }.
Arguments mkOs {S}. Arguments sys_creat {S}. Arguments sys_open {S}. Arguments sys_lseek {S}.
Arguments sys_write {S}. Arguments sys_close {S}. Arguments sys_unlink {S}.
Arguments sys_mkdir {S}. Arguments sys_rmdir {S}.

(** What the helpers print. *)
Inductive message :=
  | less_written (writesz length : Z)
  | report (call path : string) (ret err : Z).

(** The process: the system, [errno] and what was printed. *)
Record proc (S : Type) := mkProc { sys : S; errno : Z; out : list message }.
Arguments mkProc {S}. Arguments sys {S}. Arguments errno {S}. Arguments out {S}.

Section helpers.
Context {S : Type} (o : os S).

(** The C function of a system call: -1 and [errno], or the value with [errno] as it was. *)
Definition call (f : S -> (Z + Z) * S) (p : proc S) : Z * proc S :=
  match f (sys p) with
  | (inl e, s) => (-1, mkProc s e (out p))
  | (inr v, s) => (v, mkProc s (errno p) (out p))
  end.
Definition set_errno (e : Z) (p : proc S) : proc S := mkProc (sys p) e (out p).
Definition say (m : message) (p : proc S) : proc S := mkProc (sys p) (errno p) (out p ++ [m]).

Definition create_file (path : string) (mode : Z) (p : proc S) : Z * proc S :=
  let '(fd, p) := call (sys_creat o path mode) p in
  let p := if 0 <=? fd then snd (call (sys_close o fd) p) else p in
  (if 0 <=? fd then 0 else -1, p).

(** The comparison [writesz < length] is one of unsigned numbers. *)
Definition write_file (path : string) (data : list byte) (offset length : Z) (p : proc S)
  : Z * proc S :=
  let '(fd, p) := call (sys_open o path) p in
  if fd <? 0 then (-1, p)
  else
    let '(res, p) := call (sys_lseek o fd offset) p in
    if res =? -1 then
      let err := errno p in
      let p := snd (call (sys_close o fd) p) in
      (-1, set_errno err p)
    else
      let '(writesz, p) := call (sys_write o fd data length) p in
      if writesz <? 0 then
        let err := errno p in
        let p := snd (call (sys_close o fd) p) in
        (-1, set_errno err p)
      else
        let p := if u64 writesz <? length then say (less_written writesz length) p
                 else say (report "write" path writesz (errno p)) p in
        let p := snd (call (sys_close o fd) p) in
        (writesz, p).

Definition unlink_file (path : string) (p : proc S) : Z * proc S :=
  let '(ret, p) := call (sys_unlink o path) p in
  let err := errno p in
  (ret, say (report "unlink" path ret err) p).

Definition create_dir (path : string) (mode : Z) (p : proc S) : Z * proc S :=
  call (sys_mkdir o path mode) p.

Definition remove_dir (path : string) (p : proc S) : Z * proc S :=
  let '(ret, p) := call (sys_rmdir o path) p in
  let err := errno p in
  (ret, say (report "rmdir" path ret err) p).
End helpers.

(** ** What the system promises *)

(** [fds] are the open descriptors: a call that opens gives one that was not open,
    [close] frees it whatever it answers, and the others keep them. *)
Class Descriptors {S} (o : os S) (fds : S -> gset Z) : Prop := {
  creat_opens path mode s fd s' :
    sys_creat o path mode s = (inr fd, s') -> 0 <= fd /\ fd ∉ fds s /\ fds s' = {[fd]} ∪ fds s;
  creat_fails path mode s e s' : sys_creat o path mode s = (inl e, s') -> fds s' = fds s;
  open_opens path s fd s' :
    sys_open o path s = (inr fd, s') -> 0 <= fd /\ fd ∉ fds s /\ fds s' = {[fd]} ∪ fds s;
  open_fails path s e s' : sys_open o path s = (inl e, s') -> fds s' = fds s;
  lseek_keeps fd off s r s' : sys_lseek o fd off s = (r, s') -> fds s' = fds s;
  lseek_position fd off s v s' : sys_lseek o fd off s = (inr v, s') -> 0 <= v;
  write_keeps fd data n s r s' : sys_write o fd data n s = (r, s') -> fds s' = fds s;
  write_count fd data n s v s' : sys_write o fd data n s = (inr v, s') -> 0 <= v <= n;
  close_frees fd s r s' : sys_close o fd s = (r, s') -> fds s' = fds s ∖ {[fd]} }.

(** What [write_file] is about: the first call that fails, or the bytes written. *)
Definition write_outcome {S} (o : os S) (path : string) (data : list byte) (offset length : Z)
    (s : S) : Z + Z :=
  match sys_open o path s with
  | (inl e, _) => inl e
  | (inr fd, s) =>
      match sys_lseek o fd offset s with
      | (inl e, _) => inl e
      | (inr _, s) => fst (sys_write o fd data length s)
      end
  end.

Section descriptors.
Context {S : Type} (o : os S) (fds : S -> gset Z) `{!Descriptors o fds}.

Lemma close_opened fd s (p : proc S) :
  fd ∉ fds s -> fds (sys p) = {[fd]} ∪ fds s -> fds (sys (snd (call (sys_close o fd) p))) = fds s.
Proof.
  intros Hfd Hp. unfold call. destruct (sys_close o fd (sys p)) as [[e|v] s'] eqn:E; simpl;
    rewrite (close_frees _ _ _ _ E), Hp; set_solver.
Qed.

(** C40. On every path [write_file] closes the descriptor that it opened and no other; it
    returns -1 with the error of the call that failed, not of [close], or the number of
    bytes written. *)
Theorem write_file_closes_and_reports path data offset length p :
  let '(r, p') := write_file o path data offset length p in
  fds (sys p') = fds (sys p) /\
  match write_outcome o path data offset length (sys p) with
  | inl e => r = -1 /\ errno p' = e
  | inr n => r = n /\ 0 <= n
  end.
Proof.
  unfold write_file, write_outcome, call at 1.
  destruct (sys_open o path (sys p)) as [[e|fd] s1] eqn:Eo; simpl.
  { split; [by eapply open_fails|done]. }
  destruct (open_opens _ _ _ _ Eo) as (Hfd & Hnew & H1).
  rewrite (proj2 (Z.ltb_ge _ _)) by lia. unfold call at 1. simpl.
  destruct (sys_lseek o fd offset s1) as [[e|pos] s2] eqn:El; simpl.
  { pose proof (lseek_keeps _ _ _ _ _ El) as H2. split; [|done].
    apply close_opened; simpl; [done|congruence]. }
  pose proof (lseek_keeps _ _ _ _ _ El) as H2. pose proof (lseek_position _ _ _ _ _ El) as Hpos.
  rewrite (proj2 (Z.eqb_neq _ _)) by lia. unfold call at 1. simpl.
  destruct (sys_write o fd data length s2) as [[e|n] s3] eqn:Ew; simpl;
    pose proof (write_keeps _ _ _ _ _ _ Ew) as H3.
  { split; [|done]. apply close_opened; simpl; [done|congruence]. }
  pose proof (write_count _ _ _ _ _ _ Ew) as Hn.
  rewrite (proj2 (Z.ltb_ge _ _)) by lia. split; [|split; [done|lia]].
  apply close_opened; [done|]. by case_match; simpl; congruence.
Qed.

Lemma create_file_closes path mode p :
  let '(r, p') := create_file o path mode p in
  fds (sys p') = fds (sys p) /\
  r = match fst (sys_creat o path mode (sys p)) with inl _ => -1 | inr _ => 0 end.
Proof.
  unfold create_file, call at 1.
  destruct (sys_creat o path mode (sys p)) as [[e|fd] s1] eqn:E; simpl.
  { split; [by eapply creat_fails|done]. }
  destruct (creat_opens _ _ _ _ _ E) as (Hfd & Hnew & H1).
  rewrite (proj2 (Z.leb_le _ _)) by lia. split; [|done]. by apply close_opened.
Qed.
End descriptors.

(** ** A system *)

(** Files with their content and open descriptors with their position. *)
Record store := mkStore { content : gmap string (list byte); table : gmap Z (string * Z) }.

Definition next_fd (t : gmap Z (string * Z)) : Z := 1 + foldr Z.max 2 (elements (dom t)).

Lemma next_fd_new t : 0 <= next_fd t /\ next_fd t ∉ dom t.
Proof.
  unfold next_fd. assert (forall l z, z ∈ l -> z <= foldr Z.max 2 l) as Hmax.
  { induction l as [|y l IH]; intros z Hz; [by apply elem_of_nil in Hz|]. simpl.
    apply elem_of_cons in Hz as [->|Hz]; [lia|]. specialize (IH z Hz). lia. }
  assert (forall l, 2 <= foldr Z.max 2 l) as Hmin.
  { induction l as [|y l IH]; simpl; lia. }
  split; [specialize (Hmin (elements (dom t))); lia|].
  intros Hin%elem_of_elements. apply Hmax in Hin. lia.
Qed.

Definition open_at (path : string) (s : store) : (Z + Z) * store :=
  let fd := next_fd (table s) in (inr fd, mkStore (content s) (<[fd := (path, 0)]> (table s))).

(** [full] is the largest size of a file. *)
Definition store_os (full : Z) : os store := {|
  sys_creat path mode s := open_at path (mkStore (<[path := []]> (content s)) (table s));
  sys_open path s := match content s !! path with Some _ => open_at path s | None => (inl ENOENT, s) end;
  sys_lseek fd off s :=
    match table s !! fd with
    | Some (path, _) =>
        if off <? 0 then (inl EINVAL, s)
        else (inr off, mkStore (content s) (<[fd := (path, off)]> (table s)))
    | None => (inl EBADF, s)
    end;
  sys_write fd data n s :=
    match table s !! fd with
    | Some (path, off) =>
        let d := take (Z.to_nat n) data in
        if (n <? 0) || (full <? off + zlen d) then (inl ENOSPC, s)
        else (inr (zlen d), mkStore (alter (fun c => posix_write c off d) path (content s)) (table s))
    | None => (inl EBADF, s)
    end;
  sys_close fd s :=
    match table s !! fd with
    | Some _ => (inr 0, mkStore (content s) (delete fd (table s)))
    | None => (inl EBADF, s)
    end;
  sys_unlink path s := (inr 0, mkStore (delete path (content s)) (table s));
  sys_mkdir path mode s := (inr 0, s);
  sys_rmdir path s := (inr 0, s) |}.

Definition open_fds (s : store) : gset Z := dom (table s).

Lemma open_at_opens path s fd s' :
  open_at path s = (inr fd, s') ->
  0 <= fd /\ fd ∉ open_fds s /\ open_fds s' = {[fd]} ∪ open_fds s.
Proof.
  unfold open_at. intros [= <- <-]. destruct (next_fd_new (table s)) as [H1 H2].
  split_and!; [done|done|]. unfold open_fds. simpl. by rewrite dom_insert_L.
Qed.

#[export] Instance store_descriptors full : Descriptors (store_os full) open_fds.
Proof.
  split; simpl.
  - intros path mode s fd s' H. by destruct (open_at_opens _ _ _ _ H) as (? & ? & ?).
  - by intros.
  - intros path s fd s'. case_match; [apply open_at_opens|done].
  - intros path s e s'. case_match; [done|by intros [= <- <-]].
  - intros fd off s r s'. destruct (table s !! fd) as [[path pos]|] eqn:E; [|by intros [= <- <-]].
    case_match; intros [= <- <-]; [done|]. unfold open_fds. simpl. rewrite dom_insert_L.
    apply elem_of_dom_2 in E. set_solver.
  - intros fd off s v s'. case_match; [|done]. repeat case_match; zbool; try done.
    intros [= <- <-]. lia.
  - intros fd data n s r s'. repeat case_match; by intros [= <- <-].
  - intros fd data n s v s'. destruct (table s !! fd) as [[path pos]|]; [|done].
    destruct (n <? 0) eqn:Hn; simpl; [done|]. zbool.
    assert (0 <= zlen (take (Z.to_nat n) data) <= n) as Hz by (rewrite length_take; lia).
    case_match; [done|]. by intros [= <- <-].
  - intros fd s r s'. destruct (table s !! fd) as [x|] eqn:E; intros [= <- <-]; unfold open_fds; simpl.
    + by rewrite dom_delete_L.
    + apply not_elem_of_dom in E. set_solver.
Qed.

(** In this system a file that is created and written reads as [pwrite] says. *)
Definition sample_proc : proc store := mkProc (mkStore ∅ {[5 := ("other", 7)]}) 0 [].
Definition sample_created : proc store := snd (create_file (store_os 100) "f" 420 sample_proc).

Lemma sample_write :
  let '(r, p) := write_file (store_os 100) "f" [x61; x62] 1 2 sample_created in
  r = 2 /\ content (sys p) !! "f" = Some [x00; x61; x62] /\ errno p = 0 /\
  out p = [report "write" "f" 2 0].
Proof. vm_compute. done. Qed.

(** Without space the descriptor is closed and the error is that of [write]. *)
Lemma write_file_closes_and_reports_witness :
  let '(r, p) := write_file (store_os 100) "f" [x61; x62] 99 2 sample_created in
  open_fds (sys p) = {[5]} /\ r = -1 /\ errno p = ENOSPC.
Proof.
  pose proof (write_file_closes_and_reports (store_os 100) open_fds "f" [x61; x62] 99 2
    sample_created) as H.
  destruct (write_file _ _ _ _ _ _) as [r p]. destruct H as [H1 [H2 H3]].
  split; [exact H1|]. by split.
Defined.
