(* ===== verification/Samples.v ===== *)
(** * A sample session

    Concrete worlds on which the theorems are applied: a file system is mounted,
    then a directory, files, a symbolic link and an extended attribute are made
    by requests. [fs_ok] holds of them because they are reachable. *)

From S2P Require Import Prelude World Util Table InodeOps FileOps DirectoryOps Nodes.
From S2P Require Import Handlers CkptRestore Codec Pickle Requests Invariant Runs Specs.
From S2P Require Import Removal Attributes PickleSpec.

Definition sample_env : env :=
  mkEnv (Timespec 100 0) (fun _ => true) true false (fun _ => xff) [7; 9] 1000 1000.

(** Like [FUSE_DIRENT_ALIGN]: 24 bytes and the name, rounded up to 8. *)
Definition sample_direntry_size (name : string) : Z :=
  round_up (24 + Z.of_nat (String.length name)) 8.

(** A digest of 32 bytes: the length and the sum of the data. *)
Definition sample_sha256 (b : list byte) : list byte :=
  le_bytes 16 (zlen b) ++ le_bytes 16 (foldr (fun c z => le_value [c] + z) 0 b).

(** A host that answers every call; [f] is the state file. *)
Definition sample_host (f : list byte) : host :=
  mkHost (inr (string_bytes "/tmp/state" ++ [x00])) (fun _ => None) (fun _ => inr f)
    (fun _ n => n) 0 None.

Definition serve (r : request) (w : world) : world :=
  match FuseOps sample_direntry_size sample_sha256 (sample_host []) r sample_env w with
  | Ok _ w' => w'
  | Crash _ => w
  end.

(** The number 1 is the root; the requests make the file 2, the directory 3 with
    the file 4 in it, and the link 5. *)
Definition w_root : world :=
  match FuseInit 1000 1000 0x12 sample_env (construct 64 16) with
  | Ok _ w => w
  | Crash _ => construct 64 16
  end.
Definition setup : list request :=
  [ op_create 1 "f" 0x1a4;
    op_write 2 (Some [x61; x62; x63]) 0;
    op_mkdir 1 "d" 0x1ed;
    op_create 3 "g" 0x1a4;
    op_symlink "f" 1 "s";
    op_setxattr 2 "user.a" [x31; x32; x33] 0 ].
Definition run (w : world) (rs : list request) : world := foldl (fun w r => serve r w) w rs.
Definition w_all : world := run w_root setup.

(** The object with a number. *)
Definition at_number (w : world) (ino : Z) : inode :=
  default (new_inode (File [])) (get_inode w ino).
Definition children_of (w : world) (ino : Z) : list (string * Z) :=
  default [] (dir_children (at_number w ino)).

(** ** The sample worlds are reachable *)

Lemma serve_step w r w' a :
  FuseOps sample_direntry_size sample_sha256 (sample_host []) r sample_env w = Ok a w' ->
  kernel_ok w r ->
  step sample_direntry_size sample_sha256 (sample_host []) w r w'.
Proof. intros H Hk. split; [done|]. by exists sample_env, a. Qed.

Lemma w_root_mounted : mounted 64 16 w_root.
Proof. exists sample_env, 1000, 1000, 0x12, tt. by vm_compute. Qed.

(** A run is checked by evaluating the requests. *)
Fixpoint serves_all (w : world) (rs : list request) : bool :=
  match rs with
  | [] => true
  | r :: rs' =>
      match FuseOps sample_direntry_size sample_sha256 (sample_host []) r sample_env w with
      | Ok _ w' => serves_all w' rs'
      | Crash _ => false
      end
  end.

(** The requests of the samples are valid whatever the state. *)
Definition kernel_valid (r : request) : bool :=
  match r with
  | op_setattr _ _ _ => false
  | op_write _ (Some data) off => (0 <=? off) && (off + zlen data <? 2 ^ 63)
  | _ => true
  end.

Lemma kernel_valid_ok w r : kernel_valid r = true -> kernel_ok w r.
Proof.
  destruct r as [| | | | | | | | | | | | | |? [d|] off| | | | | | | | | | | | | | | |]; try done.
  simpl. intros H. zbool. lia.
Qed.

Lemma serves_all_steps w rs :
  serves_all w rs = true -> forallb kernel_valid rs = true ->
  steps sample_direntry_size sample_sha256 (sample_host []) w rs (run w rs).
Proof.
  unfold run. revert w. induction rs as [|r rs IH]; intros w H Hk; [constructor|].
  cbn [serves_all forallb foldl] in *. apply andb_true_iff in Hk as [Hr Hk].
  unfold serve at 2.
  destruct (FuseOps _ _ _ r sample_env w) as [a w'|] eqn:E; [|done].
  econstructor; [|by apply IH]. by eapply serve_step, kernel_valid_ok.
Qed.

Lemma w_all_steps :
  steps sample_direntry_size sample_sha256 (sample_host []) w_root setup w_all.
Proof. apply serves_all_steps; by vm_compute. Qed.

Lemma w_all_sys_ok : sys_ok 16 w_all.
Proof.
  refine (sys_ok_steps _ _ _ 16 w_root setup w_all _ _ w_all_steps).
  - apply (mounted_ok 64 16); [done|exact w_root_mounted].
  - by repeat constructor.
Qed.

Lemma w_all_ok : fs_ok w_all.
Proof. exact (sys_ok_fs _ _ w_all_sys_ok). Qed.

(** Evaluation of hypotheses on concrete data. *)
Ltac evaluate :=
  first [ done | by vm_compute | apply (bool_decide_unpack _); by vm_compute ].

Lemma f_linked : linked w_all 2 (at_number w_all 2).
Proof. split; by vm_compute. Qed.
Lemma d_linked : linked w_all 3 (at_number w_all 3).
Proof. split; by vm_compute. Qed.
Lemma g_linked : linked w_all 4 (at_number w_all 4).
Proof. split; by vm_compute. Qed.
Lemma root_linked : linked w_all 1 (at_number w_all 1).
Proof. split; by vm_compute. Qed.

Lemma f_repr : file_repr (at_number w_all 2) [x61; x62; x63].
Proof. eexists. by vm_compute. Qed.

Ltac dir_shape := split; [by vm_compute|split; [evaluate|by vm_compute]].

Lemma root_repr : dir_repr (at_number w_all 1) (children_of w_all 1).
Proof. dir_shape. Qed.
Lemma d_repr : dir_repr (at_number w_all 3) (children_of w_all 3).
Proof. dir_shape. Qed.
