(* ===== verification/Witnesses.v ===== *)
(** * The theorems at work

    Each property that has hypotheses is applied to the sample session, where
    its hypotheses are evaluated. *)

From S2P Require Import Prelude World Util Table InodeOps FileOps DirectoryOps Nodes.
From S2P Require Import Handlers CkptRestore Codec Pickle Requests Invariant Runs Replies.
From S2P Require Import DirectorySpec Specs Errors Removal Attributes PickleSpec Types Samples.

(** Take the branch that the evaluated condition selects. *)
Ltac branch H :=
  match type of H with
  | if ?b then _ else _ =>
      let v := eval vm_compute in b in
      replace b with v in H by (by vm_compute); cbv iota in H
  end.

(** Evaluate a term that stands in a hypothesis. *)
Ltac value_of t H :=
  let v := eval vm_compute in t in
  let E := fresh in assert (E : t = v) by (by vm_compute); rewrite E in H; clear E.

(** ** Files *)

Definition shorter : stat := set_st_size 2 (attr (at_number w_all 2)).

Lemma setattr_truncates_witness :
  exists f', FuseSetAttr 2 shorter FUSE_SET_ATTR_SIZE sample_env w_all
    = Ok tt (add_reply (reply_attr (attr f')) (charged w_all 2 0 f')) /\
    file_repr f' [x61; x62].
Proof.
  pose proof (setattr_truncates sample_env w_all 2 _ _ shorter FUSE_SET_ATTR_SIZE
    f_linked f_repr ltac:(by vm_compute) ltac:(by vm_compute)) as H.
  cbv zeta in H. do 2 branch H. destruct H as (f' & H & Hr & _). exists f'.
  match type of H with context [charged _ _ ?n _] => value_of n H end.
  match type of Hr with file_repr _ ?c => value_of c Hr end. exact (conj H Hr).
Defined.

Lemma write_implements_pwrite_witness :
  exists f', FuseWrite 2 (Some [x7a]) 5 sample_env w_all
    = Ok tt (written w_all 2 [x7a] [x61; x62; x63] 5 f') /\
    file_repr f' [x61; x62; x63; x00; x00; x7a].
Proof.
  pose proof (write_implements_pwrite sample_env w_all 2 _ _ [x7a] 5
    f_linked f_repr ltac:(by vm_compute) ltac:(by vm_compute)) as H.
  cbv zeta in H. do 2 branch H.
  match type of H with context [posix_write ?c ?o ?d] => value_of (posix_write c o d) H end.
  exact H.
Defined.

Lemma read_implements_pread_witness :
  exists w', FuseRead 2 10 1 sample_env w_all = Ok tt w' /\
    replies w' = replies w_all ++ [reply_buf [x62; x63]].
Proof.
  eexists. split.
  - exact (read_implements_pread sample_env w_all 2 _ _ 10 1 f_linked f_repr
      ltac:(done) ltac:(done) ltac:(done)).
  - by vm_compute.
Defined.

Definition w_written : world := run w_all [op_write 2 (Some [x79; x7a]) 7].

Lemma write_then_read_witness :
  exists w2, FuseRead 2 2 7 sample_env w_written = Ok tt w2 /\
    replies w2 = replies w_written ++ [reply_buf [x79; x7a]].
Proof.
  apply (write_then_read sample_env sample_env w_all 2 _ _ [x79; x7a] 7 w_written
    f_linked f_repr); by vm_compute.
Defined.

(** ** Names *)

Lemma lookup_is_map_lookup_witness :
  FuseLookup 1 "d" sample_env w_all
  = Ok tt (lookup_result w_all (dir_map (children_of w_all 1) !! "d"%string)).
Proof.
  exact (lookup_is_map_lookup sample_env w_all 1 _ _ "d" root_linked root_repr).
Defined.

Lemma link_adds_name_witness :
  exists w', FuseLink 2 3 "hard" sample_env w_all = Ok tt w' /\
    dir_map (children_of w_all 3 ++ [("hard"%string, 2)])
    = <[ "hard"%string := 2 ]> (dir_map (children_of w_all 3)).
Proof.
  pose proof (link_adds_name sample_env w_all 2 _ 3 _ _ "hard" f_linked d_linked d_repr
    ltac:(done) ltac:(by vm_compute)) as H.
  cbv zeta in H. do 2 branch H. destruct H as (p' & H & _ & Hm).
  eexists. exact (conj H Hm).
Defined.

Lemma unlink_removes_name_witness :
  exists w', FuseUnlink 1 "f" sample_env w_all = Ok tt w' /\
    FuseLookup 1 "f" sample_env w' = Ok tt (add_reply (reply_err ENOENT) w').
Proof.
  destruct (unlink_removes_name sample_env sample_env w_all 1 _ _ "f" 2 (at_number w_all 2)
    root_linked root_repr ltac:(by vm_compute) ltac:(done) ltac:(done) ltac:(by vm_compute)
    ltac:(by vm_compute)) as (p' & w' & H & _ & _ & _ & Hl).
  exists w'. exact (conj H Hl).
Defined.

Lemma create_makes_file_witness :
  exists w', FuseCreate 3 "new" 0x1a4 sample_env w_all = Ok tt w' /\
    exists w2 r, FuseLookup 3 "new" sample_env w' = Ok tt w2 /\
      replies w2 = replies w' ++ [reply_entry r].
Proof.
  destruct (create_makes_file sample_env sample_env w_all 3 _ _ "new" 0x1a4 w_all_ok
    d_linked d_repr ltac:(evaluate) ltac:(by vm_compute) ltac:(by vm_compute)
    ltac:(by vm_compute) ltac:(by vm_compute) ltac:(by vm_compute) ltac:(by vm_compute))
    as (w' & H & _ & _ & _ & _ & _ & w2 & H2 & Hr).
  exists w'. split; [exact H|]. exists w2. eexists. exact (conj H2 Hr).
Defined.

Lemma symlink_then_readlink_witness :
  exists w', FuseSymlink "../f" 3 "up" sample_env w_all = Ok tt w' /\
    FuseReadLink 6 sample_env w' = Ok tt (add_reply (reply_readlink "../f") w').
Proof.
  destruct (symlink_then_readlink sample_env sample_env w_all 3 _ _ "up" "../f" w_all_ok
    d_linked d_repr ltac:(evaluate) ltac:(by vm_compute) ltac:(by vm_compute)
    ltac:(by vm_compute) ltac:(by vm_compute) ltac:(by vm_compute) ltac:(by vm_compute))
    as (w' & H & _ & _ & _ & Hl).
  exists w'. exact (conj H Hl).
Defined.

Lemma mkdir_makes_directory_witness :
  exists w' p', FuseMkdir 3 "sub" 0x1ed sample_env w_all = Ok tt w' /\
    get_inode w' 3 = Some (relinked 1 p') /\ dir_repr p' (children_of w_all 3 ++ [("sub"%string, 6)]).
Proof.
  destruct (mkdir_makes_directory sample_env w_all 3 _ _ "sub" 0x1ed w_all_ok
    d_linked d_repr ltac:(evaluate) ltac:(by vm_compute) ltac:(by vm_compute)
    ltac:(by vm_compute) ltac:(by vm_compute) ltac:(by vm_compute) ltac:(by vm_compute))
    as (w' & p' & H & _ & _ & _ & _ & _ & _ & Hp & Hr & _).
  exists w', p'. exact (conj H (conj Hp Hr)).
Defined.

Definition w_dead : world := run w_all [op_unlink 3 "g"].

Lemma w_dead_ok : fs_ok w_dead.
Proof.
  refine (sys_ok_fs _ _ (sys_ok_steps _ _ _ 16 w_all [op_unlink 3 "g"] w_dead w_all_sys_ok _ _)).
  - by repeat constructor.
  - apply serves_all_steps; by vm_compute.
Qed.

Lemma rmdir_removes_directory_witness :
  exists w', FuseRmdir 1 "d" sample_env w_dead = Ok tt w' /\
    FuseLookup 1 "d" sample_env w' = Ok tt (add_reply (reply_err ENOENT) w').
Proof.
  pose proof (rmdir_removes_directory sample_env sample_env w_dead 1 (at_number w_dead 1)
    (children_of w_dead 1) "d" 3 (at_number w_dead 3) (children_of w_dead 3)
    ltac:(split; by vm_compute) ltac:(dir_shape) ltac:(by vm_compute)
    ltac:(split; by vm_compute) ltac:(dir_shape) ltac:(done) ltac:(done)
    ltac:(by vm_compute) ltac:(by vm_compute) ltac:(by vm_compute)) as H.
  branch H. destruct H as (p' & w' & H & _ & _ & _ & _ & Hl). exists w'. exact (conj H Hl).
Defined.

Lemma forget_reclaims_witness :
  let i := at_number w_dead 4 in
  let w1 := add_reply reply_none w_dead in
  FuseForget 4 1 sample_env w_dead = Ok tt (reclaimed w1 4 i) /\
  get_inode (reclaimed w1 4 i) 4 = None /\
  next_ino (reclaimed w1 4 i) = 4.
Proof.
  pose proof (forget_reclaims sample_env w_dead 4 1 (at_number w_dead 4) w_dead_ok
    ltac:(by vm_compute)) as H.
  cbv zeta in H. branch H. destruct H as (H & Hg & _ & Hn).
  exact (conj H (conj Hg (Hn ltac:(by vm_compute)))).
Defined.

Lemma rename_file_sample :
  rename_to w_all 1 3 2 (at_number w_all 1) (at_number w_all 3) (at_number w_all 2)
    (children_of w_all 1) (children_of w_all 3) "f".
Proof.
  split; [exact root_linked|exact root_repr|exact d_linked|exact d_repr|done
    |by vm_compute|exact f_linked|done|done|by vm_compute].
Qed.

Lemma rename_to_new_name_witness :
  exists w', FuseRename 1 "f" 3 "moved" sample_env w_all = Ok tt w' /\
    dir_map (children_of w_all 3 ++ [("moved"%string, 2)])
    = <[ "moved"%string := 2 ]> (dir_map (children_of w_all 3)).
Proof.
  assert (Hz : forall z, get_inode w_all INO_NOTFOUND = Some z -> NumLinks z <= 0).
  { intros z Hz. vm_compute in Hz. injection Hz as <-. by vm_compute. }
  pose proof (rename_to_new_name sample_env w_all 1 3 2 _ _ _ _ _ "f" "moved"
    rename_file_sample ltac:(evaluate) ltac:(by vm_compute) Hz) as H.
  cbv zeta in H. branch H. destruct H as (p' & q' & H & _ & _ & _ & Hm).
  eexists. exact (conj H Hm).
Defined.

Lemma rename_replaces_witness :
  exists w', FuseRename 1 "f" 3 "g" sample_env w_all = Ok tt w' /\
    dir_map (dir_assign "g" 2 (children_of w_all 3))
    = <[ "g"%string := 2 ]> (dir_map (children_of w_all 3)).
Proof.
  assert (Hf : S_ISDIR (GetMode (at_number w_all 4)) = false) by by vm_compute.
  destruct (rename_replaces sample_env w_all 1 3 2 _ _ _ _ _ "f" "g" 4 (at_number w_all 4)
    rename_file_sample ltac:(by vm_compute) ltac:(by vm_compute) ltac:(by vm_compute)
    ltac:(by vm_compute) ltac:(by rewrite Hf) ltac:(done) ltac:(done) ltac:(done))
    as (p' & q' & H & _ & _ & _ & Hm).
  eexists. exact (conj H Hm).
Defined.



(** ** Attributes and listing *)

Lemma w_all_heap : heap_ok (heap w_all).
Proof.
  split; [by vm_compute|]. intros a b Hb.
  replace (heap w_all) with (mkHeap {[ 1 := [x31; x32; x33] ]} 2) in *
    by (symmetry; by vm_compute).
  simpl in *. apply lookup_singleton_Some in Hb as [<- _]. lia.
Qed.

Lemma setxattr_then_getxattr_witness :
  exists w1, FuseSetXAttr 2 "user.a" [x39] 0 sample_env w_all = Ok tt w1 /\
    FuseGetXAttr 2 "user.a" 16 sample_env w1
    = Ok tt (add_reply (reply_buf [x39; x32; x33]) w1).
Proof.
  assert (Hold : old_value (heap w_all) (at_number w_all 2) "user.a" [x31; x32; x33]).
  { vm_compute. split; [done|]. by right. }
  destruct (setxattr_then_getxattr sample_env sample_env w_all 2 _ "user.a" [x39]
    [x31; x32; x33] 16 f_linked w_all_heap Hold eq_refl (fun _ => eq_refl)
    (conj eq_refl eq_refl)) as (w1 & H & _ & Hg).
  exists w1. exact (conj H Hg).
Defined.

Lemma listxattr_reports_size_witness :
  FuseListXAttr 2 0 sample_env w_all = Ok tt (add_reply (reply_xattr 7) w_all).
Proof.
  exact (proj1 (listxattr_reports_size sample_env sample_env w_all 2 _ f_linked
    ltac:(by vm_compute) ltac:(done))).
Defined.

Lemma access_grants_witness :
  FuseAccess 2 6 sample_env w_all = Ok tt (add_reply (reply_err 0) w_all).
Proof.
  apply (access_grants sample_env w_all 2 _ 6 f_linked ltac:(done)).
  do 3 right. split; [|by vm_compute]. intros j Hj Hb.
  destruct (decide (j < 3)) as [Hlt|Hge].
  - assert (j = 0 \/ j = 1 \/ j = 2) as [-> | [-> | ->]] by lia; by vm_compute.
  - exfalso. rewrite Z.bits_above_log2 in Hb; [done|done|]. change (Z.log2 6) with 2. lia.
Defined.

Lemma readdir_lists_small_directory_witness :
  exists w', FuseReadDir sample_direntry_size 3 4096 0 sample_env w_all = Ok tt w' /\
    replies w' = replies w_all
      ++ [reply_dirents (with_cookies (Z.shiftl 7 16) (listing w_all (children_of w_all 3)))].
Proof.
  assert (Hs : forall name, 0 <= sample_direntry_size name).
  { intros name. apply u64_range. }
  destruct (readdir_lists_small_directory sample_direntry_size Hs sample_env w_all 3 _
    (children_of w_all 3) 4096 7 d_linked ltac:(by vm_compute) ltac:(by vm_compute)
    ltac:(by vm_compute) ltac:(by vm_compute) ltac:(by vm_compute)) as (w' & H & Hr & _).
  exists w'. exact (conj H Hr).
Defined.

(** ** Checkpoints *)

Definition w_saved : world := set_state_pool {[ 5 := snapshot w_all ]} w_all.

Lemma memory_sample t : memory_for sample_env t.
Proof.
  split; [done|]. apply list.Forall_forall. intros [i|] _; [|done].
  by destruct (derived i).
Qed.

Lemma w_saved_run : checkpoint 5 sample_env w_all = Ok 0 w_saved.
Proof. by vm_compute. Qed.

Lemma w_saved_ok : sys_ok 16 w_saved.
Proof. exact (all_states_checkpoint _ _ _ _ _ _ _ w_all_sys_ok w_all_sys_ok w_saved_run). Qed.

Definition work : list request := [op_unlink 3 "g"; op_rmdir 1 "d"].
Definition w_worked : world := run w_saved work.

Lemma w_worked_steps :
  steps sample_direntry_size sample_sha256 (sample_host []) w_saved work w_worked.
Proof. apply serves_all_steps; by vm_compute. Qed.

Lemma w_worked_ok : fs_ok w_worked.
Proof.
  refine (sys_ok_fs _ _ (sys_ok_steps _ _ _ 16 w_saved work w_worked w_saved_ok _
    w_worked_steps)). by repeat constructor.
Qed.

Lemma restore_returns_stored_witness :
  restore 5 sample_env w_worked = Ok 0 (restored 5 (snapshot w_all) w_worked).
Proof.
  refine (proj1 (restore_returns_stored sample_env w_worked 5 (snapshot w_all) _ _
    (fs_ok_copyable _ w_all_ok) (memory_sample _) (fs_ok_classed _ w_worked_ok)));
    by vm_compute.
Defined.

(** A key that is not in the pool. *)
Lemma checkpoint_restore_fail_atomic_witness :
  exists w', restore 6 sample_env w_worked = Ok (- ENOENT) w' /\
    snapshot w' = snapshot w_worked /\ state_pool w' = state_pool w_worked.
Proof.
  assert (H : exists w', restore 6 sample_env w_worked = Ok (- ENOENT) w')
    by (eexists; by vm_compute).
  destruct H as [w' H]. exists w'.
  destruct (checkpoint_restore_fail_atomic sample_env w_worked 6 (- ENOENT) w'
    (or_intror H) (fun E => ltac:(discriminate E))) as (Hs & Hp & _).
  exact (conj H (conj Hs Hp)).
Defined.

Lemma reachable_ok_witness : fs_ok w_all /\ f_files (m_stbuf w_all) = 16.
Proof.
  destruct (reachable_ok sample_direntry_size sample_sha256 (sample_host []) 64 16
    w_root setup w_all ltac:(done) w_root_mounted ltac:(by repeat constructor) w_all_steps)
    as (H & Hf & _).
  exact (conj H Hf).
Defined.

Lemma restore_undoes_work_witness :
  exists w3, restore 5 sample_env w_worked = Ok 0 w3 /\ snapshot w3 = snapshot w_all.
Proof.
  destruct (restore_undoes_work sample_direntry_size sample_sha256 (sample_host []) 16
    w_all 5 sample_env w_saved work w_worked sample_env w_all_sys_ok
    ltac:(by vm_compute) w_saved_run ltac:(by repeat constructor) w_worked_steps
    (memory_sample _)) as (w3 & H & Hs & _).
  exists w3. exact (conj H Hs).
Defined.

(** ** Replies *)

Lemma replies_expected_witness :
  exists rs, replies w_dead = replies w_all ++ rs /\ length rs = 1%nat.
Proof.
  exact (replies_expected sample_direntry_size sample_sha256 (sample_host [])
    (op_unlink 3 "g") sample_env w_all tt w_dead ltac:(by vm_compute)).
Defined.

(** ** State files *)

Definition sample_pickle : list byte :=
  match Pickle (at_number w_all 2) sample_env w_all with Ok bs _ => bs | Crash _ => [] end.

Lemma sample_pickle_run :
  Pickle (at_number w_all 2) sample_env w_all = Ok sample_pickle w_all.
Proof. by vm_compute. Qed.

Lemma Pickle_fills_buffer_witness :
  zlen sample_pickle = GetPickledSize (at_number w_all 2).
Proof.
  exact (proj2 (Pickle_fills_buffer _ _ _ _ _ sample_pickle_run ltac:(by vm_compute))).
Defined.

Ltac in_range :=
  vm_compute; repeat match goal with |- _ /\ _ => split end;
  first [reflexivity | discriminate | exact I | lia | by repeat constructor].

Ltac each_in_range := repeat (apply list.Forall_cons; split; [in_range|]); by constructor.
Ltac picklable_object :=
  split;
    [ split; [in_range|split; [in_range|split; [by repeat constructor|
        split; [each_in_range|in_range]]]]
    | split; [unfold data_fits; cbn [derived]; first [split; [in_range|each_in_range]|in_range]
             | by vm_compute] ].

Lemma w_all_picklable : slots picklable (Inodes w_all).
Proof.
  assert (H : exists t, Inodes w_all = t) by eauto. destruct H as [t H]. rewrite H.
  vm_compute in H. subst t.
  repeat (apply list.Forall_cons; split; [picklable_object|]). constructor.
Qed.

Lemma snapshot_fits : state_fits (snapshot w_all).
Proof.
  split; [exact w_all_picklable|]. split; [in_range|]. split; [|split; in_range].
  replace (vs_deleted (snapshot w_all)) with (@nil Z) by (by vm_compute). constructor.
Qed.

Lemma saved_fits w key :
  state_fits (snapshot w) -> fits key ->
  world_fits (set_state_pool {[ key := snapshot w ]} w).
Proof.
  intros Hs Hk. split; [exact Hs|]. split.
  - intros k s Hl. simpl in Hl. by apply lookup_singleton_Some in Hl as [<- <-].
  - simpl. by rewrite map_size_singleton.
Qed.

Lemma w_saved_fits : world_fits w_saved.
Proof. apply saved_fits; [exact snapshot_fits|by vm_compute]. Qed.

Definition sample_file : list byte :=
  match pickle_verifs2 sample_sha256 (sample_host []) sample_env w_saved with
  | Ok (_, Some f) _ => f
  | _ => []
  end.

Lemma sample_file_run :
  pickle_verifs2 sample_sha256 (sample_host []) sample_env w_saved
  = Ok (0, Some sample_file) w_saved.
Proof. by vm_compute. Qed.

Lemma sample_sha256_length b : zlen (sample_sha256 b) = 32.
Proof. unfold sample_sha256. by rewrite length_app, !le_bytes_length. Qed.

Lemma sample_serves f : serves (sample_host f) f.
Proof. by eexists. Qed.

Lemma heap_ok_new : heap_ok (heap (construct 64 16)).
Proof. split; [done|]. intros a b Hb. simpl in Hb. by rewrite lookup_empty in Hb. Qed.

(** The file is loaded by a process that has just started. *)
Lemma pickle_then_load_witness :
  verify_state_file sample_sha256 sample_file = 0 /\
  exists w', load_verifs2 sample_sha256 (sample_host sample_file) sample_env (construct 64 16)
    = Ok 0 w' /\ loads w_saved (construct 64 16) w'.
Proof.
  exact (proj2 (pickle_then_load sample_sha256 sample_sha256_length (sample_host [])
    sample_env w_saved sample_file w_saved (sample_host sample_file) sample_env
    (construct 64 16) (fun _ _ => eq_refl) w_saved_fits sample_file_run ltac:(by vm_compute)
    (sample_serves _) (fun _ => eq_refl) heap_ok_new)).
Defined.

(** A file whose last byte was lost. *)
Lemma load_rejects_damaged_file_witness :
  load_verifs2 sample_sha256 (sample_host (removelast sample_file)) sample_env w_all
  = Ok (- EMSGSIZE) w_all.
Proof.
  refine (proj1 (proj2 (load_rejects_damaged_file sample_sha256
    (sample_host (removelast sample_file)) (removelast sample_file) sample_env w_all
    (sample_serves _) eq_refl)) _ _); by vm_compute.
Defined.

(** ** Errors *)

(** The number 9 is beyond the table. *)
(** A rename into a directory that is not there, and [fsync] of an inode without links. *)
Lemma missing_inode_ENOENT_witness :
  FuseOps sample_direntry_size sample_sha256 (sample_host []) (op_rename 1 "f" 9 "g") sample_env w_all
  = Ok tt (add_reply (reply_err ENOENT) w_all) /\
  exists i, get_inode w_dead 4 = Some i /\ HasNoLinks i = true /\
    FuseOps sample_direntry_size sample_sha256 (sample_host []) (op_fsync 4) sample_env w_dead
    = Ok tt (add_reply (reply_err 0) w_dead).
Proof.
  split.
  - refine (proj1 (missing_inode_ENOENT sample_direntry_size sample_sha256 (sample_host [])
      (op_rename 1 "f" 9 "g") 9 sample_env w_all) ltac:(set_solver) _). intros i [Hi _]. by vm_compute in Hi.
  - destruct (missing_inode_ENOENT sample_direntry_size sample_sha256 (sample_host [])
      (op_fsync 4) 4 sample_env w_dead) as [_ H].
    exists (at_number w_dead 4). split; [by vm_compute|]. split; [by vm_compute|].
    rewrite H. by vm_compute.
Defined.

Lemma not_a_directory_ENOTDIR_witness :
  FuseOps sample_direntry_size sample_sha256 (sample_host []) (op_rename 1 "f" 2 "x") sample_env w_all
  = Ok tt (add_reply (reply_err ENOTDIR) w_all).
Proof.
  apply (not_a_directory_ENOTDIR _ _ _ (op_rename 1 "f" 2 "x") 2 _ sample_env w_all
    ltac:(set_solver) f_linked ltac:(by vm_compute)).
  intros t [->| ->%list_elem_of_singleton]%elem_of_cons; [exact (ex_intro _ _ root_linked)|].
  exact (ex_intro _ _ f_linked).
Defined.

(** ** Types *)

Lemma w_dead_step :
  step sample_direntry_size sample_sha256 (sample_host []) w_all (op_unlink 3 "g") w_dead.
Proof. apply (serve_step w_all (op_unlink 3 "g") w_dead tt); by vm_compute. Qed.

Lemma inodes_keep_their_type_witness :
  exists j, get_inode w_dead 3 = Some j /\ class_of j = class_of (at_number w_all 3) /\
    class_of (at_number w_all 3) = a_directory.
Proof.
  destruct (inodes_keep_their_type sample_direntry_size sample_sha256 (sample_host []) 64 16
    w_root setup w_all (op_unlink 3 "g") w_dead 3 (at_number w_all 3) ltac:(done) w_root_mounted
    ltac:(by repeat constructor) w_all_steps eq_refl w_dead_step (proj1 d_linked))
    as [(j & Hj & _ & Hc & _)|([n Hn] & _)]; [|done].
  exists j. split; [exact Hj|]. split; [exact Hc|]. by vm_compute.
Defined.
