(* ===== verification/SampleClients.v ===== *)
(** * Sample runs of the clients and of the dumps

    The theorems about the client programs and the dumps, applied to the sample
    session. *)

From S2P Require Import Prelude World Util Table InodeOps FileOps DirectoryOps Nodes.
From S2P Require Import Handlers CkptRestore Codec Pickle Requests Invariant Runs.
From S2P Require Import Specs Removal Attributes PickleSpec Clients Dumps Samples Witnesses.

(** A host on which every call succeeds. *)
Definition sample_sys : syscalls :=
  mkSyscalls (fun _ => true) true (fun n => n) (fun _ => None) (fun _ n => n) 0 None.

Definition machine_after (o : option (Z * machine)) (m : machine) : machine :=
  match o with Some (_, m') => m' | None => m end.

Definition m_all : machine := mkMachine w_all None ∅.
Definition m_ckpt : machine :=
  machine_after (ckpt_main sample_sha256 sample_sys sample_env ["ckpt"; "/mnt"; "5"]%string m_all)
    m_all.

Lemma m_ckpt_run :
  ckpt_main sample_sha256 sample_sys sample_env ["ckpt"; "/mnt"; "5"]%string m_all
  = Some (0, m_ckpt).
Proof. by vm_compute. Qed.

Lemma m_ckpt_steps :
  steps sample_direntry_size sample_sha256 (sample_host []) (fs m_ckpt) work
    (run (fs m_ckpt) work).
Proof. apply serves_all_steps; by vm_compute. Qed.

Lemma ckpt_restore_clients_witness :
  exists m3, restore_main sample_sha256 sample_sys sample_env ["restore"; "/mnt"; " +5"]%string
               (mkMachine (run (fs m_ckpt) work) None ∅) = Some (0, m3)
    /\ snapshot (fs m3) = snapshot (fs m_all).
Proof.
  destruct (ckpt_restore_clients sample_sha256 sample_direntry_size (sample_host []) 16
    sample_sys sample_env "ckpt" "/mnt" "5" m_all m_ckpt work (run (fs m_ckpt) work)
    sample_sys sample_env "restore" "/mnt" " +5" None ∅
    w_all_sys_ok ltac:(by vm_compute) eq_refl m_ckpt_run ltac:(by repeat constructor)
    m_ckpt_steps eq_refl ltac:(by vm_compute) (memory_sample _)) as (m3 & H & Hs & _).
  exists m3. exact (conj H Hs).
Defined.

Definition m_saved : machine := mkMachine w_saved None ∅.
Definition m_pickled : machine :=
  machine_after
    (pkl_main sample_sha256 sample_sys sample_env ["pkl"; "/mnt"; "/tmp/state"]%string m_saved)
    m_saved.

Lemma m_pickled_run :
  pkl_main sample_sha256 sample_sys sample_env ["pkl"; "/mnt"; "/tmp/state"]%string m_saved
  = Some (0, m_pickled).
Proof. by vm_compute. Qed.

Lemma m_pickled_small f : files m_pickled !! "/tmp/state"%string = Some f -> zlen f < 2 ^ 64.
Proof.
  assert (E : match files m_pickled !! "/tmp/state"%string with
              | Some g => zlen g <? 2 ^ 64 | None => true end = true) by (by vm_compute).
  intros H. rewrite H in E. by zbool.
Qed.

Lemma files_of w c fl (path : string) : files (mkMachine w c fl) !! path = fl !! path.
Proof. done. Qed.

(** The file system is loaded by a process that has just started. *)
Lemma pkl_load_clients_witness :
  let m' := mkMachine (construct 64 16) None (files m_pickled) in
  exists w', load_main sample_sha256 sample_sys sample_env ["load"; "/mnt"; "/tmp/state"]%string m'
    = Some (0, mkMachine (add_reply (reply_ioctl 0) w') (Some (string_bytes "/tmp/state"))
                 (files m'))
    /\ loads (fs m_saved) (fs m') w'.
Proof.
  destruct (proj2 (pkl_load_clients sample_sha256 sample_sys sample_env "pkl" "/mnt" "/tmp/state"
    m_saved m_pickled sample_sys sample_env "load" "/mnt"
    (mkMachine (construct 64 16) None (files m_pickled))
    sample_sha256_length ltac:(by vm_compute) ltac:(by repeat constructor) eq_refl eq_refl
    (fun _ => eq_refl) eq_refl (fun _ _ => eq_refl) eq_refl w_saved_fits m_pickled_run
    m_pickled_small eq_refl eq_refl (fun _ => eq_refl) eq_refl (fun _ => eq_refl) heap_ok_new
    (files_of _ _ _ _))) as (w' & Hload & Hloads & _).
  exists w'. exact (conj Hload Hloads).
Defined.

(** The key 5 is in use. *)
Lemma clients_refuse_witness :
  exists m1, ckpt_main sample_sha256 sample_sys sample_env ["ckpt"; "/mnt"; "5"]%string m_ckpt
             = Some (1, m1) /\ snapshot (fs m1) = snapshot (fs m_ckpt).
Proof.
  assert (H : exists m1, ckpt_main sample_sha256 sample_sys sample_env
    ["ckpt"; "/mnt"; "5"]%string m_ckpt = Some (1, m1)) by (eexists; by vm_compute).
  destruct H as [m1 H]. exists m1. split; [exact H|].
  exact (proj1 (proj2 (proj2 (proj2 (clients_refuse sample_sha256 sample_sys sample_env
    "ckpt" "/mnt" "5" m_ckpt))) true 1 m1 H ltac:(done))).
Defined.

(** ** Dumps *)

Definition terminated_b (o : option inode) : bool :=
  match o with
  | Some i => match derived i with File [] => true | File b => bool_decide (x00 ∈ b) | _ => true end
  | None => true
  end.

Lemma terminated_b_ok t : forallb terminated_b t = true -> slots file_terminated t.
Proof.
  induction t as [|[i|] t IH]; simpl; intros H; [by constructor| |].
  - apply andb_true_iff in H as [Hi Ht]. constructor; [|by apply IH].
    unfold file_terminated. simpl in Hi. destruct (derived i) as [[|c b]|l|s|s]; try done; [by left|].
    right. by apply bool_decide_eq_true in Hi.
  - constructor; [done|by apply IH].
Qed.

(** A file system with an empty file, a directory, and a free slot between them. *)
Definition dump_setup : list request :=
  [ op_create 1 "a" 0x1a4; op_create 1 "b" 0x1a4; op_mkdir 1 "d" 0x1ed;
    op_unlink 1 "b"; op_forget 3 1 ].
Definition w_dump : world := run w_root dump_setup.

Lemma w_dump_ok : fs_ok w_dump.
Proof.
  assert (H : steps sample_direntry_size sample_sha256 (sample_host []) w_root dump_setup w_dump)
    by (apply serves_all_steps; by vm_compute).
  refine (sys_ok_fs _ _ (sys_ok_steps _ _ _ 16 w_root dump_setup w_dump _ _ H)).
  - apply (mounted_ok 64 16); [done|exact w_root_mounted].
  - by repeat constructor.
Qed.

Lemma dump_inodes_safe_witness :
  DeletedInodes w_dump = [3] /\
  ends dump_result (dump_inodes_verifs2 (Inodes w_dump) (DeletedInodes w_dump) "sample").
Proof.
  split; [by vm_compute|]. refine (dump_inodes_safe w_dump "sample" w_dump_ok _ _).
  - apply terminated_b_ok. by vm_compute.
  - by vm_compute.
Defined.

(** The checkpoint of that file system cannot be dumped. *)
Definition known_b (o : option inode) : bool :=
  match o with
  | Some i => class_matches i && terminated_b o &&
      match dump_each_inode_type o with inr (r, _) => r =? 0 | inl _ => false end
  | None => true
  end.

Lemma known_b_ok t :
  forallb known_b t = true -> slots (fun i => dumpable i /\ known_mode i) t.
Proof.
  induction t as [|[i|] t IH]; intros H; [by constructor| |].
  - cbn [forallb known_b] in H. apply andb_true_iff in H as [Hi Ht].
    apply andb_true_iff in Hi as [Hi Hr]. apply andb_true_iff in Hi as [Hc Hf].
    constructor; [|by apply IH]. split; [split; [done|]|].
    + pose proof (terminated_b_ok [Some i]) as Hs. cbn [forallb] in Hs. rewrite Hf in Hs.
      by apply Forall_inv in Hs.
    + intros out E. by rewrite E in Hr.
  - constructor; [done|by apply IH].
Qed.

Lemma pool_of P w : state_pool (set_state_pool P w) = P.
Proof. done. Qed.

Definition w_dump_saved : world := set_state_pool {[ 5 := snapshot w_dump ]} w_dump.

Lemma dump_state_pool_holes_witness : dump_state_pool w_dump_saved = inl crash_null.
Proof.
  refine (proj2 (dump_state_pool_holes w_dump_saved _) 5 (snapshot w_dump) _ _).
  - intros key s H. unfold w_dump_saved in H. rewrite pool_of in H. apply lookup_singleton_Some in H as [_ <-].
    apply known_b_ok. by vm_compute.
  - unfold w_dump_saved. rewrite pool_of. apply lookup_singleton_eq.
  - apply (list_elem_of_lookup_2 _ 3). by vm_compute.
Defined.
