(* ===== verification/SampleTrees.v ===== *)
(** * Links and safety on the sample session

    The sample session as a run of requests that the kernel may send, and the
    properties of links and of returning requests in the state it reaches. *)

From S2P Require Import Prelude World Util Table InodeOps FileOps DirectoryOps Nodes.
From S2P Require Import Handlers CkptRestore Codec Pickle Requests Invariant Runs.
From S2P Require Import Attributes Links LinkRuns Safety Specs Listing Samples.

Definition links_below_b (w : world) (c : Z) : bool :=
  match get_inode w c with Some i => st_nlink (attr i) <? 2 ^ 64 - 1 | None => true end.

(** [vfs_ok], evaluated. *)
Definition vfs_check (w : world) (r : request) : bool :=
  match r with
  | op_forget ino _ => negb (ino =? 0)
  | op_unlink _ name | op_rmdir _ name => negb (is_dot name)
  | op_rename _ name newparent newname =>
      negb (is_dot name) && negb (is_dot newname) && links_below_b w newparent
  | op_link ino _ _ =>
      match get_inode w ino with
      | Some i => match dir_children i with None => true | Some _ => false end
      | None => true
      end && links_below_b w ino
  | op_mknod parent _ _ _ | op_mkdir parent _ _ | op_symlink _ parent _
  | op_create parent _ _ => links_below_b w parent
  | _ => true
  end.

Lemma links_below_check w c : links_below_b w c = true -> links_below w c.
Proof.
  unfold links_below_b, links_below. intros H i Hi. rewrite Hi in H. zbool. lia.
Qed.

Lemma vfs_check_ok w r : vfs_check w r = true -> vfs_ok w r.
Proof.
  destruct r; simpl; intros H; try done; try by apply links_below_check.
  - by zbool.
  - by apply negb_true_iff.
  - by apply negb_true_iff.
  - rewrite !andb_true_iff, !negb_true_iff in H. destruct H as [[Ha Hb] Hc].
    auto using links_below_check.
  - apply andb_true_iff in H as [Ha Hb]. split; [|by apply links_below_check].
    intros i Hi. rewrite Hi in Ha. by destruct (dir_children i).
Qed.

(** A run of requests that the kernel may send. *)
Fixpoint vfs_serves (w : world) (rs : list request) : bool :=
  match rs with
  | [] => true
  | r :: rs' => vfs_check w r && vfs_serves (serve r w) rs'
  end.

Lemma vfs_serves_steps w rs :
  serves_all w rs = true -> forallb kernel_valid rs = true -> vfs_serves w rs = true ->
  vfs_steps sample_direntry_size sample_sha256 (sample_host []) w rs (run w rs).
Proof.
  unfold run. revert w. induction rs as [|r rs IH]; intros w H Hk Hv; [constructor|].
  cbn [serves_all forallb foldl vfs_serves] in *.
  apply andb_true_iff in Hk as [Hr Hk]. apply andb_true_iff in Hv as [Hv1 Hv].
  unfold serve at 2. unfold serve at 1 in Hv.
  destruct (FuseOps _ _ _ r sample_env w) as [a w'|] eqn:E; [|done].
  econstructor; [by apply vfs_check_ok| |by apply IH]. by eapply serve_step, kernel_valid_ok.
Qed.

Lemma setup_steps :
  vfs_steps sample_direntry_size sample_sha256 (sample_host []) w_root setup w_all.
Proof. apply vfs_serves_steps; by vm_compute. Qed.

Lemma names_have_links_witness :
  exists j, get_inode w_all 3 = Some j /\ HasNoLinks j = false /\
    1 <= g_names (wgraph w_all) 3 <= st_nlink (attr j) /\
    forall k, dir_children j = Some k ->
      g_names (wgraph w_all) 3 = 1 /\
      2 + subdirs (g_dir (wgraph w_all)) k <= st_nlink (attr j).
Proof.
  apply (names_have_links sample_direntry_size sample_sha256 (sample_host []) 64 16 w_root setup
    w_all 1 (at_number w_all 1) (children_of w_all 1) "d" 3).
  - by vm_compute.
  - exact w_root_mounted.
  - by repeat constructor.
  - exact setup_steps.
  - by vm_compute.
  - by vm_compute.
  - apply (bool_decide_unpack _). by vm_compute.
  - by vm_compute.
Defined.

Lemma small_check w :
  forallb (fun o => dir_bytes (kids_of o) <? 2 ^ 63) (wgraph w) = true ->
  forall p, dir_small w p.
Proof.
  intros H p. unfold dir_small, g_kids, g_node, vec_at.
  destruct (0 <=? p); [|by vm_compute].
  destruct (wgraph w !! Z.to_nat p) as [o|] eqn:E; [|by vm_compute]. simpl.
  rewrite forallb_forall in H. apply list_elem_of_lookup_2, list_elem_of_In, H in E.
  zbool. by destruct o.
Qed.

Lemma requests_return_witness :
  exists a w2, FuseOps sample_direntry_size sample_sha256 (sample_host [])
    (op_rename 1 "f" 3 "g") sample_env w_all = Ok a w2.
Proof.
  apply (requests_return sample_direntry_size sample_sha256 (sample_host []) 64 16 w_root setup
    w_all (op_rename 1 "f" 3 "g") sample_env).
  - by vm_compute.
  - exact w_root_mounted.
  - by repeat constructor.
  - exact setup_steps.
  - done.
  - done.
  - apply vfs_check_ok. by vm_compute.
  - apply small_check. by vm_compute.
  - by vm_compute.
Defined.

Lemma pairs_check size l :
  forallb (fun a => forallb (fun b =>
    sample_direntry_size a + sample_direntry_size b <=? Z.min kReadDirBufSize size) l.*1) l.*1
  = true -> pairs_fit sample_direntry_size size l.
Proof.
  intros H a b Ha Hb. rewrite forallb_forall in H.
  specialize (H a (proj1 (list_elem_of_In _ _) Ha)). rewrite forallb_forall in H.
  specialize (H b (proj1 (list_elem_of_In _ _) Hb)). zbool. lia.
Qed.

Lemma sample_size_nonneg name : 0 <= sample_direntry_size name.
Proof.
  unfold sample_direntry_size, round_up. apply u64_range.
Qed.

Lemma readdir_sequence_complete_witness :
  exists sent w', list_directory sample_direntry_size (fun _ => sample_env)
      (S (S (length (children_of w_all 1)))) 1 4096 0 w_all = Some (sent, w') /\
    Inodes w' = Inodes w_all /\ readdirStates w' !! 7 = None /\
    forall x, x ∈ shown <$> sent <-> x ∈ listing w_all (children_of w_all 1).
Proof.
  apply (readdir_sequence_complete sample_direntry_size sample_size_nonneg (fun _ => sample_env)
    1 4096 (at_number w_all 1) (children_of w_all 1) w_all 7).
  - exact root_linked.
  - by vm_compute.
  - by vm_compute.
  - apply pairs_check. by vm_compute.
  - done.
  - by vm_compute.
  - by vm_compute.
Defined.
