(* ===== verification/SampleLocks.v ===== *)
(** * Threads that run

    Runs of threads that serve requests: the theorems on locks at concrete requests, and
    the fields that the locks do not protect. *)

From S2P Require Import Prelude World Requests CkptRestore Locks LockOps LockSpec.

(** ** Finding runs *)

(** What to choose at the next step, where [inos] are the numbers that may be read. *)
Definition choices (inos : list Z) (t : thread) : list choice :=
  match todo t with
  | Run (Or _ _) :: _ | Run (Loop _) :: _ => [right_; left_]
  | Run (Pick _) :: _ => pick <$> inos
  | _ => [go]
  end.

Fixpoint first_some {A B} (f : A -> option B) (l : list A) : option B :=
  match l with [] => None | x :: l => match f x with Some y => Some y | None => first_some f l end end.

(** The steps of a thread, alone, to where [stop] holds. *)
Fixpoint path (fuel : nat) (inos : list Z) (stop : thread -> bool) (t : thread)
  : option (list choice) :=
  if stop t then Some [] else
  match fuel with
  | O => None
  | S n => first_some (fun c =>
      match run_thread (fun _ => true) c t with
      | Some t' => cons c <$> path n inos stop t'
      | None => None
      end) (choices inos t)
  end.

Definition at_access (w : access) (f : field) (t : thread) : bool :=
  match todo t with Run (Access w' f') :: _ => bool_decide (w = w') && bool_decide (f = f') | _ => false end.
Definition at_bare_access (l : lock) (w : access) (f : field) (t : thread) : bool :=
  at_access w f t && negb (bool_decide (l ∈ (held t).*2)).
Definition at_locks (ls : list (mode * lock)) (t : thread) : bool := bool_decide (wants t = ls).

(** The threads go one after the other, each to its stop. *)
Fixpoint to_stops (fuel : nat) (inos : list Z) (i : nat) (stops : list (thread -> bool))
    (ts : list thread) : option (list thread) :=
  match stops with
  | [] => Some ts
  | stop :: stops =>
      match ts !! i with
      | None => None
      | Some t =>
          match path fuel inos stop t with
          | None => None
          | Some p =>
              match schedule (pair i <$> p) ts with
              | None => None
              | Some ts => to_stops fuel inos (S i) stops ts
              end
          end
      end
  end.

Lemma to_stops_steps fuel inos i stops ts ts' :
  to_stops fuel inos i stops ts = Some ts' -> psteps false ts ts'.
Proof.
  revert i ts. induction stops as [|stop stops IH]; intros i ts H; simplify_eq/=; [apply rtc_refl|].
  repeat case_match; try done. etrans; [by eapply schedule_steps|]. by eapply IH.
Qed.

(** Two programs that come to access a field at once. *)
Lemma race_of ts f w w' k k' h h' :
  ts = [mkThread h (Run (Access w f) :: k); mkThread h' (Run (Access w' f) :: k')] ->
  conflicting w w' = true -> race ts f.
Proof.
  intros -> Hw. exists 0%nat, 1%nat. do 2 eexists. exists w, w'.
  split_and!; [done|done|done|by eexists|by eexists|done].
Qed.

Ltac race_at fuel inos stops :=
  eexists; split;
  [ eapply (to_stops_steps fuel inos 0 stops); vm_compute; reflexivity
  | eapply race_of; reflexivity ].
Ltac race_run fuel inos w w' :=
  match goal with |- exists ts, _ /\ race ts ?f =>
    race_at fuel inos [at_access w f; at_access w' f]
  end.

Definition two (r r' : request) : list thread :=
  start <$> [locks_of (fun _ => false) r; locks_of (fun _ => false) r'].

(** [RemoveXAttrAndReply] takes the lock of the attributes of the inode, not the one of
    its extended attributes. *)
Lemma xattr_race :
  exists ts, psteps false (two (op_setxattr 2 "user.a" [] 0) (op_removexattr 2 "user.a")) ts /\
    race ts (f_xattr 2).
Proof. race_run 40%nat [2] Writes Writes. Qed.

(** [WriteAndReply] writes the buffer of the file before it takes a lock, so that two
    writes meet, and a read that is in its loop as well. *)
Lemma buffer_race :
  exists ts, psteps false (two (op_write 2 (Some []) 0) (op_write 2 (Some []) 0)) ts /\ race ts (f_buf 2).
Proof. race_run 60%nat [2] Writes Writes. Qed.

Lemma read_race :
  exists ts, psteps false (two (op_write 2 (Some []) 0) (op_read 2 10 0)) ts /\ race ts (f_buf 2).
Proof. race_run 60%nat [2] Writes Reads. Qed.

(** The iterators of open directories have no lock. *)
Lemma iterator_race :
  exists ts, psteps false (two (op_readdir 1 100 0) (op_readdir 2 100 0)) ts /\
    race ts f_readdirStates.
Proof. race_run 60%nat [2] Writes Writes. Qed.

(** [RegisterInode] asks for a free number without the lock of the queue. *)
Lemma deleted_race :
  exists ts, psteps false (two (op_mkdir 1 "a" 0) (op_forget 2 1)) ts /\ race ts f_DeletedInodes.
Proof. race_run 60%nat [3] Reads Writes. Qed.

(** [_RemoveChild] sets a time of the directory without the lock of its attributes. *)
Lemma entry_race :
  exists ts, psteps false (two (op_unlink 1 "a") (op_getattr 1)) ts /\ race ts (f_entry 1).
Proof.
  race_at 60%nat [2] [at_bare_access (entryRwSem 1) Writes (f_entry 1); at_access Reads (f_entry 1)].
Qed.

(** The destructor of a directory takes no lock, so that it meets a thread that looks for
    a name: [FuseForget] deletes an inode that has no more links, and the other thread
    has passed the test for that before. *)
Lemma destroyed_entries_race :
  exists ts, psteps false (two (op_forget 2 1) (op_lookup 2 "a")) ts /\ race ts (f_children 2).
Proof. race_run 60%nat [2] Destroys Reads. Qed.

(** The same for the buffer of a file. *)
Lemma destroyed_buffer_race :
  exists ts, psteps false (two (op_forget 2 1) (op_read 2 10 0)) ts /\ race ts (f_buf 2).
Proof. race_run 60%nat [2] Destroys Reads. Qed.

(** Pickling does not take [crMutex], and not the locks of what it reads. *)
Lemma pickle_race :
  exists ts, psteps false (two (op_ioctl VERIFS_PICKLE 0) (op_mkdir 1 "a" 0)) ts /\
    race ts f_Inodes.
Proof. race_run 60%nat [2] Reads Writes. Qed.

Lemma load_race :
  exists ts, psteps false (two (op_ioctl VERIFS_LOAD 0) (op_getattr 1)) ts /\ race ts f_Inodes.
Proof. race_run 60%nat [2] Writes Reads. Qed.

(** *** Renames that the kernel does not send *)

Ltac deadlock_run fuel stops :=
  eexists; split;
  [ eapply (to_stops_steps fuel [] 0 stops); vm_compute; reflexivity | vm_compute; reflexivity ].

(** Two renames of files onto directories that the other one holds: without the mutex of
    renames they wait for each other. *)
Lemma crossed_renames_deadlock :
  exists ts,
    psteps false (start <$> [FuseRename_locks (fun ino => ino <? 10) 5 7 10 6;
                             FuseRename_locks (fun ino => ino <? 10) 6 8 11 5]) ts /\
    deadlocked false ts = true.
Proof.
  deadlock_run 200%nat
    [at_locks [(Shared, childrenRwSem 6)]; at_locks [(Shared, childrenRwSem 5)]].
Qed.

(** A rename onto the directory that it is in waits for itself. *)
Lemma rename_onto_parent_deadlock :
  exists ts, psteps false (start <$> [FuseRename_locks (fun _ => true) 5 7 10 5]) ts /\
    deadlocked false ts = true.
Proof.
  deadlock_run 200%nat
    [fun t => at_locks [(Shared, childrenRwSem 5)] t && bool_decide ((Unique, renameMutex) ∈ held t)].
Qed.

(** ** The theorems on threads *)

(** A checkpoint, [mkdir] and two renames of directories. *)
Definition sample_isdir (ino : Z) : bool := ino <? 100.
Definition sample_programs : list prog :=
  [locks_of sample_isdir (op_ioctl VERIFS_CHECKPOINT 1); locks_of sample_isdir (op_mkdir 5 "a" 0);
   FuseRename_locks sample_isdir 5 7 10 6; FuseRename_locks sample_isdir 6 8 11 5].

Lemma sample_served : Forall (served no_state_file) sample_programs.
Proof. repeat constructor; try done; intros _; split; done. Qed.

Lemma sample_served_any : Forall (served any_request) sample_programs.
Proof. repeat constructor; try done; intros _; split; done. Qed.

(** The checkpoint is at work and the others wait for it. *)
Definition sample_wait : list thread :=
  default [] (to_stops 60 [] 0 [at_access Reads f_Inodes; at_locks [(Shared, crMutex)];
    at_locks [(Shared, crMutex)]; at_locks [(Shared, crMutex)]] (start <$> sample_programs)).
Lemma sample_waits : psteps false (start <$> sample_programs) sample_wait.
Proof.
  eapply (to_stops_steps 60 [] 0 [at_access Reads f_Inodes; at_locks [(Shared, crMutex)];
    at_locks [(Shared, crMutex)]; at_locks [(Shared, crMutex)]]). vm_compute. reflexivity.
Qed.

Lemma requests_never_deadlock_witness :
  exists ts', psteps false sample_wait ts' /\ Forall (fun t => todo t = []) ts'.
Proof.
  exact (requests_never_deadlock false sample_programs sample_wait sample_served_any sample_waits).
Defined.

Lemma locks_protect_state_witness :
  ~ race sample_wait f_Inodes /\
  exists t u, sample_wait !! 0%nat = Some t /\ sample_wait !! 1%nat = Some u /\
    accesses t Reads f_Inodes /\ ~ accesses u Reads f_Inodes.
Proof.
  destruct (locks_protect_state false sample_programs sample_wait sample_served sample_waits)
    as (Hrace & _ & _ & _ & Halone).
  split; [exact Hrace|]. eexists _, _.
  split; [vm_compute; reflexivity|]. split; [vm_compute; reflexivity|]. split; [by eexists|].
  eapply (Halone 0%nat 1%nat); [vm_compute; reflexivity| |vm_compute; reflexivity|done].
  apply list_elem_of_here.
Defined.
