(* ===== verification/SampleStates.v ===== *)
(** * Ranges and state files at work

    A session with a checkpoint in it is replayed with requests and environments in range,
    saved to a state file and loaded by another process. *)

From S2P Require Import Prelude World Util Table InodeOps FileOps DirectoryOps Nodes.
From S2P Require Import Handlers CkptRestore Codec Pickle Requests Invariant Runs Specs.
From S2P Require Import Attributes Memory PickleSpec Returns Ranges StateFiles Samples Witnesses.

Lemma sample_env_range : env_range sample_env.
Proof. in_range. Qed.

Lemma serves_all_typed w rs :
  serves_all w rs = true -> forallb kernel_valid rs = true -> Forall request_range rs ->
  typed_steps sample_direntry_size sample_sha256 (sample_host []) w rs (run w rs).
Proof.
  unfold run. revert w. induction rs as [|r rs IH]; intros w H Hk Hr; [constructor|].
  cbn [serves_all forallb foldl] in *. apply andb_true_iff in Hk as [Hk1 Hk].
  apply list.Forall_cons in Hr as [Hr1 Hr]. unfold serve at 2.
  destruct (FuseOps _ _ _ r sample_env w) as [a w'|] eqn:E; [|done].
  econstructor; [|by apply IH]. split; [by apply kernel_valid_ok|]. split; [done|].
  exists sample_env, a. split; [exact sample_env_range|done].
Qed.

Definition kept_session : list request := setup ++ [op_ioctl VERIFS_CHECKPOINT 7].
Definition w_kept : world := run w_root kept_session.

Lemma w_root_typed : mounted_typed 64 16 w_root.
Proof.
  exists sample_env, 1000, 1000, 0x12, tt. split; [exact sample_env_range|].
  split; [in_range|]. split; [in_range|]. by vm_compute.
Qed.

Lemma w_kept_steps :
  typed_steps sample_direntry_size sample_sha256 (sample_host []) w_root kept_session w_kept.
Proof.
  apply serves_all_typed; [by vm_compute|by vm_compute|].
  repeat (apply list.Forall_cons; split; [first [done | in_range]|]). by constructor.
Qed.

Lemma values_in_range_witness :
  (forall ino i, get_inode w_kept ino = Some i -> object_range i) /\
  statvfs_range (m_stbuf w_kept).
Proof.
  destruct (values_in_range sample_direntry_size sample_sha256 (sample_host []) 64 16 w_root
    kept_session w_kept ltac:(done) ltac:(done) w_root_typed ltac:(by repeat constructor)
    w_kept_steps) as (Ho & _ & Hs & _).
  exact (conj Ho Hs).
Defined.

Lemma w_kept_pool : state_pool w_kept = {[ 7 := snapshot w_kept ]}.
Proof. by vm_compute. Qed.

Lemma w_kept_storable : storable (heap w_kept) (Inodes w_kept).
Proof.
  assert (H : exists t, Inodes w_kept = t) by eauto. destruct H as [t H]. rewrite H.
  vm_compute in H. subst t.
  repeat (apply list.Forall_cons; split; [first [exact I|split; [|by vm_compute]]|]);
    [..|by constructor].
  all: first [by constructor | constructor; [|by constructor]].
  exists [x31; x32; x33]. split; [done|]. right. split; [done|by vm_compute].
Qed.

Lemma w_kept_storable_world : storable_world w_kept.
Proof.
  split; [exact w_kept_storable|]. rewrite w_kept_pool. split.
  - intros key s [<- <-]%lookup_singleton_Some. exact w_kept_storable.
  - by rewrite map_size_singleton.
Qed.

Lemma w_kept_full : full (Inodes w_kept).
Proof.
  assert (H : exists t, Inodes w_kept = t) by eauto. destruct H as [t H]. rewrite H.
  vm_compute in H. subst t. by repeat constructor.
Qed.

Lemma sample_takes f : takes (sample_host f).
Proof. split; [by eexists|done]. Qed.

Definition kept_file : list byte :=
  match pickle_verifs2 sample_sha256 (sample_host []) sample_env w_kept with
  | Ok (_, Some f) _ => f
  | _ => []
  end.

(** The file is loaded by a process that has just started, and the loaded file system is
    well formed. *)
Lemma reachable_state_saved_and_loaded_witness :
  exists f, pickle_verifs2 sample_sha256 (sample_host []) sample_env w_kept = Ok (0, Some f) w_kept /\
    verify_state_file sample_sha256 f = 0 /\
    exists w2, load_verifs2 sample_sha256 (sample_host f) sample_env (construct 64 16) = Ok 0 w2 /\
      loads w_kept (construct 64 16) w2 /\ sys_ok 16 w2.
Proof.
  destruct (reachable_state_saved_and_loaded sample_direntry_size sample_sha256 (sample_host [])
    64 16 w_root kept_session w_kept (sample_host []) sample_env sample_sha256_length
    ltac:(done) ltac:(done) w_root_typed ltac:(by repeat constructor) w_kept_steps
    w_kept_storable_world (sample_takes []) (fun _ => eq_refl)) as (f & Hsave & Hload).
  assert (Hlt : zlen f < 2 ^ 64).
  { replace f with kept_file; [by vm_compute|]. unfold kept_file. by rewrite Hsave. }
  exists f. split; [exact Hsave|]. destruct (Hload Hlt) as [Hv Hl]. split; [exact Hv|].
  destruct (Hl (sample_host f) sample_env (construct 64 16) (sample_serves f) (fun _ => eq_refl)
    heap_ok_new) as (w2 & Hrun & Hloads & _ & Hok).
  exists w2. split; [exact Hrun|]. split; [exact Hloads|]. apply Hok.
  - exact w_kept_full.
  - rewrite w_kept_pool. intros key s [<- <-]%lookup_singleton_Some. exact w_kept_full.
Defined.
