(* ===== verification/Findings.v ===== *)
(** * Runs that show surprising behaviour

    Concrete runs of the model on which the program does not do what its comments
    or its interface say. Each is evaluated. *)

From S2P Require Import Prelude World Util Table InodeOps FileOps DirectoryOps Nodes.
From S2P Require Import Handlers CkptRestore Codec Pickle Requests Invariant Runs Specs.
From S2P Require Import Removal Attributes PickleSpec Samples.

Definition last_reply (w : world) : option reply := head (rev (replies w)).

(** A checkpoint shares the values of extended attributes with the live inodes:
    after a restore the attribute has the value that was set after the
    checkpoint. *)
Theorem checkpoint_shares_xattrs :
  last_reply (run w_all [op_ioctl VERIFS_CHECKPOINT 5; op_setxattr 2 "user.a" [x39; x39; x39] 0;
                         op_ioctl VERIFS_RESTORE 5; op_getxattr 2 "user.a" 16])
  = Some (reply_buf [x39; x39; x39]) /\
  last_reply (run w_all [op_getxattr 2 "user.a" 16]) = Some (reply_buf [x31; x32; x33]).
Proof. by vm_compute. Qed.

(** When a longer value moves the block, the checkpoint keeps a pointer to memory that
    was freed: after a restore [getxattr] follows it, and pickling does at once. *)
Definition moving_env : env :=
  mkEnv (Timespec 100 0) (fun _ => true) true true (fun _ => xff) [7; 9] 1000 1000.
Definition w_moved : world :=
  match FuseSetXAttr 2 "user.a" [x39; x39; x39; x39] 0 moving_env
          (run w_all [op_ioctl VERIFS_CHECKPOINT 5]) with
  | Ok _ w => w
  | Crash _ => w_all
  end.
Theorem restored_value_dangles :
  FuseGetXAttr 2 "user.a" 16 moving_env (run w_moved [op_ioctl VERIFS_RESTORE 5])
  = Crash crash_dangling /\
  FuseIoctl sample_sha256 (sample_host []) VERIFS_PICKLE 0 moving_env w_moved = Crash crash_dangling.
Proof. by vm_compute. Qed.

(** Renaming a directory over an empty one takes three links from the latter,
    whose count wraps around, so it is never reclaimed. *)
Theorem rename_over_directory_wraps_links :
  let w := run w_all [op_mkdir 1 "a" 0x1ed; op_mkdir 1 "b" 0x1ed] in
  st_nlink (attr (at_number w 7)) = 2 /\
  st_nlink (attr (at_number (run w [op_rename 1 "a" 1 "b"]) 7)) = 2 ^ 64 - 1.
Proof. by vm_compute. Qed.

(** The parent of a directory that was moved is still the old one by its [..]. *)
Theorem rename_keeps_old_dotdot :
  let w := run w_all [op_mkdir 1 "a" 0x1ed; op_rename 1 "a" 3 "a"] in
  dir_find "a" (children_of w 3) = Some 6 /\ dir_find ".." (children_of w 6) = Some 1.
Proof. by vm_compute. Qed.

(** The device number of a special file is lost. *)
Theorem mknod_loses_device :
  let w := run w_all [op_mknod 1 "tty" (Z.lor 0x1b6 S_IFCHR) 0x401] in
  S_ISCHR (GetMode (at_number w 6)) = true /\
  st_dev (attr (at_number w 6)) = 0 /\ st_rdev (attr (at_number w 6)) = 0.
Proof. by vm_compute. Qed.

(** Directories are created without a check for their blocks: the count of free
    blocks wraps around. *)
Theorem mkdir_wraps_free_blocks :
  match FuseInit 0 0 0 sample_env (construct 3 16) with
  | Ok _ w => f_bfree (m_stbuf w) = 1 /\ f_bfree (m_stbuf (run w [op_mkdir 1 "a" 0x1ed])) = 2 ^ 64 - 1
  | Crash _ => False
  end.
Proof. by vm_compute. Qed.

(** A short write of a state file is reported as success, and the file does not
    verify. *)
Theorem short_write_is_success :
  let h := mkHost (inr (string_bytes "/tmp/state")) (fun _ => None) (fun _ => inr [])
             (fun pos n => if pos <? 1000 then n else n - 1) 28 None in
  match pickle_verifs2 sample_sha256 h sample_env w_all with
  | Ok (res, Some f) _ => res = 0 /\ verify_state_file sample_sha256 f <> 0
  | _ => False
  end.
Proof. by vm_compute. Qed.

(** Loading a state file skips the free slots of the table, so the numbers behind
    one change, while the directories keep the old numbers: the link [s] has
    number 5, and is not found after loading. *)
Theorem load_renumbers_inodes :
  let w := run w_all [op_unlink 3 "g"; op_forget 4 1] in
  last_reply (run w [op_readlink 5]) = Some (reply_readlink "f") /\
  match pickle_verifs2 sample_sha256 (sample_host []) sample_env w with
  | Ok (_, Some f) _ =>
      match load_verifs2 sample_sha256 (sample_host f) sample_env (construct 64 16) with
      | Ok res w' => res = 0 /\ dir_find "s" (children_of w' 1) = Some 5 /\
          last_reply (run w' [op_readlink 5]) = Some (reply_err ENOENT)
      | Crash _ => False
      end
  | _ => False
  end.
Proof. by vm_compute. Qed.

(** A state file with a header and nothing else passes the verification; loading it reads
    behind the end of the file. *)
Theorem load_reads_past_end :
  let f := header_bytes header_size (sample_sha256 []) in
  verify_state_file sample_sha256 f = 0 /\
  load_verifs2 sample_sha256 (sample_host f) sample_env w_all = Crash crash_bounds.
Proof. by vm_compute. Qed.

(** When memory runs out for a value of an extended attribute, [File::Load] goes on
    behind the failed [Inode::Load]: it takes the first bytes of the record for the
    content of the file and does not report the failure, which would be a result of 0. *)
Definition short_env : env :=
  mkEnv (Timespec 100 0) (fun n => negb (n =? 3)) true false (fun _ => xff) [7; 9] 1000 1000.
Theorem load_goes_on_without_memory :
  match Pickle (at_number w_all 2) sample_env w_all with
  | Ok record _ =>
      match File_Load record short_env (construct 64 16) with
      | Ok (res, i) _ =>
          res = 3 /\ zlen record = 221 /\ m_xattr (base i) = [] /\
          take 3 <$> file_buf i = Some (take 3 record)
      | Crash _ => False
      end
  | Crash _ => False
  end.
Proof. by vm_compute. Qed.

(** When an entry does not fit the buffer, the iterator is moved back although it
    was not moved forward: the next [readdir] sends an entry a second time. *)
Definition listed (w : world) : list string :=
  match last_reply w with Some (reply_dirents l) => d_name <$> l | _ => [] end.

Theorem readdir_repeats_entry :
  let first := run w_all [op_readdir 1 64 0] in
  listed first = ["."; ".."]%string /\
  listed (run first [op_readdir 1 64 (Z.shiftl 7 16 + 2)]) = [".."; "f"]%string.
Proof. by vm_compute. Qed.

(** Without space a symbolic link is refused and the request goes on: it gets a
    second reply, the entry of the link it made. *)
Theorem symlink_replies_twice :
  match FuseInit 0 0 0 sample_env (construct 2 16) with
  | Ok _ w =>
      let w' := run w [op_symlink "f" 1 "s"] in
      f_bfree (m_stbuf w) = 0 /\
      replies w' = [reply_err ENOSPC; reply_entry (m_fuseEntryParam (base (at_number w' 2)))] /\
      dir_find "s" (children_of w' 1) = Some 2
  | Crash _ => False
  end.
Proof. by vm_compute. Qed.

(** Renaming a name to itself removes it. *)
Theorem rename_to_itself_removes :
  let w := run w_all [op_rename 1 "f" 1 "f"] in
  dir_find "f" (children_of w_all 1) = Some 2 /\ dir_find "f" (children_of w 1) = None /\
  st_nlink (attr (at_number w 2)) = 0.
Proof. by vm_compute. Qed.

(** [opendir] and [releasedir] only refuse regular files: they succeed on a symbolic link,
    which [readdir] then refuses. *)
Theorem opendir_accepts_symlink :
  exists link, derived (at_number w_all 5) = SymLink link /\
    last_reply (run w_all [op_opendir 5]) = Some reply_open /\
    last_reply (run w_all [op_releasedir 5]) = Some (reply_err 0) /\
    last_reply (run w_all [op_readdir 5 64 0]) = Some (reply_err ENOTDIR).
Proof. eexists. by vm_compute. Qed.

(** [readdir] without memory for its buffer replies [ENOMEM] and goes on: when no entry
    fits, or the entries that are left are gone, it replies a second time, and else it
    hands a null pointer to libfuse. *)
Definition no_memory : env :=
  mkEnv (Timespec 100 0) (fun _ => false) true true (fun _ => xff) [7; 9] 1000 1000.
Theorem readdir_replies_twice :
  let first := run w_all [op_readdir 1 64 0] in
  (match FuseReadDir sample_direntry_size 1 8 (Z.shiftl 7 16 + 2) no_memory first with
   | Ok _ w => replies w = replies first ++ [reply_err ENOMEM; reply_dirents []]
   | Crash _ => False
   end) /\
  FuseReadDir sample_direntry_size 1 64 0 no_memory w_all = Crash crash_null.
Proof. by vm_compute. Qed.

(** The count of the entries that were sent is kept in the 16 bits below the key of the
    context: after 65535 of them the next entry has the cookie of another key, and the
    listing ends there although entries are left. *)
Definition w_long : world :=
  set_readdirStates {[ 7 := mkReadDirCtx (Z.shiftl 7 16 + 65535) 0 (children_of w_all 1) ]} w_all.
Theorem readdir_cookie_overflows :
  let w := run w_long [op_readdir 1 40 (Z.shiftl 7 16 + 65535)] in
  (d_off <$> match last_reply w with Some (reply_dirents l) => l | _ => [] end) = [Z.shiftl 8 16] /\
  cookie_key (Z.shiftl 8 16) = 8 /\
  last_reply (run w [op_readdir 1 4096 (Z.shiftl 8 16)]) = Some (reply_buf []) /\
  length (children_of w_all 1) = 5%nat.
Proof. by vm_compute. Qed.
